(* ===== verification/_CoqProject ===== *)
-Q . S2P
Prelude.v
GoStrings.v
GoFlag.v
GoCrypto.v
Hex.v
Mime.v
GoTime.v
NetAddr.v
GoURL.v
UtilsHttp.v
GoPath.v
Fingerprint.v
DecayMap.v
Types.v
Parameters.v
Dnsbl.v
Awaiter.v
GoNetip.v
GoNet.v
NetipText.v
Cache.v
Radb.v
GoJSON.v
Embed.v
GoJSONValue.v
Wasm.v
Pow.v
Networks.v
NetworkLoad.v
Cookie.v
Register.v
State.v
Key.v
Data.v
Backends.v
ResponsePolicy.v
Mux.v
Pages.v
Helper.v
CookieRuntime.v
HttpRuntime.v
Refresh.v
ResourceLoad.v
PreloadLink.v
DnsblRuntime.v
JsRuntime.v
Runner.v
TestRuntime.v
Effects.v
Action.v
ActionNew.v
Rule.v
Policy.v
Conditions.v
Server.v
Observe.v
JoseDemo.v
Runtimes.v
HelperProps.v
DataProps.v
Safety.v
Decision.v
InOrder.v
Routes.v
Dispatch.v
Tags.v
NewState.v
Bind.v
Main.v
Lifetimes.v
Command.v
Handshake.v
