(* ===== verification/Prelude.v ===== *)
(** * Verification of the go-away abuse-protection proxy

    go-away is a reverse proxy that puts challenges between clients and the sites it
    protects. A policy names networks, conditions, challenges and rules; each request
    runs through the rules, whose actions let it pass to a backend, answer it, or
    require a challenge, and what a client proved is kept in signed tokens within an
    encrypted cookie. This library models the Go code under src/ and proves what makes
    it correct. Definitions keep the names of the code; a Go method [x.M] is [M] or
    [X_M], constants and error variables have their own names.

    ** How the program runs, and where it is modelled

    - [Command] and [Main]: cmd/go-away/main.go. [Command.main] reads the flags ([GoFlag]),
      then the settings, the seed of the signing key and the backends ([setup]), and
      checks or starts: it loads the policy into a state and serves it; SIGHUP loads
      another ([start], [reload], [reachable]). [Lifetimes] has the parts of a reload
      between those of requests. [Bind] has the server around it: lib/settings/bind.go
      (listener, TLS, timeouts, ACME, the handler that is swapped) and [NewServer].
      [TestRuntime] is the tool cmd/test-wasm-runtime.
    - [NewState]: lib/state.go makes the state: keys, template, the replacement of
      named conditions ([Replace]), challenges in the register, rules, routes; [Close].
      The runtimes hold the state that is being built, so [create_challenges] gives them
      one with the register it ends with.
      [Policy] reads lib/policy/policy.go's files and merges snippets, [Networks]
      fetches the address lists (lib/policy/network.go) through the cache ([Cache],
      utils/cache.go) and whois ([Radb], utils/radb.go); [NetworkLoad] has requests that
      load a network at the same time. [Conditions] compiles
      conditions and preloads their networks (lib/conditions.go). [Rule] and
      [ActionNew] construct rules (lib/rule.go) and handlers (lib/action).
    - [Server] and [Routes]: lib/http.go. [serve_request] is a request from the mux to
      its response: client address, request data, [handleRequest] with the rules in
      order, [cleanupRequest], the choice of the backend. [Routes.setupRoutes] builds
      the mux with the routes of every challenge, and [Dispatch] says where it sends a
      request. [Rule.Evaluate] and [Action.Handle] are the decision tree; [InOrder] is
      the policy as one scan in document order, [Decision] what a policy of answering
      rules decides without the machinery. [Observe] has the logger, the context of a
      request and the counters (lib/interface.go, lib/metrics.go). [Pages] has the
      pages, the tags they copy from the site (lib/template.go, utils/tagfetcher.go) and
      their filter; [Tags] follows the tags through the cache.
    - [Backends]: the reverse proxies, what their directors do to a request
      (lib/settings/backend.go, utils/http.go), what httputil.ReverseProxy makes of its
      headers after that ([outgoing]), and utils/unix.go.
    - [Data]: lib/challenge/data.go. [EvaluateChallenges], [verifyChallenge] and
      [VerifyChallengeToken] read tokens, [IssueChallengeToken], [issueChallengeState]
      and [ResponseHeaders] write them; [RequestHeaders] tells the backend about them.
      [Types] has the data, [Key] the key a token is bound to, [Register] the
      registrations and their identifiers, [State] what requests read of the state,
      [Cookie] the cookies, [ResponsePolicy] the writer that makes cached media private.
    - [Helper]: lib/challenge/helper.go, verify URLs and the handler behind them.
      [Awaiter]: requests that wait for another to solve a challenge.
    - [CookieRuntime], [HttpRuntime], [Refresh], [ResourceLoad], [PreloadLink],
      [DnsblRuntime], [JsRuntime]: one file per package of lib/challenge; [Parameters]
      what they share, [Runtimes] the table of them. [Pow] is the proof of work that
      is compiled to WebAssembly, [Wasm] the calls into its memory, [Runner] the
      compiled modules and their instances, [Embed] the files they come from.
    - [Hex], [Mime], [UtilsHttp], [DecayMap], [Dnsbl], [Fingerprint]: the packages
      utils and utils/inline.
    - [GoStrings], [GoFlag], [GoCrypto], [GoTime], [NetAddr], [GoNetip], [GoNet], [GoURL],
      [GoPath], [GoJSON], [GoJSONValue], [Mux]: what the program uses of Go's standard
      library, as executable definitions.

    ** How code is modelled

    Strings and byte slices are Coq strings, of bytes. Maps are [gmap]s, or [option]s of
    them where a nil map is told from an empty one; where Go iterates over a map, the
    order is [map_to_list]'s or a parameter, and a theorem says that the result does
    not depend on it. A function that returns an error gives [result]; a panic is
    [None], or [Panic] in request handling. Code that reads or writes the request, its
    response, the request data, the clock, the random source, or calls a backend is in
    the monad [M] of [Types] over a [World]; the observable part is its response and
    its list of events. Concurrent code (decay map, awaiter, runner, the loading of
    networks, reloads) is a step relation over the atomic operations of any number of
    threads. Machine integers keep their width
    where it matters: difficulties and pointers ([Pow], [Wasm]), the bit masks of
    [Mime], 16-bit TLS numbers ([Fingerprint]), Unix seconds.

    ** What is proved

    - Access: behind an unconditional challenge rule a request gets to a backend only
      with a proof of its own ([Routes.challenge_gate]), and behind answering rules only if the
      first ones that match admit it ([Routes.access_control]); any rules are evaluated in the
      order of the policy ([InOrder.handleRequest_in_order]), answering ones as a first-match
      decision ([Decision.handleRequest_decides]), for every spelling of a path
      ([Dispatch.routing]); a proof counts only if it is authentic,
      in time and for the key of this request ([DataProps.EvaluateChallenges_sound],
      [Key.Key_binding]), and is only recorded for a token that was accepted
      ([HelperProps.verify_handler_sound], [HelperProps.key_verify_spec],
      [Pow.VerifyChallenge_spec]). Every state the program builds and serves, over any
      reloads, meets what these theorems need ([NewState.NewState_wf],
      [Runtimes.built_invariant], [Main.reload_safe]), under every interleaving of
      requests and reloads ([Lifetimes.requests_and_reloads]).
    - Progress: a client that does what it is told passes ([Handshake.handshake],
      [DataProps.proof_roundtrip], [HelperProps.VerifyUrl_roundtrip],
      [Pow.script_proof_accepted]); waiters with keys of their own wake
      ([Awaiter.Await_wakes], [Awaiter.Await_sound]); handlers are constructed for any
      nesting of settings ([ActionNew.Register_terminates]).
    - What leaves the proxy: at most one backend, without the proxy's own cookies and
      arguments ([Routes.serve_request_once]), told the true client address
      ([Backends.director_client_ip]); media private ([ResponsePolicy]); logs and pages
      without secrets and scripts ([State.publicRawQuery_redacts],
      [Tags.tags_invariant], [Refresh.refresh_script_safe]).
    - Concurrency: the decay map is an abstract map with time
      ([DecayMap.DecayMap_refines]), calls of a module do not share instances
      ([Runner.concurrent_calls]), each is a call of its callback ([Wasm.module_calls]), a
      network is loaded once ([NetworkLoad.loaded_once]).
    - Configuration: the command line ([Command.flags_read], [GoFlag.Parse_grammar]), the
      dry run ([Command.check_agrees]), merging of snippets ([Policy.NewPolicy_merge]), expansion of
      conditions ([NewState.conditions_order]), networks in conditions
      ([Conditions.network_condition], [Conditions.RegisterCondition_preloads]), which
      come back from the cache as they were fetched ([Networks.cache_roundtrip]; [NetipText]
      has the round trip of the texts).
    - Parts against reference definitions: fingerprints ([Fingerprint.ja3_buffer_text],
      [Fingerprint.fingerprint_stable]), hexadecimal, header keys, raw queries, DNSBL
      names, packed allocations, the decay map under interleaving, JSON lists.
    - Where the code does not do what it should, theorems and examples show the
      behaviour as it is: [Main.reload_key] (after a reload the signing key is a known
      one), [Networks.partial_write_empties], [Backends.director_forwards_claims],
      [HelperProps.verify_redirect_injection], [Awaiter.Await_shared_key],
      [Pow.difficulty_wraps], [Pages.meta_keep_swapped], [NewState.bad_name_panics],
      [Lifetimes.closed_in_flight], [Backends.named_headers_dropped] and others.

    ** Parameters and their laws

    Third-party packages and the world are arguments: [Jose] (tokens and the encrypted
    cookie; [JoseLaws] says that a cookie is opened with the key it was sealed with,
    [JoseDemo] is an instance), [Ed25519], [Cidranger], [CelLibs], [ActionLibs] and the
    [Outside] of [Runtimes] (YAML, HTTP client, resolver, wazero), [NetLibs],
    [PolicyLibs], [BuildEnv], [LoadEnv], [OS], [MessageJSON] ([MessageLaws] says that a text
    decodes to the message with its strings made valid UTF-8), [Wazero]. Theorems that rely on a
    law have a witness with a concrete instance.

    ** Fuel

    Loops that consume a string take its length (plus one) as fuel and use up a byte at
    each step, so that they end before the fuel does: [raw_loop_fold] states it for
    queries, [parse_json_fuel] for JSON, [trim_left_spec] for trimming. [Register_] and
    what is built on it take the depth of nested action settings:
    [Register_terminates] shows that fuel above the depth changes nothing.

    ** Not modelled

    The output of the logger and the prometheus registry; the text of html templates (a
    template is a function of its input); wazero; sockets, listeners, HTTP transports,
    proxy connections and the ACME protocol, beyond the configuration they are given;
    signal delivery; what happens during a request to a backend, with the error handler
    that NewState sets for it. In the patterns of
    [Mux], wildcard names beyond ASCII. The server's handling of one request is
    sequential in the model: of what requests share, the tag cache, the awaiters,
    instances of modules and networks have models of their own. *)

From stdpp Require Export base gmap sets list strings sorting.
From Stdlib Require Export ZArith NArith Ascii Lia.
From stdpp Require Import options.

#[global] Unset Default Proof Using.
Set Default Goal Selector "1".

(** * Go error values

    [ENamed x] is a package level sentinel ([var ErrX = errors.New(..)]), told
    apart by its variable; [ENew msg] is an anonymous [errors.New] or
    [fmt.Errorf] without [%w]; [EWrap msg e] is [fmt.Errorf("msg%w", e)]. *)
Inductive goerr :=
  | ENamed (x : string)
  | ENew (msg : string)
  | EWrap (msg : string) (inner : goerr).

#[export] Instance goerr_eq_dec : EqDecision goerr.
Proof. solve_decision. Defined.

(** [errors.Is]: the target is met along the chain of wrapped errors. *)
Fixpoint errorsIs (e target : goerr) : bool :=
  bool_decide (e = target) ||
  match e with EWrap _ inner => errorsIs inner target | _ => false end.

(** [err.Error()]: a sentinel is named by its message. *)
Fixpoint Error (e : goerr) : string :=
  match e with
  | ENamed x => x
  | ENew msg => msg
  | EWrap msg inner => msg +:+ Error inner
  end.

(** Results of Go functions returning [(T, error)] when the value is only
    meaningful without an error. *)
Inductive result (A : Type) :=
  | Ok (a : A)
  | Err (e : goerr).
Arguments Ok {_} _.
Arguments Err {_} _.

#[export] Instance result_eq_dec {A} `{EqDecision A} : EqDecision (result A).
Proof. solve_decision. Defined.

Definition result_bind {A B} (r : result A) (f : A → result B) : result B :=
  match r with Ok a => f a | Err e => Err e end.

Definition is_ok {A} (r : result A) : bool :=
  match r with Ok _ => true | Err _ => false end.

Declare Scope go_scope.
Delimit Scope go_scope with go.
Notation "x <-? c ; k" := (result_bind c (fun x => k))
  (at level 20, c at level 100, k at level 200, right associativity) : go_scope.

(** The same in code that may panic, for which [None] stands. *)
Definition result_or {A B} (r : result A) (f : A → option (result B)) : option (result B) :=
  match r with Ok a => f a | Err e => Some (Err e) end.
Notation "x <-?? c ; k" := (result_or c (fun x => k))
  (at level 20, c at level 100, k at level 200, right associativity) : go_scope.

(** * Automation *)

Create HintDb go discriminated.

(** Case analysis on every [match] and [if] of the goal, keeping equations. *)
Ltac go_cases :=
  repeat (case_match; simplify_eq/=).

(** Turn boolean tests into propositions and close by arithmetic. *)
Ltac go_bool :=
  repeat match goal with
  | H : andb _ _ = true |- _ => apply andb_true_iff in H as [? ?]
  | H : orb _ _ = false |- _ => apply orb_false_iff in H as [? ?]
  | H : negb _ = true |- _ => apply negb_true_iff in H
  | H : negb _ = false |- _ => apply negb_false_iff in H
  | H : bool_decide _ = true |- _ => apply bool_decide_eq_true in H
  | H : bool_decide _ = false |- _ => apply bool_decide_eq_false in H
  end.

(** * Bytes

    A Go [byte] is an [ascii] (eight booleans, least significant first) and a
    Go [string] or [[]byte] is a [string]: any sequence of bytes. *)
Definition byte_val (c : ascii) : N := N_of_ascii c.
(** Conversion to [uint8]: the low eight bits. *)
Definition byte_of (n : N) : ascii := ascii_of_N (n mod 256).

Lemma byte_val_bound c : (byte_val c < 256)%N.
Proof. destruct c as [[] [] [] [] [] [] [] []]; vm_compute; reflexivity. Qed.

Lemma byte_of_val c : byte_of (byte_val c) = c.
Proof.
  unfold byte_of. rewrite N.mod_small by apply byte_val_bound.
  apply ascii_N_embedding.
Qed.

Lemma byte_val_of n : byte_val (byte_of n) = (n mod 256)%N.
Proof.
  unfold byte_val, byte_of. apply N_ascii_embedding.
  by apply N.mod_upper_bound.
Qed.

Lemma byte_val_inj c d : byte_val c = byte_val d → c = d.
Proof. intros H. by rewrite <-(byte_of_val c), H, byte_of_val. Qed.

(** Every byte, for properties decided by running through all 256 of them. *)
Definition all_bytes : list ascii := byte_of <$> (N.of_nat <$> seq 0 256).

Lemma all_bytes_complete c : c ∈ all_bytes.
Proof.
  rewrite <-(byte_of_val c). unfold all_bytes. rewrite <-list_fmap_compose.
  apply list_elem_of_fmap. exists (N.to_nat (byte_val c)). split.
  - simpl. by rewrite N2Nat.id.
  - apply elem_of_seq. pose proof (byte_val_bound c). lia.
Qed.

Lemma forall_byte (P : ascii → Prop) `{∀ c, Decision (P c)} :
  forallb (λ c, bool_decide (P c)) all_bytes = true → ∀ c, P c.
Proof.
  intros Hall c. rewrite forallb_forall in Hall.
  eapply bool_decide_eq_true_1, Hall, list_elem_of_In, all_bytes_complete.
Qed.

Lemma forall_byte2 (P : ascii → ascii → Prop) `{∀ c d, Decision (P c d)} :
  forallb (λ c, forallb (λ d, bool_decide (P c d)) all_bytes) all_bytes = true →
  ∀ c d, P c d.
Proof.
  intros Hall c d. rewrite forallb_forall in Hall.
  specialize (Hall c (proj1 (list_elem_of_In _ _) (all_bytes_complete c))).
  rewrite forallb_forall in Hall.
  eapply bool_decide_eq_true_1, Hall, list_elem_of_In, all_bytes_complete.
Qed.

(** Prove a decidable fact about one or two bytes by evaluating it on all of them. *)
Ltac by_all_bytes :=
  match goal with
  | |- ∀ c d : ascii, @?P c d => apply (forall_byte2 P); vm_compute; reflexivity
  | |- ∀ c : ascii, @?P c => apply (forall_byte P); vm_compute; reflexivity
  end.

(** * Strings *)

Lemma string_app_nil_l s : "" +:+ s = s.
Proof. reflexivity. Qed.

Lemma string_app_cons c s t : String c s +:+ t = String c (s +:+ t).
Proof. reflexivity. Qed.

Lemma string_app_nil_r s : s +:+ "" = s.
Proof. induction s as [|c s IH]; [done|]. by rewrite string_app_cons, IH. Qed.

Lemma string_app_assoc s t u : s +:+ (t +:+ u) = (s +:+ t) +:+ u.
Proof. induction s as [|c s IH]; [done|]. by rewrite !string_app_cons, IH. Qed.

Lemma string_app_inj_l s t u : s +:+ t = s +:+ u → t = u.
Proof. induction s as [|c s IH]; [done|]. rewrite !string_app_cons. naive_solver. Qed.

Lemma string_length_app s t :
  String.length (s +:+ t) = String.length s + String.length t.
Proof. induction s as [|c s IH]; [done|]. rewrite string_app_cons. simpl. by rewrite IH. Qed.

Lemma string_app_inj s s' t t' :
  String.length s = String.length s' → s +:+ t = s' +:+ t' → s = s' ∧ t = t'.
Proof.
  revert s'. induction s as [|c s IH]; intros [|c' s'] Hl; simpl in Hl; try done.
  rewrite !string_app_cons. intros Heq. simplify_eq.
  destruct (IH s') as [-> ->]; auto with lia.
Qed.

(** The bytes of a string as a list, and back. *)
Definition bytes (s : string) : list ascii := String.list_ascii_of_string s.
Definition of_bytes (l : list ascii) : string := String.string_of_list_ascii l.

Lemma of_bytes_bytes s : of_bytes (bytes s) = s.
Proof. apply String.string_of_list_ascii_of_string. Qed.

Lemma bytes_of_bytes l : bytes (of_bytes l) = l.
Proof. apply String.list_ascii_of_string_of_list_ascii. Qed.

Lemma bytes_app s t : bytes (s +:+ t) = bytes s ++ bytes t.
Proof. induction s as [|c s IH]; [done|]. rewrite string_app_cons. simpl. by f_equal. Qed.

Lemma of_bytes_app l k : of_bytes (l ++ k) = of_bytes l +:+ of_bytes k.
Proof. induction l as [|c l IH]; [done|]. simpl. by rewrite IH. Qed.

Lemma length_bytes s : length (bytes s) = String.length s.
Proof. induction s as [|c s IH]; simpl; [done|by f_equal]. Qed.

Lemma length_of_bytes l : String.length (of_bytes l) = length l.
Proof. induction l as [|c l IH]; simpl; [done|by f_equal]. Qed.

Lemma bytes_inj s t : bytes s = bytes t → s = t.
Proof. intros H. by rewrite <-(of_bytes_bytes s), H, of_bytes_bytes. Qed.

#[export] Hint Rewrite string_app_nil_l string_app_nil_r bytes_app of_bytes_app
  length_bytes length_of_bytes of_bytes_bytes bytes_of_bytes string_length_app
  byte_of_val : go.

(** Does some byte of [s] satisfy [P]? *)
Fixpoint string_existsb (P : ascii → bool) (s : string) : bool :=
  match s with EmptyString => false | String c s => P c || string_existsb P s end.

Definition string_forallb (P : ascii → bool) (s : string) : bool :=
  negb (string_existsb (λ c, negb (P c)) s).

Lemma string_existsb_app P s t :
  string_existsb P (s +:+ t) = string_existsb P s || string_existsb P t.
Proof.
  induction s as [|c s IH]; [done|]. rewrite string_app_cons. simpl.
  by rewrite IH, orb_assoc.
Qed.

Lemma string_forallb_cons P c s :
  string_forallb P (String c s) = P c && string_forallb P s.
Proof. unfold string_forallb. simpl. by rewrite negb_orb, negb_involutive. Qed.

(** * Texts for encodings

    Any countable type has a text form, for concrete encoders. *)

Fixpoint pos_string (p : positive) : string :=
  match p with
  | xH => ""
  | xO p => String "0" (pos_string p)
  | xI p => String "1" (pos_string p)
  end.

Fixpoint string_pos (s : string) : positive :=
  match s with
  | EmptyString => xH
  | String c s => if bool_decide (c = "0"%char) then xO (string_pos s) else xI (string_pos s)
  end.

Lemma string_pos_pos p : string_pos (pos_string p) = p.
Proof. induction p as [p IH|p IH|]; simpl; by rewrite ?IH. Qed.

Definition encode_text {A} `{Countable A} (x : A) : string := pos_string (encode x).
Definition decode_text {A} `{Countable A} (s : string) : option A := decode (string_pos s).

Lemma decode_encode_text {A} `{Countable A} (x : A) : decode_text (encode_text x) = Some x.
Proof. unfold decode_text, encode_text. by rewrite string_pos_pos, decode_encode. Qed.
