(* ===== verification/GoStrings.v ===== *)
(** Go's [strings] and [strconv] functions, as far as the program uses them.

    Separators are single bytes everywhere in the program, so [Cut], [Split]
    and [Contains] take a byte. [EqualFold], [ToLower], [ToUpper] and
    [TrimSpace] are Unicode aware in Go: their models read the UTF-8 encodings
    that matter for a comparison with an ASCII constant, which is the only use
    the program makes of the result. *)

From S2P Require Import Prelude.
From stdpp Require Import pretty.
From stdpp Require Import options.

Definition HasPrefix (s prefix : string) : bool := String.prefix prefix s.

(** [Cut s sep]: the text before and after the first [sep], and whether it was found. *)
Fixpoint Cut (s : string) (sep : ascii) : string * string * bool :=
  match s with
  | EmptyString => ("", "", false)
  | String c s' =>
      if decide (c = sep) then ("", s', true)
      else let '(before, after, found) := Cut s' sep in (String c before, after, found)
  end.

Definition ContainsByte (s : string) (c : ascii) : bool :=
  string_existsb (λ x, bool_decide (x = c)) s.

(** [Split s sep]: never empty; [Split ""] is [[""]]. *)
Fixpoint Split (s : string) (sep : ascii) : list string :=
  match s with
  | EmptyString => [""]
  | String c s' =>
      if decide (c = sep) then "" :: Split s' sep
      else match Split s' sep with
           | [] => [String c ""]
           | x :: xs => String c x :: xs
           end
  end.

Fixpoint Join (l : list string) (sep : string) : string :=
  match l with
  | [] => ""
  | [x] => x
  | x :: xs => x +:+ sep +:+ Join xs sep
  end.

(** [s[n:]] and [s[:n]], for [n] within the length. *)
Definition substring_from (n : nat) (s : string) : string := of_bytes (drop n (bytes s)).
Definition substring_to (n : nat) (s : string) : string := of_bytes (take n (bytes s)).

(** ** Case mapping *)

Definition in_range (lo hi c : ascii) : bool :=
  (byte_val lo <=? byte_val c)%N && (byte_val c <=? byte_val hi)%N.

Definition lower_byte (c : ascii) : ascii :=
  if in_range "A" "Z" c then byte_of (byte_val c + 32) else c.
Definition upper_byte (c : ascii) : ascii :=
  if in_range "a" "z" c then byte_of (byte_val c - 32) else c.

(** UTF-8 bytes of the non-ASCII runes that case mapping or simple folding
    sends to ASCII: KELVIN SIGN U+212A, LATIN SMALL LETTER LONG S U+017F, LATIN
    CAPITAL I WITH DOT ABOVE U+0130 and LATIN SMALL DOTLESS I U+0131. *)
Definition kelvin_sign : string := of_bytes [byte_of 0xE2; byte_of 0x84; byte_of 0xAA].
Definition long_s : string := of_bytes [byte_of 0xC5; byte_of 0xBF].
Definition dotted_I : string := of_bytes [byte_of 0xC4; byte_of 0xB0].
Definition dotless_i : string := of_bytes [byte_of 0xC4; byte_of 0xB1].

(** [strip_prefix p s]: what follows [p] when [s] starts with it. *)
Fixpoint strip_prefix (p s : string) : option string :=
  match p, s with
  | EmptyString, _ => Some s
  | String a p', String b s' => if decide (a = b) then strip_prefix p' s' else None
  | _, _ => None
  end.

(** One step of a byte-wise mapping in which the encodings listed in [tbl] are
    replaced by an ASCII byte. *)
Fixpoint map_runes (fuel : nat) (tbl : list (string * ascii)) (f : ascii → ascii)
    (s : string) : string :=
  match fuel, s with
  | 0, _ | _, EmptyString => ""
  | S fuel, String c s' =>
      match list_find (λ e : string * ascii, is_Some (strip_prefix e.1 s)) tbl with
      | Some (_, (p, a)) =>
          String a (map_runes fuel tbl f (default "" (strip_prefix p s)))
      | None => String (f c) (map_runes fuel tbl f s')
      end
  end.

Definition ToLower (s : string) : string :=
  map_runes (String.length s) [(kelvin_sign, "k"%char); (dotted_I, "i"%char)] lower_byte s.
Definition ToUpper (s : string) : string :=
  map_runes (String.length s) [(long_s, "S"%char); (dotless_i, "I"%char)] upper_byte s.

(** [EqualFold s t] for an ASCII [t]: besides the two cases of a letter, [k]
    folds with KELVIN SIGN and [s] with LONG S. *)
Fixpoint EqualFold (s t : string) : bool :=
  match t with
  | EmptyString => bool_decide (s = "")
  | String d t' =>
      match s with
      | EmptyString => false
      | String c s' =>
          (bool_decide (lower_byte c = lower_byte d) && EqualFold s' t')
          || (bool_decide (lower_byte d = "k"%char) &&
              match strip_prefix kelvin_sign s with Some r => EqualFold r t' | None => false end)
          || (bool_decide (lower_byte d = "s"%char) &&
              match strip_prefix long_s s with Some r => EqualFold r t' | None => false end)
      end
  end.

(** ** White space *)

(** UTF-8 encodings of the runes of [unicode.IsSpace]. *)
Definition space_encodings : list string :=
  (of_bytes ∘ fmap byte_of) <$>
  [[0x09]; [0x0A]; [0x0B]; [0x0C]; [0x0D]; [0x20]; [0xC2; 0x85]; [0xC2; 0xA0];
   [0xE1; 0x9A; 0x80];
   [0xE2; 0x80; 0x80]; [0xE2; 0x80; 0x81]; [0xE2; 0x80; 0x82]; [0xE2; 0x80; 0x83];
   [0xE2; 0x80; 0x84]; [0xE2; 0x80; 0x85]; [0xE2; 0x80; 0x86]; [0xE2; 0x80; 0x87];
   [0xE2; 0x80; 0x88]; [0xE2; 0x80; 0x89]; [0xE2; 0x80; 0x8A];
   [0xE2; 0x80; 0xA8]; [0xE2; 0x80; 0xA9]; [0xE2; 0x80; 0xAF]; [0xE2; 0x81; 0x9F];
   [0xE3; 0x80; 0x80]]%N.

Definition rev_string (s : string) : string := of_bytes (reverse (bytes s)).
Definition HasSuffix (s suffix : string) : bool := HasPrefix (rev_string s) (rev_string suffix).

(** Remove leading elements of [encs], as often as they occur. *)
Fixpoint trim_left (fuel : nat) (encs : list string) (s : string) : string :=
  match fuel with
  | 0 => s
  | S fuel =>
      match list_find (λ p, is_Some (strip_prefix p s)) encs with
      | Some (_, p) => trim_left fuel encs (default "" (strip_prefix p s))
      | None => s
      end
  end.

(** The encodings of [space_encodings] are valid UTF-8 and no proper suffix of
    one starts a rune, so trimming from the right is trimming the reversed text
    by the reversed encodings. *)
Definition TrimSpace (s : string) : string :=
  let l := trim_left (String.length s) space_encodings s in
  rev_string (trim_left (String.length l) (rev_string <$> space_encodings) (rev_string l)).

(** ** Numbers *)

(** [strconv.FormatUint n 10] and [strconv.AppendUint _ n 10]. *)
Definition FormatUint (n : N) : string := pretty n.
Definition FormatInt (z : Z) : string := pretty z.

Definition digit_val (c : ascii) : option N :=
  if in_range "0" "9" c then Some (byte_val c - 48)%N else None.

(** [strconv.ParseUint s 10 64]. The digits are read most significant first; a
    value over 2^64-1 is a range error, which ends the scan. *)
Fixpoint parse_digits (s : string) (acc : N) : result N :=
  match s with
  | EmptyString => Ok acc
  | String c s' =>
      match digit_val c with
      | None => Err (ENamed "strconv.ErrSyntax")
      | Some d =>
          let n := (acc * 10 + d)%N in
          if (n <? 2 ^ 64)%N then parse_digits s' n
          else Err (ENamed "strconv.ErrRange")
      end
  end.

Definition ParseUint (s : string) : result N :=
  match s with
  | EmptyString => Err (ENamed "strconv.ErrSyntax")
  | _ => parse_digits s 0
  end.

(** * Lemmas *)

Lemma HasPrefix_spec s p : HasPrefix s p = true ↔ ∃ r, s = p +:+ r.
Proof.
  unfold HasPrefix. revert s. induction p as [|a p IH]; intros s; simpl.
  - split; [|by destruct s]. intros _. by exists s.
  - destruct s as [|b s]; simpl.
    + split; [done|]. intros [r Hr]. by rewrite string_app_cons in Hr.
    + destruct (ascii_dec a b) as [->|Hne].
      * rewrite IH. split; intros [r Hr]; exists r; rewrite string_app_cons in *;
          by simplify_eq.
      * split; [done|]. intros [r Hr]. rewrite string_app_cons in Hr. by simplify_eq.
Qed.

Lemma HasPrefix_app p s : HasPrefix (p +:+ s) p = true.
Proof. apply HasPrefix_spec. by exists s. Qed.

Lemma ContainsByte_app s t c :
  ContainsByte (s +:+ t) c = ContainsByte s c || ContainsByte t c.
Proof. apply string_existsb_app. Qed.

Lemma ContainsByte_cons d s c :
  ContainsByte (String d s) c = bool_decide (d = c) || ContainsByte s c.
Proof. reflexivity. Qed.

(** A byte absent from [s] lets [Cut] run to the separator that follows. *)
Lemma Cut_app s sep t :
  ContainsByte s sep = false → Cut (s +:+ String sep t) sep = (s, t, true).
Proof.
  induction s as [|c s IH].
  - intros _. rewrite string_app_nil_l. simpl. by rewrite decide_True.
  - rewrite ContainsByte_cons, string_app_cons, orb_false_iff. intros [Hc Hs].
    go_bool. simpl. rewrite decide_False by done. by rewrite IH.
Qed.

Lemma Cut_absent s sep : ContainsByte s sep = false → Cut s sep = (s, "", false).
Proof.
  induction s as [|c s IH]; [done|].
  rewrite ContainsByte_cons, orb_false_iff. intros [Hc Hs]. go_bool.
  simpl. rewrite decide_False by done. by rewrite IH.
Qed.

Lemma Cut_found s sep b a f :
  Cut s sep = (b, a, f) →
  ContainsByte b sep = false ∧ s = if f then b +:+ String sep a else b.
Proof.
  revert b a f. induction s as [|c s IH]; intros b a f; simpl.
  - by intros [= <- <- <-].
  - case_decide as Hc.
    + by intros [= <- <- <-]; subst.
    + destruct (Cut s sep) as [[b' a'] f'] eqn:Hcut. intros [= <- <- <-].
      destruct (IH b' a' f') as [Hb ->]; [done|].
      rewrite ContainsByte_cons, Hb, bool_decide_eq_false_2 by done.
      split; [done|]. destruct f'; by rewrite ?string_app_cons.
Qed.

Lemma Cut_not_found s sep b a : Cut s sep = (b, a, false) → a = "".
Proof.
  revert b a. induction s as [|c s IH]; intros b a; simpl; [by intros [= <- <-]|].
  case_decide; [done|]. destruct (Cut s sep) as [[b' a'] f'] eqn:Hcut.
  intros [= <- <- ->]. by eapply IH.
Qed.

Lemma Cut_length s sep b a f :
  Cut s sep = (b, a, f) → s ≠ "" → String.length a < String.length s.
Proof.
  intros Hcut Hs. destruct f.
  - apply Cut_found in Hcut as [_ ->]. rewrite string_length_app. simpl. lia.
  - apply Cut_not_found in Hcut as ->. destruct s; simpl; [done|lia].
Qed.

Lemma Split_not_nil s sep : Split s sep ≠ [].
Proof. destruct s as [|c s]; simpl; [done|]. case_decide; [done|]. by destruct (Split s sep). Qed.

Lemma Split_absent s sep : ContainsByte s sep = false → Split s sep = [s].
Proof.
  induction s as [|c s IH]; [done|].
  rewrite ContainsByte_cons, orb_false_iff. intros [Hc Hs]. go_bool.
  simpl. by rewrite decide_False, IH.
Qed.

Lemma Split_app s sep t :
  ContainsByte s sep = false → Split (s +:+ String sep t) sep = s :: Split t sep.
Proof.
  induction s as [|c s IH].
  - intros _. simpl. by rewrite decide_True.
  - rewrite ContainsByte_cons, string_app_cons, orb_false_iff. intros [Hc Hs].
    go_bool. simpl. rewrite decide_False by done. by rewrite IH.
Qed.

(** Splitting what was joined gives the parts back, when none holds the separator. *)
Lemma Split_Join l sep :
  l ≠ [] → Forall (λ x, ContainsByte x sep = false) l →
  Split (Join l (String sep "")) sep = l.
Proof.
  intros Hl Hall. induction Hall as [|x xs Hx Hxs IH]; [done|].
  destruct xs as [|y ys]; [by apply Split_absent|].
  change (Join (x :: y :: ys) (String sep "")) with
    (x +:+ String sep "" +:+ Join (y :: ys) (String sep "")).
  rewrite string_app_cons, string_app_nil_l, Split_app by done. by rewrite IH.
Qed.

Lemma lower_byte_idemp : ∀ c, lower_byte (lower_byte c) = lower_byte c.
Proof. by_all_bytes. Qed.

Lemma strip_prefix_app p s : strip_prefix p (p +:+ s) = Some s.
Proof. induction p as [|a p IH]; [done|]. rewrite string_app_cons. simpl. by rewrite decide_True. Qed.

Lemma strip_prefix_Some p s r : strip_prefix p s = Some r → s = p +:+ r.
Proof.
  revert s. induction p as [|a p IH]; intros s; simpl; [by intros [= ->]|].
  destruct s as [|b s]; [done|]. case_decide; [subst|done].
  intros ->%IH. by rewrite string_app_cons.
Qed.

(** [EqualFold] holds of a string and itself, for ASCII text. *)
Lemma EqualFold_refl s : EqualFold s s = true.
Proof. induction s as [|c s IH]; [done|]. simpl. by rewrite bool_decide_eq_true_2, IH. Qed.

Lemma FormatUint_inj n m : FormatUint n = FormatUint m → n = m.
Proof. apply (inj pretty). Qed.

#[export] Hint Resolve HasPrefix_app EqualFold_refl : go.

(** ** Trimming *)

(** No element of [encs] starts [s]. *)
Definition no_prefix (encs : list string) (s : string) : Prop :=
  Forall (λ p, strip_prefix p s = None) encs.

Lemma strip_prefix_extend p s t r : strip_prefix p s = Some r → strip_prefix p (s +:+ t) = Some (r +:+ t).
Proof. intros ->%strip_prefix_Some. by rewrite <-string_app_assoc, strip_prefix_app. Qed.

Lemma no_prefix_front encs s t : no_prefix encs (s +:+ t) → no_prefix encs s.
Proof.
  unfold no_prefix. intros Hst. eapply Forall_impl; [exact Hst|]. intros p Hp.
  destruct (strip_prefix p s) as [r|] eqn:Hs; [|done].
  cbv beta in Hp. apply (strip_prefix_extend _ _ t) in Hs. congruence.
Qed.

Lemma trim_left_done fuel encs s : no_prefix encs s → trim_left fuel encs s = s.
Proof.
  intros Hn. destruct fuel; simpl; [done|].
  destruct (list_find _ _) as [[i p]|] eqn:Hf; [|done].
  apply list_find_Some in Hf as (Hp & Hs & _). unfold no_prefix in Hn. rewrite Forall_lookup in Hn.
  apply Hn in Hp. rewrite Hp in Hs. by destruct Hs.
Qed.

(** Enough fuel trims everything; what was trimmed is in front. *)
Lemma trim_left_spec fuel encs s :
  Forall (λ p, p ≠ "") encs → String.length s ≤ fuel →
  no_prefix encs (trim_left fuel encs s) ∧ ∃ t, s = t +:+ trim_left fuel encs s.
Proof.
  intros Hne. revert s. induction fuel as [|fuel IH]; intros s Hs; simpl.
  - destruct s; simpl in Hs; [|lia]. split; [|by exists ""].
    eapply Forall_impl; [exact Hne|]. intros p Hp. destruct p; simpl; [done|done].
  - destruct (list_find _ _) as [[i p]|] eqn:Hf.
    + apply list_find_Some in Hf as (Hp & [r Hr] & _). rewrite Hr. simpl.
      apply strip_prefix_Some in Hr as ->. rewrite Forall_lookup in Hne. apply Hne in Hp.
      rewrite string_length_app in Hs. destruct p as [|c p]; [done|]. simpl in Hs.
      destruct (IH r) as [? [t Ht]]; [lia|]. split; [done|]. exists (String c p +:+ t).
      by rewrite <-string_app_assoc, <-Ht.
    + split; [|by exists ""]. apply Forall_forall. intros p Hp.
      apply list_find_None in Hf. rewrite Forall_forall in Hf. specialize (Hf p Hp).
      destruct (strip_prefix p s); [|done]. exfalso. apply Hf. by eexists.
Qed.

Lemma rev_string_app s t : rev_string (s +:+ t) = rev_string t +:+ rev_string s.
Proof. unfold rev_string. by rewrite bytes_app, reverse_app, of_bytes_app. Qed.

Lemma rev_string_involutive s : rev_string (rev_string s) = s.
Proof. unfold rev_string. by rewrite bytes_of_bytes, reverse_involutive, of_bytes_bytes. Qed.

Lemma rev_string_length s : String.length (rev_string s) = String.length s.
Proof. unfold rev_string. by rewrite length_of_bytes, length_reverse, length_bytes. Qed.

Lemma space_encodings_ne : Forall (λ p, p ≠ "") space_encodings.
Proof. apply (bool_decide_eq_true_1 _). vm_compute. reflexivity. Qed.
Lemma rev_encodings_ne : Forall (λ p, p ≠ "") (rev_string <$> space_encodings).
Proof. apply (bool_decide_eq_true_1 _). vm_compute. reflexivity. Qed.

(** A trimmed text starts and ends with no white space and is a part of the text. *)
Lemma TrimSpace_spec s :
  no_prefix space_encodings (TrimSpace s) ∧
  no_prefix (rev_string <$> space_encodings) (rev_string (TrimSpace s)) ∧
  ∃ a b, s = a +:+ TrimSpace s +:+ b.
Proof.
  unfold TrimSpace. set (l := trim_left (String.length s) space_encodings s).
  destruct (trim_left_spec (String.length s) space_encodings s space_encodings_ne) as [Hl [a Ha]]; [done|].
  fold l in Hl, Ha.
  destruct (trim_left_spec (String.length l) (rev_string <$> space_encodings) (rev_string l)
    rev_encodings_ne) as [Hr [b Hb]]; [by rewrite rev_string_length|].
  set (r := trim_left _ _ (rev_string l)) in *.
  apply (f_equal rev_string) in Hb. rewrite rev_string_involutive, rev_string_app in Hb.
  split; [|split].
  - rewrite Hb in Hl. by eapply no_prefix_front.
  - by rewrite rev_string_involutive.
  - exists a, (rev_string b). by rewrite Ha, Hb at 1.
Qed.

Lemma TrimSpace_done s :
  no_prefix space_encodings s → no_prefix (rev_string <$> space_encodings) (rev_string s) →
  TrimSpace s = s.
Proof.
  intros Hl Hr. unfold TrimSpace. rewrite (trim_left_done _ _ _ Hl).
  by rewrite (trim_left_done _ _ _ Hr), rev_string_involutive.
Qed.

Lemma TrimSpace_idemp s : TrimSpace (TrimSpace s) = TrimSpace s.
Proof. destruct (TrimSpace_spec s) as (? & ? & _). by apply TrimSpace_done. Qed.

Lemma TrimSpace_space s : TrimSpace (" " +:+ TrimSpace s) = TrimSpace s.
Proof.
  destruct (TrimSpace_spec s) as (Hl & Hr & _). revert Hl Hr. generalize (TrimSpace s). clear s.
  intros s Hl Hr. unfold TrimSpace. rewrite string_app_cons, string_app_nil_l.
  assert (trim_left (String.length (String " " s)) space_encodings (String " " s) = s) as ->.
  { cbn [String.length trim_left].
    assert (list_find (λ p, is_Some (strip_prefix p (String " " s))) space_encodings = Some (5, " ")) as ->.
    { vm_compute. destruct s; reflexivity. }
    cbn. by apply trim_left_done. }
  by rewrite (trim_left_done _ _ _ Hr), rev_string_involutive.
Qed.
