(* ===== verification/GoFlag.v ===== *)
(** Go's [flag] package as the two commands of the program use it: flags of a [FlagSet],
    their values, and the reading of the command line; with [strconv]'s parsing of
    numbers in any base. The theorem here is that reading accepts exactly the grammar
    of the package's documentation. *)

From S2P Require Import Prelude GoStrings.
From stdpp Require Import options.

(** * Numbers in any base *)

Definition ErrSyntax : goerr := ENamed "invalid syntax".
Definition ErrRange : goerr := ENamed "value out of range".

(** The value of a digit, letters from ten on. *)
Definition base_digit (c : ascii) : option N :=
  let l := lower_byte c in
  if in_range "0" "9" c then Some (byte_val c - 48)%N
  else if in_range "a" "z" l then Some (byte_val l - 97 + 10)%N
  else None.

(** [base0]: an underscore may separate digits. A value over 2^64-1 ends the scan. The
    second result tells whether there was an underscore. *)
Fixpoint base_digits (base : N) (base0 : bool) (s : string) (n : N) : result (N * bool) :=
  match s with
  | EmptyString => Ok (n, false)
  | String c s =>
      if base0 && bool_decide (c = "_"%char) then
        match base_digits base base0 s n with Ok (n, _) => Ok (n, true) | Err e => Err e end
      else
        match base_digit c with
        | Some d =>
            if (base <=? d)%N then Err ErrSyntax
            else let n := (n * base + d)%N in
                 if (2 ^ 64 <=? n)%N then Err ErrRange else base_digits base base0 s n
        | None => Err ErrSyntax
        end
  end.

(** [underscoreOK] behind sign and prefix: underscores stand between digits, the prefix
    counting as one. [saw] is what was last seen: a digit, an underscore or another. *)
Inductive Saw := SawDigit | SawUnderscore | SawOther.
Fixpoint underscores_ok (hex : bool) (s : string) (saw : Saw) : bool :=
  match s with
  | EmptyString => match saw with SawUnderscore => false | _ => true end
  | String c s =>
      if in_range "0" "9" c || (hex && in_range "a" "f" (lower_byte c)) then underscores_ok hex s SawDigit
      else if bool_decide (c = "_"%char) then
        match saw with SawDigit => underscores_ok hex s SawUnderscore | _ => false end
      else match saw with SawUnderscore => false | _ => underscores_ok hex s SawOther end
  end.

(** The base a literal stands in, and its digits; the prefix needs a digit behind it. *)
Definition base_prefix (s : string) : N * string :=
  match s with
  | String "0" (String c (String _ _ as digits)) =>
      match lower_byte c with
      | "b"%char => (2%N, digits)
      | "o"%char => (8%N, digits)
      | "x"%char => (16%N, digits)
      | _ => (8%N, String c digits)
      end
  | String "0" s => (8%N, s)
  | _ => (10%N, s)
  end.

Definition underscoreOK (s : string) : bool :=
  let s := match s with String "+" s | String "-" s => s | _ => s end in
  match s with
  | String "0" (String c s' as s1) =>
      match lower_byte c with
      | "b"%char | "o"%char => underscores_ok false s' SawDigit
      | "x"%char => underscores_ok true s' SawDigit
      | _ => underscores_ok false s SawOther
      end
  | _ => underscores_ok false s SawOther
  end.

(** [strconv.ParseUint(s, 0, 64)]. *)
Definition ParseUint0 (s : string) : result N :=
  if bool_decide (s = "") then Err ErrSyntax
  else
    let '(base, digits) := base_prefix s in
    match base_digits base true digits 0 with
    | Err e => Err e
    | Ok (n, underscores) => if underscores && negb (underscoreOK s) then Err ErrSyntax else Ok n
    end.

(** The sign and the range of [strconv.ParseInt], around the parsing of the rest. *)
Definition parse_signed (ParseUint : string → result N) (s : string) : result Z :=
  match s with
  | EmptyString => Err ErrSyntax
  | String c rest =>
      let '(neg, digits) := match c with "+"%char => (false, rest) | "-"%char => (true, rest) | _ => (false, s) end in
      match ParseUint digits with
      | Err e => Err e
      | Ok un =>
          if negb neg && (2 ^ 63 <=? un)%N then Err ErrRange
          else if neg && (2 ^ 63 <? un)%N then Err ErrRange
          else Ok (if neg then - Z.of_N un else Z.of_N un)%Z
      end
  end.

(** [strconv.ParseInt(s, 0, 64)] and [strconv.Atoi]. *)
Definition ParseInt0 : string → result Z := parse_signed ParseUint0.
Definition Atoi : string → result Z :=
  parse_signed (λ s, if bool_decide (s = "") then Err ErrSyntax
                     else match base_digits 10 false s 0 with Ok (n, _) => Ok n | Err e => Err e end).

Example ParseInt0_values :
  (λ s, ParseInt0 s) <$> ["418"; "0x1_F"; "-0b11"; "017"; "0_7"; "0o17"; "0"; "+5"] =
    [Ok 418; Ok 31; Ok (-3); Ok 15; Ok 7; Ok 15; Ok 0; Ok 5]%Z ∧
  (λ s, ParseInt0 s) <$> [""; "08"; "0x"; "1__0"; "1_"; "_1"; "12a"; "9223372036854775808"; "-9223372036854775808"; "--1"] =
    [Err ErrSyntax; Err ErrSyntax; Err ErrSyntax; Err ErrSyntax; Err ErrSyntax; Err ErrSyntax; Err ErrSyntax; Err ErrRange;
     Ok (- 2 ^ 63)%Z; Err ErrSyntax].
Proof. split; vm_compute; reflexivity. Qed.

Definition ParseBool (s : string) : result bool :=
  if bool_decide (s ∈ ["1"; "t"; "T"; "true"; "TRUE"; "True"]) then Ok true
  else if bool_decide (s ∈ ["0"; "f"; "F"; "false"; "FALSE"; "False"]) then Ok false
  else Err ErrSyntax.

(** * Flags *)

(** The value of a flag, by its kind. The commands have one kind of their own, a list
    ([MultiVar]). *)
Inductive Value :=
  | VString (s : string)
  | VBool (b : bool)
  | VInt (z : Z)
  | VUint64 (n : N)
  | VMulti (l : list string).

Abbreviation FlagSet := (gmap string Value).

(** [Value.Set]. The package's own kinds name their errors anew. *)
Definition errParse : goerr := ENamed "parse error".
Definition numError (e : goerr) : goerr := if bool_decide (e = ErrSyntax) then errParse else e.
Definition set_value {A} (f : A → Value) (r : result A) : result Value :=
  match r with Ok a => Ok (f a) | Err e => Err (numError e) end.

(** [MultiVar.Set] of main.go. *)
Definition MultiVar_Set (v : list string) (value : string) : list string := v ++ [value].

Definition Value_Set (v : Value) (value : string) : result Value :=
  match v with
  | VString _ => Ok (VString value)
  | VBool _ => set_value VBool (ParseBool value)
  | VInt _ => set_value VInt (ParseInt0 value)
  | VUint64 _ => set_value VUint64 (ParseUint0 value)
  | VMulti l => Ok (VMulti (MultiVar_Set l value))
  end.

Definition IsBoolFlag (v : Value) : bool := match v with VBool _ => true | _ => false end.

(** Why reading failed. *)
Inductive FlagError :=
  | ErrHelp
  | BadSyntax (arg : string)
  | NotDefined (name : string)
  | NeedsArgument (name : string)
  | InvalidValue (name value : string) (e : goerr).

Inductive Parsed :=
  | Args (flags : FlagSet) (rest : list string)
  | Failed (e : FlagError).

(** An argument: not a flag, the end of flags, broken, or a flag with perhaps a value. *)
Inductive Word := NotFlag | Terminator | BadFlag | Flag (name : string) (value : option string).

Definition flag_word (name : string) : Word :=
  match name with
  | EmptyString => BadFlag
  | String c _ =>
      if bool_decide (c = "-"%char) || bool_decide (c = "="%char) then BadFlag
      else let '(name, value, found) := Cut name "=" in Flag name (if found then Some value else None)
  end.

Definition parse_word (s : string) : Word :=
  match s with
  | String "-" (String c s' as s1) =>
      if bool_decide (c = "-"%char) then if bool_decide (s' = "") then Terminator else flag_word s'
      else flag_word s1
  | _ => NotFlag
  end.

(** [FlagSet.Parse]: [parseOne] until it stops. *)
Fixpoint Parse (flags : FlagSet) (args : list string) : Parsed :=
  match args with
  | [] => Args flags []
  | s :: rest =>
      match parse_word s with
      | NotFlag => Args flags args
      | Terminator => Args flags rest
      | BadFlag => Failed (BadSyntax s)
      | Flag name value =>
          match flags !! name with
          | None => Failed (if bool_decide (name = "help") || bool_decide (name = "h") then ErrHelp else NotDefined name)
          | Some v =>
              let set value parse :=
                match Value_Set v value with
                | Err e => Failed (InvalidValue name value e)
                | Ok v => parse (<[name := v]> flags)
                end in
              if IsBoolFlag v then set (default "true" value) (λ flags, Parse flags rest)
              else
                match value with
                | Some value => set value (λ flags, Parse flags rest)
                | None =>
                    match rest with
                    | value :: rest => set value (λ flags, Parse flags rest)
                    | [] => Failed (NeedsArgument name)
                    end
                end
          end
      end
  end.

(** The exit status of [flag.Parse], which ends the process on an error. *)
Definition exit_status (e : FlagError) : Z := match e with ErrHelp => 0 | _ => 2 end.

(** * The grammar

    A command line is a sequence of flags, each in one of its spellings, up to the first
    argument that is none, or behind a terminator. *)
Definition flag_name (name : string) : Prop :=
  ContainsByte name "=" = false ∧ match name with EmptyString => False | String c _ => c ≠ "-"%char end.

Definition dashes : list string := ["-"; "--"].

(** The spellings of the flag [name] set to [value]. *)
Inductive spelling (bool : bool) (name value : string) : list string → Prop :=
  | spell_eq dash : dash ∈ dashes → spelling bool name value [dash +:+ name +:+ "=" +:+ value]
  | spell_next dash : dash ∈ dashes → bool = false → spelling bool name value [dash +:+ name; value]
  | spell_true dash : dash ∈ dashes → bool = true → value = "true" → spelling bool name value [dash +:+ name].

(** Where reading stops: at the end of the flags, with the arguments left, or at a broken
    one. *)
Inductive stops_at (flags : FlagSet) : list string → Parsed → Prop :=
  | stop_end : stops_at flags [] (Args flags [])
  | stop_word s rest : parse_word s = NotFlag → stops_at flags (s :: rest) (Args flags (s :: rest))
  | stop_terminator rest : stops_at flags ("--" :: rest) (Args flags rest)
  | stop_syntax s rest : parse_word s = BadFlag → stops_at flags (s :: rest) (Failed (BadSyntax s))
  | stop_help s rest name value : name ∈ ["help"; "h"] → flags !! name = None → parse_word s = Flag name value →
      stops_at flags (s :: rest) (Failed ErrHelp)
  | stop_undefined s rest name value : name ∉ ["help"; "h"] → flags !! name = None → parse_word s = Flag name value →
      stops_at flags (s :: rest) (Failed (NotDefined name))
  | stop_argument s name v : flags !! name = Some v → IsBoolFlag v = false → parse_word s = Flag name None →
      stops_at flags [s] (Failed (NeedsArgument name))
  | stop_value name value v e piece rest : flag_name name → flags !! name = Some v → Value_Set v value = Err e →
      spelling (IsBoolFlag v) name value piece → stops_at flags (piece ++ rest) (Failed (InvalidValue name value e)).

(** Arguments that begin with no flag: none are left, a terminator, or another word. *)
Definition flags_end (args : list string) : bool :=
  match args with
  | [] => true
  | s :: _ => match parse_word s with NotFlag | Terminator => true | _ => false end
  end.

Definition is_bool (flags : FlagSet) (name : string) : bool := match flags !! name with Some v => IsBoolFlag v | None => false end.

(** Setting flags in order; [None] when one is not defined or refuses its value. *)
Fixpoint assign (flags : FlagSet) (sets : list (string * string)) : option FlagSet :=
  match sets with
  | [] => Some flags
  | (name, value) :: sets =>
      v ← flags !! name;
      match Value_Set v value with Ok v => assign (<[name := v]> flags) sets | Err _ => None end
  end.

(** What a flag holds after the values given to it. *)
Fixpoint assign_value (v : Value) (values : list string) : option Value :=
  match values with
  | [] => Some v
  | value :: values => match Value_Set v value with Ok v => assign_value v values | Err _ => None end
  end.

(** ** Facts *)

Lemma flag_word_not_Terminator s : flag_word s ≠ Terminator.
Proof. unfold flag_word. destruct s; [done|]. destruct (_ || _); [done|]. by destruct (Cut _ _) as [[]]. Qed.

Lemma flags_end_stops flags args : flags_end args = true → ∃ rest, stops_at flags args (Args flags rest).
Proof.
  destruct args as [|s args]; cbn [flags_end]; [intros _; exists []; constructor|].
  destruct (parse_word s) eqn:Hs; intros He; try done; [by exists (s :: args); constructor|].
  exists args. assert (s = "--") as ->; [|constructor].
  unfold parse_word in Hs. repeat (case_match; try done); subst; try by apply flag_word_not_Terminator in Hs.
  all: by repeat match goal with H : bool_decide _ = true |- _ => apply bool_decide_eq_true in H as -> end.
Qed.

Lemma Value_Set_kind v value v' : Value_Set v value = Ok v' → IsBoolFlag v' = IsBoolFlag v.
Proof.
  destruct v; cbn; unfold set_value; try (by intros [= <-]);
    [destruct (ParseBool _)|destruct (ParseInt0 _)|destruct (ParseUint0 _)]; by intros [= <-].
Qed.

Lemma is_bool_insert flags name v v' : flags !! name = Some v → IsBoolFlag v' = IsBoolFlag v →
  ∀ n, is_bool (<[name := v']> flags) n = is_bool flags n.
Proof.
  intros Hv Hk n. unfold is_bool. destruct (decide (n = name)) as [->|Hn]; [by rewrite lookup_insert_eq, Hv|].
  by rewrite lookup_insert_ne.
Qed.

(** Each flag sees the values given to it, in their order. *)
Lemma assign_lookup flags sets flags' :
  assign flags sets = Some flags' → ∀ n, flags' !! n =
    v ← flags !! n; assign_value v (snd <$> filter (λ nv : string * string, nv.1 = n) sets).
Proof.
  revert flags. induction sets as [|[name value] sets IH]; intros flags; cbn [assign].
  - intros [= ->] n. cbn. by destruct (flags' !! n).
  - destruct (flags !! name) as [v|] eqn:Hv; [|done]. cbn [mbind option_bind].
    destruct (Value_Set v value) as [v'|] eqn:Hs; [|done]. intros Ha n. rewrite (IH _ Ha n), filter_cons. cbn [fst].
    destruct (decide (name = n)) as [->|Hn].
    + rewrite lookup_insert_eq, Hv. cbn. by rewrite Hs.
    + by rewrite lookup_insert_ne.
Qed.

(** A flag goes on to accept what it accepted first. *)
Lemma Value_Set_accepts v value v' x : Value_Set v value = Ok v' → is_ok (Value_Set v' x) = is_ok (Value_Set v x).
Proof.
  destruct v; cbn; unfold set_value; try (by intros [= <-]);
    [destruct (ParseBool value)|destruct (ParseInt0 value)|destruct (ParseUint0 value)]; try done; by intros [= <-].
Qed.

(** Values that the flags accept. *)
Definition accepted (flags : FlagSet) (nv : string * string) : Prop :=
  ∃ v, flags !! nv.1 = Some v ∧ is_ok (Value_Set v nv.2) = true.

Lemma assign_accepted sets : ∀ flags, Forall (accepted flags) sets → is_Some (assign flags sets).
Proof.
  induction sets as [|[name value] sets IH]; intros flags Hs; [by eexists|].
  apply Forall_cons in Hs as [(v & Hv & Hok) Hs]. cbn [fst snd] in Hv, Hok. cbn [assign]. rewrite Hv. cbn [mbind option_bind].
  destruct (Value_Set v value) as [v'|] eqn:Hset; [|done]. apply IH. eapply Forall_impl; [exact Hs|].
  intros [n x] (w & Hw & Hx). unfold accepted. cbn [fst snd] in *. destruct (decide (n = name)) as [->|Hn].
  - exists v'. rewrite lookup_insert_eq. split; [done|]. rewrite (Value_Set_accepts _ _ _ _ Hset). congruence.
  - exists w. by rewrite lookup_insert_ne.
Qed.

Lemma assign_dom sets : ∀ flags flags', assign flags sets = Some flags' → dom flags ⊆ dom flags'.
Proof.
  induction sets as [|[name value] sets IH]; intros flags flags'; cbn [assign]; [by intros [= ->]|].
  destruct (flags !! name) as [v|]; [|done]. cbn [mbind option_bind]. destruct (Value_Set v value); [|done].
  intros Ha%IH. rewrite dom_insert_L in Ha. set_solver.
Qed.

(** What the last of the values says, or the default. *)
Definition last_value {A} (parse : string → result A) (dflt : A) (values : list string) : A :=
  match last values with
  | Some value => match parse value with Ok a => a | Err _ => dflt end
  | None => dflt
  end.

Lemma assign_value_snoc value values : ∀ v,
  assign_value v (values ++ [value]) =
    v' ← assign_value v values; match Value_Set v' value with Ok v'' => Some v'' | Err _ => None end.
Proof.
  induction values as [|x values IH]; intros v; cbn [app assign_value]; [done|]. destruct (Value_Set v x); [apply IH|done].
Qed.

(** A kind of flag that a value replaces. *)
Lemma assign_value_last {A} (f : A → Value) (parse : string → result A) a values v :
  (∀ a value, Value_Set (f a) value = set_value f (parse value)) →
  assign_value (f a) values = Some v → v = f (last_value parse a values).
Proof.
  intros Hset. revert v. induction values as [|value values IH] using rev_ind; intros v; [by intros [= <-]|].
  rewrite assign_value_snoc. destruct (assign_value (f a) values) as [v'|]; [|done]. rewrite (IH v' eq_refl).
  cbn [mbind option_bind]. rewrite Hset. unfold set_value, last_value. rewrite last_snoc.
  destruct (parse value); [|done]. by intros [= <-].
Qed.

Lemma assign_value_multi values : ∀ l, assign_value (VMulti l) values = Some (VMulti (l ++ values)).
Proof.
  induction values as [|value values IH]; intros l; cbn; [by rewrite app_nil_r|]. rewrite IH. unfold MultiVar_Set.
  by rewrite <-(assoc_L (++)).
Qed.

Lemma flag_word_name name : flag_name name → flag_word name = Flag name None.
Proof.
  intros [Heq Hd]. unfold flag_word. destruct name as [|c name]; [done|].
  assert (Hc : c ≠ "="%char) by (intros ->; done).
  rewrite !bool_decide_false by done. cbn [orb]. by rewrite Cut_absent.
Qed.

Lemma flag_word_eq name value : flag_name name → flag_word (name +:+ "=" +:+ value) = Flag name (Some value).
Proof.
  intros [Heq Hd]. unfold flag_word. destruct name as [|c name]; [done|].
  assert (Hc : c ≠ "="%char) by (intros ->; done). rewrite string_app_cons.
  rewrite !bool_decide_false by done. cbn [orb]. rewrite <-string_app_cons.
  change ("=" +:+ value) with (String "=" value). by rewrite Cut_app.
Qed.

Lemma parse_word_dash dash s c s' : dash ∈ dashes → s = String c s' → c ≠ "-"%char → parse_word (dash +:+ s) = flag_word s.
Proof.
  unfold dashes. rewrite !elem_of_cons, elem_of_nil. intros [->|[->|[]]] -> Hc.
  - change ("-" +:+ String c s') with (String "-" (String c s')). unfold parse_word. by rewrite bool_decide_false.
  - change ("--" +:+ String c s') with (String "-" (String "-" (String c s'))). unfold parse_word.
    rewrite bool_decide_true by done. by rewrite bool_decide_false.
Qed.

Lemma flag_word_Flag s name value : flag_word s = Flag name value →
  flag_name name ∧ s = match value with Some value => name +:+ "=" +:+ value | None => name end ∧
  ∃ c s', s = String c s' ∧ c ≠ "-"%char.
Proof.
  unfold flag_word. destruct s as [|c s]; [done|]. case_bool_decide as Hd; [done|]. case_bool_decide as He; [done|]. cbn [orb].
  destruct (Cut (String c s) "=") as [[n v] found] eqn:Hcut. intros [= -> <-].
  pose proof (Cut_found _ _ _ _ _ Hcut) as Hsep.
  destruct Hsep as [Hsep Hs]. assert (Hname : ∃ s', name = String c s').
  { destruct found; [|by exists s]. destruct name as [|c' name]; [by injection Hs as -> _|]. injection Hs as -> _. by exists name. }
  destruct Hname as [s' ->]. split; [done|]. split; [by destruct found|]. by exists c, s.
Qed.

Lemma parse_word_Flag s name value : parse_word s = Flag name value →
  flag_name name ∧ ∃ dash, dash ∈ dashes ∧
    s = dash +:+ match value with Some value => name +:+ "=" +:+ value | None => name end.
Proof.
  unfold parse_word. destruct s as [|[[] [] [] [] [] [] [] []] [|c s]]; try done. case_bool_decide as Hc.
  - case_bool_decide; [done|]. intros (Hn & -> & _)%flag_word_Flag. split; [done|]. exists "--". subst c. split; [|by destruct value].
    by right; left.
  - intros (Hn & -> & _)%flag_word_Flag. split; [done|]. exists "-". split; [by left|by destruct value].
Qed.

Lemma spelling_word dash name : dash ∈ dashes → flag_name name →
  parse_word (dash +:+ name) = Flag name None ∧
  ∀ value, parse_word (dash +:+ name +:+ "=" +:+ value) = Flag name (Some value).
Proof.
  intros Hd Hn. assert (Hc : ∃ c s, name = String c s ∧ c ≠ "-"%char) by (destruct Hn as [_ Hn]; destruct name; [done|by eauto]).
  destruct Hc as (c & s & Hs & Hc). split.
  - rewrite (parse_word_dash dash _ c s) by done. by apply flag_word_name.
  - intros value. rewrite (parse_word_dash dash _ c (s +:+ "=" +:+ value)) by (done || by rewrite Hs, string_app_cons).
    by apply flag_word_eq.
Qed.

(** One flag is read whatever its spelling, if its value is accepted. *)
Lemma Parse_spelling flags name value piece v rest :
  flag_name name → flags !! name = Some v → spelling (IsBoolFlag v) name value piece →
  Parse flags (piece ++ rest) =
    match Value_Set v value with
    | Ok v => Parse (<[name := v]> flags) rest
    | Err e => Failed (InvalidValue name value e)
    end.
Proof.
  intros Hn Hv Hp. destruct Hp as [dash Hd|dash Hd Hb|dash Hd Hb ->]; destruct (spelling_word dash name Hd Hn) as [Hw Hw'];
    cbn [app Parse]; rewrite ?Hw, ?Hw', Hv.
  - by destruct (IsBoolFlag v).
  - by rewrite Hb.
  - by rewrite Hb.
Qed.

Lemma Parse_stops flags args p : stops_at flags args p → Parse flags args = p.
Proof.
  intros [|s r Hw|r|s r Hw|s r name value Hn Hv Hw|s r name value Hn Hv Hw|s name v Hv Hb Hw|name value v e piece r Hn Hv Hs Hp];
    cbn [Parse]; rewrite ?Hw, ?Hv; try done.
  - revert Hn. rewrite !elem_of_cons, elem_of_nil. by intros [->|[->|[]]].
  - rewrite !elem_of_cons, elem_of_nil in Hn. by rewrite !bool_decide_false by naive_solver.
  - by rewrite Hb.
  - rewrite (Parse_spelling flags name value piece v) by done. by rewrite Hs.
Qed.

(** The flags of a line before the first set or after, the values given to bool flags. *)
Definition spelled (flags : FlagSet) (sets : list (string * string)) (pieces : list (list string)) : Prop :=
  Forall2 (λ nv piece, flag_name nv.1 ∧ spelling (is_bool flags nv.1) nv.1 nv.2 piece) sets pieces.

Lemma spelled_kinds flags flags' sets pieces :
  (∀ n, is_bool flags' n = is_bool flags n) → spelled flags sets pieces → spelled flags' sets pieces.
Proof. intros Hk Hs. eapply Forall2_impl; [exact Hs|]. intros [n v] piece. by rewrite Hk. Qed.

Lemma Parse_complete flags sets pieces flags' args p :
  spelled flags sets pieces → assign flags sets = Some flags' → stops_at flags' args p →
  Parse flags (concat pieces ++ args) = p.
Proof.
  intros Hs. revert flags' flags Hs. induction sets as [|[name value] sets IH] in pieces |- *; intros flags' flags Hs Ha He.
  - inversion Hs; subst. injection Ha as ->. by apply Parse_stops.
  - inversion Hs as [|? piece ? pieces' [Hn Hp] Hs' Heq1 Heq2]; subst. cbn [concat fst snd] in *. rewrite <-(assoc_L (++)).
    cbn [assign] in Ha. destruct (flags !! name) as [v|] eqn:Hv; [|done]. cbn [mbind option_bind] in Ha.
    destruct (Value_Set v value) as [v'|] eqn:Hset; [|done]. unfold is_bool in Hp. rewrite Hv in Hp.
    rewrite (Parse_spelling flags name value piece v), Hset by done. apply (IH pieces' flags'); [|done..].
    eapply spelled_kinds; [|exact Hs']. eapply is_bool_insert; [done|]. by eapply Value_Set_kind.
Qed.

Lemma parse_word_Terminator s : parse_word s = Terminator → s = "--".
Proof.
  unfold parse_word. destruct s as [|[[] [] [] [] [] [] [] []] [|c s]]; try done. unfold flag_word.
  repeat (case_bool_decide; subst; cbn [orb]; try done); repeat case_match; done.
Qed.

Lemma Parse_sound n : ∀ args flags, length args ≤ n →
  ∃ sets pieces flags' tail, args = concat pieces ++ tail ∧ spelled flags sets pieces ∧ assign flags sets = Some flags' ∧
    stops_at flags' tail (Parse flags args).
Proof.
  induction n as [|n IH]; intros args flags; (destruct args as [|s args]; intros Hle; [|cbn in Hle; try lia]);
    try (exists [], [], flags, []; by repeat constructor).
  assert (Hstop : stops_at flags (s :: args) (Parse flags (s :: args)) →
    ∃ sets pieces flags' tail, s :: args = concat pieces ++ tail ∧ spelled flags sets pieces ∧ assign flags sets = Some flags' ∧
      stops_at flags' tail (Parse flags (s :: args))).
  { intros Hs. exists [], [], flags, (s :: args). split; [done|]. by repeat constructor. }
  destruct (parse_word s) as [| | |name value] eqn:Hw.
  1-3: apply Hstop; cbn [Parse]; rewrite Hw.
  - by constructor.
  - apply parse_word_Terminator in Hw as ->. constructor.
  - by constructor.
  - destruct (flags !! name) as [v|] eqn:Hv.
    2:{ apply Hstop. cbn [Parse]. rewrite Hw, Hv. destruct (bool_decide (name = "help") || bool_decide (name = "h")) eqn:Hh.
        - eapply (stop_help _ s args name value); [|done..]. rewrite !elem_of_cons.
          apply orb_true_iff in Hh as [->%bool_decide_eq_true| ->%bool_decide_eq_true]; auto.
        - eapply (stop_undefined _ s args name value); [|done..]. go_bool. rewrite !elem_of_cons, elem_of_nil. naive_solver. }
    pose proof Hw as (Hn & dash & Hd & Hs)%parse_word_Flag.
    (* the flag that begins the line *)
    assert (Hstep : ∀ x piece args', s :: args = piece ++ args' → length args' ≤ length args →
      spelling (IsBoolFlag v) name x piece →
      ∃ sets pieces flags' tail, s :: args = concat pieces ++ tail ∧ spelled flags sets pieces ∧
        assign flags sets = Some flags' ∧ stops_at flags' tail (Parse flags (s :: args))).
    { intros x piece args' Heq Hlen Hp. destruct (Value_Set v x) as [v'|e] eqn:Hset.
      2:{ apply Hstop. rewrite Heq, (Parse_spelling flags name x piece v), Hset by done. by eapply stop_value. }
      rewrite Heq, (Parse_spelling flags name x piece v), Hset by done.
      destruct (IH args' (<[name := v']> flags)) as (sets & pieces & flags' & tail & Hargs & Hsp & Ha & He); [lia|].
      exists ((name, x) :: sets), (piece :: pieces), flags', tail. cbn [concat assign]. rewrite <-(assoc_L (++)), <-Hargs, Hv.
      split; [done|]. cbn [mbind option_bind]. rewrite Hset. split; [|done]. constructor.
      - split; [done|]. cbn. unfold is_bool. by rewrite Hv.
      - eapply spelled_kinds; [|exact Hsp]. intros m. symmetry. eapply is_bool_insert; [done|]. by eapply Value_Set_kind. }
    destruct value as [x|]; [|destruct (IsBoolFlag v) eqn:Hb; [|destruct args as [|x args]]].
    + apply (Hstep x [s] args); [done..|]. rewrite Hs. by constructor.
    + apply (Hstep "true" [s] args); [done..|]. rewrite Hs. by apply spell_true.
    + apply Hstop. cbn [Parse]. rewrite Hw, Hv, Hb. by eapply stop_argument.
    + apply (Hstep x [s; x] args); [done|cbn; lia|]. rewrite Hs. by apply spell_next.
Qed.

(** Does an argument, if it is read as a flag, set [name]? *)
Definition mentions (name s : string) : bool :=
  match parse_word s with Flag n _ => bool_decide (n = name) | _ => false end.

Definition map_flags (f : FlagSet → FlagSet) (p : Parsed) : Parsed :=
  match p with Args flags rest => Args (f flags) rest | Failed e => Failed e end.

(** A flag that is not mentioned has no influence on the others. *)
Lemma Parse_unmentioned n name v : ∀ args flags, length args ≤ n → Forall (λ s, mentions name s = false) args →
  is_Some (flags !! name) → Parse (<[name := v]> flags) args = map_flags <[name := v]> (Parse flags args).
Proof.
  induction n as [|n IH]; intros args flags; (destruct args as [|s args]; intros Hle Hm Hsome; [done|]); [cbn in Hle; lia|].
  cbn in Hle. inversion Hm as [|? ? Hs Hargs]; subst. unfold mentions in Hs. cbn [Parse].
  destruct (parse_word s) as [| | |name' value] eqn:Hw; try done. go_bool. rewrite lookup_insert_ne by done.
  destruct (flags !! name') as [v0|] eqn:Hv; [|by destruct (_ || _)].
  assert (Hset : ∀ value args', length args' ≤ n → Forall (λ s, mentions name s = false) args' →
    match Value_Set v0 value with
    | Err e => Failed (InvalidValue name' value e)
    | Ok v1 => Parse (<[name' := v1]> (<[name := v]> flags)) args'
    end = map_flags <[name := v]>
      match Value_Set v0 value with
      | Err e => Failed (InvalidValue name' value e)
      | Ok v1 => Parse (<[name' := v1]> flags) args'
      end).
  { intros x args' Hlen Hargs'. destruct (Value_Set v0 x) as [v1|]; [|done]. rewrite insert_insert_ne by done.
    apply IH; [done..|]. by rewrite lookup_insert_ne. }
  destruct (IsBoolFlag v0); [apply Hset; [lia|done]|]. destruct value as [x|]; [apply Hset; [lia|done]|].
  destruct args as [|x args]; [done|]. inversion Hargs; subst. cbn in Hle. apply Hset; [lia|done].
Qed.

(** * Properties *)

(** The command line is read as its grammar says: it begins with flags, each in one of
    its spellings (one or two dashes; the value behind an equals sign, or in the next
    argument, or none for a boolean flag), which are set in their order, so that a flag
    holds what its values make of its default one after the other; and it goes on with
    the point where reading stops. That is the end, an argument that is no flag, a
    terminator, or the first broken flag, with its error; what is behind it is not
    looked at. *)
Theorem Parse_grammar (flags : FlagSet) (args : list string) (p : Parsed) :
  Parse flags args = p ↔
  ∃ sets pieces flags' tail, args = concat pieces ++ tail ∧ spelled flags sets pieces ∧ assign flags sets = Some flags' ∧
    stops_at flags' tail p ∧
    ∀ n, flags' !! n = v ← flags !! n; assign_value v (snd <$> filter (λ nv : string * string, nv.1 = n) sets).
Proof.
  split.
  - intros <-. destruct (Parse_sound (length args) args flags) as (sets & pieces & flags' & tail & ? & ? & Ha & ?); [done|].
    exists sets, pieces, flags', tail. do 4 (split; [done|]). by apply assign_lookup.
  - intros (sets & pieces & flags' & tail & -> & Hs & Ha & He & _). by eapply Parse_complete.
Qed.
