(* ===== verification/GoCrypto.v ===== *)
(** The digests of Go's standard library the program computes with:
    [crypto/sha256], [crypto/md5] and [encoding/hex]'s lower-case encoding,
    as executable functions on byte strings. *)

From S2P Require Import Prelude.
From stdpp Require Import options.

Local Open Scope N_scope.

(** * 32-bit words *)

Definition w32 (n : N) : N := N.land n 0xFFFFFFFF.
Definition add32 (a b : N) : N := w32 (a + b).
Definition not32 (a : N) : N := N.lxor a 0xFFFFFFFF.
Definition rotr32 (a k : N) : N := N.lor (N.shiftr a k) (w32 (N.shiftl a (32 - k))).
Definition rotl32 (a k : N) : N := rotr32 a (32 - k).

(** Four bytes of a word, most significant first, and the converse. *)
Definition be_bytes32 (w : N) : list ascii :=
  [byte_of (N.shiftr w 24); byte_of (N.shiftr w 16); byte_of (N.shiftr w 8); byte_of w].
Definition le_bytes32 (w : N) : list ascii := reverse (be_bytes32 w).

(** [binary.LittleEndian.AppendUint64]. *)
Definition le_bytes64 (n : N) : list ascii :=
  (λ k, byte_of (N.shiftr n (8 * k))) <$> [0; 1; 2; 3; 4; 5; 6; 7].
Definition be_bytes64 (n : N) : list ascii := reverse (le_bytes64 n).

Fixpoint be_words (l : list ascii) : list N :=
  match l with
  | a :: b :: c :: d :: l =>
      N.lor (N.shiftl (byte_val a) 24) (N.lor (N.shiftl (byte_val b) 16)
        (N.lor (N.shiftl (byte_val c) 8) (byte_val d))) :: be_words l
  | _ => []
  end.

Fixpoint le_words (l : list ascii) : list N :=
  match l with
  | a :: b :: c :: d :: l =>
      N.lor (N.shiftl (byte_val d) 24) (N.lor (N.shiftl (byte_val c) 16)
        (N.lor (N.shiftl (byte_val b) 8) (byte_val a))) :: le_words l
  | _ => []
  end.

(** Merkle-Damgård padding to a multiple of 64 bytes; [len8] encodes the bit length. *)
Definition md_pad (len8 : N → list ascii) (m : list ascii) : list ascii :=
  let zeros := Nat.modulo (64 + 56 - Nat.modulo (length m + 1)%nat 64)%nat 64 in
  m ++ [byte_of 0x80] ++ repeat (byte_of 0) zeros ++ len8 (8 * N.of_nat (length m)).

Fixpoint chunks16 (fuel : nat) (l : list N) : list (list N) :=
  match fuel, l with
  | O, _ | _, [] => []
  | S fuel, _ => take 16 l :: chunks16 fuel (drop 16 l)
  end.

(** * SHA-256 *)

(** The constants of SHA-256 as FIPS 180-4 defines them: the first 32 bits of the
    fractional parts of the cube roots of the first 64 primes, and of the square
    roots of the first 8. They are computed once, when the file is checked. *)
Definition primes_below (n : nat) : list N :=
  filter (λ p, forallb (λ d, negb (p mod d =? 0)) (N.of_nat <$> seq 2 (N.to_nat p - 2)) = true)
    (N.of_nat <$> seq 2 (n - 2)).

(** The largest [r] with [r ^ 3 ≤ n], by its bits from the top. *)
Fixpoint cube_root (bit : nat) (r n : N) : N :=
  match bit with
  | O => r
  | S bit =>
      let r' := r + N.shiftl 1 (N.of_nat bit) in
      cube_root bit (if r' * r' * r' <=? n then r' else r) n
  end.

Definition sha256_k : list N :=
  Eval vm_compute in (λ p, N.land (cube_root 36 0 (N.shiftl p 96)) 0xffffffff) <$> primes_below 312.

Definition sha256_iv : list N :=
  Eval vm_compute in
    (λ p, N.land (N.sqrt (N.shiftl p 64)) 0xffffffff) <$> take 8 (primes_below 312).

Example sha256_constants :
  length sha256_k = 64%nat ∧ last sha256_k = Some 0xc67178f2 ∧ head sha256_iv = Some 0x6a09e667.
Proof. by vm_compute. Qed.

(** The message schedule, built backwards: [l] holds the words so far, last first. *)
Fixpoint sha256_extend (k : nat) (l : list N) : list N :=
  match k with
  | O => l
  | S k =>
      let at_ i := nth i l 0 in
      let s0 := N.lxor (rotr32 (at_ 14%nat) 7)
                 (N.lxor (rotr32 (at_ 14%nat) 18) (N.shiftr (at_ 14%nat) 3)) in
      let s1 := N.lxor (rotr32 (at_ 1%nat) 17)
                 (N.lxor (rotr32 (at_ 1%nat) 19) (N.shiftr (at_ 1%nat) 10)) in
      sha256_extend k (w32 (at_ 15%nat + s0 + at_ 6%nat + s1) :: l)
  end.

Definition sha256_round (st : list N) (kw : N * N) : list N :=
  match st with
  | [a; b; c; d; e; f; g; h] =>
      let S1 := N.lxor (rotr32 e 6) (N.lxor (rotr32 e 11) (rotr32 e 25)) in
      let ch := N.lxor (N.land e f) (N.land (not32 e) g) in
      let t1 := w32 (h + S1 + ch + kw.1 + kw.2) in
      let S0 := N.lxor (rotr32 a 2) (N.lxor (rotr32 a 13) (rotr32 a 22)) in
      let maj := N.lxor (N.land a b) (N.lxor (N.land a c) (N.land b c)) in
      [add32 t1 (add32 S0 maj); a; b; c; add32 d t1; e; f; g]
  | _ => st
  end.

Definition sha256_block (st : list N) (blk : list N) : list N :=
  let w := reverse (sha256_extend 48 (reverse blk)) in
  zip_with add32 st (foldl sha256_round st (zip sha256_k w)).

(** [sha256.Sum256]. *)
Definition sha256 (m : string) : string :=
  let padded := be_words (md_pad be_bytes64 (bytes m)) in
  of_bytes (mjoin (be_bytes32 <$>
    foldl sha256_block sha256_iv (chunks16 (length padded) padded))).

(** * MD5 *)

Definition md5_s : list N :=
  [7;12;17;22; 7;12;17;22; 7;12;17;22; 7;12;17;22;
   5;9;14;20; 5;9;14;20; 5;9;14;20; 5;9;14;20;
   4;11;16;23; 4;11;16;23; 4;11;16;23; 4;11;16;23;
   6;10;15;21; 6;10;15;21; 6;10;15;21; 6;10;15;21].

Definition md5_k : list N :=
  [0xd76aa478;0xe8c7b756;0x242070db;0xc1bdceee;0xf57c0faf;0x4787c62a;0xa8304613;0xfd469501;
   0x698098d8;0x8b44f7af;0xffff5bb1;0x895cd7be;0x6b901122;0xfd987193;0xa679438e;0x49b40821;
   0xf61e2562;0xc040b340;0x265e5a51;0xe9b6c7aa;0xd62f105d;0x02441453;0xd8a1e681;0xe7d3fbc8;
   0x21e1cde6;0xc33707d6;0xf4d50d87;0x455a14ed;0xa9e3e905;0xfcefa3f8;0x676f02d9;0x8d2a4c8a;
   0xfffa3942;0x8771f681;0x6d9d6122;0xfde5380c;0xa4beea44;0x4bdecfa9;0xf6bb4b60;0xbebfbc70;
   0x289b7ec6;0xeaa127fa;0xd4ef3085;0x04881d05;0xd9d4d039;0xe6db99e5;0x1fa27cf8;0xc4ac5665;
   0xf4292244;0x432aff97;0xab9423a7;0xfc93a039;0x655b59c3;0x8f0ccc92;0xffeff47d;0x85845dd1;
   0x6fa87e4f;0xfe2ce6e0;0xa3014314;0x4e0811a1;0xf7537e82;0xbd3af235;0x2ad7d2bb;0xeb86d391].

Definition md5_iv : list N := [0x67452301; 0xefcdab89; 0x98badcfe; 0x10325476].

Definition md5_round (blk : list N) (st : list N) (i : nat) : list N :=
  match st with
  | [a; b; c; d] =>
      let '(f, g) :=
        if Nat.ltb i 16 then (N.lor (N.land b c) (N.land (not32 b) d), i)
        else if Nat.ltb i 32 then
          (N.lor (N.land d b) (N.land (not32 d) c), Nat.modulo (5 * i + 1) 16)
        else if Nat.ltb i 48 then (N.lxor b (N.lxor c d), Nat.modulo (3 * i + 5) 16)
        else (N.lxor c (N.lor b (not32 d)), Nat.modulo (7 * i) 16) in
      let f' := w32 (f + a + nth i md5_k 0 + nth g blk 0) in
      [d; add32 b (rotl32 f' (nth i md5_s 0)); b; c]
  | _ => st
  end.

Definition md5_block (st : list N) (blk : list N) : list N :=
  zip_with add32 st (foldl (md5_round blk) st (seq 0 64)).

(** [md5.Sum]. *)
Definition md5 (m : string) : string :=
  let padded := le_words (md_pad le_bytes64 (bytes m)) in
  of_bytes (mjoin (le_bytes32 <$>
    foldl md5_block md5_iv (chunks16 (length padded) padded))).

(** * Sizes *)

Definition sha256_Size : nat := 32%nat.
Definition md5_Size : nat := 16%nat.

Lemma zip_with_keeps_length {A} (f : A → A → A) (st st' : list A) :
  length st' = length st → length (zip_with f st st') = length st.
Proof. intros H. rewrite length_zip_with, H. lia. Qed.

Lemma foldl_keeps_length {A B} (f : list A → B → list A) st l :
  (∀ st x, length (f st x) = length st) → length (foldl f st l) = length st.
Proof.
  intros Hf. revert st. induction l as [|x l IH]; intros st; simpl; [done|].
  by rewrite IH.
Qed.

Lemma length_sha256_block st blk : length (sha256_block st blk) = length st.
Proof.
  apply zip_with_keeps_length, foldl_keeps_length.
  intros s kw. unfold sha256_round. repeat (case_match; try done).
Qed.

Lemma length_md5_block st blk : length (md5_block st blk) = length st.
Proof.
  apply zip_with_keeps_length, foldl_keeps_length.
  intros s i. unfold md5_round. repeat (case_match; try done).
Qed.

Lemma length_mjoin_const {A B} (f : A → list B) n (l : list A) :
  (∀ x, length (f x) = n) → length (mjoin (f <$> l)) = (n * length l)%nat.
Proof.
  intros Hf. induction l as [|x l IH]; [simpl; lia|].
  rewrite fmap_cons. change (mjoin (f x :: (f <$> l))) with (f x ++ mjoin (f <$> l)).
  rewrite length_app, Hf, IH. simpl. lia.
Qed.

Lemma length_sha256 m : String.length (sha256 m) = sha256_Size.
Proof.
  unfold sha256. rewrite length_of_bytes, (length_mjoin_const _ 4) by done.
  by rewrite (foldl_keeps_length _ _ _ length_sha256_block).
Qed.

Lemma length_md5 m : String.length (md5 m) = md5_Size.
Proof.
  unfold md5. rewrite length_of_bytes, (length_mjoin_const _ 4) by done.
  by rewrite (foldl_keeps_length _ _ _ length_md5_block).
Qed.

#[export] Hint Rewrite length_sha256 length_md5 : go.

#[global] Opaque sha256 md5.
