(* ===== verification/Hex.v ===== *)
(** Hexadecimal encoding: [utils/inline/hex.go], the copy of [encoding/hex] the
    WASM runtime is built with, and the [encoding/hex] string functions the
    server uses, which run the same loops.

    Buffers are lists of bytes; a write or read outside one is a Go run-time
    panic and gives [None]. *)

From S2P Require Import Prelude GoStrings.
From stdpp Require Import options.

(** * The code *)

Definition hextable : list ascii := bytes "0123456789abcdef".

Definition ff_row : list N := repeat 0xff%N 16.
Definition AF_row : list N :=
  [0xff; 0x0a; 0x0b; 0x0c; 0x0d; 0x0e; 0x0f; 0xff; 0xff; 0xff; 0xff; 0xff; 0xff; 0xff; 0xff; 0xff]%N.
Definition reverseHexTable : list N :=
  ff_row ++ ff_row ++ ff_row ++
  [0x00; 0x01; 0x02; 0x03; 0x04; 0x05; 0x06; 0x07; 0x08; 0x09;
   0xff; 0xff; 0xff; 0xff; 0xff; 0xff]%N ++
  AF_row ++ ff_row ++ AF_row ++ ff_row ++
  ff_row ++ ff_row ++ ff_row ++ ff_row ++ ff_row ++ ff_row ++ ff_row ++ ff_row.

Definition EncodedLen (n : nat) : nat := n * 2.
Definition DecodedLen (x : nat) : nat := x / 2.

Inductive hex_error :=
  | ErrLength
  | InvalidByteError (c : ascii).

#[export] Instance hex_error_eq_dec : EqDecision hex_error.
Proof. solve_decision. Defined.

(** [dst[i] = c]. *)
Definition write (dst : list ascii) (i : nat) (c : ascii) : option (list ascii) :=
  if decide (i < length dst) then Some (<[i := c]> dst) else None.

Fixpoint encode_loop (dst : list ascii) (j : nat) (src : list ascii) : option (list ascii) :=
  match src with
  | [] => Some dst
  | v :: src =>
      hi ← hextable !! N.to_nat (N.shiftr (byte_val v) 4);
      lo ← hextable !! N.to_nat (N.land (byte_val v) 0x0f);
      dst ← write dst j hi;
      dst ← write dst (j + 1) lo;
      encode_loop dst (j + 2) src
  end.

Definition Encode (dst src : list ascii) : option (list ascii * nat) :=
  dst ← encode_loop dst 0 src;
  Some (dst, length src * 2).

(** Bytes are read in pairs; [i] is the number of bytes written so far. *)
Fixpoint decode_loop (dst : list ascii) (i : nat) (src : list ascii) :
    option (list ascii * nat * option hex_error) :=
  match src with
  | p :: q :: src =>
      a ← reverseHexTable !! N.to_nat (byte_val p);
      b ← reverseHexTable !! N.to_nat (byte_val q);
      if (0x0f <? a)%N then Some (dst, i, Some (InvalidByteError p))
      else if (0x0f <? b)%N then Some (dst, i, Some (InvalidByteError q))
      else dst ← write dst i (byte_of (N.lor (N.shiftl a 4) b));
           decode_loop dst (i + 1) src
  | [p] =>
      a ← reverseHexTable !! N.to_nat (byte_val p);
      if (0x0f <? a)%N then Some (dst, i, Some (InvalidByteError p))
      else Some (dst, i, Some ErrLength)
  | [] => Some (dst, i, None)
  end.

Definition Decode (dst src : list ascii) : option (list ascii * nat * option hex_error) :=
  decode_loop dst 0 src.

(** * Reference definitions *)

Definition hex_digit (n : N) : ascii := nth (N.to_nat n) hextable "0"%char.

Fixpoint hex_enc (l : list ascii) : list ascii :=
  match l with
  | [] => []
  | v :: l => hex_digit (byte_val v / 16) :: hex_digit (byte_val v mod 16) :: hex_enc l
  end.

(** The value of a hexadecimal digit of either case. *)
Definition hex_val (c : ascii) : option N :=
  if in_range "0" "9" c then Some (byte_val c - 48)%N
  else if in_range "a" "f" c then Some (byte_val c - 87)%N
  else if in_range "A" "F" c then Some (byte_val c - 55)%N
  else None.

(** Decoded bytes up to the first error, and that error. *)
Fixpoint hex_dec (l : list ascii) : list ascii * option hex_error :=
  match l with
  | p :: q :: l =>
      match hex_val p, hex_val q with
      | None, _ => ([], Some (InvalidByteError p))
      | _, None => ([], Some (InvalidByteError q))
      | Some a, Some b => let '(bs, e) := hex_dec l in (byte_of (16 * a + b) :: bs, e)
      end
  | [p] => ([], Some (match hex_val p with None => InvalidByteError p | _ => ErrLength end))
  | [] => ([], None)
  end.

(** [encoding/hex]: [EncodeToString] and [DecodeString], on the same loops. *)
Definition EncodeToString (s : string) : string := of_bytes (hex_enc (bytes s)).
Definition hex_goerr (e : hex_error) : goerr :=
  match e with
  | ErrLength => ENamed "hex.ErrLength"
  | InvalidByteError c => ENew ("encoding/hex: invalid byte: " +:+ String c "")
  end.
Definition DecodeString (s : string) : result string :=
  match hex_dec (bytes s) with
  | (bs, None) => Ok (of_bytes bs)
  | (_, Some e) => Err (hex_goerr e)
  end.

(** * Lemmas *)

Lemma hextable_lookup : ∀ v,
  hextable !! N.to_nat (N.shiftr (byte_val v) 4) = Some (hex_digit (byte_val v / 16)) ∧
  hextable !! N.to_nat (N.land (byte_val v) 0x0f) = Some (hex_digit (byte_val v mod 16)).
Proof. by_all_bytes. Qed.

Lemma reverseHexTable_lookup : ∀ p,
  reverseHexTable !! N.to_nat (byte_val p) = Some (default 0xff%N (hex_val p)).
Proof. by_all_bytes. Qed.

Lemma hex_val_bound : ∀ p, (default 0 (hex_val p) < 16)%N.
Proof. by_all_bytes. Qed.

Lemma hex_val_ff p : (0x0f <? default 0xff (hex_val p))%N = bool_decide (hex_val p = None).
Proof.
  revert p. by_all_bytes.
Qed.

Lemma hex_val_digit v :
  hex_val (hex_digit (byte_val v / 16)) = Some (byte_val v / 16)%N ∧
  hex_val (hex_digit (byte_val v mod 16)) = Some (byte_val v mod 16)%N.
Proof. revert v. by_all_bytes. Qed.

Lemma nibbles_lor a b : (a < 16)%N → (b < 16)%N → N.lor (N.shiftl a 4) b = (16 * a + b)%N.
Proof.
  intros Ha Hb.
  assert (Forall (λ i, Forall (λ j, N.lor (N.shiftl (N.of_nat i) 4) (N.of_nat j) =
    16 * N.of_nat i + N.of_nat j)%N (seq 0 16)) (seq 0 16)) as Hall
    by (vm_compute; repeat constructor).
  rewrite Forall_forall in Hall.
  specialize (Hall (N.to_nat a)). rewrite Forall_forall, elem_of_seq in Hall.
  specialize (Hall ltac:(lia) (N.to_nat b)). rewrite elem_of_seq, !N2Nat.id in Hall.
  apply Hall. lia.
Qed.

Lemma half_SS n : S (S n) / 2 = S (n / 2).
Proof.
  replace (S (S n)) with (1 * 2 + n) by lia.
  by rewrite Nat.div_add_l.
Qed.

Lemma length_hex_enc l : length (hex_enc l) = EncodedLen (length l).
Proof. unfold EncodedLen. induction l as [|v l IH]; simpl; lia. Qed.

Lemma write_app pre c post i x :
  length pre = i → write (pre ++ c :: post) i x = Some (pre ++ x :: post).
Proof.
  intros <-. unfold write. rewrite decide_True by (rewrite length_app; simpl; lia).
  by rewrite insert_app_r_alt, Nat.sub_diag by lia.
Qed.

Lemma encode_loop_spec src pre post j :
  length pre = j → EncodedLen (length src) ≤ length post →
  encode_loop (pre ++ post) j src =
    Some (pre ++ hex_enc src ++ drop (EncodedLen (length src)) post).
Proof.
  unfold EncodedLen. revert pre post j. induction src as [|v src IH]; intros pre post j Hj Hl.
  - done.
  - destruct post as [|x [|y post]]; simpl in Hl; [lia..|].
    destruct (hextable_lookup v) as [Hhi Hlo]. cbn [encode_loop].
    rewrite Hhi, Hlo. cbn [mbind option_bind].
    rewrite write_app by done. cbn [mbind option_bind].
    set (a := hex_digit (byte_val v / 16)). set (b := hex_digit (byte_val v mod 16)).
    replace (pre ++ a :: y :: post) with ((pre ++ [a]) ++ y :: post) by by rewrite <-app_assoc.
    rewrite write_app by (rewrite length_app; simpl; lia). cbn [mbind option_bind].
    replace ((pre ++ [a]) ++ b :: post) with ((pre ++ [a; b]) ++ post) by by rewrite <-!app_assoc.
    rewrite IH by (rewrite ?length_app; simpl; lia).
    by rewrite <-app_assoc.
Qed.

(** The indexed loop of [Decode] computes the reference decoder, provided the
    destination is long enough. *)
Lemma decode_loop_spec n src pre post i :
  length src ≤ n → length pre = i → DecodedLen (length src) ≤ length post →
  let '(bs, e) := hex_dec src in
  decode_loop (pre ++ post) i src = Some (pre ++ bs ++ drop (length bs) post, i + length bs, e).
Proof.
  unfold DecodedLen.
  revert src pre post i. induction n as [|n IH]; intros src pre post i Hn Hi Hl.
  { destruct src; [|simpl in Hn; lia]. simpl. by rewrite Nat.add_0_r. }
  destruct src as [|p [|q src]].
  - simpl. by rewrite Nat.add_0_r.
  - cbn [decode_loop hex_dec]. rewrite reverseHexTable_lookup. cbn [mbind option_bind].
    rewrite hex_val_ff. destruct (hex_val p); simpl; by rewrite Nat.add_0_r.
  - cbn [decode_loop hex_dec]. rewrite !reverseHexTable_lookup. cbn [mbind option_bind].
    rewrite !hex_val_ff.
    pose proof (hex_val_bound p) as Hp. pose proof (hex_val_bound q) as Hq.
    destruct (hex_val p) as [a|]; simpl in Hp; [|simpl; by rewrite Nat.add_0_r].
    destruct (hex_val q) as [b|]; simpl in Hq; [|simpl; by rewrite Nat.add_0_r].
    rewrite !bool_decide_eq_false_2 by done. cbn [from_option id].
    cbn [length] in Hl, Hn. rewrite half_SS in Hl.
    destruct post as [|x post]; simpl in Hl; [lia|].
    rewrite write_app by done. cbn [mbind option_bind]. rewrite nibbles_lor by done. cbn [from_option id].
    specialize (IH src (pre ++ [byte_of (16 * a + b)]) post (i + 1)).
    destruct (hex_dec src) as [bs e]. rewrite <-!app_assoc in IH. cbn [app] in IH.
    rewrite IH by (rewrite ?length_app; simpl; lia).
    cbn [length drop app]. by replace (i + S (length bs)) with (i + 1 + length bs) by lia.
Qed.

Lemma hex_dec_enc l : hex_dec (hex_enc l) = (l, None).
Proof.
  induction l as [|v l IH]; [done|]. simpl.
  destruct (hex_val_digit v) as [-> ->]. rewrite IH.
  rewrite <-N.div_mod by done. by rewrite byte_of_val.
Qed.

Lemma length_hex_dec n l bs e :
  length l ≤ n → hex_dec l = (bs, e) →
  length bs ≤ DecodedLen (length l) ∧ (e = None → length l = 2 * length bs).
Proof.
  unfold DecodedLen. revert l bs e.
  induction n as [|n IH]; intros l bs e Hn.
  { destruct l; [|simpl in Hn; lia]. intros [= <- <-]. simpl. lia. }
  destruct l as [|p [|q l]]; simpl in Hn.
  - intros [= <- <-]. simpl. lia.
  - intros [= <- <-]. simpl. split; [lia|done].
  - cbn [hex_dec]. destruct (hex_val p) as [a|], (hex_val q) as [b|];
      [|intros [= <- <-]; simpl; split; [lia|done]..].
    destruct (hex_dec l) as [bs' e'] eqn:Hd. intros [= <- <-].
    destruct (IH l bs' e') as [Hle Hok]; [lia|done|].
    cbn [length]. rewrite half_SS. split; [lia|].
    intros He. rewrite Hok by done. lia.
Qed.

Lemma EncodeToString_length s : String.length (EncodeToString s) = 2 * String.length s.
Proof.
  unfold EncodeToString. rewrite length_of_bytes, length_hex_enc, length_bytes.
  unfold EncodedLen. lia.
Qed.

Lemma DecodeString_EncodeToString s : DecodeString (EncodeToString s) = Ok s.
Proof.
  unfold DecodeString, EncodeToString. rewrite bytes_of_bytes, hex_dec_enc.
  by rewrite of_bytes_bytes.
Qed.

Lemma DecodeString_length s b :
  DecodeString s = Ok b → String.length s = 2 * String.length b.
Proof.
  unfold DecodeString. destruct (hex_dec (bytes s)) as [bs [e|]] eqn:Hd; [done|].
  intros [= <-]. eapply (length_hex_dec _ _ _ _ (Nat.le_refl _)) in Hd as [_ Hd].
  rewrite length_bytes in Hd. rewrite length_of_bytes. by apply Hd.
Qed.

Lemma EncodeToString_inj s t : EncodeToString s = EncodeToString t → s = t.
Proof.
  intros H. pose proof (DecodeString_EncodeToString s) as Hs.
  rewrite H, DecodeString_EncodeToString in Hs. by simplify_eq.
Qed.

#[export] Hint Rewrite DecodeString_EncodeToString length_hex_enc : go.

(** * Properties *)

(** Encoding into a buffer of [EncodedLen] bytes writes within bounds, fills
    exactly that buffer, and decoding the result into a buffer of [DecodedLen]
    bytes gives the source back without an error. *)
Theorem Encode_Decode_roundtrip (src dst out : list ascii) :
  length dst = EncodedLen (length src) → length out = length src →
  ∃ enc, Encode dst src = Some (enc, EncodedLen (length src)) ∧
    length enc = EncodedLen (length src) ∧
    Decode out enc = Some (src, length src, None).
Proof.
  intros Hd Ho. exists (hex_enc src). unfold Encode, Decode.
  pose proof (encode_loop_spec src [] dst 0 eq_refl) as He. simpl in He.
  rewrite He by lia. rewrite <-Hd, drop_all, app_nil_r, Hd. cbn [mbind option_bind].
  pose proof (decode_loop_spec _ (hex_enc src) [] out 0 (Nat.le_refl _) eq_refl) as Hdec.
  rewrite hex_dec_enc in Hdec. simpl in Hdec. rewrite Hdec.
  - rewrite length_hex_enc, <-Ho, drop_all, app_nil_r. auto.
  - rewrite length_hex_enc. unfold DecodedLen, EncodedLen.
    rewrite Nat.div_mul by done. lia.
Qed.

(** [Decode] never indexes outside its buffers when the destination has
    [DecodedLen] bytes, whatever the input: it returns the bytes decoded before
    the first offending one, and reports that one, or the odd length, or success. *)
Theorem Decode_total (src dst : list ascii) :
  length dst = DecodedLen (length src) →
  let '(bs, e) := hex_dec src in
  Decode dst src = Some (bs ++ drop (length bs) dst, length bs, e) ∧
  length bs ≤ length dst ∧ (e = None → length src = EncodedLen (length bs)).
Proof.
  intros Hd. pose proof (decode_loop_spec _ src [] dst 0 (Nat.le_refl _) eq_refl) as Hdec.
  destruct (hex_dec src) as [bs e] eqn:Hx. simpl in Hdec.
  destruct (length_hex_dec _ _ _ _ (Nat.le_refl _) Hx) as [Hle Hok].
  unfold Decode, EncodedLen. rewrite Hdec by lia. split; [done|]. split; [lia|].
  intros He. rewrite Hok by done. lia.
Qed.

Lemma Encode_Decode_roundtrip_witness :
  ∃ enc, Encode (repeat "0"%char 4) (bytes "Az") = Some (enc, 4) ∧ length enc = 4 ∧
    Decode (repeat "0"%char 2) enc = Some (bytes "Az", 2, None).
Proof. exact (Encode_Decode_roundtrip (bytes "Az") (repeat "0"%char 4) (repeat "0"%char 2) eq_refl eq_refl). Defined.

Lemma Decode_total_witness :
  Decode (repeat "0"%char 2) (bytes "4ag7z") = Some (bytes "J0", 1, Some (InvalidByteError "g"%char)).
Proof. exact (proj1 (Decode_total (bytes "4ag7z") (repeat "0"%char 2) eq_refl)). Defined.
