(* ===== verification/Mime.v ===== *)
(** MIME header maps: [utils/inline/mime.go], the copy of [net/textproto]'s
    header type that the WASM interface uses, and [net/http.Header], which is
    the same map with the same key canonicalisation. *)

From S2P Require Import Prelude GoStrings.
From stdpp Require Import options.

(** * The code *)

(** [type MIMEHeader map[string][]string]. A key bound to the empty slice is
    present in the map, unlike an absent key. *)
Abbreviation MIMEHeader := (gmap string (list string)).

Section valid.
Local Open Scope N_scope.

Definition header_mask : N :=
  foldr N.lor 0
    [N.shiftl (2 ^ 10 - 1) (byte_val "0"); N.shiftl (2 ^ 26 - 1) (byte_val "a");
     N.shiftl (2 ^ 26 - 1) (byte_val "A"); N.shiftl 1 (byte_val "!");
     N.shiftl 1 (byte_val "#"); N.shiftl 1 (byte_val "$"); N.shiftl 1 (byte_val "%");
     N.shiftl 1 (byte_val "&"); N.shiftl 1 (byte_val "'"); N.shiftl 1 (byte_val "*");
     N.shiftl 1 (byte_val "+"); N.shiftl 1 (byte_val "-"); N.shiftl 1 (byte_val ".");
     N.shiftl 1 (byte_val "^"); N.shiftl 1 (byte_val "_"); N.shiftl 1 (byte_val "`");
     N.shiftl 1 (byte_val "|"); N.shiftl 1 (byte_val "~")].

(** [uint64(1) << c]: shifts of 64 and more give zero. *)
Definition shl1_64 (c : N) : N := N.land (N.shiftl 1 c) (2 ^ 64 - 1).

(** [c-64] is computed on a byte, so it wraps below 64. *)
Definition validHeaderFieldByte (c : ascii) : bool :=
  negb (N.lor (N.land (shl1_64 (byte_val c)) (N.land header_mask (2 ^ 64 - 1)))
              (N.land (shl1_64 ((byte_val c + 256 - 64) mod 256)) (N.shiftr header_mask 64))
        =? 0).
End valid.

Definition commonHeaderList : list string :=
  ["Accept"; "Accept-Charset"; "Accept-Encoding"; "Accept-Language"; "Accept-Ranges";
   "Cache-Control"; "Cc"; "Connection"; "Content-Id"; "Content-Language";
   "Content-Length"; "Content-Transfer-Encoding"; "Content-Type"; "Cookie"; "Date";
   "Dkim-Signature"; "Etag"; "Expires"; "From"; "Host"; "If-Modified-Since";
   "If-None-Match"; "In-Reply-To"; "Last-Modified"; "Location"; "Message-Id";
   "Mime-Version"; "Pragma"; "Received"; "Return-Path"; "Server"; "Set-Cookie";
   "Subject"; "To"; "User-Agent"; "Via"; "X-Forwarded-For"; "X-Imforwards";
   "X-Powered-By"].

(** [initCommonHeader]. *)
Definition commonHeader : gmap string string :=
  list_to_map ((λ v, (v, v)) <$> commonHeaderList).

(** One byte of the canonicalisation loop: upper case at the start and after a dash. *)
Definition canon_byte (upper : bool) (c : ascii) : ascii :=
  if upper && in_range "a" "z" c then byte_of (byte_val c - 32)
  else if negb upper && in_range "A" "Z" c then byte_of (byte_val c + 32)
  else c.

Fixpoint canon_loop (upper : bool) (a : string) : string :=
  match a with
  | EmptyString => ""
  | String c a =>
      let c := canon_byte upper c in
      String c (canon_loop (bool_decide (c = "-"%char)) a)
  end.

(** The first scan of [canonicalMIMEHeaderKey]: [None] when a byte is neither a
    token byte nor a space, else whether a space was seen. *)
Fixpoint scan_key (a : string) (noCanon : bool) : option bool :=
  match a with
  | EmptyString => Some noCanon
  | String c a =>
      if validHeaderFieldByte c then scan_key a noCanon
      else if bool_decide (c = " "%char) then scan_key a true
      else None
  end.

(** The slow path: the key and whether it holds valid bytes and spaces only. *)
Definition canonicalMIMEHeaderKey (a : string) : string * bool :=
  match a with
  | EmptyString => ("", false)
  | _ =>
      match scan_key a false with
      | None => (a, false)
      | Some true => (a, true)
      | Some false =>
          let a := canon_loop true a in
          match commonHeader !! a with
          | Some v => if bool_decide (v = "") then (a, true) else (v, true)
          | None => (a, true)
          end
      end
  end.

(** The quick check: leaves the loop for the slow path at the first byte whose
    case is not canonical. [s] is the whole key, [rest] the part not scanned. *)
Fixpoint quick_check (s : string) (upper : bool) (rest : string) : string :=
  match rest with
  | EmptyString => s
  | String c rest =>
      if negb (validHeaderFieldByte c) then s
      else if upper && in_range "a" "z" c then (canonicalMIMEHeaderKey s).1
      else if negb upper && in_range "A" "Z" c then (canonicalMIMEHeaderKey s).1
      else quick_check s (bool_decide (c = "-"%char)) rest
  end.

Definition CanonicalMIMEHeaderKey (s : string) : string := quick_check s true s.

Definition hdr_Add (h : MIMEHeader) (key value : string) : MIMEHeader :=
  let key := CanonicalMIMEHeaderKey key in
  <[key := default [] (h !! key) ++ [value]]> h.

Definition hdr_Set (h : MIMEHeader) (key value : string) : MIMEHeader :=
  <[CanonicalMIMEHeaderKey key := [value]]> h.

Definition hdr_Values (h : MIMEHeader) (key : string) : list string :=
  default [] (h !! CanonicalMIMEHeaderKey key).

Definition hdr_Get (h : MIMEHeader) (key : string) : string :=
  match default [] (h !! CanonicalMIMEHeaderKey key) with [] => "" | v :: _ => v end.

Definition hdr_Del (h : MIMEHeader) (key : string) : MIMEHeader :=
  delete (CanonicalMIMEHeaderKey key) h.

(** * Lemmas *)

(** A token byte of RFC 7230. *)
Definition token_byte (c : ascii) : bool :=
  in_range "0" "9" c || in_range "a" "z" c || in_range "A" "Z" c ||
  bool_decide (c ∈ bytes "!#$%&'*+-.^_`|~").

Lemma validHeaderFieldByte_token : ∀ c, validHeaderFieldByte c = token_byte c.
Proof. by_all_bytes. Qed.

Lemma commonHeader_id k v : commonHeader !! k = Some v → v = k.
Proof.
  intros Hk%elem_of_list_to_map_2. apply list_elem_of_fmap in Hk as (x & [= -> ->] & _). done.
Qed.

(** Interning is the identity on the text of the key. *)
Lemma canonicalMIMEHeaderKey_eq a :
  (canonicalMIMEHeaderKey a).1 =
  match scan_key a false with Some false => canon_loop true a | _ => a end.
Proof.
  unfold canonicalMIMEHeaderKey. destruct a as [|c a]; [done|].
  destruct (scan_key (String c a) false) as [[]|]; [done| |done].
  destruct (commonHeader !! _) as [v|] eqn:Hv; [|done].
  apply commonHeader_id in Hv as ->. by case_bool_decide.
Qed.

Lemma scan_key_true a : scan_key a true = Some true ∨ scan_key a true = None.
Proof.
  induction a as [|c a IH]; simpl; [by left|].
  destruct (validHeaderFieldByte c); [done|]. case_bool_decide; [done|by right].
Qed.

Definition all_valid (s : string) : bool := string_forallb validHeaderFieldByte s.

Lemma scan_key_valid a : scan_key a false = Some false ↔ all_valid a = true.
Proof.
  unfold all_valid. induction a as [|c a IH]; [done|].
  rewrite string_forallb_cons. simpl.
  destruct (validHeaderFieldByte c); simpl; [done|].
  case_bool_decide; [|done]. destruct (scan_key_true a) as [-> | ->]; done.
Qed.

Lemma canonical_valid a : all_valid a = true → (canonicalMIMEHeaderKey a).1 = canon_loop true a.
Proof. intros H%scan_key_valid. by rewrite canonicalMIMEHeaderKey_eq, H. Qed.

Lemma canonical_invalid a : all_valid a = false → (canonicalMIMEHeaderKey a).1 = a.
Proof.
  intros H. rewrite canonicalMIMEHeaderKey_eq.
  destruct (scan_key a false) as [[]|] eqn:Hs; try done.
  apply scan_key_valid in Hs. congruence.
Qed.

Lemma canon_byte_fix upper c :
  upper && in_range "a" "z" c = false → negb upper && in_range "A" "Z" c = false →
  canon_byte upper c = c.
Proof. unfold canon_byte. by intros -> ->. Qed.

Lemma canon_byte_dash : ∀ c,
  (canon_byte true c = "-"%char ↔ c = "-"%char) ∧
  (canon_byte false c = "-"%char ↔ c = "-"%char).
Proof. by_all_bytes. Qed.

Lemma canon_byte_lower : ∀ c,
  canon_byte true c = canon_byte true (lower_byte c) ∧
  canon_byte false c = canon_byte false (lower_byte c) ∧
  validHeaderFieldByte c = validHeaderFieldByte (lower_byte c).
Proof. by_all_bytes. Qed.

Lemma canon_byte_idemp : ∀ c,
  canon_byte true (canon_byte true c) = canon_byte true c ∧
  canon_byte false (canon_byte false c) = canon_byte false c ∧
  validHeaderFieldByte (canon_byte true c) = validHeaderFieldByte c ∧
  validHeaderFieldByte (canon_byte false c) = validHeaderFieldByte c.
Proof. by_all_bytes. Qed.

Lemma canon_byte_dash_eq upper c :
  bool_decide (canon_byte upper c = "-"%char) = bool_decide (c = "-"%char).
Proof.
  destruct (canon_byte_dash c) as [Ht Hf].
  by apply bool_decide_ext; destruct upper.
Qed.

Lemma canon_loop_idemp upper a : canon_loop upper (canon_loop upper a) = canon_loop upper a.
Proof.
  revert upper. induction a as [|c a IH]; intros upper; [done|]. simpl.
  assert (canon_byte upper (canon_byte upper c) = canon_byte upper c) as ->
    by (destruct upper; apply canon_byte_idemp).
  by rewrite IH.
Qed.

Lemma canon_loop_valid upper a : all_valid (canon_loop upper a) = all_valid a.
Proof.
  unfold all_valid. revert upper. induction a as [|c a IH]; intros upper; [done|].
  simpl. rewrite !string_forallb_cons, IH. f_equal.
  destruct upper; apply canon_byte_idemp.
Qed.

(** The quick scan agrees with the slow path on every key. *)
Lemma quick_check_slow s upper rest :
  (all_valid s = all_valid rest) →
  (canon_loop upper rest = rest → canon_loop true s = s) →
  quick_check s upper rest = (canonicalMIMEHeaderKey s).1.
Proof.
  revert upper. induction rest as [|c rest IH]; intros upper Hval Hfix; simpl.
  - by rewrite canonical_valid, Hfix.
  - unfold all_valid in Hval at 2. rewrite string_forallb_cons in Hval.
    destruct (validHeaderFieldByte c) eqn:Hc; simpl in *.
    + destruct (upper && in_range "a" "z" c) eqn:Hl; [done|].
      destruct (negb upper && in_range "A" "Z" c) eqn:Hu; [done|].
      rewrite canon_byte_fix in Hfix by done.
      apply IH; [done|]. intros Hr. apply Hfix. by rewrite Hr.
    + by rewrite canonical_invalid.
Qed.

Lemma Canonical_slow s : CanonicalMIMEHeaderKey s = (canonicalMIMEHeaderKey s).1.
Proof. by apply quick_check_slow. Qed.

Fixpoint lower_string (s : string) : string :=
  match s with EmptyString => "" | String c s => String (lower_byte c) (lower_string s) end.

Lemma canon_loop_lower upper a : canon_loop upper a = canon_loop upper (lower_string a).
Proof.
  revert upper. induction a as [|c a IH]; intros upper; [done|]. simpl.
  assert (canon_byte upper (lower_byte c) = canon_byte upper c) as ->
    by (destruct (canon_byte_lower c) as (Ht & Hf & _); destruct upper; congruence).
  by rewrite IH.
Qed.

Lemma all_valid_lower a : all_valid (lower_string a) = all_valid a.
Proof.
  unfold all_valid. induction a as [|c a IH]; [done|]. simpl.
  rewrite !string_forallb_cons, IH. by destruct (canon_byte_lower c) as (_ & _ & <-).
Qed.

Lemma Canonical_idemp s :
  CanonicalMIMEHeaderKey (CanonicalMIMEHeaderKey s) = CanonicalMIMEHeaderKey s.
Proof.
  rewrite !Canonical_slow. destruct (all_valid s) eqn:Hv.
  - rewrite (canonical_valid s), canonical_valid by (by rewrite ?canon_loop_valid).
    apply canon_loop_idemp.
  - by rewrite !canonical_invalid by (by rewrite ?canonical_invalid).
Qed.

Lemma Canonical_case s t :
  lower_string s = lower_string t → all_valid s = true →
  CanonicalMIMEHeaderKey s = CanonicalMIMEHeaderKey t.
Proof.
  intros Hl Hv. rewrite !Canonical_slow, !canonical_valid; [|rewrite <-all_valid_lower, <-Hl, all_valid_lower|]; try done.
  by rewrite canon_loop_lower, Hl, <-canon_loop_lower.
Qed.

(** Header operations seen through [hdr_Values]. *)
Lemma hdr_Values_Set h k v k' :
  hdr_Values (hdr_Set h k v) k' =
  if decide (CanonicalMIMEHeaderKey k = CanonicalMIMEHeaderKey k') then [v] else hdr_Values h k'.
Proof. unfold hdr_Values, hdr_Set. rewrite lookup_insert. by case_decide. Qed.

Lemma hdr_Values_Del h k k' :
  hdr_Values (hdr_Del h k) k' =
  if decide (CanonicalMIMEHeaderKey k = CanonicalMIMEHeaderKey k') then [] else hdr_Values h k'.
Proof. unfold hdr_Values, hdr_Del. rewrite lookup_delete. by case_decide. Qed.

Lemma hdr_Values_Add h k v k' :
  hdr_Values (hdr_Add h k v) k' =
  if decide (CanonicalMIMEHeaderKey k = CanonicalMIMEHeaderKey k')
  then hdr_Values h k ++ [v] else hdr_Values h k'.
Proof. unfold hdr_Values, hdr_Add. rewrite lookup_insert. by case_decide. Qed.

Lemma hdr_Get_Values h k : hdr_Get h k = default "" (head (hdr_Values h k)).
Proof. unfold hdr_Get, hdr_Values. by destruct (default [] _). Qed.

(** * Properties *)

(** The quick scan of [CanonicalMIMEHeaderKey] is only an optimisation: for
    every key, valid or not, its result is the one of the slow path; it is a
    fixed point of the canonicalisation, and any two spellings of a valid key
    that differ in letter case only get the same result. *)
Theorem CanonicalMIMEHeaderKey_correct (s : string) :
  CanonicalMIMEHeaderKey s = (canonicalMIMEHeaderKey s).1 ∧
  CanonicalMIMEHeaderKey (CanonicalMIMEHeaderKey s) = CanonicalMIMEHeaderKey s ∧
  (all_valid s = false → CanonicalMIMEHeaderKey s = s) ∧
  (∀ t, all_valid s = true → lower_string s = lower_string t →
    CanonicalMIMEHeaderKey s = CanonicalMIMEHeaderKey t).
Proof.
  split; [apply Canonical_slow|]. split; [apply Canonical_idemp|].
  split; [intros H; by rewrite Canonical_slow, canonical_invalid|].
  intros t Hv Hl. by apply Canonical_case.
Qed.

(** [validHeaderFieldByte]'s 128-bit mask and byte-wide subtraction accept
    exactly the token bytes of RFC 7230, on all 256 bytes. *)
Theorem validHeaderFieldByte_rfc7230 (c : ascii) :
  validHeaderFieldByte c = true ↔
  (in_range "0" "9" c || in_range "a" "z" c || in_range "A" "Z" c = true) ∨
  c ∈ bytes "!#$%&'*+-.^_`|~".
Proof.
  rewrite validHeaderFieldByte_token. unfold token_byte.
  rewrite orb_true_iff, bool_decide_eq_true. done.
Qed.
