(* ===== verification/GoTime.v ===== *)
(** Go's [time.Time] and [time.Duration], as far as the program uses them.

    A [Time] is the number of nanoseconds since the zero time (January 1, year
    1, UTC), which is what [Time.Round] rounds against; a [Duration] is a number
    of nanoseconds. Configured durations are far from the 64-bit range, so both
    are unbounded integers. *)

From S2P Require Import Prelude.
From stdpp Require Import options.

Local Open Scope Z_scope.

Definition Time := Z.
Definition Duration := Z.

Definition Second : Duration := 1000000000.
Definition Hour : Duration := 3600 * Second.

(** Seconds from the zero time to the Unix epoch. *)
Definition unixToInternal : Z := 62135596800.

Definition Time_Unix (t : Time) : Z := t / Second - unixToInternal.
(** [time.Unix(sec, 0)]. *)
Definition Unix (sec : Z) : Time := (sec + unixToInternal) * Second.

Definition Time_Add (t : Time) (d : Duration) : Time := t + d.
Definition Time_Before (t u : Time) : bool := t <? u.
Definition Time_After (t u : Time) : bool := u <? t.
(** [t.Compare(u)]: -1, 0 or +1. *)
Definition Time_Compare (t u : Time) : Z :=
  if t <? u then -1 else if u <? t then 1 else 0.
(** [t.AddDate(0, 0, n)] in UTC: whole days. *)
Definition Time_AddDays (t : Time) (n : Z) : Time := t + n * (24 * Hour).

(** [t.Round(d)]: the multiple of [d] since the zero time nearest to [t],
    half-way values rounded up; [t] itself when [d <= 0]. *)
Definition Time_Round (t : Time) (d : Duration) : Time :=
  if d <=? 0 then t
  else let r := t mod d in
       if r + r <? d then t - r else t + (d - r).

(** * Lemmas *)

Lemma Time_Compare_lt t u : Time_Compare t u < 0 ↔ t < u.
Proof. unfold Time_Compare. destruct (Z.ltb_spec t u), (Z.ltb_spec u t); lia. Qed.

Lemma Time_Compare_gt t u : Time_Compare t u > 0 ↔ u < t.
Proof. unfold Time_Compare. destruct (Z.ltb_spec t u), (Z.ltb_spec u t); lia. Qed.

Lemma Time_Unix_Unix sec : Time_Unix (Unix sec) = sec.
Proof. unfold Time_Unix, Unix. rewrite Z.div_mul by done. lia. Qed.

Lemma Unix_Time_Unix t : Unix (Time_Unix t) ≤ t < Unix (Time_Unix t) + Second.
Proof.
  unfold Time_Unix, Unix. pose proof (Z.div_mod t Second ltac:(done)).
  pose proof (Z.mod_pos_bound t Second ltac:(done)). lia.
Qed.

Lemma Time_Round_multiple t d : 0 < d → Time_Round t d mod d = 0.
Proof.
  intros Hd. unfold Time_Round. rewrite (proj2 (Z.leb_gt d 0)) by lia.
  pose proof (Z.div_mod t d ltac:(lia)) as Ht.
  case_match.
  - replace (t - t mod d) with ((t / d) * d) by lia. by apply Z.mod_mul; lia.
  - replace (t + (d - t mod d)) with ((t / d + 1) * d) by lia. by apply Z.mod_mul; lia.
Qed.

Lemma Time_Round_bounds t d :
  0 < d → t - d < 2 * (Time_Round t d) - t ∧ 2 * Time_Round t d - t ≤ t + d.
Proof.
  intros Hd. unfold Time_Round. rewrite (proj2 (Z.leb_gt d 0)) by lia.
  pose proof (Z.mod_pos_bound t d Hd). destruct (Z.ltb_spec (t mod d + t mod d) d); lia.
Qed.

(** A multiple of [d] is the rounding of exactly the times at most half a
    period before it and less than half a period after it. *)
Lemma Time_Round_eq t d m :
  0 < d → m mod d = 0 → Time_Round t d = m ↔ m - d ≤ 2 * t - m < m + d.
Proof.
  intros Hd Hm. pose proof (Time_Round_bounds t d Hd).
  pose proof (Time_Round_multiple t d Hd) as Hr.
  split; [intros <-; lia|]. intros Hb.
  apply Z.mod_divide in Hr as [a Ha]; [|lia]. apply Z.mod_divide in Hm as [b Hb']; [|lia].
  enough (a = b) by congruence. nia.
Qed.

Lemma Time_Round_mono t u d : t ≤ u → Time_Round t d ≤ Time_Round u d.
Proof.
  intros Htu. destruct (decide (0 < d)) as [Hd|Hd].
  - pose proof (Time_Round_bounds t d Hd). pose proof (Time_Round_bounds u d Hd).
    pose proof (Time_Round_multiple t d Hd) as Ht.
    pose proof (Time_Round_multiple u d Hd) as Hu.
    apply Z.mod_divide in Ht as [a Ha]; [|lia]. apply Z.mod_divide in Hu as [b Hb]; [|lia].
    enough (a ≤ b) by nia. nia.
  - unfold Time_Round. by rewrite (proj2 (Z.leb_le d 0)) by lia.
Qed.
