(* ===== verification/NetAddr.v ===== *)
(** [net/netip] addresses, as far as the program uses them: an [Addr] is the
    zero value, an IPv4 address (32 bits) or an IPv6 address (128 bits and a
    zone). *)

From S2P Require Import Prelude GoCrypto.
From stdpp Require Import options.

Local Open Scope N_scope.

Inductive Addr :=
  | AddrZero
  | Addr4 (v : N)
  | Addr6 (v : N) (zone : string).

#[export] Instance Addr_eq_dec : EqDecision Addr.
Proof. solve_decision. Defined.

Record AddrPort := mkAddrPort { ap_Addr : Addr; ap_Port : N }.

(** Address values fit their width. *)
Definition addr_ok (a : Addr) : Prop :=
  match a with AddrZero => True | Addr4 v => v < 2 ^ 32 | Addr6 v _ => v < 2 ^ 128 end.

Definition Addr_Is4 (a : Addr) : bool := match a with Addr4 _ => true | _ => false end.
Definition Addr_IsValid (a : Addr) : bool := match a with AddrZero => false | _ => true end.

(** [Unmap]: the IPv4 address of an IPv4-mapped IPv6 one (::ffff:a.b.c.d), whatever its zone. *)
Definition Addr_Unmap (a : Addr) : Addr :=
  match a with
  | Addr6 v z => if N.shiftr v 32 =? 0xffff then Addr4 (N.land v (2 ^ 32 - 1)) else a
  | _ => a
  end.

(** [ip.Prefix(b)] followed by [.Addr()]: the [b] leading bits, no zone. *)
Definition Addr_PrefixAddr (a : Addr) (b : N) : Addr :=
  match a with
  | AddrZero => AddrZero
  | Addr4 v => Addr4 (N.shiftl (N.shiftr v (32 - b)) (32 - b))
  | Addr6 v _ => Addr6 (N.shiftl (N.shiftr v (128 - b)) (128 - b)) ""
  end.

Definition be_bytesN (n : nat) (v : N) : list ascii :=
  (λ k, byte_of (N.shiftr v (8 * N.of_nat k))) <$> reverse (seq 0 n).

(** [As16]: IPv4 addresses in their IPv4-mapped form, the zero address as zeroes. *)
Definition Addr_As16 (a : Addr) : string :=
  of_bytes match a with
  | AddrZero => be_bytesN 16 0
  | Addr4 v => be_bytesN 16 (N.shiftl 0xffff 32 + v)
  | Addr6 v _ => be_bytesN 16 v
  end.

(** [AsSlice]: 4 or 16 bytes, none for the zero address. *)
Definition Addr_AsSlice (a : Addr) : string :=
  of_bytes match a with
  | AddrZero => []
  | Addr4 v => be_bytesN 4 v
  | Addr6 v _ => be_bytesN 16 v
  end.

(** * Lemmas *)

Lemma shift_clear_idemp v k :
  N.shiftl (N.shiftr (N.shiftl (N.shiftr v k) k) k) k = N.shiftl (N.shiftr v k) k.
Proof. by rewrite N.shiftr_shiftl_l, N.sub_diag, N.shiftl_0_r by done. Qed.

Lemma Addr_PrefixAddr_idemp a b : Addr_PrefixAddr (Addr_PrefixAddr a b) b = Addr_PrefixAddr a b.
Proof. destruct a; simpl; by rewrite ?shift_clear_idemp. Qed.

Lemma Addr_Unmap_idemp a : Addr_Unmap (Addr_Unmap a) = Addr_Unmap a.
Proof.
  destruct a as [|v|v z]; [reflexivity..|]. unfold Addr_Unmap.
  destruct (_ =? _) eqn:E; [reflexivity|]. by rewrite E.
Qed.

Lemma length_be_bytesN n v : length (be_bytesN n v) = n.
Proof. unfold be_bytesN. by rewrite length_fmap, length_reverse, length_seq. Qed.

Lemma Addr_As16_length a : String.length (Addr_As16 a) = 16%nat.
Proof. unfold Addr_As16. rewrite length_of_bytes. destruct a; apply length_be_bytesN. Qed.

(** The bytes of a number determine it within its width. *)
Lemma be_bytesN_inj n v w :
  v < 2 ^ (8 * N.of_nat n) → w < 2 ^ (8 * N.of_nat n) →
  be_bytesN n v = be_bytesN n w → v = w.
Proof.
  intros Hv Hw Heq. apply N.bits_inj. intros i.
  destruct (decide (i < 8 * N.of_nat n)) as [Hi|Hi].
  - set (k := N.to_nat (i / 8)).
    assert (k < n)%nat as Hk.
    { unfold k. apply N.div_lt_upper_bound in Hi; [|done]. lia. }
    assert (byte_of (N.shiftr v (8 * N.of_nat k)) = byte_of (N.shiftr w (8 * N.of_nat k))) as Hb.
    { assert (reverse (seq 0 n) !! (n - 1 - k)%nat = Some k) as Hl.
      { rewrite reverse_lookup by (rewrite length_seq; lia). rewrite length_seq.
        rewrite lookup_seq. split; lia. }
      apply (f_equal (λ l : list ascii, l !! (n - 1 - k)%nat)) in Heq.
      unfold be_bytesN in Heq. rewrite !list_lookup_fmap, Hl in Heq. by simplify_eq/=. }
    apply (f_equal byte_val) in Hb. rewrite !byte_val_of in Hb.
    apply (f_equal (λ x, N.testbit x (i mod 8))) in Hb.
    assert (i mod 8 < 8) by (by apply N.mod_upper_bound).
    rewrite (N.mod_pow2_bits_low _ 8), (N.mod_pow2_bits_low _ 8), !N.shiftr_spec' in Hb by done.
    replace (i mod 8 + 8 * N.of_nat k) with i in Hb; [done|].
    unfold k. rewrite N2Nat.id, N.add_comm. apply N.div_mod'.
  - rewrite <-(N.mod_small v _ Hv), <-(N.mod_small w _ Hw).
    rewrite !N.mod_pow2_bits_high by lia. done.
Qed.
