(* ===== verification/GoURL.v ===== *)
(** Go's [net/url], as far as the program uses it: escaping, [Parse],
    [URL.String], [ParseQuery] and [Values].

    The program only looks at a host to drop it or to see whether there is one,
    so [parseHost] models the escaping and port checks and not the validation of
    an address literal between brackets. *)

From S2P Require Import Prelude GoStrings Hex.
From stdpp Require Import options.

(** * Escaping *)

Inductive encoding :=
  | encodePath | encodeHost | encodeZone | encodeUserPassword
  | encodeQueryComponent | encodeFragment.

#[export] Instance encoding_eq_dec : EqDecision encoding.
Proof. solve_decision. Defined.

Definition is_alnum (c : ascii) : bool :=
  in_range "a" "z" c || in_range "A" "Z" c || in_range "0" "9" c.

Definition one_of (s : string) (c : ascii) : bool := ContainsByte s c.

Definition dquote : string := of_bytes [byte_of 0x22].

Definition is_host_mode (mode : encoding) : bool :=
  bool_decide (mode = encodeHost ∨ mode = encodeZone).

Definition shouldEscape (c : ascii) (mode : encoding) : bool :=
  if is_alnum c then false
  else if is_host_mode mode && (one_of "!$&'()*+,;=:[]<>" c || one_of dquote c)
  then false
  else if one_of "-_.~" c then false
  else if one_of "$&+,/:;=?@" c then
    match mode with
    | encodePath => bool_decide (c = "?"%char)
    | encodeUserPassword => one_of "@/?:" c
    | encodeQueryComponent => true
    | encodeFragment => false
    | encodeHost | encodeZone => true
    end
  else if bool_decide (mode = encodeFragment) && one_of "!()*" c then false
  else true.

Definition upperhex : list ascii := bytes "0123456789ABCDEF".
Definition upper_digit (n : N) : ascii := nth (N.to_nat n) upperhex "0"%char.

Fixpoint escape (s : string) (mode : encoding) : string :=
  match s with
  | EmptyString => ""
  | String c s =>
      if bool_decide (c = " "%char) && bool_decide (mode = encodeQueryComponent)
      then String "+" (escape s mode)
      else if shouldEscape c mode
      then String "%" (String (upper_digit (byte_val c / 16))
             (String (upper_digit (byte_val c mod 16)) (escape s mode)))
      else String c (escape s mode)
  end.

(** [unescape]: the checks of the first pass and the replacement of the second, byte by byte. *)
Fixpoint unescape (s : string) (mode : encoding) : result string :=
  match s with
  | EmptyString => Ok ""
  | String "%" s =>
      match s with
      | String a (String b s) =>
          match hex_val a, hex_val b with
          | Some x, Some y =>
              let v := byte_of (16 * x + y) in
              let is25 := bool_decide (v = "%"%char) in
              if bool_decide (mode = encodeHost) && (x <? 8)%N && negb is25
              then Err (ENew "EscapeError")
              else if bool_decide (mode = encodeZone) && negb is25
                      && negb (bool_decide (v = " "%char)) && shouldEscape v encodeHost
              then Err (ENew "EscapeError")
              else match unescape s mode with Ok t => Ok (String v t) | Err e => Err e end
          | _, _ => Err (ENew "EscapeError")
          end
      | _ => Err (ENew "EscapeError")
      end
  | String c s =>
      if is_host_mode mode && (byte_val c <? 128)%N && shouldEscape c mode
      then Err (ENew "InvalidHostError")
      else let c := if bool_decide (c = "+"%char) && bool_decide (mode = encodeQueryComponent)
                    then " "%char else c in
           match unescape s mode with Ok t => Ok (String c t) | Err e => Err e end
  end.

Definition QueryEscape (s : string) : string := escape s encodeQueryComponent.
Definition QueryUnescape (s : string) : result string := unescape s encodeQueryComponent.

(** * URLs *)

Record Userinfo := mkUser { username : string; password : option string }.

Record URL := mkURL {
  Scheme : string; Opaque : string; User : option Userinfo; Host : string;
  Path : string; RawPath : string; OmitHost : bool; ForceQuery : bool;
  RawQuery : string; Fragment : string; RawFragment : string }.

Definition emptyURL : URL := mkURL "" "" None "" "" "" false false "" "" "".

Definition set_RawQuery (u : URL) (q : string) : URL :=
  mkURL (Scheme u) (Opaque u) (User u) (Host u) (Path u) (RawPath u) (OmitHost u)
    (ForceQuery u) q (Fragment u) (RawFragment u).

Definition set_Path (u : URL) (p : string) : URL :=
  mkURL (Scheme u) (Opaque u) (User u) (Host u) p (RawPath u) (OmitHost u)
    (ForceQuery u) (RawQuery u) (Fragment u) (RawFragment u).

(** The bytes before the last [sep] and those after it, when there is one. *)
Definition CutLast (s : string) (sep : ascii) : option (string * string) :=
  match Cut (rev_string s) sep with
  | (a, b, true) => Some (rev_string b, rev_string a)
  | _ => None
  end.

Fixpoint getScheme_loop (i : nat) (before rest : string) : result (option (string * string)) :=
  match rest with
  | EmptyString => Ok None
  | String c rest =>
      if in_range "a" "z" c || in_range "A" "Z" c
      then getScheme_loop (S i) (before +:+ String c "") rest
      else if in_range "0" "9" c || one_of "+-." c then
        if bool_decide (i = 0) then Ok None
        else getScheme_loop (S i) (before +:+ String c "") rest
      else if bool_decide (c = ":"%char) then
        if bool_decide (i = 0) then Err (ENew "missing protocol scheme")
        else Ok (Some (before, rest))
      else Ok None
  end.

Definition getScheme (rawURL : string) : result (string * string) :=
  match getScheme_loop 0 "" rawURL with
  | Err e => Err e
  | Ok None => Ok ("", rawURL)
  | Ok (Some (s, rest)) => Ok (s, rest)
  end.

Definition validOptionalPort (port : string) : bool :=
  match port with
  | EmptyString => true
  | String ":" p => string_forallb (in_range "0" "9") p
  | _ => false
  end.

Definition validUserinfo (s : string) : bool :=
  string_forallb (λ c, is_alnum c || one_of "-._:~!$&'()*+,;=%@" c) s.

(** The text before the first ["%25"] and from it on. *)
Fixpoint cut_zone (s : string) : option (string * string) :=
  match s with
  | EmptyString => None
  | String c t =>
      if HasPrefix s "%25" then Some ("", s)
      else match cut_zone t with Some (a, b) => Some (String c a, b) | None => None end
  end.

Local Open Scope go_scope.

Definition parseHost (host : string) : result string :=
  if HasPrefix host "[" then
    match CutLast host "]" with
    | None => Err (ENew "missing ']' in host")
    | Some (inside, colonPort) =>
        if negb (validOptionalPort colonPort) then Err (ENew "invalid port after host")
        else match cut_zone inside with
             | Some (h, z) =>
                 host1 <-? unescape h encodeHost; host2 <-? unescape z encodeZone;
                 host3 <-? unescape (String "]" colonPort) encodeHost;
                 Ok (host1 +:+ host2 +:+ host3)
             | None => unescape host encodeHost
             end
    end
  else match CutLast host ":" with
       | Some (_, port) =>
           if validOptionalPort (String ":" port) then unescape host encodeHost
           else Err (ENew "invalid port after host")
       | None => unescape host encodeHost
       end.

Definition parseAuthority (authority : string) : result (option Userinfo * string) :=
  match CutLast authority "@" with
  | None => host <-? parseHost authority; Ok (None, host)
  | Some (userinfo, h) =>
      host <-? parseHost h;
      if negb (validUserinfo userinfo) then Err (ENew "net/url: invalid userinfo")
      else match Cut userinfo ":" with
           | (_, _, false) =>
               u <-? unescape userinfo encodeUserPassword; Ok (Some (mkUser u None), host)
           | (name, pass, true) =>
               u <-? unescape name encodeUserPassword;
               p <-? unescape pass encodeUserPassword; Ok (Some (mkUser u (Some p)), host)
           end
  end.

Definition is_ctl (c : ascii) : bool := (byte_val c <? 32)%N || (byte_val c =? 127)%N.

(** The query part: a lone trailing question mark sets [ForceQuery]. *)
Definition cut_query (rest : string) : bool * string * string :=
  match Cut rest "?" with
  | (before, "", true) => (true, before, "")
  | (before, after, _) => (false, before, after)
  end.

Definition first_segment_has_colon (p : string) : bool :=
  let '(segment, _, _) := Cut p "/" in ContainsByte segment ":".

Definition parse (rawURL : string) (viaRequest : bool) : result URL :=
  if string_existsb is_ctl rawURL
  then Err (ENew "net/url: invalid control character in URL")
  else if bool_decide (rawURL = "") && viaRequest then Err (ENew "empty url")
  else if bool_decide (rawURL = "*")
  then Ok (mkURL "" "" None "" "*" "" false false "" "" "")
  else
    sr <-? getScheme rawURL;
    let scheme := ToLower sr.1 in
    let '(force, rest, query) := cut_query sr.2 in
    let slash := HasPrefix rest "/" in
    if negb slash && negb (bool_decide (scheme = ""))
    then Ok (mkURL scheme rest None "" "" "" false force query "" "")
    else if negb slash && viaRequest then Err (ENew "invalid URI for request")
    else if negb slash && first_segment_has_colon rest
    then Err (ENew "first path segment in URL cannot contain colon")
    else
      let has_auth := (negb (bool_decide (scheme = ""))
                       || (negb viaRequest && negb (HasPrefix rest "///")))
                      && HasPrefix rest "//" in
      let omit := negb has_auth && negb (bool_decide (scheme = "")) && slash in
      ahp <-? (if has_auth then
                 let a := default "" (strip_prefix "//" rest) in
                 let '(authority, p, found) := Cut a "/" in
                 uh <-? parseAuthority authority;
                 Ok (uh.1, uh.2, if found : bool then String "/" p else "")
               else Ok (None, "", rest));
      path <-? unescape ahp.2 encodePath;
      let rawpath := if bool_decide (escape path encodePath = ahp.2) then "" else ahp.2 in
      Ok (mkURL scheme "" ahp.1.1 ahp.1.2 path rawpath omit force query "" "").

Definition Parse (rawURL : string) : result URL :=
  let '(u, frag, _) := Cut rawURL "#" in
  url <-? parse u false;
  if bool_decide (frag = "") then Ok url
  else fr <-? unescape frag encodeFragment;
       let rawfrag := if bool_decide (escape fr encodeFragment = frag) then "" else frag in
       Ok (mkURL (Scheme url) (Opaque url) (User url) (Host url) (Path url) (RawPath url)
             (OmitHost url) (ForceQuery url) (RawQuery url) fr rawfrag).

Definition ParseRequestURI (rawURL : string) : result URL := parse rawURL true.

Definition validEncoded (s : string) (mode : encoding) : bool :=
  string_forallb (λ c, one_of "!$&'()*+,;=:@" c || one_of "[]" c
                       || bool_decide (c = "%"%char) || negb (shouldEscape c mode)) s.

Definition escaped_part (raw decoded : string) (mode : encoding) : string :=
  if negb (bool_decide (raw = "")) && validEncoded raw mode
     && bool_decide (unescape raw mode = Ok decoded) then raw
  else escape decoded mode.

Definition EscapedPath (u : URL) : string :=
  if negb (bool_decide (RawPath u = "")) && validEncoded (RawPath u) encodePath
     && bool_decide (unescape (RawPath u) encodePath = Ok (Path u)) then RawPath u
  else if bool_decide (Path u = "*") then "*"
  else escape (Path u) encodePath.

Definition EscapedFragment (u : URL) : string :=
  escaped_part (RawFragment u) (Fragment u) encodeFragment.

Definition Userinfo_String (ui : Userinfo) : string :=
  escape (username ui) encodeUserPassword +:+
  match password ui with
  | Some p => ":" +:+ escape p encodeUserPassword
  | None => ""
  end.

Definition URL_prefix (u : URL) : string :=
  (if bool_decide (Scheme u = "") then "" else Scheme u +:+ ":").

Definition URL_authority (u : URL) : string :=
  if bool_decide (Scheme u = "") && bool_decide (Host u = "") && negb (bool_decide (is_Some (User u)))
  then ""
  else if OmitHost u && bool_decide (Host u = "") && negb (bool_decide (is_Some (User u))) then ""
  else
    (if negb (bool_decide (Host u = "")) || negb (bool_decide (Path u = ""))
        || bool_decide (is_Some (User u)) then "//" else "") +:+
    match User u with Some ui => Userinfo_String ui +:+ "@" | None => "" end +:+
    escape (Host u) encodeHost.

Definition URL_String (u : URL) : string :=
  let head :=
    if negb (bool_decide (Opaque u = "")) then URL_prefix u +:+ Opaque u
    else
      let buf := URL_prefix u +:+ URL_authority u in
      let path := EscapedPath u in
      let buf := buf +:+ (if negb (bool_decide (path = "")) && negb (HasPrefix path "/")
                             && negb (bool_decide (Host u = "")) then "/" else "") in
      let buf := buf +:+ (if bool_decide (buf = "") && first_segment_has_colon path
                          then "./" else "") in
      buf +:+ path in
  head +:+ (if ForceQuery u || negb (bool_decide (RawQuery u = ""))
            then "?" +:+ RawQuery u else "") +:+
  (if bool_decide (Fragment u = "") then "" else "#" +:+ EscapedFragment u).

(** * Query values *)

Abbreviation Values := (gmap string (list string)).

Definition values_Get (v : Values) (key : string) : string :=
  match default [] (v !! key) with [] => "" | x :: _ => x end.
Definition values_Set (v : Values) (key value : string) : Values := <[key := [value]]> v.
Definition values_Del (v : Values) (key : string) : Values := delete key v.
Definition values_Has (v : Values) (key : string) : bool := bool_decide (is_Some (v !! key)).
Definition values_Append (v : Values) (key value : string) : Values :=
  <[key := default [] (v !! key) ++ [value]]> v.

(** One component of a query: skipped when it holds a semicolon, is empty or
    is wrongly escaped. *)
Definition query_component (m : Values) (comp : string) : Values :=
  if ContainsByte comp ";" then m
  else if bool_decide (comp = "") then m
  else let '(key, value, _) := Cut comp "=" in
       match QueryUnescape key, QueryUnescape value with
       | Ok k, Ok v => values_Append m k v
       | _, _ => m
       end.

(** [u.Query()]: [ParseQuery] with its error ignored. *)
Definition ParseQuery (query : string) : Values :=
  foldl query_component ∅ (Split query "&").

Definition URL_Query (u : URL) : Values := ParseQuery (RawQuery u).

(** The keys of a map in byte order: [slices.Sorted(maps.Keys(v))]. *)
Definition sorted_keys {A} (m : gmap string A) : list string :=
  merge_sort String.le (map_to_list m).*1.

(** [Values.Encode]. *)
Definition Values_Encode (v : Values) : string :=
  Join (k ← sorted_keys v;
        (λ x, QueryEscape k +:+ "=" +:+ QueryEscape x) <$> default [] (v !! k)) "&".
