(* ===== verification/UtilsHttp.v ===== *)
(** [utils/http.go]: raw query strings, backend selection, redirect cleaning and
    request properties.

    The raw query functions keep percent escapes as they are, unlike
    [net/url]'s, so that a query forwarded to a backend is not re-encoded. *)

From S2P Require Import Prelude GoStrings GoURL Mime.
From stdpp Require Import options.

(** * Raw queries *)

(** The body of [ParseRawQuery]'s loop for one component. *)
Definition raw_component (st : Values * option goerr) (comp : string) : Values * option goerr :=
  if ContainsByte comp ";"
  then (st.1, Some (ENew "invalid semicolon separator in query"))
  else if bool_decide (comp = "") then st
  else let '(key, value, _) := Cut comp "=" in (values_Append st.1 key value, st.2).

(** [for rawQuery != "" { .. }]; each round drops at least one byte. *)
Fixpoint raw_loop (fuel : nat) (st : Values * option goerr) (rawQuery : string) :
    Values * option goerr :=
  match fuel, rawQuery with
  | 0, _ | _, EmptyString => st
  | S fuel, _ =>
      let '(key, rest, _) := Cut rawQuery "&" in
      raw_loop fuel (raw_component st key) rest
  end.

Definition ParseRawQuery (rawQuery : string) : Values * option goerr :=
  raw_loop (String.length rawQuery) (∅, None) rawQuery.

(** One value written to the buffer of [EncodeRawQuery]. *)
Definition raw_write (buf k v : string) : string :=
  let buf := if bool_decide (buf = "") then buf else buf +:+ "&" in
  let buf := buf +:+ k in
  if bool_decide (v = "") then buf else buf +:+ "=" +:+ v.

Definition EncodeRawQuery (v : Values) : string :=
  if bool_decide (v = ∅) then ""
  else foldl (λ buf k, foldl (λ buf x, raw_write buf k x) buf (default [] (v !! k)))
         "" (sorted_keys v).

(** Deleting the keys with a prefix: [for key := range q { if HasPrefix .. { q.Del(key) } }]. *)
Definition delete_prefix (prefix : string) (v : Values) : Values :=
  filter (λ kv, HasPrefix kv.1 prefix = false) v.

(** * Backend selection *)

(** ["*." + strings.Join(strings.Split(host, ".")[1:], ".")]. *)
Definition wildcard (host : string) : string := "*." +:+ Join (tail (Split host ".")) ".".

(** [SelectHTTPHandler]: a missing key gives the nil handler, here [None]. *)
Definition SelectHTTPHandler {B} (backends : gmap string B) (host : string) : option B :=
  match backends !! host with
  | Some b => Some b
  | None =>
      match backends !! wildcard host with
      | Some b => Some b
      | None => backends !! "*"
      end
  end.

(** * Redirects *)

(** The URL [EnsureNoOpenRedirect] prints: scheme, host, user and opaque part cleared. *)
Definition clear_origin (u : URL) : URL :=
  mkURL "" "" None "" (Path u) (RawPath u) true (ForceQuery u) (RawQuery u)
    (Fragment u) (RawFragment u).

Definition EnsureNoOpenRedirect (redirect : string) : result string :=
  match Parse redirect with
  | Err e => Err e
  | Ok uri =>
      let uri := clear_origin uri in
      if negb (bool_decide (Path uri = "")) && negb (HasPrefix (Path uri) "/")
      then Err (ENew "invalid redirect path")
      else Ok (URL_String uri)
  end.

(** * Request properties *)

(** [GetRequestScheme] of the request's headers and whether it came over TLS. *)
Definition GetRequestScheme (header : MIMEHeader) (tls : bool) : string :=
  let proto := hdr_Get header "X-Forwarded-Proto" in
  if bool_decide (proto = "http") || bool_decide (proto = "https") then proto
  else if tls then "https" else "http".

(** * Lemmas *)

Lemma Split_app_gen s sep t : Split (s +:+ String sep t) sep = Split s sep ++ Split t sep.
Proof.
  induction s as [|c s IH].
  - simpl. by rewrite decide_True.
  - rewrite string_app_cons. simpl. case_decide; [by rewrite IH|].
    rewrite IH. pose proof (Split_not_nil s sep). by destruct (Split s sep).
Qed.

(** The loop is a fold over the components between ampersands. *)
Lemma raw_loop_fold fuel st s :
  String.length s ≤ fuel → raw_loop fuel st s = foldl raw_component st (Split s "&").
Proof.
  revert st s. induction fuel as [|fuel IH]; intros st s Hf.
  { by destruct s; [|simpl in Hf; lia]. }
  destruct (decide (s = "")) as [->|Hs]; [done|].
  assert (raw_loop (S fuel) st s =
    let '(key, rest, _) := Cut s "&" in raw_loop fuel (raw_component st key) rest) as ->
    by by destruct s.
  destruct (Cut s "&") as [[b a] f] eqn:Hcut.
  pose proof (Cut_length _ _ _ _ _ Hcut Hs) as Hlen.
  rewrite IH by lia. destruct f.
  - apply Cut_found in Hcut as [Hb ->]. by rewrite Split_app.
  - pose proof (Cut_not_found _ _ _ _ Hcut) as ->.
    apply Cut_found in Hcut as [Hb ->]. by rewrite (Split_absent b).
Qed.

Lemma ParseRawQuery_fold s : ParseRawQuery s = foldl raw_component (∅, None) (Split s "&").
Proof. by apply raw_loop_fold. Qed.

(** What parsing learns from [s] after [st]; joining texts with an ampersand composes. *)
Definition parse_from (st : Values * option goerr) (s : string) : Values * option goerr :=
  foldl raw_component st (Split s "&").

Lemma parse_from_amp st s t : parse_from st (s +:+ String "&" t) = parse_from (parse_from st s) t.
Proof. unfold parse_from. by rewrite Split_app_gen, foldl_app. Qed.

Definition raw_comp (k x : string) : string := if bool_decide (x = "") then k else k +:+ "=" +:+ x.

Lemma raw_write_comp buf k x :
  raw_write buf k x =
  if bool_decide (buf = "") then raw_comp k x else buf +:+ String "&" (raw_comp k x).
Proof.
  unfold raw_write, raw_comp. destruct (bool_decide (buf = "")) eqn:Hb; go_bool; subst.
  - done.
  - case_bool_decide; by rewrite <-!string_app_assoc.
Qed.

(** Bytes that may not occur in the parts of a component. *)
Definition key_ok (k : string) : Prop :=
  ContainsByte k "&" = false ∧ ContainsByte k ";" = false ∧ ContainsByte k "=" = false.
Definition value_ok (x : string) : Prop :=
  ContainsByte x "&" = false ∧ ContainsByte x ";" = false.

(** What a parsed query looks like: no separator in a key, no ampersand or
    semicolon in a value, and no key without values. *)
Definition raw_wf (v : Values) : Prop :=
  ∀ k xs, v !! k = Some xs → key_ok k ∧ xs ≠ [] ∧ Forall value_ok xs.

Definition append_pair (m : Values) (kx : string * string) : Values :=
  if bool_decide (kx = ("", "")) then m else values_Append m kx.1 kx.2.

Lemma raw_comp_amp k x : key_ok k → value_ok x → ContainsByte (raw_comp k x) "&" = false.
Proof.
  intros (Hk & _) (Hx & _). unfold raw_comp. case_bool_decide; [done|].
  by rewrite !ContainsByte_app, Hk, Hx.
Qed.

Lemma raw_component_comp m e k x :
  key_ok k → value_ok x → raw_component (m, e) (raw_comp k x) = (append_pair m (k, x), e).
Proof.
  intros (_ & Hk & Hk') (_ & Hx). unfold raw_component, append_pair, raw_comp. simpl.
  destruct (decide (x = "")) as [->|Hne].
  - rewrite bool_decide_eq_true_2, Hk by done.
    destruct (decide (k = "")) as [->|Hke]; [done|].
    rewrite !bool_decide_eq_false_2 by congruence. by rewrite Cut_absent.
  - rewrite (bool_decide_eq_false_2 (x = "")) by done.
    rewrite !ContainsByte_app, Hk, Hx. simpl.
    change ("=" +:+ x) with (String "=" x).
    rewrite !bool_decide_eq_false_2; [by rewrite Cut_app| congruence |].
    by destruct k.
Qed.

Lemma parse_from_comp m e k x :
  key_ok k → value_ok x → parse_from (m, e) (raw_comp k x) = (append_pair m (k, x), e).
Proof.
  intros Hk Hx. unfold parse_from. rewrite Split_absent by by apply raw_comp_amp.
  by apply raw_component_comp.
Qed.

(** The pairs of a map in the order [EncodeRawQuery] writes them. *)
Definition raw_pairs (v : Values) : list (string * string) :=
  k ← sorted_keys v; (λ x, (k, x)) <$> default [] (v !! k).

Lemma foldl_mbind {A B C} (f : C → B → C) (g : A → list B) c (l : list A) :
  foldl f c (l ≫= g) = foldl (λ c a, foldl f c (g a)) c l.
Proof. revert c. induction l as [|a l IH]; intros c; csimpl; [done|]. by rewrite foldl_app, IH. Qed.

Lemma foldl_fmap {A B C} (f : C → B → C) (g : A → B) c (l : list A) :
  foldl f c (g <$> l) = foldl (λ c a, f c (g a)) c l.
Proof. revert c. induction l as [|a l IH]; intros c; csimpl; [done|]. by rewrite IH. Qed.

Lemma foldl_ext_in {A B} (f g : B → A → B) b (l : list A) :
  (∀ b a, a ∈ l → f b a = g b a) → foldl f b l = foldl g b l.
Proof.
  revert b. induction l as [|a l IH]; intros b H; [done|]. simpl.
  rewrite H by set_solver. apply IH. set_solver.
Qed.

Lemma EncodeRawQuery_pairs v :
  EncodeRawQuery v = foldl (λ buf kx, raw_write buf kx.1 kx.2) "" (raw_pairs v).
Proof.
  unfold EncodeRawQuery, raw_pairs. case_bool_decide as Hv.
  - subst. done.
  - rewrite foldl_mbind. apply foldl_ext_in. intros b k _. by rewrite foldl_fmap.
Qed.

Lemma parse_written buf l :
  Forall (λ kx : string * string, key_ok kx.1 ∧ value_ok kx.2) l →
  ∀ m, parse_from (∅, None) buf = (m, None) →
  parse_from (∅, None) (foldl (λ buf kx, raw_write buf kx.1 kx.2) buf l) =
    (foldl append_pair m l, None).
Proof.
  intros Hl. revert buf. induction Hl as [|[k x] l [Hk Hx] _ IH]; intros buf m Hm; simpl in *.
  - done.
  - apply IH. rewrite raw_write_comp. case_bool_decide as Hb.
    + subst. cbv in Hm. simplify_eq. by apply parse_from_comp.
    + rewrite parse_from_amp, Hm. by apply parse_from_comp.
Qed.

Lemma sorted_keys_perm {A} (m : gmap string A) : sorted_keys m ≡ₚ (map_to_list m).*1.
Proof. apply merge_sort_Permutation. Qed.

Lemma sorted_keys_NoDup {A} (m : gmap string A) : NoDup (sorted_keys m).
Proof. rewrite sorted_keys_perm. apply NoDup_fst_map_to_list. Qed.

Lemma elem_of_sorted_keys {A} (m : gmap string A) k : k ∈ sorted_keys m ↔ is_Some (m !! k).
Proof.
  rewrite sorted_keys_perm, list_elem_of_fmap. split.
  - intros ([k' x] & -> & Hx). apply elem_of_map_to_list in Hx. eauto.
  - intros [x Hx]. exists (k, x). by rewrite elem_of_map_to_list.
Qed.

Lemma raw_pairs_ok v :
  raw_wf v → Forall (λ kx : string * string, key_ok kx.1 ∧ value_ok kx.2) (raw_pairs v).
Proof.
  intros Hwf. apply Forall_forall. intros [k x]. unfold raw_pairs.
  rewrite list_elem_of_bind. intros (k' & Hx & Hk%elem_of_sorted_keys).
  apply list_elem_of_fmap in Hx as (x' & [= -> ->] & Hx).
  destruct Hk as [xs Hxs]. rewrite Hxs in Hx. simpl in Hx.
  destruct (Hwf _ _ Hxs) as (? & _ & Hall). rewrite Forall_forall in Hall. auto.
Qed.

(** The values that writing and reading a key back keeps: all of them, except
    the empty ones of the empty key, which leave no trace in the text. *)
Definition kept (k : string) (xs : list string) : list string :=
  filter (λ x, (k, x) ≠ ("", "")) xs.

Lemma append_values_lookup m k xs k' :
  foldl (λ m x, append_pair m (k, x)) m xs !! k' =
  if decide (k = k') then
    match kept k xs with [] => m !! k' | ys => Some (default [] (m !! k') ++ ys) end
  else m !! k'.
Proof.
  revert m. induction xs as [|x xs IH]; intros m; [by case_decide|]. simpl.
  rewrite IH. unfold append_pair, kept. simpl. rewrite filter_cons.
  destruct (decide ((k, x) ≠ ("", ""))) as [Hne|Heq].
  - rewrite bool_decide_eq_false_2 by done. unfold values_Append. rewrite lookup_insert.
    case_decide; [subst|by rewrite ?decide_False by done].
    destruct (filter _ xs); simpl; [done|]. by rewrite <-app_assoc.
  - rewrite bool_decide_eq_true_2 by (by apply dec_stable). done.
Qed.

Lemma append_keys_lookup (v : Values) ks m k' :
  NoDup ks →
  foldl (λ m k, foldl (λ m x, append_pair m (k, x)) m (default [] (v !! k))) m ks !! k' =
  if decide (k' ∈ ks) then
    match kept k' (default [] (v !! k')) with
    | [] => m !! k' | ys => Some (default [] (m !! k') ++ ys) end
  else m !! k'.
Proof.
  intros Hnd. revert m. induction Hnd as [|k ks Hk Hnd IH]; intros m; cbn [foldl].
  { by rewrite decide_False by set_solver. }
  rewrite IH, append_values_lookup. destruct (decide (k = k')) as [<-|Hne].
  - rewrite decide_False by done. by rewrite decide_True by set_solver.
  - destruct (decide (k' ∈ ks)); [rewrite decide_True by set_solver; done|].
    rewrite decide_False by set_solver. done.
Qed.

Lemma ParseRawQuery_Encode v :
  raw_wf v →
  (ParseRawQuery (EncodeRawQuery v)).2 = None ∧
  ∀ k, (ParseRawQuery (EncodeRawQuery v)).1 !! k =
    xs ← v !! k; match kept k xs with [] => None | ys => Some ys end.
Proof.
  intros Hwf. rewrite ParseRawQuery_fold. fold (parse_from (∅, None) (EncodeRawQuery v)).
  rewrite EncodeRawQuery_pairs.
  rewrite (parse_written "" _ (raw_pairs_ok v Hwf) ∅) by done. split; [done|]. intros k. simpl.
  unfold raw_pairs. rewrite foldl_mbind.
  rewrite (foldl_ext_in _ (λ m k, foldl (λ m x, append_pair m (k, x)) m (default [] (v !! k))))
    by (intros; by rewrite foldl_fmap).
  rewrite append_keys_lookup by apply sorted_keys_NoDup.
  destruct (v !! k) as [xs|] eqn:Hk.
  - rewrite decide_True by (apply elem_of_sorted_keys; eauto). simpl.
    rewrite lookup_empty. by destruct (kept k xs).
  - rewrite decide_False; [by rewrite lookup_empty|].
    rewrite elem_of_sorted_keys, Hk. by intros [??].
Qed.

Lemma kept_nonempty k xs : k ≠ "" → kept k xs = xs.
Proof.
  intros Hk. unfold kept. induction xs as [|x xs IH]; [done|].
  rewrite filter_cons_True, IH by congruence. done.
Qed.

(** Every query parses to a well-formed map. *)
Lemma raw_component_wf st comp :
  ContainsByte comp "&" = false → raw_wf st.1 → raw_wf (raw_component st comp).1.
Proof.
  intros Hamp Hwf. unfold raw_component. destruct (ContainsByte comp ";") eqn:Hsemi; [done|].
  case_bool_decide; [done|]. destruct (Cut comp "=") as [[key value] f] eqn:Hcut. simpl.
  assert (key_ok key ∧ value_ok value) as [Hk Hx].
  { pose proof Hcut as Hcut'. apply Cut_found in Hcut as [Heq Hc]. destruct f; subst.
    - rewrite ContainsByte_app, ContainsByte_cons in Hamp, Hsemi.
      apply orb_false_iff in Hamp as [? ?], Hsemi as [? ?]. done.
    - apply Cut_not_found in Hcut' as ->. done. }
  intros k xs. unfold values_Append. rewrite lookup_insert. case_decide as Heq.
  - intros [= <-]. subst k. split; [done|]. split; [by destruct (default _ _)|].
    apply Forall_app. split; [|by constructor].
    destruct (st.1 !! key) as [ys|] eqn:Hy; simpl; [|constructor].
    by apply Hwf in Hy as (_ & _ & ?).
  - apply Hwf.
Qed.

Lemma Split_parts s sep : Forall (λ x, ContainsByte x sep = false) (Split s sep).
Proof.
  induction s as [|c s IH]; simpl; [by repeat constructor|].
  case_decide as Hc; [by constructor|].
  pose proof (Split_not_nil s sep). destruct (Split s sep) as [|x xs]; [done|].
  apply Forall_cons in IH as [Hx Hxs]. constructor; [|done].
  by rewrite ContainsByte_cons, Hx, bool_decide_eq_false_2.
Qed.

Lemma ParseRawQuery_wf s : raw_wf (ParseRawQuery s).1.
Proof.
  rewrite ParseRawQuery_fold.
  pose proof (Split_parts s "&") as Hparts. revert Hparts.
  assert (raw_wf (@fst Values (option goerr) (∅, None))) as Hwf
    by (intros k xs; simpl; by rewrite lookup_empty).
  revert Hwf. generalize (@pair Values (option goerr) ∅ None).
  induction (Split s "&") as [|x xs IH]; intros st Hwf Hparts; simpl; [done|].
  apply Forall_cons in Hparts as [Hx Hxs]. apply IH; [|done]. by apply raw_component_wf.
Qed.

Lemma delete_prefix_lookup p v k :
  delete_prefix p v !! k = if HasPrefix k p then None else v !! k.
Proof.
  unfold delete_prefix. destruct (v !! k) as [xs|] eqn:Hk.
  - destruct (HasPrefix k p) eqn:Hp.
    + apply map_lookup_filter_None. right. intros x Hx. simpl. by rewrite Hp.
    + apply map_lookup_filter_Some. done.
  - transitivity (@None (list string)); [|by case_match].
    apply map_lookup_filter_None. by left.
Qed.

Lemma delete_prefix_wf p v : raw_wf v → raw_wf (delete_prefix p v).
Proof. intros Hwf k xs. rewrite delete_prefix_lookup. case_match; [done|]. apply Hwf. Qed.

#[export] Hint Resolve ParseRawQuery_wf delete_prefix_wf : go.

(** * Properties *)

(** Encoding a query map and parsing the text back is the identity, without an
    error, for every map with non-empty keys that parsing can produce; repeated
    keys keep all their values in order, and percent escapes are untouched. *)
Theorem RawQuery_roundtrip (v : Values) :
  raw_wf v → v !! "" = None → ParseRawQuery (EncodeRawQuery v) = (v, None).
Proof.
  intros Hwf Hempty. destruct (ParseRawQuery_Encode v Hwf) as [He Hv].
  destruct (ParseRawQuery (EncodeRawQuery v)) as [m e]. simpl in *. subst. f_equal.
  apply map_eq. intros k. rewrite Hv. destruct (v !! k) as [xs|] eqn:Hk; [|done]. simpl.
  rewrite kept_nonempty by congruence. destruct (Hwf _ _ Hk) as (_ & Hne & _). by destruct xs.
Qed.

Lemma RawQuery_roundtrip_witness :
  ParseRawQuery (EncodeRawQuery {["a" := ["1"; ""; "%2F=+"]; "/b/c" := [""]]}) =
  ({["a" := ["1"; ""; "%2F=+"]; "/b/c" := [""]]}, None).
Proof.
  apply RawQuery_roundtrip; [|reflexivity].
  intros k xs [[<- <-]|[? [<- <-]%lookup_singleton_Some]]%lookup_insert_Some;
    (split; [|split]; [repeat split; reflexivity|discriminate|];
     repeat constructor; repeat split; reflexivity).
Defined.

(** Backend selection: the backend of the exact host if there is one, else of
    the wildcard that replaces the first label, else of ["*"]; without any of the
    three there is no backend. *)
Theorem SelectHTTPHandler_spec {B} (backends : gmap string B) (host : string) :
  SelectHTTPHandler backends host =
    head (omap (λ k, backends !! k) [host; wildcard host; "*"]).
Proof.
  unfold SelectHTTPHandler. csimpl.
  destruct (backends !! host); [done|]. destruct (backends !! wildcard host); [done|].
  by destruct (backends !! "*").
Qed.

(** [EnsureNoOpenRedirect] removes scheme and host but keeps the path, and a
    path that starts with two slashes prints as a network-path reference: these
    inputs give redirects to another host. *)
Theorem EnsureNoOpenRedirect_open :
  EnsureNoOpenRedirect "https://a.example//evil.example/" = Ok "//evil.example/" ∧
  EnsureNoOpenRedirect "////evil.example" = Ok "////evil.example" ∧
  (u ← match Parse "//evil.example/" with Ok u => Some u | Err _ => None end; Some (Host u)) =
    Some "evil.example".
Proof. repeat split; vm_compute; reflexivity. Qed.
