(* ===== verification/GoPath.v ===== *)
(** Parts of Go's [path] and [mime] packages: [path.Clean], [path.Join],
    [path.Ext], and [mime.ParseMediaType]. *)

From S2P Require Import Prelude GoStrings.
From stdpp Require Import options.

Local Open Scope go_scope.

(** * Paths *)

(** One path element of [path.Clean]: [acc] holds the kept elements, last first. *)
Definition clean_elem (rooted : bool) (acc : list string) (x : string) : list string :=
  if bool_decide (x = "") || bool_decide (x = ".") then acc
  else if bool_decide (x = "..") then
    match acc with
    | y :: acc' => if bool_decide (y = "..") then ".." :: acc else acc'
    | [] => if rooted then [] else [".."]
    end
  else x :: acc.

Definition Clean (p : string) : string :=
  let rooted := HasPrefix p "/" in
  let elems := reverse (foldl (clean_elem rooted) [] (Split p "/")) in
  let out := Join elems "/" in
  if rooted then "/" +:+ out else if bool_decide (out = "") then "." else out.

(** [path.Join]: the non-empty elements joined by slashes, cleaned. *)
Definition path_Join (elems : list string) : string :=
  match filter (λ e, e ≠ "") elems with
  | [] => ""
  | es => Clean (Join es "/")
  end.

(** [path.Ext]: from the last dot of the last element. *)
Fixpoint ext_scan (r : string) (acc : string) : string :=
  match r with
  | EmptyString => ""
  | String c r' =>
      if bool_decide (c = "/"%char) then ""
      else if bool_decide (c = "."%char) then String c acc
      else ext_scan r' (String c acc)
  end.

Definition Ext (p : string) : string := ext_scan (rev_string p) "".

Example Clean1 : Clean "/.well-known/../a//b/./c/" = "/a/b/c".
Proof. reflexivity. Qed.
Example Clean2 : Clean "../../x/.." = "../..".
Proof. reflexivity. Qed.
Example Ext1 : Ext "/a.b/img.tar.PNG" = ".PNG" ∧ Ext "/a.b/img" = "".
Proof. split; reflexivity. Qed.

(** * Media types *)

Definition isTSpecial (c : ascii) : bool := ContainsByte "()<>@,;:\/[]?=" c || (byte_val c =? 0x22)%N.
Definition isTokenChar (c : ascii) : bool :=
  (0x20 <? byte_val c)%N && (byte_val c <? 0x7f)%N && negb (isTSpecial c).

Fixpoint consumeToken (v : string) : string * string :=
  match v with
  | EmptyString => ("", "")
  | String c v' =>
      if isTokenChar c then let '(tok, rest) := consumeToken v' in (String c tok, rest)
      else ("", v)
  end.

(** The body of a quoted string: its value and what follows the closing quote. *)
Fixpoint quoted (v : string) : option (string * string) :=
  match v with
  | EmptyString => None
  | String c v' =>
      if (byte_val c =? 0x22)%N then Some ("", v')
      else
        match v' with
        | String d v'' =>
            if bool_decide (c = "\"%char) && isTSpecial d then
              match quoted v'' with Some (x, r) => Some (String d x, r) | None => None end
            else if (byte_val c =? 0x0D)%N || (byte_val c =? 0x0A)%N then None
            else match quoted v' with Some (x, r) => Some (String c x, r) | None => None end
        | EmptyString => None
        end
  end.

Definition consumeValue (v : string) : string * string :=
  match v with
  | EmptyString => ("", "")
  | String c v' =>
      if (byte_val c =? 0x22)%N then default ("", v) (quoted v') else consumeToken v
  end.

Definition TrimLeftSpace (s : string) : string := trim_left (String.length s) space_encodings s.

(** [consumeMediaParam]: [None] stands for the empty parameter name of a parse
    error, after which the rest is the input. *)
Definition consumeMediaParam (v : string) : option (string * string * string) :=
  match strip_prefix ";" (TrimLeftSpace v) with
  | None => None
  | Some rest =>
      let '(param, rest) := consumeToken (TrimLeftSpace rest) in
      if bool_decide (param = "") then None
      else
        match strip_prefix "=" (TrimLeftSpace rest) with
        | None => None
        | Some rest =>
            let rest := TrimLeftSpace rest in
            let '(value, rest2) := consumeValue rest in
            if bool_decide (value = "") && bool_decide (rest2 = rest) then None
            else Some (ToLower param, value, rest2)
        end
  end.

Definition checkMediaTypeDisposition (s : string) : option goerr :=
  let '(typ, rest) := consumeToken s in
  if bool_decide (typ = "") then Some (ENew "mime: no media type")
  else if bool_decide (rest = "") then None
  else
    match strip_prefix "/" rest with
    | None => Some (ENew "mime: expected slash after first token")
    | Some rest =>
        let '(subtype, rest) := consumeToken rest in
        if bool_decide (subtype = "") then Some (ENew "mime: expected token after slash")
        else if bool_decide (rest = "") then None
        else Some (ENew "mime: unexpected content after media subtype")
    end.

(** The parameter loop: every iteration consumes a byte, so the length of the
    text is enough fuel. The parameters are kept by full name (a continuation
    [a*0] lives in the map of its own base name, so names still tell them
    apart). *)
Fixpoint media_params (fuel : nat) (v : string) (params : gmap string string) (mediatype : string) :
    string * option goerr :=
  match fuel with
  | 0 => (mediatype, None)
  | S fuel =>
      let v := TrimLeftSpace v in
      if bool_decide (v = "") then (mediatype, None)
      else
        match consumeMediaParam v with
        | None =>
            if bool_decide (TrimSpace v = ";") then (mediatype, None)
            else (mediatype, Some (ENamed "mime: invalid media parameter"))
        | Some (key, value, rest) =>
            match params !! key with
            | Some v' =>
                if bool_decide (v' = value) then media_params fuel rest params mediatype
                else ("", Some (ENew "mime: duplicate parameter name"))
            | None => media_params fuel rest (<[key := value]> params) mediatype
            end
        end
  end.

(** [mime.ParseMediaType]: the media type and the error (the parameters are never
    used by the program). *)
Definition ParseMediaType (v : string) : string * option goerr :=
  let '(base, rest, found) := Cut v ";" in
  let mediatype := TrimSpace (ToLower base) in
  match checkMediaTypeDisposition mediatype with
  | Some e => ("", Some e)
  | None =>
      let v := if found : bool then String ";" rest else "" in
      media_params (S (String.length v)) v ∅ mediatype
  end.

Example ParseMediaType1 : ParseMediaType "Image/PNG; q=1; " = ("image/png", None).
Proof. vm_compute. reflexivity. Qed.
Example ParseMediaType2 : (ParseMediaType "image/png; q").2 = Some (ENamed "mime: invalid media parameter").
Proof. vm_compute. reflexivity. Qed.
Example ParseMediaType3 : (ParseMediaType "image png").1 = "".
Proof. vm_compute. reflexivity. Qed.
