(* ===== verification/Fingerprint.v ===== *)
(** [utils/fingerprint.go]: the JA3N and JA4 fingerprints of TLS client hellos. *)

From S2P Require Import Prelude GoStrings GoCrypto Hex.
From stdpp Require Import options.

Local Open Scope N_scope.

(** * Client hellos

    [tls.ClientHelloInfo], the fields fingerprints read: 16-bit numbers, bytes for
    points, texts. *)
Record ClientHelloInfo := mkHello {
  ch_CipherSuites : list N;
  ch_ServerName : string;
  ch_SupportedCurves : list N;
  ch_SupportedPoints : list N;
  ch_SignatureSchemes : list N;
  ch_SupportedProtos : list string;
  ch_SupportedVersions : list N;
  ch_Extensions : list N }.

Definition greaseMask : N := 0x0F0F.
Definition greaseValue : N := 0x0a0a.
Definition grease (v : N) : bool := N.land v greaseMask =? greaseValue.

Definition extensionServerName : N := 0.
Definition extensionALPN : N := 16.
Definition extensionSupportedVersions : N := 43.

Definition VersionSSL30 : N := 0x300.
Definition VersionTLS10 : N := 0x301.
Definition VersionTLS11 : N := 0x302.
Definition VersionTLS12 : N := 0x303.
Definition VersionTLS13 : N := 0x304.

(** The loops over [SupportedVersions]: the highest version that is not GREASE. *)
Definition max_version (versions : list N) : N :=
  foldl (λ sslVersion v, if grease v then sslVersion else if sslVersion <? v then v else sslVersion) 0 versions.

(** [slices.Sort] and [slices.Contains]. *)
Definition sort (l : list N) : list N := merge_sort N.le l.
Definition contains (l : list N) (x : N) : bool := bool_decide (x ∈ l).

(** * JA3N *)

(** One list of numbers: the buffer with each number and a dash appended, and the
    number [n] of bytes to drop from the end. *)
Definition append_number (st : string * nat) (x : N) : string * nat := (st.1 +:+ FormatUint x +:+ "-", 1%nat).
Definition append_unless_grease (st : string * nat) (x : N) : string * nat :=
  if grease x then st else append_number st x.

(** [buf[:len(buf)-n]]. *)
Definition drop_last (st : string * nat) : string := substring_to (String.length st.1 - st.2) st.1.

Definition ja3_version (hello : ClientHelloInfo) : N :=
  let sslVersion := max_version (ch_SupportedVersions hello) in
  let hasGrease := existsb grease (ch_SupportedVersions hello) in
  if contains (ch_Extensions hello) extensionSupportedVersions && hasGrease && (VersionTLS12 <? sslVersion)
  then VersionTLS12 else sslVersion.

(** The text [tlsFingerprintJA3] hashes. *)
Definition ja3_buffer (hello : ClientHelloInfo) (sortExtensions : bool) : string :=
  let buf := FormatUint (ja3_version hello) +:+ "," in
  let buf := drop_last (foldl append_unless_grease (buf, 0%nat) (ch_CipherSuites hello)) +:+ "," in
  let extensions := if sortExtensions then sort (ch_Extensions hello) else ch_Extensions hello in
  let buf := drop_last (foldl append_unless_grease (buf, 0%nat) extensions) +:+ "," in
  let buf := drop_last (foldl append_unless_grease (buf, 0%nat) (ch_SupportedCurves hello)) +:+ "," in
  drop_last (foldl append_number (buf, 0%nat) (ch_SupportedPoints hello)).

Definition tlsFingerprintJA3 (hello : ClientHelloInfo) (sortExtensions : bool) : string :=
  md5 (ja3_buffer hello sortExtensions).

Definition JA3N_String (f : string) : string := EncodeToString f.

(** * JA4 *)

Record TLSFingerprintJA4 := mkJA4 { ja4_A : string; ja4_B : string; ja4_C : string }.

Definition JA4_String (f : TLSFingerprintJA4) : string :=
  Join [ja4_A f; EncodeToString (ja4_B f); EncodeToString (ja4_C f)] "_".

Definition hex_digit (n : N) : ascii := nth (N.to_nat n) (bytes "0123456789abcdef") "0"%char.
(** [%04x] of a [uint16]. *)
Definition hex4 (n : N) : string :=
  of_bytes [hex_digit (N.land (N.shiftr n 12) 0xf); hex_digit (N.land (N.shiftr n 8) 0xf);
            hex_digit (N.land (N.shiftr n 4) 0xf); hex_digit (N.land n 0xf)].

Definition uint16SliceToHex (l : list N) : string :=
  match l with
  | [] => ""
  | _ => let out := foldl (λ out n, out +:+ hex4 n +:+ ",") "" l in
         substring_to (String.length out - 1) out
  end.

Definition zero6 : string := of_bytes (repeat (byte_of 0) 6).
Definition ja4SHA256 (buf : string) : string :=
  if (String.length buf =? 0)%nat then zero6 else substring_to 6 (sha256 buf).

(** A count in two digits, at most 99. *)
Definition append_count (buf : string) (n : nat) : string :=
  if (n <? 10)%nat then buf +:+ "0" +:+ FormatUint (N.of_nat n)
  else if (99 <? n)%nat then buf +:+ "99"
  else buf +:+ FormatUint (N.of_nat n).

(** [uint16] subtraction wraps. *)
Definition ja4_version (sslVersion : N) : string :=
  if sslVersion =? VersionSSL30 then "s3"
  else if sslVersion =? VersionTLS10 then "10"
  else if sslVersion =? VersionTLS11 then "11"
  else if sslVersion =? VersionTLS12 then "12"
  else if sslVersion =? VersionTLS13 then "13"
  else
    let v := (sslVersion + 2 ^ 16 - 0x0201) mod 2 ^ 16 in
    FormatUint (N.shiftr v 8) +:+ FormatUint (N.land v 0xff).

(** The first and last byte of the first protocol. *)
Definition ja4_alpn (protos : list string) : string :=
  match protos with
  | p :: _ =>
      match bytes p, last (bytes p) with
      | c :: _ :: _, Some d => of_bytes [c; d]
      | _, _ => "00"
      end
  | [] => "00"
  end.

(** The buffer of part A; [copy] keeps its first ten bytes and pads with zero bytes. *)
Definition ja4_buffer (hello : ClientHelloInfo) : string :=
  let buf := "t" +:+ ja4_version (max_version (ch_SupportedVersions hello)) in
  let buf := buf +:+ (if contains (ch_Extensions hello) extensionServerName
                         && negb (bool_decide (ch_ServerName hello = "")) then "d" else "i") in
  let ciphers := filter (λ x, grease x = false) (ch_CipherSuites hello) in
  let extensions := filter (λ x, grease x = false) (ch_Extensions hello) in
  let buf := append_count buf (length ciphers) in
  let buf := append_count buf (length extensions) in
  buf +:+ ja4_alpn (ch_SupportedProtos hello).

Definition copy10 (buf : string) : string :=
  substring_to 10 (buf +:+ of_bytes (repeat (byte_of 0) 10)).

Definition tlsFingerprintJA4 (hello : ClientHelloInfo) : TLSFingerprintJA4 :=
  let ciphers := filter (λ x, grease x = false) (ch_CipherSuites hello) in
  let extensions := filter (λ x, x ≠ extensionALPN ∧ x ≠ extensionServerName)
    (filter (λ x, grease x = false) (ch_Extensions hello)) in
  let schemes := filter (λ x, grease x = false) (ch_SignatureSchemes hello) in
  let extBuf := uint16SliceToHex (sort extensions) in
  let extBuf := if (0 <? length schemes)%nat then extBuf +:+ "_" +:+ uint16SliceToHex schemes else extBuf in
  mkJA4 (copy10 (ja4_buffer hello)) (ja4SHA256 (uint16SliceToHex (sort ciphers))) (ja4SHA256 extBuf).

Definition buildTLSFingerprint (hello : ClientHelloInfo) : string * TLSFingerprintJA4 :=
  (tlsFingerprintJA3 hello true, tlsFingerprintJA4 hello).

(** ** Where fingerprints are kept

    [ConnContext] puts an empty [TLSFingerprint] in the context of each connection;
    the hook on [GetConfigForClient] stores into it, if it is there, and goes on
    with the configured function. *)
Record TLSFingerprint := mkFp { fp_ja3n : option string; fp_ja4 : option TLSFingerprintJA4 }.
Definition ConnContext : TLSFingerprint := mkFp None None.

Definition GetConfigForClient {Config} (getConfigForClient : option (ClientHelloInfo → result (option Config)))
    (fp : option TLSFingerprint) (hello : ClientHelloInfo) : option TLSFingerprint * result (option Config) :=
  let '(ja3n, ja4) := buildTLSFingerprint hello in
  ((λ _, mkFp (Some ja3n) (Some ja4)) <$> fp,
   match getConfigForClient with Some f => f hello | None => Ok None end).

(** * Facts *)

Definition no_grease (l : list N) : list N := filter (λ x, grease x = false) l.

(** Numbers with dashes between them. *)
Definition dashed (l : list N) : string := Join (FormatUint <$> l) "-".

Lemma drop_last_dash s : drop_last (s +:+ "-", 1%nat) = s.
Proof.
  unfold drop_last, substring_to. cbn [fst snd]. rewrite string_length_app, bytes_app. cbn [String.length].
  rewrite Nat.add_sub, take_app_le, take_ge by (rewrite length_bytes; lia). apply of_bytes_bytes.
Qed.

Lemma append_number_run s n x : append_number (s, n) x = ((s +:+ FormatUint x) +:+ "-", 1%nat).
Proof. unfold append_number. cbn [fst]. by rewrite string_app_assoc. Qed.

Lemma foldl_append_number l s :
  foldl append_number (s +:+ "-", 1%nat) l = ((s +:+ of_bytes (l ≫= λ x, bytes ("-" +:+ FormatUint x))) +:+ "-", 1%nat).
Proof.
  revert s. induction l as [|x l IH]; intros s; [by rewrite string_app_nil_r|].
  cbn [foldl]. rewrite append_number_run, IH, bind_cons, of_bytes_app, of_bytes_bytes, !string_app_assoc. done.
Qed.

Lemma dashed_cons x l : dashed (x :: l) = FormatUint x +:+ of_bytes (l ≫= λ y, bytes ("-" +:+ FormatUint y)).
Proof.
  revert x. induction l as [|y l IH]; intros x; [by rewrite string_app_nil_r|].
  change (dashed (x :: y :: l)) with (FormatUint x +:+ "-" +:+ dashed (y :: l)).
  by rewrite IH, bind_cons, of_bytes_app, of_bytes_bytes, <-!string_app_assoc.
Qed.

(** The loop over a list writes it with dashes between the numbers. *)
Lemma ja3_numbers buf l : drop_last (foldl append_number (buf, 0%nat) l) = buf +:+ dashed l.
Proof.
  destruct l as [|x l].
  - unfold drop_last, substring_to. cbn. rewrite Nat.sub_0_r, take_ge by (by rewrite length_bytes).
    by rewrite of_bytes_bytes, string_app_nil_r.
  - cbn [foldl]. by rewrite append_number_run, foldl_append_number, drop_last_dash, dashed_cons, string_app_assoc.
Qed.

Lemma foldl_unless_grease st l : foldl append_unless_grease st l = foldl append_number st (no_grease l).
Proof.
  unfold no_grease. revert st. induction l as [|x l IH]; intros st; [done|]. cbn [foldl].
  rewrite IH. unfold append_unless_grease. destruct (grease x) eqn:Hg.
  - by rewrite filter_cons_False by (by rewrite Hg).
  - by rewrite filter_cons_True by done.
Qed.

Lemma ja3_buffer_numbers hello srt :
  ja3_buffer hello srt =
    Join [FormatUint (ja3_version hello); dashed (no_grease (ch_CipherSuites hello));
          dashed (no_grease (if srt then sort (ch_Extensions hello) else ch_Extensions hello));
          dashed (no_grease (ch_SupportedCurves hello)); dashed (ch_SupportedPoints hello)] ",".
Proof.
  unfold ja3_buffer. rewrite !foldl_unless_grease, !ja3_numbers. cbn [Join]. by rewrite <-!string_app_assoc.
Qed.

(** ** Sorting *)

Lemma sort_perm l k : l ≡ₚ k → sort l = sort k.
Proof.
  intros Hp. unfold sort. apply (Sorted_unique N.le).
  - apply Sorted_merge_sort. intros x y. lia.
  - apply Sorted_merge_sort. intros x y. lia.
  - by rewrite !merge_sort_Permutation.
Qed.

Lemma StronglySorted_no_grease l : StronglySorted N.le l → StronglySorted N.le (no_grease l).
Proof.
  unfold no_grease. induction 1 as [|x l Hs IH Hall]; [constructor|]. rewrite filter_cons. case_decide; [|done].
  constructor; [done|]. apply Forall_forall. intros y [_ Hy]%list_elem_of_filter. by eapply Forall_forall in Hall.
Qed.

Lemma no_grease_sort l : no_grease (sort l) = sort (no_grease l).
Proof.
  unfold no_grease, sort. apply (Sorted_unique N.le).
  - apply StronglySorted_Sorted, StronglySorted_no_grease. apply Sorted_StronglySorted; [intros ???; lia|].
    apply Sorted_merge_sort. intros x y. lia.
  - apply Sorted_merge_sort. intros x y. lia.
  - by rewrite !merge_sort_Permutation.
Qed.

Lemma contains_no_grease l x : grease x = false → contains l x = contains (no_grease l) x.
Proof.
  intros Hx. unfold contains, no_grease. apply bool_decide_ext. rewrite list_elem_of_filter. naive_solver.
Qed.

#[export] Instance contains_perm : Proper ((≡ₚ) ==> eq ==> eq) contains.
Proof. intros l k Hp x ? <-. unfold contains. apply bool_decide_ext. by rewrite Hp. Qed.

(** ** Versions

    The highest one does not depend on the GREASE values, nor on the order. *)
Lemma foldl_max_version versions v :
  foldl (λ sslVersion v, if grease v then sslVersion else if sslVersion <? v then v else sslVersion) v versions =
    foldr N.max v (no_grease versions).
Proof.
  unfold no_grease. revert v. induction versions as [|x versions IH]; intros v; [done|]. cbn [foldl]. rewrite IH.
  destruct (grease x) eqn:Hx; [by rewrite filter_cons_False by (by rewrite Hx)|].
  rewrite filter_cons_True by done. cbn [foldr].
  assert ((if v <? x then x else v) = N.max v x) as -> by (destruct (N.ltb_spec v x); lia).
  generalize (filter (λ x, grease x = false) versions) as l. induction l as [|y l IHl]; cbn [foldr]; lia.
Qed.

#[export] Instance foldr_max_perm v : Proper ((≡ₚ) ==> eq) (foldr N.max v).
Proof. intros l k Hp. induction Hp; cbn [foldr]; lia. Qed.

Lemma max_version_stable versions versions' :
  no_grease versions ≡ₚ no_grease versions' → max_version versions = max_version versions'.
Proof. intros Hp. unfold max_version. by rewrite !foldl_max_version, Hp. Qed.

(** ** Part A of JA4 *)

Lemma append_count_length buf n :
  String.length (append_count buf n) = (String.length buf + 2)%nat.
Proof.
  unfold append_count. destruct (n <? 10)%nat eqn:H1; [|destruct (99 <? n)%nat eqn:H2]; rewrite !string_length_app.
  - assert (Hn : (n < 10)%nat) by (by apply Nat.ltb_lt). do 10 (destruct n as [|n]; [reflexivity|]). lia.
  - reflexivity.
  - apply Nat.ltb_ge in H1, H2. f_equal.
    do 10 (destruct n as [|n]; [lia|]). do 90 (destruct n as [|n]; [reflexivity|]). lia.
Qed.

Lemma ja4_alpn_length protos : String.length (ja4_alpn protos) = 2%nat.
Proof. unfold ja4_alpn. destruct protos as [|p ps]; [done|]. destruct (bytes p) as [|c [|d l]]; [done..|]. by destruct (last _). Qed.

(** The versions with a text of their own. *)
Definition known_version (v : N) : Prop := v ∈ [VersionSSL30; VersionTLS10; VersionTLS11; VersionTLS12; VersionTLS13].

Lemma ja4_version_length v : known_version v → String.length (ja4_version v) = 2%nat.
Proof. unfold known_version. rewrite !elem_of_cons, elem_of_nil. intros [->|[->|[->|[->|[->|[]]]]]]; vm_compute; reflexivity. Qed.

Lemma copy10_id s : String.length s = 10%nat → copy10 s = s.
Proof.
  intros Hs. unfold copy10, substring_to. rewrite bytes_app, take_app_le, take_ge by (rewrite length_bytes; lia).
  apply of_bytes_bytes.
Qed.

Lemma ja4_A_known hello :
  known_version (max_version (ch_SupportedVersions hello)) → ja4_A (tlsFingerprintJA4 hello) = ja4_buffer hello.
Proof.
  intros Hv. apply copy10_id. unfold ja4_buffer. rewrite string_length_app, ja4_alpn_length, !append_count_length.
  rewrite !string_length_app, (ja4_version_length _ Hv). by destruct (_ && _).
Qed.

(** * Properties *)

(** C22: What JA3N hashes is what its definition says: five parts between commas, the
    version, the ciphers, the sorted extensions, the curves and the points, each
    the decimal numbers between dashes, without the GREASE ones; a list without
    numbers leaves its part empty. *)
Theorem ja3_buffer_text (hello : ClientHelloInfo) :
  ja3_buffer hello true =
    Join [FormatUint (ja3_version hello); dashed (no_grease (ch_CipherSuites hello));
          dashed (sort (no_grease (ch_Extensions hello)));
          dashed (no_grease (ch_SupportedCurves hello)); dashed (ch_SupportedPoints hello)] ",".
Proof. by rewrite ja3_buffer_numbers, no_grease_sort. Qed.

(** C32: Fingerprints resist what browsers randomize. JA4 is the same for two hellos that
    agree up to GREASE values, wherever these are (among versions, ciphers, extensions,
    schemes), and up to the order of ciphers, extensions and versions. JA3N is the same
    for two that agree up to the order of extensions and versions and GREASE values, among the
    curves too, if both or neither send a GREASE version: with one, the version it
    shows is at most that of TLS 1.2. *)
Theorem fingerprint_stable (h h' : ClientHelloInfo)
    (Hversions : no_grease (ch_SupportedVersions h) ≡ₚ no_grease (ch_SupportedVersions h'))
    (Hextensions : no_grease (ch_Extensions h) ≡ₚ no_grease (ch_Extensions h'))
    (Hciphers : no_grease (ch_CipherSuites h) ≡ₚ no_grease (ch_CipherSuites h'))
    (Hname : ch_ServerName h = ch_ServerName h')
    (Hprotos : head (ch_SupportedProtos h) = head (ch_SupportedProtos h'))
    (Hschemes : no_grease (ch_SignatureSchemes h) = no_grease (ch_SignatureSchemes h')) :
  tlsFingerprintJA4 h = tlsFingerprintJA4 h' ∧
  (existsb grease (ch_SupportedVersions h) = existsb grease (ch_SupportedVersions h') →
   no_grease (ch_CipherSuites h) = no_grease (ch_CipherSuites h') →
   no_grease (ch_SupportedCurves h) = no_grease (ch_SupportedCurves h') →
   ch_SupportedPoints h = ch_SupportedPoints h' →
   tlsFingerprintJA3 h true = tlsFingerprintJA3 h' true).
Proof.
  assert (Hc : ∀ x, grease x = false → contains (ch_Extensions h) x = contains (ch_Extensions h') x).
  { intros x Hx. by rewrite (contains_no_grease (ch_Extensions h) x Hx), (contains_no_grease (ch_Extensions h') x Hx), Hextensions. }
  split.
  - assert (Hp : ja4_alpn (ch_SupportedProtos h) = ja4_alpn (ch_SupportedProtos h')).
    { destruct (ch_SupportedProtos h), (ch_SupportedProtos h'); by simplify_eq/=. }
    unfold tlsFingerprintJA4, ja4_buffer. cbv zeta. fold (no_grease (ch_Extensions h)) (no_grease (ch_Extensions h'))
      (no_grease (ch_CipherSuites h)) (no_grease (ch_CipherSuites h'))
      (no_grease (ch_SignatureSchemes h)) (no_grease (ch_SignatureSchemes h')).
    rewrite (max_version_stable _ _ Hversions), Hname, Hp, (Hc extensionServerName eq_refl), Hschemes.
    rewrite (Permutation_length Hextensions), (Permutation_length Hciphers), (sort_perm _ _ Hciphers).
    by rewrite (sort_perm _ _ (filter_Permutation _ _ _ Hextensions)).
  - intros Hgrease Heq Hcurves Hpoints. unfold tlsFingerprintJA3, ja3_version. f_equal.
    rewrite !ja3_buffer_numbers, !no_grease_sort, Heq, Hcurves, Hpoints, (sort_perm _ _ Hextensions).
    unfold ja3_version. by rewrite (max_version_stable _ _ Hversions), Hgrease, (Hc extensionSupportedVersions eq_refl).
Qed.

Definition hello_of (versions extensions : list N) : ClientHelloInfo :=
  mkHello [0x1a1a; 0x1301; 0xc02f] "example.org" [0x2a2a; 29; 23] [0] [0x0403; 0x0804] ["h2"; "http/1.1"]
    versions extensions.
Definition demo_hello : list N → ClientHelloInfo := hello_of [0x5a5a; VersionTLS13; VersionTLS12].

Lemma fingerprint_stable_witness :
  let h := demo_hello [0x3a3a; 0; 16; 43; 10] in
  let h' := hello_of [0xcaca; VersionTLS12; VersionTLS13] [10; 43; 0; 16; 0xfafa; 0xfafa] in
  tlsFingerprintJA4 h = tlsFingerprintJA4 h' ∧ tlsFingerprintJA3 h true = tlsFingerprintJA3 h' true.
Proof.
  destruct (fingerprint_stable (demo_hello [0x3a3a; 0; 16; 43; 10])
    (hello_of [0xcaca; VersionTLS12; VersionTLS13] [10; 43; 0; 16; 0xfafa; 0xfafa])) as [H4 H3].
  - apply (bool_decide_unpack _). vm_compute. exact I.
  - apply (bool_decide_unpack _). vm_compute. exact I.
  - reflexivity.
  - reflexivity.
  - reflexivity.
  - reflexivity.
  - split; [exact H4|]. apply H3; reflexivity.
Defined.

(** Without a GREASE version JA3N shows TLS 1.3; with one it shows TLS 1.2. *)
Example JA3N_grease_version :
  ja3_version (demo_hello [43]) = VersionTLS12 ∧ ja3_version (hello_of [VersionTLS13; VersionTLS12] [43]) = VersionTLS13.
Proof. vm_compute. done. Qed.

Example fingerprint_texts :
  let '(ja3n, ja4) := buildTLSFingerprint (demo_hello [0x3a3a; 0; 16; 43; 10]) in
  JA3N_String ja3n = "8e7af2f104fa80101df7be03bb860d0c" ∧ JA4_String ja4 = "t13d0204h2_c1929292aa6b_0b0e8255bb2e".
Proof. vm_compute. done. Qed.

(** Without a supported version the text of the version takes six bytes instead of
    two: the count of extensions and the protocol fall off the end of part A. *)
Example JA4_unknown_version :
  ja4_A (tlsFingerprintJA4 (mkHello [0x1301] "" [] [] [] ["h2"] [] [])) = "t253255i01" ∧
  ja4_A (tlsFingerprintJA4 (mkHello [0x1301] "" [] [] [] ["h2"] [0x7f1c] [])) = "t12527i010".
Proof. vm_compute. done. Qed.
