(* ===== verification/DecayMap.v ===== *)
(** [utils/decaymap.go]: a map whose entries expire.

    [Get] takes the lock twice: it reads under the read lock, compares the
    expiry with the clock outside of any lock, and deletes an expired entry
    under the write lock. Its two critical sections are two operations here
    ([get_read], [get_expire]), and the concurrent behaviour is the executions of
    a list of atomic operations of any number of threads ([run]). *)

From S2P Require Import Prelude GoTime.
From stdpp Require Import options.

Local Open Scope Z_scope.

Record DecayMapEntry (V : Type) := mkEntry { Value : V; expiry : Time }.
Arguments mkEntry {_} _ _.
Arguments Value {_} _.
Arguments expiry {_} _.

Abbreviation DecayMap K V := (gmap K (DecayMapEntry V)).

Section decaymap.
  Context {K V : Type} `{Countable K}.

Definition NewDecayMap : DecayMap K V := ∅.

(** The first critical section of [Get]. *)
Definition get_read (m : DecayMap K V) (key : K) : option (DecayMapEntry V) := m !! key.

(** Is the entry read expired at [now]? *)
Definition expired (now : Time) (e : DecayMapEntry V) : bool := Time_After now (expiry e).

(** The second critical section of [Get]: delete the entry if its expiry is still
    the one read. *)
Definition get_expire (m : DecayMap K V) (key : K) (value : DecayMapEntry V) : DecayMap K V :=
  if bool_decide (expiry <$> m !! key = Some (expiry value)) then delete key m else m.

(** [Get] without interference: the value, and the map after it. *)
Definition Get (now : Time) (m : DecayMap K V) (key : K) : option V * DecayMap K V :=
  match get_read m key with
  | None => (None, m)
  | Some value =>
      if expired now value then (None, get_expire m key value)
      else (Some (Value value), m)
  end.

Definition Set_ (now : Time) (m : DecayMap K V) (key : K) (value : V) (ttl : Duration) : DecayMap K V :=
  <[key := mkEntry value (Time_Add now ttl)]> m.

Definition Decay (now : Time) (m : DecayMap K V) : DecayMap K V :=
  filter (λ ke : K * DecayMapEntry V, expired now ke.2 = false) m.

(** ** Executions

    A system state: the clock, the map, and for each thread inside [Get] the key
    and the entry it read; [TGot] is the value a thread's [Get] returned. *)
Inductive thread :=
  | TRead (k : K) (e : DecayMapEntry V)
  | TExpired (k : K) (e : DecayMapEntry V)
  | TGot (k : K) (v : option V).

Record sys := mkSys { s_now : Time; s_map : DecayMap K V; s_threads : gmap nat thread }.

(** The atomic operations: the clock advances, [Set], [Decay], and the three
    steps of a [Get] by thread [t]. *)
Inductive op :=
  | OTick (d : Duration)
  | OSet (k : K) (v : V) (ttl : Duration)
  | ODecay
  | ORead (t : nat) (k : K)
  | OCompare (t : nat)
  | OExpire (t : nat).

Definition set_thread (s : sys) (t : nat) (th : thread) : sys :=
  mkSys (s_now s) (s_map s) (<[t := th]> (s_threads s)).
Definition set_map (s : sys) (m : DecayMap K V) : sys := mkSys (s_now s) m (s_threads s).

(** One atomic operation; an operation that is not enabled leaves the state. *)
Definition step (s : sys) (o : op) : sys :=
  match o with
  | OTick d => mkSys (s_now s + Z.max 0 d) (s_map s) (s_threads s)
  | OSet k v ttl => set_map s (Set_ (s_now s) (s_map s) k v ttl)
  | ODecay => set_map s (Decay (s_now s) (s_map s))
  | ORead t k =>
      match get_read (s_map s) k with
      | None => set_thread s t (TGot k None)
      | Some e => set_thread s t (TRead k e)
      end
  | OCompare t =>
      match s_threads s !! t with
      | Some (TRead k e) =>
          if expired (s_now s) e then set_thread s t (TExpired k e)
          else set_thread s t (TGot k (Some (Value e)))
      | _ => s
      end
  | OExpire t =>
      match s_threads s !! t with
      | Some (TExpired k e) =>
          set_thread (set_map s (get_expire (s_map s) k e)) t (TGot k None)
      | _ => s
      end
  end.

Definition run (s : sys) (os : list op) : sys := foldl step s os.

(** Does an operation write key [k]? *)
Definition sets (k : K) (o : op) : bool :=
  match o with OSet k' _ _ => bool_decide (k' = k) | _ => false end.

(** Threads that decided to expire an entry read one that is expired. *)
Definition expired_ok (s : sys) : Prop :=
  ∀ t k e, s_threads s !! t = Some (TExpired k e) → expired (s_now s) e = true.

Lemma expired_later now d e : 0 ≤ d → expired now e = true → expired (now + d) e = true.
Proof. unfold expired, Time_After. intros ? ?%Z.ltb_lt. apply Z.ltb_lt. lia. Qed.

Lemma get_expire_lookup m k e k' e' :
  m !! k' = Some e' → (k' = k → expiry e' ≠ expiry e) → get_expire m k e !! k' = Some e'.
Proof.
  intros Hm Hne. unfold get_expire. case_bool_decide as Hb; [|done].
  destruct (decide (k' = k)) as [->|Hk]; [|by rewrite lookup_delete_ne].
  rewrite Hm in Hb. simpl in Hb. simplify_eq. by specialize (Hne eq_refl).
Qed.

Lemma Decay_lookup now m k e : m !! k = Some e → expired now e = false → Decay now m !! k = Some e.
Proof. intros Hm He. apply map_lookup_filter_Some. done. Qed.

Lemma Decay_live now m k e : Decay now m !! k = Some e → expired now e = false.
Proof. intros Hm%map_lookup_filter_Some. by destruct Hm. Qed.

Lemma step_now s o : s_now s ≤ s_now (step s o).
Proof. destruct o; simpl; repeat case_match; simpl; lia. Qed.

Lemma run_now s os : s_now s ≤ s_now (run s os).
Proof.
  revert s. induction os as [|o os IH]; intros s; simpl; [done|].
  etrans; [apply (step_now s o)|apply IH].
Qed.

Lemma step_expired_ok s o : expired_ok s → expired_ok (step s o).
Proof.
  intros Hok t' k' e'. destruct o; simpl; repeat case_match; simpl; try apply Hok;
    intros Ht; try (apply lookup_insert_Some in Ht as [[-> Heq]|[_ Ht]]; simplify_eq; eauto).
  apply expired_later; [lia|]. eauto.
Qed.

Lemma run_expired_ok s os : expired_ok s → expired_ok (run s os).
Proof. revert s. induction os as [|o os IH]; intros s Hs; simpl; auto using step_expired_ok. Qed.

(** No thread is inside [Get]. *)
Lemma idle_expired_ok s : s_threads s = ∅ → expired_ok s.
Proof. intros Hs t k e. by rewrite Hs, lookup_empty. Qed.

(** ** The abstract map

    What a map with time promises: an entry is there until it expires, and only [Set]
    and the passing of time have an effect. *)
Definition live (s : sys) (k : K) : option V :=
  e ← s_map s !! k; if expired (s_now s) e then None else Some (Value e).

Definition spec_step (a : sys) (o : op) : sys :=
  match o with OTick _ | OSet _ _ _ => step a o | _ => a end.
Definition spec_run (a : sys) (os : list op) : sys := foldl spec_step a os.

(** The map has the entries of the abstract one, but for expired ones. *)
Record refines (s a : sys) : Prop := {
  rf_now : s_now s = s_now a;
  rf_entry : ∀ k, s_map s !! k = s_map a !! k ∨
    s_map s !! k = None ∧ ∃ e, s_map a !! k = Some e ∧ expired (s_now a) e = true;
  rf_threads : expired_ok s }.

Lemma refines_live s a : refines s a → ∀ k, live s k = live a k.
Proof.
  intros [Hn He _] k. unfold live. rewrite Hn. destruct (He k) as [->|[-> (e & -> & Hx)]]; [done|]. cbn. by rewrite Hx.
Qed.

(** Entries that go are expired ones. *)
Lemma refines_sub s a m :
  refines s a → expired_ok (set_map s m) →
  (∀ k, m !! k = s_map s !! k ∨ m !! k = None ∧ ∃ e, s_map s !! k = Some e ∧ expired (s_now s) e = true) →
  refines (set_map s m) a.
Proof.
  intros [Hn He Ht] Ht' Hm. split; [done| |done]. intros k. cbn. destruct (Hm k) as [->|[-> (e & Hk & Hx)]]; [apply He|].
  right. split; [done|]. exists e. rewrite <-Hn. split; [|done]. destruct (He k) as [<-|[Hnone _]]; [done|congruence].
Qed.

Lemma refines_same s s' a :
  s_now s' = s_now s → s_map s' = s_map s → expired_ok s' → refines s a → refines s' a.
Proof. intros Hn Hm Ht [Hn' He _]. split; [congruence|by rewrite Hm|done]. Qed.

Lemma refines_step s a o : refines s a → refines (step s o) (spec_step a o).
Proof.
  intros Hr. pose proof (step_expired_ok s o (rf_threads _ _ Hr)) as Hok.
  destruct o as [d|k v ttl| |t k|t|t]; cbn [step spec_step] in *.
  - destruct Hr as [Hn He Ht]. split; [cbn; by rewrite Hn| |done]. intros k. cbn.
    destruct (He k) as [->|[Hk (e & Ha & Hx)]]; [by left|]. right. split; [done|]. exists e. split; [done|].
    apply expired_later; [lia|done].
  - destruct Hr as [Hn He Ht]. split; [done| |done]. intros j. cbn. unfold Set_. rewrite Hn.
    destruct (decide (j = k)) as [->|Hj]; [left; by rewrite !lookup_insert_eq|]. rewrite !lookup_insert_ne by done. apply He.
  - apply refines_sub; [done..|]. intros k. unfold Decay. destruct (s_map s !! k) as [e|] eqn:Hk.
    + destruct (expired (s_now s) e) eqn:Hx; [right|left; by apply map_lookup_filter_Some].
      split; [|by exists e]. apply map_lookup_filter_None. right. intros e' He' Hf. cbn in Hf. congruence.
    + left. apply map_lookup_filter_None. by left.
  - eapply refines_same, Hr; [..|exact Hok]; by destruct (get_read _ _).
  - eapply refines_same, Hr; [..|exact Hok]; repeat case_match; done.
  - destruct (s_threads s !! t) as [[|k e|]|] eqn:Ht; try done.
    pose proof (rf_threads _ _ Hr t k e Ht) as Hx.
    apply (refines_same (set_map s (get_expire (s_map s) k e))); [done..|]. apply refines_sub; [done|apply (rf_threads _ _ Hr)|].
    intros j. unfold get_expire. case_bool_decide as Hb; [|by left].
    destruct (decide (j = k)) as [->|Hj]; [|left; by rewrite lookup_delete_ne].
    right. split; [apply lookup_delete_eq|]. apply fmap_Some in Hb as (e' & Hk & Heq). exists e'. split; [done|].
    unfold expired in *. by rewrite <-Heq.
Qed.

Lemma refines_run s a os : refines s a → refines (run s os) (spec_run a os).
Proof. revert s a. induction os as [|o os IH]; intros s a Hr; [done|]. apply IH. by apply refines_step. Qed.

Lemma refines_idle s : expired_ok s → refines s s.
Proof. intros Hs. split; [done|by left|done]. Qed.

(** ** A call of [Get] *)

Lemma run_app s os os' : run s (os ++ os') = run (run s os) os'.
Proof. apply foldl_app. Qed.

(** Without a [Set] of the key its entry can only go. *)
Lemma step_only_deletes s o k : sets k o = false → s_map (step s o) !! k = s_map s !! k ∨ s_map (step s o) !! k = None.
Proof.
  intros Hs. destruct o as [d|k' v ttl| |t k'|t|t]; cbn in *; try (repeat case_match; by left).
  - case_bool_decide; [done|]. left. unfold Set_. by rewrite lookup_insert_ne.
  - unfold Decay. destruct (filter _ (s_map s) !! k) as [e|] eqn:Hk; [|by right].
    apply map_lookup_filter_Some in Hk as [-> _]. by left.
  - repeat case_match; try by left. cbn. unfold get_expire. case_bool_decide; [|by left].
    destruct (decide (k = k0)) as [->|Hj]; [right; apply lookup_delete_eq|left; by rewrite lookup_delete_ne].
Qed.

Lemma run_only_deletes s os k :
  forallb (λ o, negb (sets k o)) os = true → s_map (run s os) !! k = s_map s !! k ∨ s_map (run s os) !! k = None.
Proof.
  revert s. induction os as [|o os IH]; intros s Hs; [by left|]. cbn in Hs. go_bool.
  change (run s (o :: os)) with (run (step s o) os). destruct (IH (step s o)) as [->|Hn]; [done| |by right]. by apply step_only_deletes.
Qed.

Definition starts (t : nat) (o : op) : bool := match o with ORead t' _ => bool_decide (t' = t) | _ => false end.

(** The call of [Get] that thread [t] started in [s] can have seen [r]: it is what the
    key stood for at a moment of the call, or the key was missed while it was set. *)
Definition seen (s : sys) (k : K) (during : list op) (r : option V) : Prop :=
  (∃ d1 d2, during = d1 ++ d2 ∧ live (run s d1) k = r) ∨
  (r = None ∧ existsb (sets k) during = true).

Lemma seen_app s k during o r : seen s k during r → seen s k (during ++ [o]) r.
Proof.
  intros [(d1 & d2 & -> & Hl)|[-> Hs]].
  - left. exists d1, (d2 ++ [o]). by rewrite (assoc_L (++)).
  - right. split; [done|]. rewrite existsb_app. by rewrite Hs.
Qed.

(** Where a call stands, and what it has seen. *)
Definition progress (s : sys) (t : nat) (k : K) (during : list op) : Prop :=
  match s_threads (run s during) !! t with
  | Some (TRead k' e) => k' = k ∧ s_map s !! k = Some e
  | Some (TExpired k' e) => k' = k ∧ seen s k during None
  | Some (TGot k' r) => k' = k ∧ seen s k during r
  | None => False
  end.

Lemma compare_seen s k e during :
  s_map s !! k = Some e → seen s k during (if expired (s_now (run s during)) e then None else Some (Value e)).
Proof.
  intros He. destruct (expired (s_now (run s during)) e) eqn:Hx.
  - destruct (existsb (sets k) during) eqn:Hs; [by right|]. left. exists during, []. rewrite app_nil_r. split; [done|].
    unfold live. destruct (run_only_deletes s during k) as [->| ->]; [| |done].
    + apply forallb_forall. intros o Ho. apply negb_true_iff, not_true_is_false. intros Hso.
      assert (existsb (sets k) during = true) by (apply existsb_exists; by exists o). congruence.
    + rewrite He. cbn. by rewrite Hx.
  - left. exists [], during. split; [done|]. unfold live. cbn [run foldl]. rewrite He. cbn.
    destruct (expired (s_now s) e) eqn:Hx0; [|done]. pose proof (run_now s during) as Hn.
    unfold expired, Time_After in *. apply Z.ltb_ge in Hx. apply Z.ltb_lt in Hx0. lia.
Qed.

Lemma progress_step s t k during o :
  starts t o = false → progress s t k during → progress s t k (during ++ [o]).
Proof.
  unfold progress. intros Hst Hp. rewrite run_app. cbn [run foldl]. fold (run s during). set (s1 := run s during) in *.
  assert (Hkeep : s_threads (step s1 o) !! t = s_threads s1 !! t →
    match s_threads (step s1 o) !! t with
    | Some (TRead k' e) => k' = k ∧ s_map s !! k = Some e
    | Some (TExpired k' e) => k' = k ∧ seen s k (during ++ [o]) None
    | Some (TGot k' r) => k' = k ∧ seen s k (during ++ [o]) r
    | None => False
    end).
  { intros ->. destruct (s_threads s1 !! t) as [[]|]; try done; (destruct Hp as [-> Hp]; split; [done|by apply seen_app]). }
  destruct o as [d|k' v ttl| |t' k'|t'|t']; try (by apply Hkeep); cbn [step starts] in *.
  - case_bool_decide; [done|]. apply Hkeep. destruct (get_read _ _); cbn; by rewrite lookup_insert_ne.
  - destruct (decide (t' = t)) as [->|Hne].
    2:{ apply Hkeep. clear Hkeep Hp. repeat case_match; try done; cbn [set_thread set_map s_threads]; by rewrite lookup_insert_ne. }
    destruct (s_threads s1 !! t) as [[k' e|k' e|k' r]|] eqn:Ht; try done.
    + destruct Hp as [-> He]. pose proof (seen_app s k during (OCompare t) _ (compare_seen s k e during He)) as Hseen.
      fold s1 in Hseen. destruct (expired (s_now s1) e); cbn [set_thread s_threads]; by rewrite lookup_insert_eq.
    + rewrite Ht. destruct Hp as [-> Hp]. split; [done|by apply seen_app].
    + rewrite Ht. destruct Hp as [-> Hp]. split; [done|by apply seen_app].
  - destruct (decide (t' = t)) as [->|Hne].
    2:{ apply Hkeep. clear Hkeep Hp. repeat case_match; try done; cbn [set_thread set_map s_threads]; by rewrite lookup_insert_ne. }
    destruct (s_threads s1 !! t) as [[k' e|k' e|k' r]|] eqn:Ht; try (rewrite Ht).
    + done.
    + destruct Hp as [-> Hp]. cbn [set_thread set_map s_threads]. rewrite lookup_insert_eq. split; [done|by apply seen_app].
    + destruct Hp as [-> Hp]. split; [done|by apply seen_app].
    + done.
Qed.

Lemma progress_run s t k os :
  forallb (λ o, negb (starts t o)) os = true → progress (step s (ORead t k)) t k os.
Proof.
  induction os as [|o os IH] using rev_ind; intros Hs.
  - unfold progress. cbn [run foldl step]. unfold get_read. destruct (s_map s !! k) as [e|] eqn:He; cbn [set_thread s_threads]; rewrite lookup_insert_eq.
    + done.
    + split; [done|]. left. exists [], []. split; [done|]. unfold live. cbn. by rewrite He.
  - rewrite forallb_app in Hs. cbn in Hs. go_bool. apply progress_step; [done|by apply IH].
Qed.

End decaymap.

(** * Properties *)

(** C27: Under any interleaving of the atomic steps of any number of [Get]s, [Set]s and
    [Decay]s, with the clock advancing in between, the map is the abstract map in
    which an entry is there from [Set] until it expires and nothing else has an
    effect: the deletes, also those of a [Get] that saw an older entry, are never
    seen. And a call of [Get] returns what the abstract map held for the key at a
    moment between its beginning and its end, unless it returns nothing and the key
    was set meanwhile. *)
Theorem DecayMap_refines {K V} `{Countable K} (s : @sys K V _ _) (os : list (@op K V)) (Hidle : s_threads s = ∅) :
  (∀ k, live (run s os) k = live (spec_run s os) k) ∧
  (∀ before during t k r,
     os = before ++ ORead t k :: during → forallb (λ o, negb (starts t o)) during = true →
     s_threads (run s os) !! t = Some (TGot k r) →
     (∃ d1 d2, during = d1 ++ d2 ∧ live (spec_run s (before ++ ORead t k :: d1)) k = r) ∨
     (r = None ∧ existsb (sets k) during = true)).
Proof.
  assert (Hr : ∀ os, refines (run s os) (spec_run s os)) by (intros; by apply refines_run, refines_idle, idle_expired_ok).
  split; [by apply refines_live|]. intros before during t k r -> Hd Ht.
  pose proof (progress_run (run s before) t k during Hd) as Hp. unfold progress in Hp.
  rewrite run_app in Ht. cbn [run foldl] in Ht. unfold run in Hp at 1. rewrite Ht in Hp. destruct Hp as [_ [(d1 & d2 & -> & Hl)|Hs]]; [left|by right].
  exists d1, d2. split; [done|]. rewrite <-(refines_live _ _ (Hr _)), run_app. exact Hl.
Qed.

Example stale_get : @sys nat nat _ _ := mkSys 100 {[ 1%nat := mkEntry 7%nat 105 ]} ∅.

(** A reader finds an entry that expires, another thread replaces it, the reader deletes. *)
Definition stale_run : list (@op nat nat) :=
  [ORead 0 1%nat; OTick 10; OCompare 0; OSet 1%nat 8%nat 10; OExpire 0; OTick 5; ODecay].

Lemma DecayMap_refines_witness :
  live (run stale_get stale_run) 1%nat = Some 8%nat ∧
  ∃ d1 d2, stale_run = ORead 0 1%nat :: d1 ++ d2 ∧ live (spec_run stale_get (ORead 0 1%nat :: d1)) 1%nat = None.
Proof.
  destruct (DecayMap_refines stale_get stale_run eq_refl) as [Hl Hg]. split; [rewrite Hl; by vm_compute|].
  destruct (Hg [] (tail stale_run) 0%nat 1%nat None) as [(d1 & d2 & Hd & Hn)|_].
  - reflexivity.
  - reflexivity.
  - by vm_compute.
  - exists d1, d2. split; [|exact Hn]. by rewrite <-Hd.
  - by exists [OTick 10; OCompare 0], [OSet 1%nat 8%nat 10; OExpire 0; OTick 5; ODecay].
Defined.

(** The exception happens: the key holds a value at every moment of the call, and the
    call returns nothing. It read the first value before that expired, and compares
    the time after another thread has stored the second. *)
Example Get_misses_live :
  let os := [ORead 0 1%nat; OSet 1%nat 8%nat 100; OTick 10; OCompare 0; OExpire 0] in
  s_threads (run stale_get os) !! 0%nat = Some (TGot 1%nat None) ∧
  Forall (λ n, is_Some (live (spec_run stale_get (take n os)) 1%nat)) (seq 0 6).
Proof. split; [by vm_compute|]. repeat constructor; by eexists. Qed.

(** A [Get] returns a value only if it is stored under the key and has not
    expired; an expired entry is reported missing and removed, and [Get] touches
    no other key. *)
Theorem Get_spec {K V} `{Countable K} (now : Time) (m : DecayMap K V) (k : K) :
  (Get now m k).1 =
    match m !! k with
    | Some e => if bool_decide (now ≤ expiry e) then Some (Value e) else None
    | None => None
    end ∧
  (Get now m k).2 =
    match m !! k with
    | Some e => if bool_decide (now ≤ expiry e) then m else delete k m
    | None => m
    end.
Proof.
  unfold Get, get_read, expired, Time_After. destruct (m !! k) as [e|] eqn:Hm; [|done].
  destruct (Z.ltb_spec (expiry e) now).
  - rewrite bool_decide_false by lia. split; [done|]. simpl. unfold get_expire.
    by rewrite Hm, bool_decide_true.
  - by rewrite bool_decide_true.
Qed.
