(* ===== verification/Types.v ===== *)
(** The data of [lib/challenge] ([types.go], the records of [data.go]) and the
    world a request is processed in: the request, the response writer, the
    request data, the readings of the clock and of the random source, and the
    events an observer sees (metrics and calls to backends). *)

From S2P Require Import Prelude GoStrings GoTime NetAddr GoURL Mime DecayMap.
From Stdlib Require Export SpecFloat.
From stdpp Require Import options.

(** * [types.go] *)

(** [type Id int64]. *)
Abbreviation Id := Z.

Inductive Class := ClassTransparent | ClassBlocking.

Inductive VerifyState := VerifyStateNone | VerifyStatePass | VerifyStateBrief | VerifyStateFull.

Inductive VerifyResult :=
  | VerifyResultNone | VerifyResultFail | VerifyResultSkip | VerifyResultNotOK | VerifyResultOK.

#[export] Instance Class_eq_dec : EqDecision Class.
Proof. solve_decision. Defined.
#[export] Instance VerifyState_eq_dec : EqDecision VerifyState.
Proof. solve_decision. Defined.
#[export] Instance VerifyResult_eq_dec : EqDecision VerifyResult.
Proof. solve_decision. Defined.

(** The values [iota] gives the constants of [VerifyResult]. *)
Definition vr_val (r : VerifyResult) : N :=
  match r with
  | VerifyResultNone => 0 | VerifyResultFail => 1 | VerifyResultSkip => 2
  | VerifyResultNotOK => 3 | VerifyResultOK => 4
  end%N.

Definition VerifyResult_Ok (r : VerifyResult) : bool := (vr_val VerifyResultOK <=? vr_val r)%N.

Definition VerifyResult_String (r : VerifyResult) : string :=
  match r with
  | VerifyResultNone => "None" | VerifyResultFail => "Fail" | VerifyResultSkip => "Skip"
  | VerifyResultNotOK => "NotOK" | VerifyResultOK => "OK"
  end.

(** [VerifyState.String] panics on [VerifyStateNone], which has no case: [None] here. *)
Definition VerifyState_String (r : VerifyState) : option string :=
  match r with
  | VerifyStatePass => Some "PASS" | VerifyStateBrief => Some "BRIEF"
  | VerifyStateFull => Some "FULL" | VerifyStateNone => None
  end.

(** The query arguments of the proxy ([helper.go]). *)
Definition QueryArgPrefix : string := "__goaway".
Definition QueryArgReferer : string := QueryArgPrefix +:+ "_referer".
Definition QueryArgRedirect : string := QueryArgPrefix +:+ "_redirect".
Definition QueryArgRequestId : string := QueryArgPrefix +:+ "_id".
Definition QueryArgChallenge : string := QueryArgPrefix +:+ "_challenge".
Definition QueryArgToken : string := QueryArgPrefix +:+ "_token".
Definition QueryArgBust : string := QueryArgPrefix +:+ "_bust".

(** [type RuleAction string]. *)
Abbreviation RuleAction := string.

(** * Tokens *)

(** [jwt.NumericDate]: seconds since the Unix epoch. *)
Abbreviation NumericDate := Z.

Record TokenChallenge := mkTokenChallenge {
  tc_Key : string; tc_Result : string; tc_Ok : bool;
  tc_Expiry : NumericDate; tc_NotBefore : NumericDate; tc_IssuedAt : NumericDate }.

(** A Go map variable: [None] is the nil map, which can be read and deleted from
    but not written. *)
Abbreviation gomap K V := (option (gmap K V)).
Abbreviation TokenChallengeMap := (gomap string TokenChallenge).

Record Token := mkToken {
  tok_State : TokenChallengeMap;
  tok_Expiry : NumericDate; tok_NotBefore : NumericDate; tok_IssuedAt : NumericDate }.

#[export] Instance TokenChallenge_eq_dec : EqDecision TokenChallenge.
Proof. solve_decision. Defined.
#[export] Instance Token_eq_dec : EqDecision Token.
Proof. solve_decision. Defined.

(** * Requests and responses *)

Record Cookie := mkCookie { ck_Name : string; ck_Value : string }.

#[export] Instance Cookie_eq_dec : EqDecision Cookie.
Proof. solve_decision. Defined.

(** [http.Request]. The Cookie header is kept parsed: [r.Cookies()] in order. *)
Record Request := mkRequest {
  rq_Method : string; rq_Host : string; rq_Proto : string; rq_ProtoMajor : Z;
  rq_URL : URL; rq_Header : MIMEHeader; rq_Cookies : list Cookie;
  rq_RemoteAddr : string; rq_TLS : bool }.

(** The [http.ResponseWriter] a handler holds: header map, informational
    responses already sent, final status with the headers it was sent with,
    body; whether the value implements [http.Hijacker] and whether [Hijack]
    would succeed, and [http.Pusher]; and the [wroteHeader] flag of the policy
    writer around it, if there is one. *)
Record ResponseWriter := mkWriter {
  w_Header : MIMEHeader;
  w_Info : list (Z * MIMEHeader);
  w_Final : option (Z * MIMEHeader);
  w_Body : string;
  w_Hijacker : bool; w_HijackOk : bool; w_Hijacked : bool; w_Pusher : bool;
  w_Policy : bool; w_wroteHeader : bool }.

(** [RequestData]. *)
Record RequestData := mkRequestData {
  rd_Id : string;
  rd_Time : Time;
  rd_ChallengeVerify : gmap Id VerifyResult;
  rd_ChallengeState : gmap Id VerifyState;
  rd_challengeDiagnostic : gmap Id string;
  rd_ChallengeMap : TokenChallengeMap;
  rd_challengeMapModified : bool;
  rd_broadVaryApplied : bool;
  rd_stateCookieStatus : string;
  rd_RemoteAddress : AddrPort;
  rd_cookieName : string;
  rd_issuedChallenge : string;
  rd_ExtraHeaders : MIMEHeader;
  rd_fp : gmap string string;
  rd_query : Values;
  rd_opts : gmap string string }.

(** [html.Node] and [html.Attribute], the fields the program reads. *)
Record Attribute := mkAttr { a_Namespace : string; a_Key : string; a_Val : string }.
Record Node := mkNode { n_Data : string; n_Namespace : string; n_Attr : list Attribute }.

(** A backend is an [http.Handler] behind a name: what it does to the response
    writer, as the sequence of its header updates, writes and flushes. *)
Inductive WOp :=
  | OpHeader (f : MIMEHeader → MIMEHeader)
  | OpWriteHeader (status : Z)
  | OpWrite (data : string)
  | OpFlush.

Record Backend := mkBackend { b_Name : string; b_ServeHTTP : Request → list WOp }.

(** What an observer of the process sees: the three Prometheus counters, the
    structured audit records of challenges, the client requests handed to backends
    with the request as sent, the page fetches the tag cache makes, the requests and
    lookups of the http and dnsbl challenges, and the answers given to waiting
    requests. *)
Inductive Event :=
  | EvRule (name result : string)
  | EvAction (action : RuleAction)
  | EvChallenge (name result : string)
  | EvAudit (event status outcome challenge stateCookie verification : string)
      (err : option goerr) (redirect : string)
  | EvServe (backend : string) (r : Request)
  | EvFetch (backend : string) (uri : URL)
  | EvRequest (method url : string) (header : MIMEHeader) (cookies : list Cookie)
  | EvLookup (name : string)
  | EvSolve (challenge key : string) (result : VerifyResult).

(** The clock and the random source are streams of readings; [wd_tick] and
    [wd_draw] count the readings made. [wd_Tags] is the tag cache of the server,
    [wd_Dnsbl] the answer caches of the dnsbl challenges. *)
Record World := mkWorld {
  wd_Data : RequestData;
  wd_Req : Request;
  wd_W : ResponseWriter;
  wd_Trace : list Event;
  wd_Tags : DecayMap string (list Node);
  wd_Dnsbl : gmap Id (DecayMap string N);
  wd_clock : nat → Time; wd_tick : nat;
  wd_rand : nat → spec_float; wd_draw : nat }.

(** * The handler monad: state, and Go panics *)

Inductive outcome (A : Type) :=
  | Ret (a : A) (w : World)
  | Panic (e : goerr) (w : World).
Arguments Ret {_} _ _.
Arguments Panic {_} _ _.

Definition M (A : Type) : Type := World → outcome A.

Definition ret {A} (a : A) : M A := λ w, Ret a w.
Definition bind {A B} (m : M A) (f : A → M B) : M B :=
  λ w, match m w with Ret a w' => f a w' | Panic e w' => Panic e w' end.
Definition panic {A} (e : goerr) : M A := λ w, Panic e w.

Declare Scope handler_scope.
Delimit Scope handler_scope with handler.
Notation "x <- m ;; k" := (bind m (fun x => k))
  (at level 100, m at next level, k at level 200, right associativity) : handler_scope.
Notation "m ;; k" := (bind m (fun _ => k))
  (at level 100, k at level 200, right associativity) : handler_scope.

Definition get_data : M RequestData := λ w, Ret (wd_Data w) w.
Definition get_req : M Request := λ w, Ret (wd_Req w) w.
Definition get_trace : M (list Event) := λ w, Ret (wd_Trace w) w.
Definition get_w : M ResponseWriter := λ w, Ret (wd_W w) w.

Definition with_data (d : RequestData) (w : World) : World :=
  mkWorld d (wd_Req w) (wd_W w) (wd_Trace w) (wd_Tags w) (wd_Dnsbl w) (wd_clock w) (wd_tick w) (wd_rand w) (wd_draw w).
Definition with_req (r : Request) (w : World) : World :=
  mkWorld (wd_Data w) r (wd_W w) (wd_Trace w) (wd_Tags w) (wd_Dnsbl w) (wd_clock w) (wd_tick w) (wd_rand w) (wd_draw w).
Definition with_w (rw : ResponseWriter) (w : World) : World :=
  mkWorld (wd_Data w) (wd_Req w) rw (wd_Trace w) (wd_Tags w) (wd_Dnsbl w) (wd_clock w) (wd_tick w) (wd_rand w) (wd_draw w).
Definition with_event (e : Event) (w : World) : World :=
  mkWorld (wd_Data w) (wd_Req w) (wd_W w) (wd_Trace w ++ [e]) (wd_Tags w) (wd_Dnsbl w)
    (wd_clock w) (wd_tick w) (wd_rand w) (wd_draw w).

Definition with_tags (t : DecayMap string (list Node)) (w : World) : World :=
  mkWorld (wd_Data w) (wd_Req w) (wd_W w) (wd_Trace w) t (wd_Dnsbl w)
    (wd_clock w) (wd_tick w) (wd_rand w) (wd_draw w).

Definition with_dnsbl (m : gmap Id (DecayMap string N)) (w : World) : World :=
  mkWorld (wd_Data w) (wd_Req w) (wd_W w) (wd_Trace w) (wd_Tags w) m
    (wd_clock w) (wd_tick w) (wd_rand w) (wd_draw w).

Definition upd_data (f : RequestData → RequestData) : M unit :=
  λ w, Ret () (with_data (f (wd_Data w)) w).
Definition upd_req (f : Request → Request) : M unit :=
  λ w, Ret () (with_req (f (wd_Req w)) w).
Definition upd_w (f : ResponseWriter → ResponseWriter) : M unit :=
  λ w, Ret () (with_w (f (wd_W w)) w).
Definition emit (e : Event) : M unit := λ w, Ret () (with_event e w).

(** [time.Now()] and [rand.Float64()]: the next reading. *)
Definition now : M Time := λ w,
  Ret (wd_clock w (wd_tick w))
      (mkWorld (wd_Data w) (wd_Req w) (wd_W w) (wd_Trace w) (wd_Tags w) (wd_Dnsbl w)
         (wd_clock w) (S (wd_tick w)) (wd_rand w) (wd_draw w)).
Definition float64 : M spec_float := λ w,
  Ret (wd_rand w (wd_draw w))
      (mkWorld (wd_Data w) (wd_Req w) (wd_W w) (wd_Trace w) (wd_Tags w) (wd_Dnsbl w)
         (wd_clock w) (wd_tick w) (wd_rand w) (S (wd_draw w))).

(** ** Field updates *)

Definition set_Id (x : string) (d : RequestData) : RequestData :=
  let 'mkRequestData _ a b c e f g h i j k l m n o p := d in
  mkRequestData x a b c e f g h i j k l m n o p.
Definition upd_Verify (x : gmap Id VerifyResult → gmap Id VerifyResult) (d : RequestData) :
    RequestData :=
  let 'mkRequestData a b c e f g h i j k l m n o p q := d in
  mkRequestData a b (x c) e f g h i j k l m n o p q.
Definition upd_State (x : gmap Id VerifyState → gmap Id VerifyState) (d : RequestData) :
    RequestData :=
  let 'mkRequestData a b c e f g h i j k l m n o p q := d in
  mkRequestData a b c (x e) f g h i j k l m n o p q.
Definition upd_Diagnostic (x : gmap Id string → gmap Id string) (d : RequestData) :
    RequestData :=
  let 'mkRequestData a b c e f g h i j k l m n o p q := d in
  mkRequestData a b c e (x f) g h i j k l m n o p q.
Definition set_ChallengeMap (x : TokenChallengeMap) (d : RequestData) : RequestData :=
  let 'mkRequestData a b c e f g h i j k l m n o p q := d in
  mkRequestData a b c e f x h i j k l m n o p q.
Definition set_MapModified (x : bool) (d : RequestData) : RequestData :=
  let 'mkRequestData a b c e f g h i j k l m n o p q := d in
  mkRequestData a b c e f g x i j k l m n o p q.
Definition set_broadVary (x : bool) (d : RequestData) : RequestData :=
  let 'mkRequestData a b c e f g h i j k l m n o p q := d in
  mkRequestData a b c e f g h x j k l m n o p q.
Definition set_cookieStatus (x : string) (d : RequestData) : RequestData :=
  let 'mkRequestData a b c e f g h i j k l m n o p q := d in
  mkRequestData a b c e f g h i x k l m n o p q.
Definition upd_Extra (x : MIMEHeader → MIMEHeader) (d : RequestData) : RequestData :=
  let 'mkRequestData a b c e f g h i j k l m n o p q := d in
  mkRequestData a b c e f g h i j k l m (x n) o p q.
Definition upd_opts (x : gmap string string → gmap string string) (d : RequestData) :
    RequestData :=
  let 'mkRequestData a b c e f g h i j k l m n o p q := d in
  mkRequestData a b c e f g h i j k l m n o p (x q).

Definition upd_rq_Header (f : MIMEHeader → MIMEHeader) (r : Request) : Request :=
  let 'mkRequest a b c d e h ck i j := r in mkRequest a b c d e (f h) ck i j.
Definition upd_rq_URL (f : URL → URL) (r : Request) : Request :=
  let 'mkRequest a b c d u h ck i j := r in mkRequest a b c d (f u) h ck i j.
Definition set_rq_Cookies (ck : list Cookie) (r : Request) : Request :=
  let 'mkRequest a b c d u h _ i j := r in mkRequest a b c d u h ck i j.

Definition upd_w_Header (f : MIMEHeader → MIMEHeader) (w : ResponseWriter) : ResponseWriter :=
  let 'mkWriter a b c d e g h i j k := w in mkWriter (f a) b c d e g h i j k.
Definition set_w_Hijacked (w : ResponseWriter) : ResponseWriter :=
  let 'mkWriter a b c d e g _ i j k := w in mkWriter a b c d e g true i j k.
Definition set_w_wroteHeader (w : ResponseWriter) : ResponseWriter :=
  let 'mkWriter a b c d e g h i j _ := w in mkWriter a b c d e g h i j true.
Definition add_w_Info (status : Z) (w : ResponseWriter) : ResponseWriter :=
  let 'mkWriter a b c d e g h i j k := w in mkWriter a (b ++ [(status, a)]) c d e g h i j k.
Definition set_w_Final (status : Z) (w : ResponseWriter) : ResponseWriter :=
  let 'mkWriter a b c d e g h i j k := w in mkWriter a b (Some (status, a)) d e g h i j k.
Definition add_w_Body (s : string) (w : ResponseWriter) : ResponseWriter :=
  let 'mkWriter a b c d e g h i j k := w in mkWriter a b c (d +:+ s) e g h i j k.

(** ** Header operations on the response and the request *)

Definition w_Set (k v : string) : M unit := upd_w (upd_w_Header (λ h, hdr_Set h k v)).
Definition w_Add (k v : string) : M unit := upd_w (upd_w_Header (λ h, hdr_Add h k v)).
Definition w_Del (k : string) : M unit := upd_w (upd_w_Header (λ h, hdr_Del h k)).
Definition r_Set (k v : string) : M unit := upd_req (upd_rq_Header (λ h, hdr_Set h k v)).

(** Reads of the zero value for a missing key. *)
Definition rd_verify (d : RequestData) (i : Id) : VerifyResult :=
  default VerifyResultNone (rd_ChallengeVerify d !! i).
Definition rd_state (d : RequestData) (i : Id) : VerifyState :=
  default VerifyStateNone (rd_ChallengeState d !! i).

(** The final world of a run, and its value when it did not panic. *)
Definition world_of {A} (o : outcome A) : World :=
  match o with Ret _ w => w | Panic _ w => w end.
Definition value_of {A} (o : outcome A) : option A :=
  match o with Ret a _ => Some a | Panic _ _ => None end.

(** * Weakest preconditions for handlers

    [runs m w Q P]: from [w], [m] returns satisfying [Q] or panics satisfying [P]. *)
Definition runs {A} (m : M A) (w : World) (Q : A → World → Prop) (P : World → Prop) : Prop :=
  match m w with Ret a w' => Q a w' | Panic _ w' => P w' end.

Lemma bind_run {A B} (m : M A) (f : A → M B) w :
  bind m f w = match m w with Ret a w' => f a w' | Panic e w' => Panic e w' end.
Proof. reflexivity. Qed.

Lemma runs_bind {A B} (m : M A) (f : A → M B) w Q P :
  runs m w (λ a w', runs (f a) w' Q P) P → runs (bind m f) w Q P.
Proof. unfold runs, bind. by destruct (m w). Qed.

Lemma runs_mono {A} (m : M A) w (Q Q' : A → World → Prop) (P P' : World → Prop) :
  runs m w Q P → (∀ a w', Q a w' → Q' a w') → (∀ w', P w' → P' w') → runs m w Q' P'.
Proof. unfold runs. destruct (m w); auto. Qed.

Lemma runs_ret {A} (a : A) w (Q : A → World → Prop) P : Q a w → runs (ret a) w Q P.
Proof. done. Qed.

#[export] Hint Resolve runs_ret : go.

Lemma VerifyResult_Ok_iff r : VerifyResult_Ok r = true ↔ r = VerifyResultOK.
Proof. by destruct r. Qed.

(** * Concrete inputs *)

Definition demo_request (h : MIMEHeader) : Request :=
  mkRequest "GET" "example.org" "HTTP/1.1" 1 (set_Path emptyURL "/page") h [] "192.0.2.7:4711" true.

Definition demo_data (t : Time) (a : Addr) : RequestData :=
  mkRequestData "" t ∅ ∅ ∅ (Some ∅) false false "" (mkAddrPort a 4711) "cookie" "" ∅ ∅ ∅ ∅.

Definition demo_writer : ResponseWriter :=
  mkWriter ∅ [] None "" false false false false false false.

(** A world whose clock stands still and whose random source is constant. *)
Definition demo_world (d : RequestData) (r : Request) (t : Time) (u : spec_float) : World :=
  mkWorld d r demo_writer [] ∅ ∅ (λ _, t) 0 (λ _, u) 0.
