(* ===== verification/Parameters.v ===== *)
(** What the challenge runtimes share: reading their YAML parameters, and the
    probability with which a stored token is verified in full. *)

From S2P Require Import Prelude Types.
From stdpp Require Import options.

(** The parameters of a runtime: the defaults, overwritten by the YAML node when
    there is one. [unmarshal] is the YAML library (goccy/go-yaml). *)
Definition read_parameters {Y P} (unmarshal : Y → P → result P) (DefaultParameters : P)
    (parameters : option Y) : result P :=
  match parameters with
  | None => Ok DefaultParameters
  | Some y => unmarshal y DefaultParameters
  end.

(** * 64-bit floats *)

(** The float nearest to [n/d]. *)
Definition float_ratio (n d : positive) : spec_float :=
  SFdiv 53 1024 (S754_finite false n 0) (S754_finite false d 0).

Definition float_0_20 : spec_float := Eval vm_compute in float_ratio 1 5.
Definition float_0_10 : spec_float := Eval vm_compute in float_ratio 1 10.
Definition float_1 : spec_float := Eval vm_compute in float_ratio 1 1.
Definition float_0 : spec_float := S754_zero false.

(** A probability of zero or less is the runtime's default, one above 1 is 1. *)
Definition clampProbability (def x : spec_float) : spec_float :=
  if SFleb x float_0 then def
  else if SFltb float_1 x then float_1
  else x.

(** * Properties *)

Definition is_nan (x : spec_float) : bool := match x with S754_nan => true | _ => false end.

Lemma finite_le m e m0 e0 :
  SFltb (S754_finite false m0 e0) (S754_finite false m e) = false →
  SFleb (S754_finite false m e) (S754_finite false m0 e0) = true.
Proof.
  unfold SFltb, SFleb, SFcompare. change (PosDef.Pos.compare_cont Eq) with Pos.compare.
  rewrite (Z.compare_antisym e e0), (Pos.compare_antisym m m0).
  by destruct (e ?= e0)%Z, (m ?= m0)%positive.
Qed.

(** Full verification has a probability in (0, 1], whatever number the
    configuration gives; not-a-number alone is kept as it is, and no random value is
    below it. *)
Theorem clampProbability_bounds (def x : spec_float)
    (Hdef : SFltb float_0 def = true ∧ SFleb def float_1 = true) :
  if is_nan x then clampProbability def x = S754_nan ∧ ∀ f, SFltb f (clampProbability def x) = false
  else SFltb float_0 (clampProbability def x) = true ∧ SFleb (clampProbability def x) float_1 = true.
Proof.
  unfold clampProbability. destruct x as [s|[]| |[] m e]; cbn -[SFleb SFltb float_1]; try done.
  - split; [done|]. by intros [| | |].
  - change (SFleb (S754_finite false m e) float_0) with false. cbn [is_nan]. cbv iota.
    destruct (SFltb float_1 (S754_finite false m e)) eqn:Hx; [done|].
    split; [done|]. by apply finite_le.
Qed.

Lemma clampProbability_bounds_witness :
  SFltb float_0 (clampProbability float_0_20 (float_ratio 3 2)) = true ∧
  SFleb (clampProbability float_0_20 (float_ratio 3 2)) float_1 = true.
Proof.
  apply (clampProbability_bounds float_0_20 (float_ratio 3 2)). split; vm_compute; reflexivity.
Defined.
