(* ===== verification/Dnsbl.v ===== *)
(** [utils/dnsbl.go]: the names a DNS block list is asked for, and its answers. *)

From S2P Require Import Prelude GoStrings Hex.
From stdpp Require Import options.

(** * Addresses as bytes ([net.IP]) *)

Definition v4InV6Prefix : list ascii := repeat (byte_of 0) 10 ++ [byte_of 255; byte_of 255].

(** [To4] and [To16]; [None] is nil. *)
Definition To4 (ip : string) : option string :=
  let l := bytes ip in
  if length l =? 4 then Some ip
  else if (length l =? 16) && bool_decide (take 12 l = v4InV6Prefix) then Some (of_bytes (drop 12 l))
  else None.
Definition To16 (ip : string) : option string :=
  let l := bytes ip in
  if length l =? 4 then Some (of_bytes (v4InV6Prefix ++ l))
  else if length l =? 16 then Some ip
  else None.

(** * Responses *)

Abbreviation DNSBLResponse := N.

Definition ResponseGood : DNSBLResponse := 0.
Definition ResponseUnknown : DNSBLResponse := 255.

Definition Bad (r : DNSBLResponse) : bool :=
  negb (r =? ResponseGood)%N && negb (r =? ResponseUnknown)%N.

(** * Lookup *)

(** [nibbleTable]. *)
Definition nibble (n : N) : ascii := hex_digit n.

(** The bytes of the address, last first. *)
Definition v4_labels (ip4 : string) : string :=
  foldr (λ b acc, acc +:+ FormatUint (byte_val b) +:+ ".") "" (bytes ip4).
Definition v6_labels (ip : string) : string :=
  foldr (λ b acc, acc +:+ String (nibble (N.land (byte_val b) 0xf))
    (String "." (String (nibble (N.shiftr (byte_val b) 4)) "."))) "" (bytes ip).

Definition lookup_target (target ip : string) : string :=
  match To4 ip with Some ip4 => v4_labels ip4 | None => v6_labels ip end +:+ target.

(** [Lookup]; [resolve] is [net.Resolver.LookupIP] for A records. The first address
    answers; taking the last byte of an address that is not IPv4 panics, which the
    resolver excludes ([None]). *)
Definition Lookup (resolve : string → result (list string)) (target ip : string) :
    option (DNSBLResponse * option goerr) :=
  match resolve (lookup_target target ip) with
  | Err err => Some (ResponseUnknown, Some err)
  | Ok [] => Some (ResponseUnknown, None)
  | Ok (ip :: _) =>
      match To4 ip with
      | Some ip4 => match last (bytes ip4) with Some b => Some (byte_val b, None) | None => None end
      | None => None
      end
  end.

Example lookup_target1 : lookup_target "dnsbl.example" (of_bytes (byte_of <$> [192; 0; 2; 7]%N)) =
  "7.2.0.192.dnsbl.example".
Proof. reflexivity. Qed.
Example lookup_target2 :
  lookup_target "d" (of_bytes (byte_of <$> ([0x20; 0x01; 0x0d; 0xb8] ++ repeat 0%N 11 ++ [0x1f])%N)) =
  "f.1.0.0.0.0.0.0.0.0.0.0.0.0.0.0.0.0.0.0.0.0.0.0.8.b.d.0.1.0.0.2.d".
Proof. reflexivity. Qed.

(** * Properties *)

(** Labels, each followed by a dot. *)
Definition dotted (labs : list string) : string := foldr (λ x acc, x +:+ "." +:+ acc) "" labs.

Lemma dotted_app a b : dotted (a ++ b) = dotted a +:+ dotted b.
Proof. induction a as [|x a IH]; simpl; [done|]. by rewrite IH, !string_app_assoc. Qed.

Lemma Split_dotted labs :
  Forall (λ x, ContainsByte x "." = false) labs → Split (dotted labs) "." = labs ++ [""].
Proof.
  induction 1 as [|x labs Hx _ IH]; [done|]. simpl.
  change ("." +:+ dotted labs) with (String "." (dotted labs)). by rewrite Split_app, IH.
Qed.

Lemma dotted_inj a b :
  Forall (λ x, ContainsByte x "." = false) a → Forall (λ x, ContainsByte x "." = false) b →
  dotted a = dotted b → a = b.
Proof.
  intros Ha Hb Heq. pose proof (Split_dotted a Ha) as Hs. rewrite Heq, Split_dotted in Hs by done.
  by apply app_inj_tail in Hs as [-> _].
Qed.

(** Both forms are the labels of the bytes, in reverse. *)
Lemma foldr_labels (lab : ascii → list string) l :
  foldr (λ b acc, acc +:+ dotted (lab b)) "" l = dotted (reverse l ≫= lab).
Proof.
  induction l as [|b l IH]; [done|]. simpl.
  rewrite IH, reverse_cons, bind_app, dotted_app. cbn. by rewrite app_nil_r.
Qed.

Definition v4_lab (b : ascii) : list string := [FormatUint (byte_val b)].
Definition v6_lab (b : ascii) : list string :=
  [String (nibble (N.land (byte_val b) 0xf)) ""; String (nibble (N.shiftr (byte_val b) 4)) ""].

Lemma v4_labels_eq ip : v4_labels ip = dotted (reverse (bytes ip) ≫= v4_lab).
Proof. rewrite <-foldr_labels. apply foldr_ext; [|done|done]. done. Qed.
Lemma v6_labels_eq ip : v6_labels ip = dotted (reverse (bytes ip) ≫= v6_lab).
Proof. rewrite <-foldr_labels. apply foldr_ext; [|done|done]. done. Qed.

Lemma v4_lab_plain : ∀ b, forallb (λ x, negb (ContainsByte x ".")) (v4_lab b) = true.
Proof. by_all_bytes. Qed.
Lemma v6_lab_plain : ∀ b, forallb (λ x, negb (ContainsByte x ".")) (v6_lab b) = true.
Proof. by_all_bytes. Qed.
Lemma v4_lab_inj : ∀ b c, v4_lab b = v4_lab c → b = c.
Proof. intros b c [= Heq]. by apply byte_val_inj, FormatUint_inj. Qed.
Lemma v6_lab_inj : ∀ b c, v6_lab b = v6_lab c → b = c.
Proof. by_all_bytes. Qed.

Section labels.
  Context (lab : ascii → list string) (k : nat).
  Hypothesis lab_plain : ∀ b, forallb (λ x, negb (ContainsByte x ".")) (lab b) = true.
  Hypothesis lab_inj : ∀ b c, lab b = lab c → b = c.
  Hypothesis lab_length : ∀ b, length (lab b) = k.

Lemma labels_plain l : Forall (λ x, ContainsByte x "." = false) (l ≫= lab).
Proof using lab_plain.
  apply Forall_forall. intros x (b & Hx & _)%list_elem_of_bind.
  pose proof (lab_plain b) as Hp. rewrite forallb_forall in Hp.
  apply list_elem_of_In in Hx. apply Hp in Hx. by apply negb_true_iff in Hx.
Qed.

Lemma labels_inj l l' : l ≫= lab = l' ≫= lab → length l = length l' → l = l'.
Proof using lab_inj lab_length.
  revert l'. induction l as [|b l IH]; intros [|c l']; try done. csimpl. intros Heq [= Hl].
  apply app_inj_1 in Heq as [Hb Heq]; [|by rewrite !lab_length].
  f_equal; [by apply lab_inj|by apply IH].
Qed.

Lemma labels_length l : length (l ≫= lab) = length l * k.
Proof using lab_length.
  induction l as [|b l IH]; [done|]. csimpl. rewrite length_app, lab_length, IH. done.
Qed.

End labels.

Lemma To4_length ip ip4 : To4 ip = Some ip4 → length (bytes ip4) = 4.
Proof.
  unfold To4. destruct (_ =? 4) eqn:H4; [intros [= <-]; by apply Nat.eqb_eq|].
  destruct (_ && _) eqn:H16; [|done]. intros [= <-].
  apply andb_true_iff in H16 as [Hl%Nat.eqb_eq _]. rewrite bytes_of_bytes, length_drop. lia.
Qed.

(** The 16 bytes of an address, from its short or its long form. *)
Lemma To16_To4 ip a :
  To16 ip = Some a →
  match To4 ip with
  | Some ip4 => a = of_bytes (v4InV6Prefix ++ bytes ip4)
  | None => a = ip ∧ length (bytes ip) = 16 ∧ take 12 (bytes ip) ≠ v4InV6Prefix
  end.
Proof.
  unfold To16, To4. destruct (_ =? 4); [by intros [= <-]|].
  destruct (length (bytes ip) =? 16) eqn:H16; [|done]. intros [= <-]. cbn [andb].
  apply Nat.eqb_eq in H16. case_bool_decide as Hp; [|done].
  rewrite bytes_of_bytes, <-Hp, take_drop. by rewrite of_bytes_bytes.
Qed.

Lemma v4_labels_inj s t : length (bytes s) = length (bytes t) → v4_labels s = v4_labels t → s = t.
Proof.
  intros Hl. rewrite !v4_labels_eq. intros Heq%dotted_inj; [|by apply labels_plain, v4_lab_plain..].
  apply (labels_inj v4_lab 1 v4_lab_inj) in Heq; [|done|by rewrite !length_reverse].
  apply bytes_inj. by apply (inj reverse).
Qed.

Lemma v6_labels_inj s t : length (bytes s) = length (bytes t) → v6_labels s = v6_labels t → s = t.
Proof.
  intros Hl. rewrite !v6_labels_eq. intros Heq%dotted_inj; [|by apply labels_plain, v6_lab_plain..].
  apply (labels_inj v6_lab 2 v6_lab_inj) in Heq; [|done|by rewrite !length_reverse].
  apply bytes_inj. by apply (inj reverse).
Qed.

(** Four labels against thirty-two. *)
Lemma v4_v6_labels s t : length (bytes s) = 4 → length (bytes t) = 16 → v4_labels s ≠ v6_labels t.
Proof.
  intros Hs Ht. rewrite v4_labels_eq, v6_labels_eq.
  intros Heq%dotted_inj; [|by apply labels_plain, v4_lab_plain|by apply labels_plain, v6_lab_plain].
  apply (f_equal length) in Heq. rewrite (labels_length v4_lab 1), (labels_length v6_lab 2) in Heq by done.
  rewrite !length_reverse in Heq. lia.
Qed.

Lemma string_app_cancel target s t : s +:+ target = t +:+ target → s = t.
Proof.
  intros Heq%(f_equal bytes). apply bytes_inj. rewrite !bytes_app in Heq. by apply app_inv_tail in Heq.
Qed.

(** Addresses have their own names: two addresses, in their short or long forms,
    are looked up under the same name of a block list exactly when they are the
    same address (an IPv4 address and its mapped form are). *)
Theorem lookup_target_inj (target ip ip' a a' : string)
    (Ha : To16 ip = Some a) (Ha' : To16 ip' = Some a') :
  lookup_target target ip = lookup_target target ip' ↔ a = a'.
Proof.
  apply To16_To4 in Ha, Ha'. unfold lookup_target.
  destruct (To4 ip) as [x|] eqn:Hx, (To4 ip') as [y|] eqn:Hy.
  - apply To4_length in Hx, Hy. subst. split.
    + intros Heq%string_app_cancel%v4_labels_inj; [by subst|congruence].
    + intros Heq%(f_equal bytes). rewrite !bytes_of_bytes in Heq. apply app_inv_head in Heq.
      by apply bytes_inj in Heq as ->.
  - apply To4_length in Hx. destruct Ha' as (-> & Hl & Hp). subst. split; [by intros Heq%string_app_cancel%v4_v6_labels|].
    intros Heq. destruct Hp. by rewrite <-Heq, bytes_of_bytes.
  - apply To4_length in Hy. destruct Ha as (-> & Hl & Hp). subst. split.
    + intros Heq%string_app_cancel. symmetry in Heq. by apply v4_v6_labels in Heq.
    + intros Heq. destruct Hp. by rewrite Heq, bytes_of_bytes.
  - destruct Ha as (-> & Hl & _), Ha' as (-> & Hl' & _). split; [|by intros ->].
    intros Heq%string_app_cancel%v6_labels_inj; congruence.
Qed.

Lemma lookup_target_inj_witness :
  lookup_target "d" (of_bytes (byte_of <$> [192; 0; 2; 7]%N)) =
  lookup_target "d" (of_bytes (byte_of <$> (repeat 0%N 10 ++ [255; 255; 192; 0; 2; 7])%N)).
Proof. eapply lookup_target_inj; vm_compute; reflexivity. Defined.
