(* ===== verification/Awaiter.v ===== *)
(** [lib/challenge/awaiter.go]: waiting for the result of a challenge that another
    request brings.

    [Await] and [Solve] run concurrently over one concurrent map. Their atomic
    operations are the steps here: [Await] puts its callback in the map ([OSet]),
    wakes when its context is done, by the callback or a timeout ([OTimeout]), reads
    the result ([ORead]) and deletes its key ([ODel]); [Solve] takes a callback out of
    the map ([OTake]), and the callback stores the result ([OStore]) and cancels the
    context ([OCancel]). *)

From S2P Require Import Prelude Types.
From stdpp Require Import options.

Section awaiter.
  Context {K : Type} `{Countable K}.

(** Where a call of [Await] is: waiting, with the result read, or returned. *)
Inductive phase := Waiting | Read (v : VerifyResult) | Returned (v : VerifyResult).

(** A call of [Await]: its key, the atomic result, whether its context is done. *)
Record waiter := mkWaiter { aw_key : K; aw_result : VerifyResult; aw_done : bool; aw_phase : phase }.

(** A call of [Solve] that took the callback of a waiter, before and after it stored
    its result. *)
Inductive solver := Taken (n : nat) (v : VerifyResult) | Stored (n : nat).

(** The map from keys to callbacks, named by their waiters; the calls by thread. *)
Record sys := mkSys { aw_m : gmap K nat; aw_waiters : gmap nat waiter; aw_solvers : gmap nat solver }.

Definition NewAwaiter : sys := mkSys ∅ ∅ ∅.

Inductive op :=
  | OSet (n : nat) (k : K)
  | OTimeout (n : nat)
  | ORead (n : nat)
  | ODel (n : nat)
  | OTake (s : nat) (k : K) (v : VerifyResult)
  | OStore (s : nat)
  | OCancel (s : nat).

Definition upd_waiter (s : sys) (n : nat) (f : waiter → waiter) : sys :=
  mkSys (aw_m s) (alter f n (aw_waiters s)) (aw_solvers s).

(** One atomic operation; [None] when the thread is not there to make it. Threads
    are named once. *)
Definition step (s : sys) (o : op) : option sys :=
  match o with
  | OSet n k =>
      match aw_waiters s !! n with
      | Some _ => None
      | None => Some (mkSys (<[k := n]> (aw_m s))
                        (<[n := mkWaiter k VerifyResultNone false Waiting]> (aw_waiters s)) (aw_solvers s))
      end
  | OTimeout n =>
      w ← aw_waiters s !! n;
      Some (upd_waiter s n (λ w, mkWaiter (aw_key w) (aw_result w) true (aw_phase w)))
  | ORead n =>
      w ← aw_waiters s !! n;
      match aw_phase w with
      | Waiting =>
          if aw_done w
          then Some (upd_waiter s n (λ w, mkWaiter (aw_key w) (aw_result w) true (Read (aw_result w))))
          else None
      | _ => None
      end
  | ODel n =>
      w ← aw_waiters s !! n;
      match aw_phase w with
      | Read v =>
          Some (mkSys (delete (aw_key w) (aw_m s))
                  (<[n := mkWaiter (aw_key w) (aw_result w) true (Returned v)]> (aw_waiters s)) (aw_solvers s))
      | _ => None
      end
  | OTake t k v =>
      match aw_solvers s !! t with
      | Some _ => None
      | None =>
          match aw_m s !! k with
          | None => Some s
          | Some n => Some (mkSys (delete k (aw_m s)) (aw_waiters s) (<[t := Taken n v]> (aw_solvers s)))
          end
      end
  | OStore t =>
      match aw_solvers s !! t with
      | Some (Taken n v) =>
          let s := upd_waiter s n (λ w, mkWaiter (aw_key w) v (aw_done w) (aw_phase w)) in
          Some (mkSys (aw_m s) (aw_waiters s) (<[t := Stored n]> (aw_solvers s)))
      | _ => None
      end
  | OCancel t =>
      match aw_solvers s !! t with
      | Some (Stored n) =>
          let s := upd_waiter s n (λ w, mkWaiter (aw_key w) (aw_result w) true (aw_phase w)) in
          Some (mkSys (aw_m s) (aw_waiters s) (delete t (aw_solvers s)))
      | _ => None
      end
  end.

Definition run (ops : list op) (s : sys) : option sys := foldl (λ s o, s ← s; step s o) (Some s) ops.

(** The states operations lead to, with the operations so far. *)
Inductive reaches : list op → sys → Prop :=
  | reach_start : reaches [] NewAwaiter
  | reach_step ops s o s' : reaches ops s → step s o = Some s' → reaches (ops ++ [o]) s'.

Lemma run_reaches ops s : run ops NewAwaiter = Some s → reaches ops s.
Proof.
  revert s. induction ops as [|o ops IH] using rev_ind; intros s; unfold run.
  - intros [= <-]. constructor.
  - rewrite foldl_app. cbn. fold (run ops NewAwaiter). destruct (run ops NewAwaiter) as [s0|]; [|done].
    cbn. intros Hs. by eapply reach_step; [apply IH|].
Qed.

(** ** The invariant *)

(** A solve of the waiter's key with this result, after the waiter began. *)
Definition solved (ops : list op) (n : nat) (k : K) (v : VerifyResult) : Prop :=
  ∃ pre mid post t, ops = pre ++ OSet n k :: mid ++ OTake t k v :: post.

Definition result_ok (ops : list op) (n : nat) (k : K) (v : VerifyResult) : Prop :=
  v ≠ VerifyResultNone → solved ops n k v.

Record inv (ops : list op) (s : sys) : Prop := {
  inv_map : ∀ k n, aw_m s !! k = Some n → ∃ w, aw_waiters s !! n = Some w ∧ aw_key w = k;
  inv_waiter : ∀ n w, aw_waiters s !! n = Some w → OSet n (aw_key w) ∈ ops ∧
    result_ok ops n (aw_key w) (aw_result w) ∧
    ∀ v, aw_phase w = Read v ∨ aw_phase w = Returned v → result_ok ops n (aw_key w) v;
  inv_solver : ∀ t n v, aw_solvers s !! t = Some (Taken n v) →
    ∃ w, aw_waiters s !! n = Some w ∧ solved ops n (aw_key w) v }.

Lemma solved_snoc ops o n k v : solved ops n k v → solved (ops ++ [o]) n k v.
Proof.
  intros (pre & mid & post & t & ->). exists pre, mid, (post ++ [o]), t.
  rewrite <-app_assoc. cbn. by rewrite <-app_assoc.
Qed.

Lemma result_ok_snoc ops o n k v : result_ok ops n k v → result_ok (ops ++ [o]) n k v.
Proof. intros Hr Hv. by apply solved_snoc, Hr. Qed.

Lemma solved_take ops n k t v : OSet n k ∈ ops → solved (ops ++ [OTake t k v]) n k v.
Proof.
  intros (pre & post & ->)%list_elem_of_split. exists pre, post, [], t. by rewrite <-app_assoc.
Qed.

(** What a waiter keeps when it is updated. *)
Lemma inv_update ops s o n f :
  inv ops s → (∀ w, aw_key (f w) = aw_key w) →
  (∀ w, aw_waiters s !! n = Some w → result_ok (ops ++ [o]) n (aw_key w) (aw_result (f w)) ∧
     ∀ v, aw_phase (f w) = Read v ∨ aw_phase (f w) = Returned v → result_ok (ops ++ [o]) n (aw_key w) v) →
  inv (ops ++ [o]) (upd_waiter s n f).
Proof.
  intros [Hm Hw Hs] Hk Hf.
  assert (Hlook : ∀ i w, aw_waiters s !! i = Some w →
    ∃ w', alter f n (aw_waiters s) !! i = Some w' ∧ aw_key w' = aw_key w).
  { intros i w Hi. destruct (decide (n = i)) as [<-|Hne].
    - exists (f w). by rewrite lookup_alter_eq, Hi, Hk.
    - exists w. by rewrite lookup_alter_ne. }
  split; cbn.
  - intros k i Hi. destruct (Hm _ _ Hi) as (w & Hwi & <-). by apply Hlook.
  - intros i w' Hi. destruct (decide (n = i)) as [<-|Hne].
    + rewrite lookup_alter_eq in Hi. destruct (aw_waiters s !! n) as [w|] eqn:Hn; [|done].
      injection Hi as <-. rewrite Hk. destruct (Hf w eq_refl). split; [|done].
      apply elem_of_app. left. by apply Hw.
    + rewrite lookup_alter_ne in Hi by done. destruct (Hw _ _ Hi) as (H1 & H2 & H3).
      split; [set_solver|]. split; [by apply result_ok_snoc|]. intros v Hv. by apply result_ok_snoc, H3.
  - intros t i v Ht. destruct (Hs _ _ _ Ht) as (w & Hi & Hsol). destruct (Hlook _ _ Hi) as (w' & Hw' & Hk').
    exists w'. rewrite Hk'. split; [done|]. by apply solved_snoc.
Qed.

Lemma inv_mono ops s o : inv ops s → inv (ops ++ [o]) s.
Proof.
  intros [Hm Hw Hs]. split; [done| |].
  - intros n w Hn. destruct (Hw _ _ Hn) as (H1 & H2 & H3). split; [set_solver|].
    split; [by apply result_ok_snoc|]. intros v Hv. by apply result_ok_snoc, H3.
  - intros t n v Ht. destruct (Hs _ _ _ Ht) as (w & ? & ?). exists w. split; [done|]. by apply solved_snoc.
Qed.

(** Entries may leave the map and solvers may change state or leave. *)
Lemma inv_shrink ops m ws sv m' sv' :
  inv ops (mkSys m ws sv) → m' ⊆ m →
  (∀ t n v, sv' !! t = Some (Taken n v) → sv !! t = Some (Taken n v)) → inv ops (mkSys m' ws sv').
Proof.
  intros [Hm Hw Hs] Hsub Hsv. split; cbn in *; [|done|].
  - intros k n Hk. apply Hm. by eapply lookup_weaken.
  - intros t n v Ht. by eapply Hs, Hsv.
Qed.

Lemma inv_step ops s o s' : inv ops s → step s o = Some s' → inv (ops ++ [o]) s'.
Proof.
  intros Hi Hstep. destruct o as [n k|n|n|n|t k v|t|t]; cbn in Hstep.
  - destruct (aw_waiters s !! n) eqn:Hn; [done|]. simplify_eq.
    destruct (inv_mono ops s (OSet n k) Hi) as [Hm Hw Hs]. split; cbn.
    + intros k' i [[<- <-]|[Hne Hk]]%lookup_insert_Some; [eexists; by rewrite lookup_insert_eq|].
      destruct (Hm _ _ Hk) as (w & Hw' & ?). exists w. by rewrite lookup_insert_ne by congruence.
    + intros i w [[<- <-]|[Hne Hk]]%lookup_insert_Some; [|by apply Hw].
      split; [set_solver|]. split; [by intros Hne|]. by intros v [|].
    + intros t i v Ht. destruct (Hs _ _ _ Ht) as (w & Hw' & ?). exists w.
      by rewrite lookup_insert_ne by congruence.
  - destruct (aw_waiters s !! n) as [w0|] eqn:Hn; [|done]. cbn in Hstep. simplify_eq.
    apply inv_update; [done|done|]. intros w Hw. destruct (inv_waiter _ _ Hi _ _ Hw) as (_ & H2 & H3).
    split; [by apply result_ok_snoc|]. intros v Hv. by apply result_ok_snoc, H3.
  - destruct (aw_waiters s !! n) as [w0|] eqn:Hn; [|done]. cbn in Hstep.
    destruct (aw_phase w0); try done. destruct (aw_done w0); [|done]. simplify_eq.
    apply inv_update; [done|done|]. intros w Hw. destruct (inv_waiter _ _ Hi _ _ Hw) as (_ & H2 & H3).
    split; [by apply result_ok_snoc|]. intros v [[= <-]|]; [by apply result_ok_snoc|done].
  - destruct (aw_waiters s !! n) as [w0|] eqn:Hn; [|done]. cbn in Hstep.
    destruct (aw_phase w0) as [|v|] eqn:Hp; try done. simplify_eq.
    pose proof (inv_update ops s (ODel n) n
      (λ w, mkWaiter (aw_key w) (aw_result w) true (Returned v)) Hi (λ _, eq_refl)) as Hu.
    unfold upd_waiter in Hu. rewrite <-(insert_id (aw_waiters s) n w0 Hn), alter_insert_eq in Hu.
    rewrite insert_id in Hu by done.
    eapply inv_shrink; [apply Hu|apply delete_subseteq|done].
    intros w Hw. rewrite Hn in Hw. simplify_eq. destruct (inv_waiter _ _ Hi _ _ Hn) as (_ & H2 & H3).
    split; [by apply result_ok_snoc|]. intros v' [|[= <-]]; [done|]. apply result_ok_snoc, H3. by left.
  - destruct (aw_solvers s !! t) eqn:Ht; [done|]. destruct (aw_m s !! k) as [n|] eqn:Hk; [|].
    2:{ simplify_eq. by apply inv_mono. }
    simplify_eq. destruct (inv_map _ _ Hi _ _ Hk) as (w & Hw & <-).
    pose proof (inv_mono ops s (OTake t (aw_key w) v) Hi) as [Hm' Hw' Hs']. split; cbn.
    + intros k i Hk'. apply Hm'. by apply lookup_delete_Some in Hk' as [_ ?].
    + done.
    + intros t' i v' [[<- [= <- <-]]|[_ Ht']]%lookup_insert_Some; [|by eapply Hs'].
      exists w. split; [done|]. apply solved_take. by apply (inv_waiter _ _ Hi).
  - destruct (aw_solvers s !! t) as [[n v|]|] eqn:Ht; try done. simplify_eq.
    pose proof (inv_update ops s (OStore t) n
      (λ w, mkWaiter (aw_key w) v (aw_done w) (aw_phase w)) Hi (λ _, eq_refl)) as Hu.
    eapply inv_shrink; [apply Hu|done|].
    + intros w Hw. destruct (inv_solver _ _ Hi _ _ _ Ht) as (w' & Hw' & Hsol). simplify_eq.
      split; [intros _; by apply solved_snoc|].
      intros v' Hv'. apply result_ok_snoc. by eapply (inv_waiter _ _ Hi).
    + intros t' i v' [[_ ?]|[_ ?]]%lookup_insert_Some; done.
  - destruct (aw_solvers s !! t) as [[n v|n]|] eqn:Ht; try done. simplify_eq.
    pose proof (inv_update ops s (OCancel t) n
      (λ w, mkWaiter (aw_key w) (aw_result w) true (aw_phase w)) Hi (λ _, eq_refl)) as Hu.
    eapply inv_shrink; [apply Hu|done|].
    + intros w Hw. destruct (inv_waiter _ _ Hi _ _ Hw) as (_ & H2 & H3).
      split; [by apply result_ok_snoc|]. intros v Hv. by apply result_ok_snoc, H3.
    + by intros t' i v' [_ ?]%lookup_delete_Some.
Qed.

Lemma reaches_inv ops s : reaches ops s → inv ops s.
Proof.
  induction 1 as [|ops s o s' _ IH Hs]; [|by eapply inv_step].
  split; cbn; intros *; by rewrite lookup_empty.
Qed.

(** *** Keys of their own *)

(** Every call of [Await] has its own key. *)
Definition distinct_keys (ops : list op) : Prop :=
  ∀ n n' k, OSet n k ∈ ops → OSet n' k ∈ ops → n = n'.

(** A waiter nobody solved yet is in the map. *)
Definition present (ops : list op) (s : sys) : Prop :=
  ∀ n w, aw_waiters s !! n = Some w → (aw_phase w = Waiting ∨ ∃ v, aw_phase w = Read v) →
    (∀ t v, OTake t (aw_key w) v ∉ ops) → aw_m s !! aw_key w = Some n.

Lemma distinct_front ops o : distinct_keys (ops ++ [o]) → distinct_keys ops.
Proof. intros Hd n n' k H1 H2. apply (Hd n n' k); set_solver. Qed.

(** Updating a waiter without ending its wait. *)
Lemma present_update ops s o n f :
  present ops s → (∀ w, aw_key (f w) = aw_key w) →
  (∀ w, aw_phase w = Waiting ∨ (∃ v, aw_phase w = Read v) ∨ aw_phase (f w) = aw_phase w) →
  present (ops ++ [o]) (upd_waiter s n f).
Proof.
  intros Hp Hk Hph i w'. cbn. destruct (decide (n = i)) as [<-|Hne].
  - rewrite lookup_alter_eq. destruct (aw_waiters s !! n) as [w|] eqn:Hn; [|done].
    intros [= <-] Hw Hno. rewrite Hk in *. apply Hp; [done| |set_solver].
    destruct (Hph w) as [?|[?|Heq]]; [by left|by right|]. by rewrite Heq in Hw.
  - rewrite lookup_alter_ne by done. intros Hi Hw Hno. apply Hp; [done|done|set_solver].
Qed.

Lemma present_step ops s o s' :
  inv ops s → distinct_keys (ops ++ [o]) → present ops s → step s o = Some s' → present (ops ++ [o]) s'.
Proof.
  intros Hi Hd Hp Hstep. destruct o as [n k|n|n|n|t k v|t|t]; cbn in Hstep.
  - destruct (aw_waiters s !! n) eqn:Hn; [done|]. simplify_eq. intros i w. cbn.
    intros [[<- <-]|[Hne Hw]]%lookup_insert_Some; [intros _ _; apply lookup_insert_eq|].
    intros Hph Hno. rewrite lookup_insert_ne; [apply Hp; [done|done|set_solver]|].
    intros ->. apply Hne. apply (Hd n i (aw_key w)); [set_solver|].
    apply elem_of_app. left. by apply (inv_waiter _ _ Hi).
  - destruct (aw_waiters s !! n); [|done]. cbn in Hstep. simplify_eq. apply present_update; auto.
  - destruct (aw_waiters s !! n) as [w0|] eqn:Hn; [|done]. cbn in Hstep.
    destruct (aw_phase w0) eqn:Hw0; try done. destruct (aw_done w0); [|done]. simplify_eq.
    intros i w. cbn. destruct (decide (n = i)) as [<-|Hne].
    + rewrite lookup_alter_eq, Hn. intros [= <-] _ Hno. cbn in *. apply Hp; [done|by left|set_solver].
    + rewrite lookup_alter_ne by done. intros Hw Hph Hno. apply Hp; [done|done|set_solver].
  - destruct (aw_waiters s !! n) as [w0|] eqn:Hn; [|done]. cbn in Hstep.
    destruct (aw_phase w0) as [|v|] eqn:Hp0; try done. simplify_eq. intros i w. cbn.
    intros [[<- <-]|[Hne Hw]]%lookup_insert_Some; cbn; [by intros [|[? ?]]|].
    intros Hph Hno. rewrite lookup_delete_ne; [apply Hp; [done|done|set_solver]|].
    intros Heq. apply Hne. apply (Hd n i (aw_key w)); apply elem_of_app; left.
    + rewrite <-Heq. by apply (inv_waiter _ _ Hi).
    + by apply (inv_waiter _ _ Hi).
  - destruct (aw_solvers s !! t); [done|]. intros i w Hw Hph Hno.
    assert (Hk : k ≠ aw_key w) by (intros ->; apply (Hno t v); set_solver).
    destruct (aw_m s !! k) as [n|]; simplify_eq; cbn in *; [rewrite lookup_delete_ne by done|];
      (apply Hp; [done|done|set_solver]).
  - destruct (aw_solvers s !! t) as [[n v|]|]; try done. simplify_eq.
    apply (present_update ops s _ n (λ w, mkWaiter (aw_key w) v (aw_done w) (aw_phase w))); auto.
  - destruct (aw_solvers s !! t) as [[n v|n]|]; try done. simplify_eq.
    apply (present_update ops s _ n (λ w, mkWaiter (aw_key w) (aw_result w) true (aw_phase w))); auto.
Qed.

Lemma reaches_present ops s : reaches ops s → distinct_keys ops → present ops s.
Proof.
  induction 1 as [|ops s o s' Hr IH Hs]; intros Hd; [by intros n w Hw; cbn in Hw; rewrite lookup_empty in Hw|].
  eapply present_step; [by apply reaches_inv|done| |done]. by eapply IH, distinct_front.
Qed.

End awaiter.

(** * Properties *)

(** C29: [Await] returns a result other than none only if a [Solve] of its key with that
    result took place after it began, whatever the interleaving of any number of
    waiters, solvers and timeouts. *)
Theorem Await_sound {K} `{Countable K} (ops : list (@op K)) (s : sys) (n : nat) (w : waiter) (v : VerifyResult)
    (Hrun : run ops NewAwaiter = Some s) (Hw : aw_waiters s !! n = Some w)
    (Hret : aw_phase w = Returned v) (Hv : v ≠ VerifyResultNone) :
  ∃ pre mid post t, ops = pre ++ OSet n (aw_key w) :: mid ++ OTake t (aw_key w) v :: post.
Proof.
  apply run_reaches, reaches_inv in Hrun.
  destruct (inv_waiter _ _ Hrun _ _ Hw) as (_ & _ & Hp). by apply (Hp v); [right|].
Qed.

(** Two clients, one of which is solved. *)
Definition demo_ops : list (@op string) :=
  [OSet 1 "a"; OSet 2 "b"; OTake 3 "a" VerifyResultOK; OTimeout 2; OStore 3; OCancel 3; ORead 1; ORead 2; ODel 2; ODel 1].

Lemma Await_sound_witness :
  ∃ pre mid post t, demo_ops = pre ++ OSet 1 "a" :: mid ++ OTake t "a" VerifyResultOK :: post.
Proof.
  eapply (Await_sound demo_ops _ 1 (mkWaiter "a" VerifyResultOK true (Returned VerifyResultOK)) VerifyResultOK);
    [vm_compute; reflexivity|vm_compute; reflexivity|reflexivity|discriminate].
Defined.

(** C30: Between clients with keys of their own no wake-up is lost: in every reachable
    state, a waiter whose key nobody solved yet is woken by the next [Solve] of its
    key and returns the result, and leaves the map without its key. *)
Theorem Await_wakes {K} `{Countable K} (ops : list (@op K)) (s : sys) (n t : nat) (w : waiter) (v : VerifyResult)
    (Hrun : run ops NewAwaiter = Some s) (Hd : distinct_keys ops)
    (Hw : aw_waiters s !! n = Some w) (Hwait : aw_phase w = Waiting)
    (Hno : ∀ t v, OTake t (aw_key w) v ∉ ops) (Ht : aw_solvers s !! t = None) :
  ∃ s', run (ops ++ [OTake t (aw_key w) v; OStore t; OCancel t; ORead n; ODel n]) NewAwaiter = Some s' ∧
    aw_phase <$> aw_waiters s' !! n = Some (Returned v) ∧ aw_m s' !! aw_key w = None ∧
    aw_solvers s' = aw_solvers s.
Proof.
  assert (Hm : aw_m s !! aw_key w = Some n).
  { apply (reaches_present ops s); auto. by apply run_reaches. }
  unfold run. rewrite foldl_app. fold (run ops NewAwaiter). rewrite Hrun. destruct s as [m ws sv]. cbn in *.
  rewrite Ht, Hm. cbn. rewrite lookup_insert_eq. cbn. rewrite lookup_insert_eq. cbn.
  rewrite !lookup_alter_eq, Hw. cbn. rewrite Hwait. cbn. rewrite !lookup_alter_eq, Hw. cbn.
  eexists. split; [reflexivity|]. cbn. rewrite lookup_insert_eq, lookup_delete_eq. cbn.
  do 2 (split; [done|]). rewrite insert_insert_eq, delete_insert_eq. by apply delete_id.
Qed.

Lemma Await_wakes_witness :
  ∃ s', run [OSet 1 "a"; OSet 2 "b"; OTimeout 2; OTake 3 "a" VerifyResultOK; OStore 3; OCancel 3; ORead 1; ODel 1]
      NewAwaiter = Some s' ∧ aw_phase <$> aw_waiters s' !! 1 = Some (Returned VerifyResultOK).
Proof.
  destruct (Await_wakes [OSet 1 "a"; OSet 2 "b"; OTimeout 2]
    (default NewAwaiter (run [OSet 1 "a"; OSet 2 "b"; OTimeout 2] NewAwaiter)) 1 3
    (mkWaiter "a" VerifyResultNone false Waiting) VerifyResultOK) as (s' & Hs & Hp & _);
    [vm_compute; reflexivity| |vm_compute; reflexivity|reflexivity| |vm_compute; reflexivity|].
  - intros n n' k Hn Hn'. set_unfold in Hn. set_unfold in Hn'.
    destruct_or! Hn; destruct_or! Hn'; simplify_eq; done.
  - intros t v Hin. set_unfold in Hin. by destruct_or! Hin.
  - exists s'. split; [exact Hs|exact Hp].
Defined.

(** A key shared by two waiters loses wake-ups: the second call of [Await]
    overwrites the callback of the first, and when the first times out its cleanup
    deletes the callback of the second, so that a [Solve] of the key that comes
    while the second waits finds nothing and wakes nobody. *)
Theorem Await_shared_key :
  ∃ s, run [OSet 1 "key"; OSet 2 "key"; OTimeout 1; ORead 1; ODel 1; OTake 3 "key" VerifyResultOK] NewAwaiter = Some s ∧
    aw_waiters s !! 2 = Some (mkWaiter "key" VerifyResultNone false Waiting) ∧
    aw_solvers s = ∅ ∧ aw_m s = ∅.
Proof. eexists. split; [vm_compute; reflexivity|]. by vm_compute. Qed.
