(* ===== verification/GoNetip.v ===== *)
(** [net/netip] texts: [Addr.String], [ParseAddr], [ParseAddrPort]; and
    [utils.GetRequestAddress], which reads the client address of a request. *)

From S2P Require Import Prelude GoStrings NetAddr GoURL Mime Types.
From stdpp Require Import options.

Local Open Scope go_scope.

(** * Printing *)

Local Open Scope N_scope.

Definition v4_byte (v k : N) : N := N.land (N.shiftr v (8 * k)) 0xff.
Definition string4 (v : N) : string :=
  Join (FormatUint ∘ v4_byte v <$> [3; 2; 1; 0]) ".".

(** The [i]-th of the eight 16-bit fields. *)
Definition v6_field (v : N) (i : nat) : N := N.land (N.shiftr v (16 * (7 - N.of_nat i))) 0xffff.

Definition hex_char (n : N) : ascii := nth (N.to_nat n) (bytes "0123456789abcdef") "0"%char.
(** [appendHex]: hexadecimal without leading zeros. *)
Definition appendHex (x : N) : string :=
  of_bytes
    ((if 0x1000 <=? x then [hex_char (N.shiftr x 12)] else []) ++
     (if 0x100 <=? x then [hex_char (N.land (N.shiftr x 8) 0xf)] else []) ++
     (if 0x10 <=? x then [hex_char (N.land (N.shiftr x 4) 0xf)] else []) ++
     [hex_char (N.land x 0xf)]).

(** Length of the run of zero fields starting at field [i]. *)
Fixpoint zero_run (fields : list N) : nat :=
  match fields with f :: fs => if f =? 0 then S (zero_run fs) else 0%nat | [] => 0%nat end.

(** The first longest run of at least two zero fields: its start and length. *)
Fixpoint longest_run (i : nat) (fields : list N) (best : nat * nat) : nat * nat :=
  match fields with
  | [] => best
  | f :: fs =>
      let l := zero_run fields in
      longest_run (S i) fs (if bool_decide (2 ≤ l ∧ best.2 < l)%nat then (i, l) else best)
  end.

Definition string6 (v : N) : string :=
  let fields := v6_field v <$> seq 0 8 in
  let '(s, l) := longest_run 0 fields (0, 0)%nat in
  if (l =? 0)%nat then Join (appendHex <$> fields) ":"
  else Join (appendHex <$> take s fields) ":" +:+ "::" +:+ Join (appendHex <$> drop (s + l) fields) ":".

Definition with_zone (s z : string) : string := if bool_decide (z = "") then s else s +:+ "%" +:+ z.

Definition Addr_String (a : Addr) : string :=
  match a with
  | AddrZero => "invalid IP"
  | Addr4 v => string4 v
  | Addr6 v z =>
      if N.shiftr v 32 =? 0xffff then with_zone ("::ffff:" +:+ string4 (N.land v (2 ^ 32 - 1))) z
      else with_zone (string6 v) z
  end.

(** * Parsing *)

Definition octet (s : string) : option N :=
  match ParseUint s with
  | Ok n => if (n <=? 255) && bool_decide (FormatUint n = s) then Some n else None
  | Err _ => None
  end.

(** [parseIPv4Fields]: four octets without leading zeros. *)
Definition parseIPv4Fields (s : string) : option (list N) :=
  let parts := Split s "." in
  if bool_decide (length parts = 4)%nat then mapM octet parts else None.

Definition be_value (bs : list N) : N := foldl (λ acc b, acc * 256 + b) 0 bs.

Definition hex_value (c : ascii) : option N :=
  if in_range "0" "9" c then Some (byte_val c - 48)
  else if in_range "a" "f" c then Some (byte_val c - 87)
  else if in_range "A" "F" c then Some (byte_val c - 55)
  else None.

(** The hexadecimal digits at the front: how many, their value, the rest. *)
Fixpoint hex_group (s : string) (off : nat) (acc : N) : nat * N * string :=
  match s with
  | String c s' =>
      match hex_value c with
      | Some d => hex_group s' (S off) (acc * 16 + d)
      | None => (off, acc, s)
      end
  | EmptyString => (off, acc, s)
  end.

(** The loop of [parseIPv6]: the bytes so far, where the ellipsis is, the text
    left. A group is at most four digits. *)
Fixpoint parseIPv6_loop (fuel : nat) (ip : list N) (ellipsis : option nat) (s : string) :
    option (list N * option nat) :=
  match fuel with
  | O => if bool_decide (s = "") then Some (ip, ellipsis) else None
  | S fuel =>
      if (16 <=? length ip)%nat then if bool_decide (s = "") then Some (ip, ellipsis) else None
      else
        let '(off, acc, rest) := hex_group s 0 0 in
        if (off =? 0)%nat || (4 <? off)%nat then None
        else if HasPrefix rest "." then
          if (bool_decide (ellipsis = None) && negb (length ip =? 12)%nat) || (16 <? length ip + 4)%nat
          then None
          else match parseIPv4Fields s with Some bs => Some (ip ++ bs, ellipsis) | None => None end
        else
          let ip := ip ++ [N.shiftr acc 8; N.land acc 0xff] in
          match rest with
          | EmptyString => Some (ip, ellipsis)
          | String c s =>
              if negb (bool_decide (c = ":"%char)) then None
              else
                match s with
                | EmptyString => None
                | String c' s' =>
                    if bool_decide (c' = ":"%char) then
                      if bool_decide (ellipsis = None) then
                        if bool_decide (s' = "") then Some (ip, Some (length ip))
                        else parseIPv6_loop fuel ip (Some (length ip)) s'
                      else None
                    else parseIPv6_loop fuel ip ellipsis s
                end
          end
  end.

Definition parseIPv6 (inp : string) : result Addr :=
  let err := Err (ENew "ParseAddr") in
  let '(s, zone, zoned) := Cut inp "%" in
  if zoned && bool_decide (zone = "") then err
  else
    let '(ellipsis, s') := match strip_prefix "::" s with
                           | Some s' => (Some 0%nat, s') | None => (None, s) end in
    if bool_decide (ellipsis = Some 0%nat) && bool_decide (s' = "") then Ok (Addr6 0 zone)
    else
      match parseIPv6_loop 9 [] ellipsis s' with
      | None => err
      | Some (ip, ellipsis) =>
          if (length ip <? 16)%nat then
            match ellipsis with
            | None => err
            | Some e =>
                Ok (Addr6 (be_value (take e ip ++ repeat 0 (16 - length ip) ++ drop e ip)) zone)
            end
          else if bool_decide (ellipsis = None) then Ok (Addr6 (be_value ip) zone) else err
      end.

(** [ParseAddr] dispatches on the first of [.], [:] and [%]. *)
Definition parse_addr_scan (s : string) : option ascii :=
  snd <$> list_find (λ c, c = "."%char ∨ c = ":"%char ∨ c = "%"%char) (bytes s).

Definition ParseAddr (s : string) : result Addr :=
  match parse_addr_scan s with
  | Some "."%char =>
      match parseIPv4Fields s with Some bs => Ok (Addr4 (be_value bs)) | None => Err (ENew "ParseAddr") end
  | Some ":"%char => parseIPv6 s
  | _ => Err (ENew "ParseAddr")
  end.

Definition ParseAddrPort (s : string) : result AddrPort :=
  match CutLast s ":" with
  | None => Err (ENew "not an ip:port")
  | Some (ip, port) =>
      if bool_decide (ip = "") then Err (ENew "no IP")
      else if bool_decide (port = "") then Err (ENew "no port")
      else
        match (match strip_prefix "[" ip with
               | None => Some (ip, false)
               | Some ip' => match strip_prefix "]" (rev_string ip') with
                             | Some r => Some (rev_string r, true) | None => None end
               end) with
        | None => Err (ENew "missing ]")
        | Some (ip, v6) =>
            p <-? ParseUint port;
            if 65535 <? p then Err (ENew "invalid port")
            else
              a <-? ParseAddr ip;
              if Bool.eqb v6 (negb (Addr_Is4 a)) then Ok (mkAddrPort a p)
              else Err (ENew "invalid ip:port: square brackets")
        end
  end.

Example ParseAddr1 : ParseAddr "2001:db8::1%eth0" = Ok (Addr6 0x20010db8000000000000000000000001 "eth0").
Proof. vm_compute. reflexivity. Qed.
Example ParseAddr2 : ParseAddr "::ffff:192.0.2.1" = Ok (Addr6 0xffffc0000201 "").
Proof. vm_compute. reflexivity. Qed.
Example ParseAddr3 : is_ok (ParseAddr "192.0.2.01") = false ∧ is_ok (ParseAddr "1:2:3:4:5:6:7:8::") = false.
Proof. vm_compute. done. Qed.
Example ParseAddrPort1 : ParseAddrPort "[2001:db8::1]:443" = Ok (mkAddrPort (Addr6 0x20010db8000000000000000000000001 "") 443).
Proof. vm_compute. reflexivity. Qed.
Example ParseAddrPort2 : ParseAddrPort "192.0.2.9:80" = Ok (mkAddrPort (Addr4 0xc0000209) 80).
Proof. vm_compute. reflexivity. Qed.
Example Addr_String1 : Addr_String (Addr6 0x20010db8000000000001000000000001 "") = "2001:db8::1:0:0:1".
Proof. vm_compute. reflexivity. Qed.
Example Addr_String2 : Addr_String (Addr6 1 "") = "::1" ∧ Addr_String (Addr6 0 "") = "::".
Proof. vm_compute. done. Qed.

(** * [utils.GetRequestAddress] *)

(** The client header, when one is configured, up to its first comma; the peer
    address when the text is empty. A text that is neither an address with port
    nor an address gives the zero value. *)
Definition GetRequestAddress (r : Request) (clientHeader : string) : AddrPort :=
  let strVal := if bool_decide (clientHeader = "") then rq_RemoteAddr r
                else hdr_Get (rq_Header r) clientHeader in
  let strVal := if bool_decide (strVal = "") then strVal else default "" (head (Split strVal ",")) in
  let strVal := if bool_decide (strVal = "") then rq_RemoteAddr r else strVal in
  match ParseAddrPort strVal with
  | Ok ap => ap
  | Err _ =>
      match ParseAddr strVal with
      | Ok a => mkAddrPort a 0
      | Err _ => mkAddrPort AddrZero 0
      end
  end.
