(* ===== verification/GoNet.v ===== *)
(** [net]: addresses and networks in CIDR notation ([ParseIP], [ParseCIDR],
    [IPNet.Contains], [IPNet.String]). A [net.IP] of 4 bytes is an [Addr4], one of 16
    bytes an [Addr6] without zone. *)

From S2P Require Import Prelude GoStrings NetAddr GoURL Mime Types GoNetip.
From stdpp Require Import options.

Local Open Scope N_scope.

(** [net.IPNet] with a mask of leading ones: the address, the ones, and the length of
    the mask in bits. *)
Record IPNet := mkIPNet { n_IP : Addr; n_Ones : N; n_Bits : N }.

#[export] Instance IPNet_eq_dec : EqDecision IPNet.
Proof. solve_decision. Defined.

Definition Addr_BitLen (a : Addr) : N := match a with AddrZero => 0 | Addr4 _ => 32 | Addr6 _ _ => 128 end.
Definition Addr_Zone (a : Addr) : string := match a with Addr6 _ z => z | _ => "" end.

(** [net.ParseIP]: 16 bytes, also for IPv4 addresses; no zones. *)
Definition ParseIP (s : string) : option Addr :=
  match ParseAddr s with
  | Ok (Addr4 v) => Some (Addr6 (N.shiftl 0xffff 32 + v) "")
  | Ok (Addr6 v "") => Some (Addr6 v "")
  | _ => None
  end.

(** [IP.To4]. *)
Definition IP_To4 (ip : Addr) : option N := match Addr_Unmap ip with Addr4 v => Some v | _ => None end.

(** [dtoi]: the decimal number at the front below [big], and the rest. *)
Fixpoint dtoi_loop (s : string) (n : N) : option (N * string) :=
  match s with
  | String c s' =>
      match digit_val c with
      | Some d => let n := n * 10 + d in if 0xFFFFFF <=? n then None else dtoi_loop s' n
      | None => Some (n, s)
      end
  | EmptyString => Some (n, s)
  end.
Definition dtoi (s : string) : option (N * string) :=
  match s with
  | String c _ => match digit_val c with Some _ => dtoi_loop s 0 | None => None end
  | EmptyString => None
  end.

(** [net.ParseCIDR], its network: the address masked, in 4 bytes for IPv4 texts. *)
Definition ParseCIDR (s : string) : result IPNet :=
  let err := Err (ENew ("invalid CIDR address: " +:+ s)) in
  let '(addr, mask, found) := Cut s "/" in
  if negb found then err
  else
    match ParseAddr addr with
    | Ok a =>
        if negb (bool_decide (Addr_Zone a = "")) then err
        else
          match dtoi mask with
          | Some (n, "") =>
              if Addr_BitLen a <? n then err
              else Ok (mkIPNet (Addr_PrefixAddr a n) n (Addr_BitLen a))
          | _ => err
          end
    | Err _ => err
    end.

(** [networkNumberAndMask]: the number, its width, and the ones of the mask over it. An
    IPv4-mapped number is taken in 4 bytes, with the last 4 bytes of its mask. *)
Definition networkNumberAndMask (n : IPNet) : option (N * N * N) :=
  match Addr_Unmap (n_IP n) with
  | Addr4 v =>
      if n_Bits n =? 32 then Some (v, 32, n_Ones n)
      else if n_Bits n =? 128 then Some (v, 32, n_Ones n - 96)
      else None
  | Addr6 v _ => if n_Bits n =? 128 then Some (v, 128, n_Ones n) else None
  | AddrZero => None
  end.

(** The leading [ones] bits of two numbers of [width] bits agree. *)
Definition same_prefix (width ones v w : N) : bool := N.shiftr v (width - ones) =? N.shiftr w (width - ones).

(** [IPNet.Contains]. *)
Definition Contains (n : IPNet) (ip : Addr) : bool :=
  match networkNumberAndMask n, Addr_Unmap ip with
  | Some (v, 32, ones), Addr4 w => same_prefix 32 ones v w
  | Some (v, 128, ones), Addr6 w _ => same_prefix 128 ones v w
  | _, _ => false
  end.

(** [IPNet.String]. *)
Definition IPNet_String (n : IPNet) : string :=
  match networkNumberAndMask n with
  | None => "<nil>"
  | Some (v, width, ones) =>
      (if width =? 32 then string4 v else string6 v) +:+ "/" +:+ FormatUint ones
  end.

Example ParseCIDR1 : ParseCIDR "192.0.2.77/24" = Ok (mkIPNet (Addr4 0xc0000200) 24 32).
Proof. vm_compute. reflexivity. Qed.
Example ParseCIDR2 : (IPNet_String <$> [mkIPNet (Addr4 0xc0000200) 24 32; mkIPNet (Addr6 (N.shiftl 0x20010db8 96) "") 32 128])
  = ["192.0.2.0/24"; "2001:db8::/32"].
Proof. vm_compute. reflexivity. Qed.
Example ParseCIDR3 : is_ok (ParseCIDR "192.0.2.0/33") = false ∧ is_ok (ParseCIDR "192.0.2.0/") = false ∧
  ParseCIDR "::1/008" = Ok (mkIPNet (Addr6 0 "") 8 128).
Proof. vm_compute. done. Qed.

(** A [net.IP] of bytes: 4 or 16 make an address. *)
Definition IP_of_bytes (s : string) : option Addr :=
  let v := be_value (byte_val <$> bytes s) in
  if (String.length s =? 4)%nat then Some (Addr4 v)
  else if (String.length s =? 16)%nat then Some (Addr6 v "") else None.

(** * Facts *)

Lemma same_prefix_masked width ones v w :
  ones ≤ width → same_prefix width ones (N.shiftl (N.shiftr v (width - ones)) (width - ones)) w = same_prefix width ones v w.
Proof. intros _. unfold same_prefix. by rewrite N.shiftr_shiftl_l, N.sub_diag, N.shiftl_0_r by done. Qed.

(** A network of 4 bytes holds the addresses with its prefix, IPv4-mapped ones included. *)
Lemma Contains_4 v n ip :
  n ≤ 32 →
  Contains (mkIPNet (Addr_PrefixAddr (Addr4 v) n) n 32) ip =
    match Addr_Unmap ip with Addr4 w => same_prefix 32 n v w | _ => false end.
Proof.
  intros Hn. unfold Contains, networkNumberAndMask. cbn [n_IP n_Ones n_Bits Addr_PrefixAddr Addr_Unmap].
  rewrite N.eqb_refl. destruct (Addr_Unmap ip) as [|w|w z]; [done| |done]. by apply same_prefix_masked.
Qed.

Lemma shiftr_pow2 a k : N.shiftr a k = a / 2 ^ k.
Proof. apply N.shiftr_div_pow2. Qed.

(** The leading 96 bits of a masked IPv6 address are those of the address when the
    mask covers them. *)
Lemma shiftr_masked v k m : k ≤ m → N.shiftr (N.shiftl (N.shiftr v k) k) m = N.shiftr v m.
Proof.
  intros Hk. apply N.bits_inj. intros i. rewrite !N.shiftr_spec'.
  rewrite N.shiftl_spec_high' by lia. rewrite N.shiftr_spec'. f_equal. lia.
Qed.

(** ** Bytes of addresses *)

Lemma be_bytesN_S n v : be_bytesN (S n) v = byte_of (N.shiftr v (8 * N.of_nat n)) :: be_bytesN n v.
Proof. unfold be_bytesN. by rewrite seq_S, reverse_app. Qed.

Lemma be_value_bytes n v acc :
  foldl (λ acc b, acc * 256 + b) acc (byte_val <$> be_bytesN n v) = acc * 256 ^ N.of_nat n + v mod 256 ^ N.of_nat n.
Proof.
  revert acc. induction n as [|n IH]; intros acc; [by rewrite N.mod_1_r, N.add_0_r, N.mul_1_r|].
  rewrite be_bytesN_S. cbn [fmap list_fmap foldl]. rewrite IH, byte_val_of, shiftr_pow2.
  replace (2 ^ (8 * N.of_nat n)) with (256 ^ N.of_nat n) by (rewrite N.pow_mul_r; done).
  rewrite Nat2N.inj_succ, N.pow_succ_r', (N.mul_comm 256 (256 ^ _)), N.Div0.mod_mul_r. lia.
Qed.

Lemma be_value_be_bytesN n v : v < 256 ^ N.of_nat n → be_value (byte_val <$> be_bytesN n v) = v.
Proof. intros Hv. unfold be_value. rewrite be_value_bytes, N.mod_small by done. lia. Qed.

(** The bytes of an address make the address again, without its zone. *)
Lemma IP_of_bytes_AsSlice a :
  a ≠ AddrZero → addr_ok a →
  IP_of_bytes (Addr_AsSlice a) = Some (match a with Addr6 v _ => Addr6 v "" | _ => a end).
Proof.
  intros Hz Hok. unfold IP_of_bytes, Addr_AsSlice. rewrite length_of_bytes, bytes_of_bytes.
  destruct a as [|v|v z]; [done|..]; rewrite length_be_bytesN; cbn [Nat.eqb]; by rewrite be_value_be_bytesN.
Qed.

(** Networks do not look at zones. *)
Lemma Contains_zone n v z : Contains n (Addr6 v z) = Contains n (Addr6 v "").
Proof. unfold Contains, Addr_Unmap. by destruct (N.shiftr v 32 =? 0xffff). Qed.

Lemma Contains_zone_all ns v z : existsb (λ n, Contains n (Addr6 v z)) ns = existsb (λ n, Contains n (Addr6 v "")) ns.
Proof. induction ns as [|n ns IH]; cbn; [done|]. by rewrite Contains_zone, IH. Qed.
