(* ===== verification/NetipText.v ===== *)
(** Texts of addresses and networks are read back: [netip.ParseAddr] after
    [Addr.String], [net.ParseCIDR] after [IPNet.String]. *)

From S2P Require Import Prelude GoStrings NetAddr GoURL Mime Types GoNetip GoNet.
From Stdlib Require Import ZifyBool ZifyN.
From stdpp Require Import options.

(** * Facts decided by running through all cases *)

Fixpoint count_up (n : nat) (start : N) : list N :=
  match n with O => [] | S n => start :: count_up n (N.succ start) end.

Lemma elem_of_count_up n start x : (start <= x < start + N.of_nat n)%N → x ∈ count_up n start.
Proof.
  revert start. induction n as [|n IH]; intros start Hx; cbn; [lia|].
  destruct (decide (x = start)) as [->|]; [left|]. right. apply IH. lia.
Qed.

Lemma decide_below (n : nat) (P : N → bool) :
  forallb P (count_up n 0) = true → ∀ x, (x < N.of_nat n)%N → P x = true.
Proof. rewrite forallb_forall. intros HP x Hx. apply HP, list_elem_of_In, elem_of_count_up. lia. Qed.

(** A character of a group: a digit, neither a separator nor the start of a zone. *)
Definition plain_char (c : ascii) : bool := match hex_value c with Some _ => true | None => false end.

Definition octet_ok (n : N) : bool :=
  bool_decide (octet (FormatUint n) = Some n) && forallb plain_char (bytes (FormatUint n)).

Lemma octets : ∀ n, (n < 256)%N → octet_ok n = true.
Proof. apply (decide_below 256). vm_compute. reflexivity. Qed.

Definition group_ok (x : N) : bool :=
  let '(k, v, rest) := hex_group (appendHex x) 0 0 in
  (1 <=? k)%nat && (k <=? 4)%nat && (v =? x)%N && bool_decide (rest = "") && forallb plain_char (bytes (appendHex x)).

Lemma groups : ∀ x, (x < 65536)%N → group_ok x = true.
Proof.
  intros x Hx. replace x with (256 * (x / 256) + x mod 256)%N by (symmetry; apply N.div_mod'; done).
  assert (Hl : (x mod 256 < 256)%N) by (by apply N.mod_lt). revert Hl. generalize (x mod 256)%N as l.
  assert (Hh : (x / 256 < 256)%N) by (apply N.Div0.div_lt_upper_bound; lia). revert Hh. generalize (x / 256)%N as h.
  intros h Hh l Hl. apply (decide_below 256 (λ l, group_ok (256 * h + l))); [|done].
  apply (decide_below 256 (λ h, forallb (λ l, group_ok (256 * h + l)) (count_up 256 0))); [|done].
  vm_compute. reflexivity.
Qed.

Lemma group_spec x :
  (x < 65536)%N →
  (∃ k, (1 ≤ k ≤ 4)%nat ∧ hex_group (appendHex x) 0 0 = (k, x, "")) ∧ forallb plain_char (bytes (appendHex x)) = true.
Proof.
  intros Hx. pose proof (groups x Hx) as Hg. unfold group_ok in Hg.
  destruct (hex_group (appendHex x) 0 0) as [[k v] rest] eqn:He. go_bool. split; [|done].
  exists k. split; [lia|]. repeat f_equal; [lia|done].
Qed.

Lemma octet_spec n :
  (n < 256)%N → octet (FormatUint n) = Some n ∧ forallb plain_char (bytes (FormatUint n)) = true.
Proof. intros Hn. pose proof (octets n Hn) as Ho. unfold octet_ok in Ho. by go_bool. Qed.

(** * Texts *)

Lemma ContainsByte_plain s c : forallb plain_char (bytes s) = true → plain_char c = false → ContainsByte s c = false.
Proof.
  intros Hs Hc. induction s as [|d s IH]; [done|]. cbn [bytes String.list_ascii_of_string forallb] in Hs.
  apply andb_true_iff in Hs as [Hd Hs]. rewrite ContainsByte_cons, (IH Hs), orb_false_r.
  apply bool_decide_eq_false. intros ->. congruence.
Qed.

Lemma ContainsByte_Join (l : list string) sep c :
  Forall (λ s, ContainsByte s c = false) l → ContainsByte sep c = false → ContainsByte (Join l sep) c = false.
Proof.
  intros Hl Hs. induction Hl as [|s l Hx _ IH]; [done|]. destruct l as [|s' l]; [done|].
  change (Join (s :: s' :: l) sep) with (s +:+ sep +:+ Join (s' :: l) sep).
  by rewrite !ContainsByte_app, Hx, Hs, IH.
Qed.

(** The first special character of a text. *)
Lemma scan_special u c t :
  forallb plain_char (bytes u) = true → c = "."%char ∨ c = ":"%char ∨ c = "%"%char → parse_addr_scan (u +:+ String c t) = Some c.
Proof.
  intros Hu Hc. unfold parse_addr_scan. rewrite bytes_app.
  induction (bytes u) as [|d l IH]; cbn [app list_find].
  - cbn [bytes String.list_ascii_of_string list_find]. by rewrite decide_True.
  - cbn [forallb] in Hu. apply andb_true_iff in Hu as [Hd Hu]. rewrite decide_False.
    + specialize (IH Hu). destruct (list_find _ (l ++ _)) as [[i x]|]; cbn in *; done.
    + unfold plain_char in Hd. intros [->|[->| ->]]; done.
Qed.

(** ** IPv4 *)

Local Open Scope N_scope.

Lemma v4_byte_lt v k : v4_byte v k < 256.
Proof. unfold v4_byte. change 0xff with (N.ones 8). rewrite N.land_ones. by apply N.mod_lt. Qed.

Lemma v4_byte_div v k : v4_byte v k = v / 2 ^ (8 * k) mod 256.
Proof. unfold v4_byte. change 0xff with (N.ones 8). by rewrite N.land_ones, N.shiftr_div_pow2. Qed.

Lemma mapM_octet bs : Forall (λ b, b < 256) bs → mapM octet (FormatUint <$> bs) = Some bs.
Proof. induction 1 as [|b bs Hb _ IH]; [done|]. cbn. by rewrite (proj1 (octet_spec b Hb)), IH. Qed.

Lemma v4_bytes_lt v ks : Forall (λ b, b < 256) (v4_byte v <$> ks).
Proof. apply Forall_fmap, Forall_true. intros k. apply v4_byte_lt. Qed.

Lemma parseIPv4Fields_string4 v : parseIPv4Fields (string4 v) = Some (v4_byte v <$> [3; 2; 1; 0]).
Proof.
  unfold parseIPv4Fields, string4. rewrite list_fmap_compose, Split_Join.
  - rewrite bool_decide_true by done. by rewrite mapM_octet by apply v4_bytes_lt.
  - done.
  - apply Forall_fmap, Forall_fmap, Forall_true. intros k. apply ContainsByte_plain; [|done].
    apply octet_spec, v4_byte_lt.
Qed.

Lemma be_value_v4 v : v < 2 ^ 32 → be_value (v4_byte v <$> [3; 2; 1; 0]) = v.
Proof.
  intros Hv. cbn [fmap list_fmap]. unfold be_value. cbn [foldl]. rewrite !v4_byte_div.
  change (2 ^ (8 * 3)) with 16777216. change (2 ^ (8 * 2)) with 65536. change (2 ^ (8 * 1)) with 256.
  change (2 ^ (8 * 0)) with 1. change (2 ^ 32) with 4294967296 in Hv. zify. Z.div_mod_to_equations. lia.
Qed.

Lemma ParseAddr_string4 v : v < 2 ^ 32 → ParseAddr (string4 v) = Ok (Addr4 v).
Proof.
  intros Hv. unfold ParseAddr.
  assert (parse_addr_scan (string4 v) = Some "."%char) as ->.
  { unfold string4. cbn [fmap list_fmap Join]. apply scan_special; [apply octet_spec, v4_byte_lt|by left]. }
  by rewrite parseIPv4Fields_string4, be_value_v4.
Qed.

(** ** IPv6 groups *)

Definition bytes2 (f : N) : list N := [N.shiftr f 8; N.land f 0xff].

Lemma hex_group_app s off acc off' acc' rest :
  hex_group s off acc = (off', acc', "") → hex_group (s +:+ rest) off acc = hex_group rest off' acc'.
Proof.
  revert off acc. induction s as [|c s IH]; intros off acc; cbn [hex_group].
  - intros [= <- <-]. by rewrite string_app_nil_l.
  - rewrite string_app_cons. cbn [hex_group]. destruct (hex_value c); [apply IH|done].
Qed.

(** A group and what may follow it. *)
Lemma hex_group_field x rest :
  x < 65536 → rest = "" ∨ (∃ t, rest = String ":" t) →
  ∃ k, (1 ≤ k ≤ 4)%nat ∧ hex_group (appendHex x +:+ rest) 0 0 = (k, x, rest).
Proof.
  intros Hx Hrest. destruct (group_spec x Hx) as [(k & Hk & He) _]. exists k. split; [done|].
  rewrite (hex_group_app _ _ _ _ _ rest He). by destruct Hrest as [->|[t ->]].
Qed.

(** One group of the loop. *)
Lemma loop_group fuel ip ell x rest :
  x < 65536 → (length ip < 16)%nat → rest = "" ∨ (∃ t, rest = String ":" t) →
  parseIPv6_loop (S fuel) ip ell (appendHex x +:+ rest) =
    (let ip := ip ++ bytes2 x in
     match rest with
     | EmptyString => Some (ip, ell)
     | String _ EmptyString => None
     | String _ (String c' s' as s) =>
         if bool_decide (c' = ":"%char) then
           if bool_decide (ell = None) then
             if bool_decide (s' = "") then Some (ip, Some (length ip)) else parseIPv6_loop fuel ip (Some (length ip)) s'
           else None
         else parseIPv6_loop fuel ip ell s
     end).
Proof.
  intros Hx Hip Hrest. cbn [parseIPv6_loop]. rewrite (proj2 (Nat.leb_gt _ _) Hip).
  destruct (hex_group_field x rest Hx Hrest) as (k & Hk & ->).
  rewrite (proj2 (Nat.eqb_neq k 0)) by lia. rewrite (proj2 (Nat.ltb_ge 4 k)) by lia. cbn [orb].
  destruct Hrest as [->|[t ->]]; [done|]. cbn. by destruct t.
Qed.

Lemma appendHex_head x : x < 65536 → ∃ c s, appendHex x = String c s ∧ c ≠ ":"%char.
Proof.
  intros Hx. destruct (group_spec x Hx) as [(k & Hk & He) Hp]. destruct (appendHex x) as [|c s].
  - cbn in He. injection He as <- _. lia.
  - exists c, s. split; [done|]. cbn in Hp. apply andb_true_iff in Hp as [Hc _]. by intros ->.
Qed.

Lemma Join_groups_cons x y fs :
  Join (appendHex <$> x :: y :: fs) ":" = appendHex x +:+ String ":" (Join (appendHex <$> y :: fs) ":").
Proof. reflexivity. Qed.

Lemma Join_groups_head y fs rest :
  y < 65536 → ∃ c s, Join (appendHex <$> y :: fs) ":" +:+ rest = String c s ∧ c ≠ ":"%char.
Proof.
  intros Hy. destruct (appendHex_head y Hy) as (c & s & Hc & Hne). destruct fs as [|z fs].
  - exists c, (s +:+ rest). cbn [fmap list_fmap Join]. by rewrite Hc.
  - rewrite Join_groups_cons, Hc. by eexists c, _.
Qed.

(** The loop over groups with colons between them. *)
Lemma loop_groups fs fuel ip ell rest :
  fs ≠ [] → Forall (λ x, x < 65536) fs → (length ip + 2 * length fs ≤ 16)%nat → rest = "" ∨ (∃ t, rest = String ":" (String ":" t)) →
  parseIPv6_loop (length fs + fuel) ip ell (Join (appendHex <$> fs) ":" +:+ rest) =
    (let ip := ip ++ (fs ≫= bytes2) in
     match rest with
     | String _ (String _ s') =>
         if bool_decide (ell = None) then
           if bool_decide (s' = "") then Some (ip, Some (length ip)) else parseIPv6_loop fuel ip (Some (length ip)) s'
         else None
     | _ => Some (ip, ell)
     end).
Proof.
  intros Hne Hall. revert ip. induction fs as [|x fs IH]; intros ip Hlen Hrest; [done|].
  inversion Hall as [|?? Hx Hfs]; subst. cbn [length] in Hlen. destruct fs as [|y fs].
  - cbn [fmap list_fmap Join length Nat.add]. rewrite loop_group; [|done|lia|destruct Hrest as [->|[t ->]]; eauto].
    cbn [mbind list_bind]. rewrite app_nil_r. by destruct Hrest as [->|[t ->]].
  - rewrite Join_groups_cons, <-string_app_assoc, string_app_cons.
    change (length (x :: y :: fs) + fuel)%nat with (S (length (y :: fs) + fuel)).
    rewrite loop_group; [|done|lia|eauto]. cbv zeta.
    inversion Hfs as [|?? Hy _]; subst. destruct (Join_groups_head y fs rest Hy) as (c & s & Hs & Hc).
    rewrite Hs. rewrite bool_decide_false by done. rewrite <-Hs.
    rewrite IH; [|done|done|rewrite length_app; cbn in *; lia|done].
    cbv zeta. rewrite (bind_cons bytes2 x), (assoc_L (++)). done.
Qed.

(** ** The run of zeros *)

Lemma zero_run_spec fields : take (zero_run fields) fields = repeat 0 (zero_run fields) ∧ (zero_run fields ≤ length fields)%nat.
Proof.
  induction fields as [|f fs [IH1 IH2]]; [done|]. cbn [zero_run]. destruct (f =? 0) eqn:Hf; [|split; [done|cbn; lia]].
  apply N.eqb_eq in Hf as ->. cbn. split; [by rewrite IH1|lia].
Qed.

(** A run of zeros within a list, of length zero or at least two. *)
Definition run_ok (fields : list N) (r : nat * nat) : Prop :=
  (r.2 = 0 ∨ 2 ≤ r.2)%nat ∧ (r.1 + r.2 ≤ length fields)%nat ∧ take r.2 (drop r.1 fields) = repeat 0 r.2.

Lemma longest_run_ok pre fields best :
  run_ok (pre ++ fields) best → run_ok (pre ++ fields) (longest_run (length pre) fields best).
Proof.
  revert pre best. induction fields as [|f fs IH]; intros pre best Hb; [done|]. cbn [longest_run].
  rewrite cons_middle, (assoc_L (++)) in Hb |- *.
  replace (S (length pre)) with (length (pre ++ [f])) by (rewrite length_app; cbn; lia).
  apply IH. case_bool_decide as Hl; [|done]. destruct (zero_run_spec (f :: fs)) as [H1 H2].
  unfold run_ok. cbn [fst snd]. split; [by right; destruct Hl|]. rewrite <-(assoc_L (++)). cbn [app]. split.
  - rewrite length_app. cbn in *. lia.
  - by rewrite drop_app_length.
Qed.

(** ** Values *)

Definition fields6 (v : N) : list N := v6_field v <$> seq 0 8.

Lemma v6_field_mod v i : v6_field v i = v / 2 ^ (16 * (7 - N.of_nat i)) mod 65536.
Proof. unfold v6_field. change 0xffff with (N.ones 16). by rewrite N.land_ones, N.shiftr_div_pow2. Qed.

Lemma fields6_lt v : Forall (λ x, x < 65536) (fields6 v).
Proof. apply Forall_fmap, Forall_true. intros i. cbn. rewrite v6_field_mod. by apply N.mod_lt. Qed.

Lemma be_value_bytes2 fs acc :
  Forall (λ x, x < 65536) fs →
  foldl (λ acc b, acc * 256 + b) acc (fs ≫= bytes2) = foldl (λ acc f, acc * 65536 + f) acc fs.
Proof.
  intros Hfs. revert acc. induction Hfs as [|f fs Hf _ IH]; intros acc; [done|]. cbn [mbind list_bind foldl bytes2 app].
  change (list_bind _ _ bytes2 fs) with (fs ≫= bytes2). rewrite IH. f_equal.
  change 0xff with (N.ones 8). rewrite N.land_ones, N.shiftr_div_pow2. change (2 ^ 8) with 256.
  zify. Z.div_mod_to_equations. lia.
Qed.

Lemma foldl_fields v n :
  (n ≤ 8)%nat → v < 2 ^ 128 →
  foldl (λ acc f, acc * 65536 + f) 0 (v6_field v <$> seq 0 n) = v / 2 ^ (16 * (8 - N.of_nat n)).
Proof.
  intros Hn Hv. induction n as [|n IH].
  - change (2 ^ (16 * (8 - N.of_nat 0))) with (2 ^ 128). by rewrite N.div_small.
  - rewrite seq_S, fmap_app, foldl_app, IH by lia. cbn [fmap list_fmap foldl Nat.add]. rewrite v6_field_mod.
    replace (16 * (8 - N.of_nat n)) with (16 * (7 - N.of_nat n) + 16) by lia.
    replace (16 * (8 - N.of_nat (S n))) with (16 * (7 - N.of_nat n)) by lia.
    rewrite N.pow_add_r, <-N.Div0.div_div. change (2 ^ 16) with 65536.
    set (q := v / _). rewrite (N.mul_comm (q / 65536)). symmetry. apply N.div_mod'.
Qed.

Lemma be_value_fields6 v : v < 2 ^ 128 → be_value (fields6 v ≫= bytes2) = v.
Proof.
  intros Hv. unfold be_value. rewrite be_value_bytes2 by apply fields6_lt. unfold fields6.
  rewrite foldl_fields by done. change (2 ^ (16 * (8 - N.of_nat 8))) with 1. by rewrite N.div_1_r.
Qed.

Lemma length_bytes2 fs : length (fs ≫= bytes2) = (2 * length fs)%nat.
Proof. induction fs as [|f fs IH]; [done|]. cbn [mbind list_bind]. rewrite length_app. cbn [bytes2 length]. fold (mbind bytes2 fs). lia. Qed.

Lemma bytes2_zeros n : repeat 0 n ≫= bytes2 = repeat 0 (2 * n).
Proof.
  induction n as [|n IH]; [done|]. cbn [repeat mbind list_bind]. fold (mbind bytes2 (repeat 0 n)). rewrite IH.
  by replace (2 * S n)%nat with (S (S (2 * n))) by lia.
Qed.

(** What the ellipsis stands for. *)
Lemma ellipsis_bytes fields s l :
  run_ok fields (s, l) → length fields = 8%nat →
  (take s fields ≫= bytes2) ++ repeat 0 (16 - length ((take s fields ≫= bytes2) ++ (drop (s + l) fields ≫= bytes2))) ++
    (drop (s + l) fields ≫= bytes2) = fields ≫= bytes2.
Proof.
  intros (_ & Hlen & Hz) H8. cbn [fst snd] in *.
  assert (Hf : fields = take s fields ++ repeat 0 l ++ drop (s + l) fields).
  { rewrite <-Hz, <-drop_drop, take_drop. by rewrite take_drop. }
  replace (16 - _)%nat with (2 * l)%nat.
  - rewrite <-bytes2_zeros, <-!bind_app. by rewrite <-Hf.
  - rewrite length_app, !length_bytes2, length_take, length_drop. lia.
Qed.

(** ** IPv6 *)

Lemma string6_eq v s l :
  longest_run 0 (fields6 v) (0, 0)%nat = (s, l) →
  string6 v = if (l =? 0)%nat then Join (appendHex <$> fields6 v) ":"
              else Join (appendHex <$> take s (fields6 v)) ":" +:+ "::" +:+ Join (appendHex <$> drop (s + l) (fields6 v)) ":".
Proof. intros Hr. unfold string6. fold (fields6 v). by rewrite Hr. Qed.

Lemma length_fields6 v : length (fields6 v) = 8%nat.
Proof. reflexivity. Qed.

Lemma run_fields6 v s l : longest_run 0 (fields6 v) (0, 0)%nat = (s, l) → run_ok (fields6 v) (s, l).
Proof.
  intros <-. apply (longest_run_ok [] (fields6 v)). unfold run_ok. cbn [fst snd app]. rewrite length_fields6.
  repeat split; [by left|lia].
Qed.

Lemma groups_plain fs c :
  Forall (λ x, x < 65536) fs → plain_char c = false → c ≠ ":"%char → ContainsByte (Join (appendHex <$> fs) ":") c = false.
Proof.
  intros Hfs Hc Hne. apply ContainsByte_Join.
  - apply Forall_fmap. eapply Forall_impl; [exact Hfs|]. intros x Hx. cbn. apply ContainsByte_plain; [|done].
    by apply group_spec.
  - rewrite ContainsByte_cons, bool_decide_false by done. done.
Qed.

Lemma string6_plain v c : plain_char c = false → c ≠ ":"%char → ContainsByte (string6 v) c = false.
Proof.
  intros Hc Hne. destruct (longest_run 0 (fields6 v) (0, 0)%nat) as [s l] eqn:Hr. rewrite (string6_eq v s l Hr).
  pose proof (fields6_lt v) as Hlt. destruct (l =? 0)%nat; [by apply groups_plain|].
  rewrite !ContainsByte_app, !groups_plain; [|by apply Forall_drop|done|done|by apply Forall_take|done|done].
  rewrite !ContainsByte_cons, !bool_decide_false by done. done.
Qed.


Lemma groups_head rest fs :
  Forall (λ x, x < 65536) fs → fs ≠ [] → strip_prefix "::" (Join (appendHex <$> fs) ":" +:+ rest) = None.
Proof.
  intros Hfs Hne. destruct fs as [|y fs]; [done|]. inversion Hfs as [|?? Hy _]; subst.
  destruct (Join_groups_head y fs rest Hy) as (c & t & -> & Hc). cbn [strip_prefix]. by case_match.
Qed.

Lemma Join_groups_nonempty fs : Forall (λ x, x < 65536) fs → fs ≠ [] → Join (appendHex <$> fs) ":" ≠ "".
Proof.
  intros Hfs Hne. destruct fs as [|y fs]; [done|]. inversion Hfs as [|?? Hy _]; subst.
  destruct (Join_groups_head y fs "" Hy) as (c & t & Hj & _). rewrite string_app_nil_r in Hj. by rewrite Hj.
Qed.

(** What follows the ellipsis. *)
Lemma loop_tail tail fuel ip e :
  tail ≠ [] → Forall (λ x, x < 65536) tail → (length ip + 2 * length tail ≤ 16)%nat →
  parseIPv6_loop (length tail + fuel) ip e (Join (appendHex <$> tail) ":") = Some (ip ++ (tail ≫= bytes2), e).
Proof.
  intros Hne Htail Hlen. pose proof (loop_groups tail fuel ip e "" Hne Htail Hlen ltac:(by left)) as Hl.
  by rewrite string_app_nil_r in Hl.
Qed.

(** The groups of a text with an ellipsis, which is not at the start. *)
Lemma loop_ellipsis hd tail :
  hd ≠ [] → Forall (λ x, x < 65536) hd → Forall (λ x, x < 65536) tail → (length hd + length tail ≤ 8)%nat →
  parseIPv6_loop 9 [] None (Join (appendHex <$> hd) ":" +:+ "::" +:+ Join (appendHex <$> tail) ":") =
    Some ((hd ≫= bytes2) ++ (tail ≫= bytes2), Some (length (hd ≫= bytes2))).
Proof.
  intros Hne Hhd Htail Hlen. replace 9%nat with (length hd + (length tail + (9 - length hd - length tail)))%nat by lia.
  rewrite loop_groups; [|done|done|cbn; lia|right; by eexists]. cbn [app]. cbv zeta.
  change ("::" +:+ Join (appendHex <$> tail) ":") with (String ":" (String ":" (Join (appendHex <$> tail) ":"))). cbv iota beta.
  rewrite (bool_decide_true (None = None)) by done. destruct tail as [|y tail].
  - rewrite bool_decide_true by done. cbn [mbind list_bind]. by rewrite app_nil_r.
  - rewrite bool_decide_false by (by apply Join_groups_nonempty).
    apply loop_tail; [done|done|]. rewrite length_bytes2. lia.
Qed.

Lemma parseIPv6_zoneless v :
  parseIPv6 (string6 v) =
    (let '(ellipsis, s') := match strip_prefix "::" (string6 v) with
                            | Some s' => (Some 0%nat, s') | None => (None, string6 v) end in
     if bool_decide (ellipsis = Some 0%nat) && bool_decide (s' = "") then Ok (Addr6 0 "")
     else
       match parseIPv6_loop 9 [] ellipsis s' with
       | None => Err (ENew "ParseAddr")
       | Some (ip, ellipsis) =>
           if (length ip <? 16)%nat then
             match ellipsis with
             | None => Err (ENew "ParseAddr")
             | Some e => Ok (Addr6 (be_value (take e ip ++ repeat 0 (16 - length ip) ++ drop e ip)) "")
             end
           else if bool_decide (ellipsis = None) then Ok (Addr6 (be_value ip) "") else Err (ENew "ParseAddr")
       end).
Proof. unfold parseIPv6. rewrite Cut_absent by (by apply string6_plain). done. Qed.

(** The value with the ellipsis filled in. *)
Lemma filled v s l :
  v < 2 ^ 128 → run_ok (fields6 v) (s, l) → (2 ≤ l)%nat →
  let hd := take s (fields6 v) ≫= bytes2 in let ip := hd ++ (drop (s + l) (fields6 v) ≫= bytes2) in
  (length ip < 16)%nat ∧ be_value (take (length hd) ip ++ repeat 0 (16 - length ip) ++ drop (length hd) ip) = v.
Proof.
  intros Hv Hrun Hl hd ip. split.
  - unfold ip, hd. rewrite length_app, !length_bytes2, length_take, length_drop, length_fields6.
    destruct Hrun as (_ & Hr & _). cbn in Hr. lia.
  - unfold ip. rewrite take_app_length, drop_app_length. unfold hd.
    rewrite (ellipsis_bytes (fields6 v) s l Hrun (length_fields6 v)). by apply be_value_fields6.
Qed.

Lemma parseIPv6_string6 v : v < 2 ^ 128 → parseIPv6 (string6 v) = Ok (Addr6 v "").
Proof.
  intros Hv. rewrite parseIPv6_zoneless. pose proof (fields6_lt v) as Hlt.
  destruct (longest_run 0 (fields6 v) (0, 0)%nat) as [s l] eqn:Hr. rewrite (string6_eq v s l Hr).
  pose proof (run_fields6 v s l Hr) as Hrun. destruct (Hrun) as ([Hl|Hl] & Hlen & Hz); cbn [fst snd] in *.
  - subst l. cbn [Nat.eqb].
    pose proof (groups_head "" (fields6 v) Hlt ltac:(done)) as Hh. rewrite string_app_nil_r in Hh. rewrite Hh.
    rewrite (bool_decide_false (None = Some 0%nat)) by done. cbn [andb].
    pose proof (loop_tail (fields6 v) 1 [] None ltac:(done) Hlt ltac:(rewrite length_fields6; cbn; lia)) as Ht.
    rewrite length_fields6 in Ht. cbn [Nat.add] in Ht. rewrite Ht. cbn [app].
    rewrite length_bytes2, length_fields6, be_value_fields6 by done. done.
  - rewrite (proj2 (Nat.eqb_neq l 0)) by lia. destruct (filled v s l Hv Hrun Hl) as [Hshort Hfill].
    destruct (decide (s = 0)%nat) as [->|Hs].
    + cbn [take fmap list_fmap Join]. rewrite string_app_nil_l, strip_prefix_app. cbn [Nat.add] in *.
      change (take 0 (fields6 v) ≫= bytes2) with (@nil N) in Hshort, Hfill. cbn [app length take drop] in Hshort, Hfill.
      rewrite bool_decide_true by done. cbn [andb].
      destruct (drop l (fields6 v)) as [|y tail] eqn:Hd.
      * cbn [mbind list_bind length] in Hfill. rewrite bool_decide_true by done. by rewrite <-Hfill.
      * assert (Ht : Forall (λ x, x < 65536) (y :: tail)) by (rewrite <-Hd; by apply Forall_drop).
        assert (Hn : (length (y :: tail) ≤ 6)%nat) by (rewrite <-Hd, length_drop, length_fields6; lia).
        rewrite bool_decide_false by (by apply Join_groups_nonempty).
        pose proof (loop_tail (y :: tail) (9 - length (y :: tail)) [] (Some 0%nat) ltac:(done) Ht
          ltac:(cbn [length] in *; lia)) as Hloop.
        replace (length (y :: tail) + (9 - length (y :: tail)))%nat with 9%nat in Hloop by lia.
        rewrite Hloop. cbn [app]. rewrite (proj2 (Nat.ltb_lt _ _) Hshort). do 2 f_equal. exact Hfill.
    + assert (Hhd : take s (fields6 v) ≠ []).
      { intros Hn. apply (f_equal length) in Hn. rewrite length_take, length_fields6 in Hn. cbn in Hn. lia. }
      rewrite groups_head by (by apply Forall_take || done).
      rewrite (bool_decide_false (None = Some 0%nat)) by done. cbn [andb].
      rewrite loop_ellipsis; [|done|by apply Forall_take|by apply Forall_drop|
        rewrite length_take, length_drop, length_fields6; lia].
      rewrite (proj2 (Nat.ltb_lt _ _) Hshort). by rewrite Hfill.
Qed.

Lemma string6_special v : parse_addr_scan (string6 v) = Some ":"%char.
Proof.
  destruct (longest_run 0 (fields6 v) (0, 0)%nat) as [s l] eqn:Hr. rewrite (string6_eq v s l Hr).
  assert (Hc : ∀ fs rest, Forall (λ x, x < 65536) fs → (fs = [] → rest ≠ "") → (length fs = 1%nat → rest ≠ "") →
    rest = "" ∨ (∃ t, rest = String ":" t) → parse_addr_scan (Join (appendHex <$> fs) ":" +:+ rest) = Some ":"%char).
  { intros fs rest Hfs H0 H1 Hrest. destruct fs as [|x [|y fs]].
    - destruct Hrest as [->|[t ->]]; [by destruct (H0 eq_refl)|]. apply (scan_special "" ":" t); [done|by right; left].
    - destruct Hrest as [->|[t ->]]; [by destruct (H1 eq_refl)|]. apply scan_special; [|by right; left].
      apply group_spec. by inversion Hfs.
    - rewrite Join_groups_cons, <-string_app_assoc, string_app_cons. apply scan_special; [|by right; left].
      apply group_spec. by inversion Hfs. }
  pose proof (fields6_lt v) as Hlt. destruct (l =? 0)%nat.
  - rewrite <-(string_app_nil_r (Join _ _)). assert (fields6 v ≠ [] ∧ length (fields6 v) ≠ 1%nat) as [? ?] by done. apply Hc; [done..|by left].
  - apply Hc; [by apply Forall_take|done..|]. right. by eexists.
Qed.

Lemma ParseAddr_string6 v : v < 2 ^ 128 → ParseAddr (string6 v) = Ok (Addr6 v "").
Proof. intros Hv. unfold ParseAddr. rewrite string6_special. by apply parseIPv6_string6. Qed.

(** * Networks *)

Definition ones_ok (n : N) : bool := bool_decide (dtoi (FormatUint n) = Some (n, "")).

Lemma dtoi_FormatUint n : n ≤ 128 → dtoi (FormatUint n) = Some (n, "").
Proof.
  intros Hn. assert (Ho : ones_ok n = true).
  { apply (decide_below 129 ones_ok); [vm_compute; reflexivity|lia]. }
  by apply bool_decide_eq_true in Ho.
Qed.

(** A network as [ParseCIDR] makes them: an address with its host bits cleared. *)
Definition masked (n : IPNet) : Prop :=
  ∃ a, addr_ok a ∧ a ≠ AddrZero ∧ Addr_Zone a = "" ∧ n_Ones n ≤ Addr_BitLen a ∧
    n = mkIPNet (Addr_PrefixAddr a (n_Ones n)) (n_Ones n) (Addr_BitLen a).

Lemma shift_clear_le v k : N.shiftl (N.shiftr v k) k ≤ v.
Proof.
  rewrite N.shiftr_div_pow2, N.shiftl_mul_pow2, N.mul_comm. apply N.Div0.mul_div_le.
Qed.

Lemma string4_plain v : ContainsByte (string4 v) "/" = false.
Proof.
  apply ContainsByte_Join; [|done]. apply Forall_fmap, Forall_true. intros k.
  apply ContainsByte_plain; [|done]. apply octet_spec, v4_byte_lt.
Qed.

(** A network is read back from its text, unless it is one of IPv4-mapped addresses,
    whose text is the IPv4 network's. *)
Lemma ParseCIDR_String n :
  masked n → (∀ v z, n_IP n = Addr6 v z → N.shiftr v 32 ≠ 0xffff) → ParseCIDR (IPNet_String n) = Ok n.
Proof.
  intros (a & Hok & Hz & Hzone & Hones & Hn) Hmapped. destruct n as [ip ones bits]. cbn [n_Ones n_IP] in *.
  injection Hn as -> ->. destruct a as [|v|v z]; [done|..]; cbn [Addr_PrefixAddr Addr_BitLen Addr_Zone addr_ok] in *.
  - unfold IPNet_String, networkNumberAndMask. cbn [n_IP n_Ones n_Bits Addr_Unmap]. rewrite N.eqb_refl.
    change (32 =? 32) with true. cbv iota.
    unfold ParseCIDR. change ("/" +:+ FormatUint ones) with (String "/" (FormatUint ones)).
    rewrite Cut_app by apply string4_plain. cbn [negb]. pose proof (shift_clear_le v (32 - ones)) as Hle.
    rewrite ParseAddr_string4 by (eapply N.le_lt_trans; [exact Hle|exact Hok]).
    cbn [Addr_Zone Addr_BitLen]. rewrite bool_decide_true by done. cbn [negb]. rewrite dtoi_FormatUint by lia.
    rewrite (proj2 (N.ltb_ge _ _) Hones). cbn [Addr_PrefixAddr]. by rewrite shift_clear_idemp.
  - unfold IPNet_String, networkNumberAndMask. cbn [n_IP n_Ones n_Bits Addr_Unmap].
    rewrite (proj2 (N.eqb_neq _ _) (Hmapped _ _ eq_refl)), N.eqb_refl.
    change (128 =? 32) with false. cbv iota.
    unfold ParseCIDR. change ("/" +:+ FormatUint ones) with (String "/" (FormatUint ones)).
    rewrite Cut_app by (by apply string6_plain). cbn [negb]. pose proof (shift_clear_le v (128 - ones)) as Hle.
    rewrite ParseAddr_string6 by (eapply N.le_lt_trans; [exact Hle|exact Hok]).
    cbn [Addr_Zone Addr_BitLen]. rewrite bool_decide_true by done. cbn [negb]. rewrite dtoi_FormatUint by lia.
    rewrite (proj2 (N.ltb_ge _ _) Hones). cbn [Addr_PrefixAddr]. by rewrite shift_clear_idemp.
Qed.

(** * What is parsed fits its width *)

Lemma be_value_lt bs : Forall (λ b, b < 256) bs → be_value bs < 256 ^ N.of_nat (length bs).
Proof.
  intros Hbs. assert (Hacc : ∀ acc, foldl (λ acc b, acc * 256 + b) acc bs < (acc + 1) * 256 ^ N.of_nat (length bs)).
  { induction Hbs as [|b bs Hb _ IH]; intros acc; cbn [foldl length]; [rewrite N.mul_1_r; lia|].
    eapply N.lt_le_trans; [apply IH|]. rewrite Nat2N.inj_succ, N.pow_succ_r'. nia. }
  unfold be_value. specialize (Hacc 0). lia.
Qed.

Lemma parseIPv4Fields_bytes s bs : parseIPv4Fields s = Some bs → Forall (λ b, b < 256) bs ∧ length bs = 4%nat.
Proof.
  unfold parseIPv4Fields. case_bool_decide as Hl; [|done]. intros Hm.
  apply mapM_Some in Hm. split; [|by rewrite <-(Forall2_length _ _ _ Hm)].
  eapply Forall2_Forall_r; [exact Hm|]. apply Forall_true. intros x y. unfold octet.
  destruct (ParseUint x) as [n|]; [|done]. destruct (n <=? 255) eqn:Hn; [|done]. case_bool_decide; [|done].
  cbn. intros [= <-]. apply N.leb_le in Hn. lia.
Qed.

Lemma hex_value_lt c d : hex_value c = Some d → d < 16.
Proof.
  revert c d. assert (Hall : ∀ c, match hex_value c with Some d => d <? 16 | None => true end = true) by by_all_bytes.
  intros c d Hd. specialize (Hall c). rewrite Hd in Hall. by apply N.ltb_lt.
Qed.

Lemma hex_group_lt s off acc off' acc' rest :
  hex_group s off acc = (off', acc', rest) → acc < 16 ^ N.of_nat off → acc' < 16 ^ N.of_nat off'.
Proof.
  revert off acc. induction s as [|c s IH]; intros off acc; cbn [hex_group]; [by intros [= <- <- _]|].
  destruct (hex_value c) as [d|] eqn:Hd; [|by intros [= <- <- _]]. intros Hg Hacc. apply (IH _ _ Hg).
  apply hex_value_lt in Hd. rewrite Nat2N.inj_succ, N.pow_succ_r'. lia.
Qed.

(** Bytes so far: whole groups, at most eight. *)
Definition bytes_ok (ip : list N) : Prop := Forall (λ b, b < 256) ip ∧ (∃ k, length ip = 2 * k ∧ k ≤ 8)%nat.

Lemma bytes_ok_group ip acc :
  bytes_ok ip → (length ip < 16)%nat → acc < 65536 → bytes_ok (ip ++ [N.shiftr acc 8; N.land acc 0xff]).
Proof.
  intros (Hip & k & Hk & _) Hlen Hacc. split.
  - apply Forall_app. split; [done|]. change 0xff with (N.ones 8). rewrite N.land_ones, N.shiftr_div_pow2.
    repeat constructor; [|by apply N.mod_lt]. apply N.Div0.div_lt_upper_bound. exact Hacc.
  - exists (S k). rewrite length_app. cbn. lia.
Qed.

Lemma parseIPv6_loop_ok fuel ip e s ip' e' :
  parseIPv6_loop fuel ip e s = Some (ip', e') → bytes_ok ip → bytes_ok ip'.
Proof.
  revert ip e s. induction fuel as [|fuel IH]; intros ip e s; cbn [parseIPv6_loop].
  { case_bool_decide; [|done]. by intros [= <- _]. }
  destruct (Nat.leb_spec 16 (length ip)) as [|Hlen]. { case_bool_decide; [|done]. by intros [= <- _]. }
  destruct (hex_group s 0 0) as [[off acc] rest] eqn:Hg. destruct (Nat.eqb_spec off 0); [done|].
  destruct (Nat.ltb_spec 4 off); [done|]. cbn [orb]. intros Hl Hip.
  assert (Hacc : acc < 65536).
  { eapply N.lt_le_trans; [apply (hex_group_lt _ _ _ _ _ _ Hg); done|].
    change 65536 with (16 ^ 4). apply N.pow_le_mono_r; lia. }
  pose proof (bytes_ok_group ip acc Hip Hlen Hacc) as Hip2. destruct (HasPrefix rest ".").
  - destruct (_ || _) eqn:Hroom in Hl; [done|]. apply orb_false_iff in Hroom as [_ Hroom].
    destruct (parseIPv4Fields s) as [bs|] eqn:Hbs; [|done]. injection Hl as <- _.
    apply parseIPv4Fields_bytes in Hbs as [Hbs Hn]. destruct Hip as (Hip & k & Hk & _).
    split; [by apply Forall_app|]. exists (S (S k)). apply Nat.ltb_ge in Hroom. rewrite length_app. lia.
  - repeat (case_match; try done; simplify_eq); eauto.
Qed.

Lemma parseIPv6_ok s a : parseIPv6 s = Ok a → ∃ v z, a = Addr6 v z ∧ v < 2 ^ 128.
Proof.
  unfold parseIPv6. destruct (Cut s "%") as [[t zone] zoned]. destruct (zoned && _); [done|].
  destruct (match strip_prefix "::" t with Some s' => _ | None => _ end) as [e s']. cbv beta iota.
  destruct (_ && _); [intros [= <-]; by eexists _, _|].
  destruct (parseIPv6_loop 9 [] e s') as [[ip e']|] eqn:Hl; [|done].
  destruct (parseIPv6_loop_ok _ _ _ _ _ _ Hl) as (Hip & k & Hk & Hk8).
  { split; [constructor|]. exists 0%nat. cbn. lia. }
  assert (Hlt : ∀ bs, Forall (λ b, b < 256) bs → length bs = 16%nat → be_value bs < 2 ^ 128).
  { intros bs Hbs Hn. apply be_value_lt in Hbs. by rewrite Hn in Hbs. }
  destruct (Nat.ltb_spec (length ip) 16) as [Hshort|Hfull].
  - destruct e' as [p|]; [|done]. intros [= <-]. eexists _, _. split; [done|]. apply Hlt.
    + rewrite !Forall_app. split; [by apply Forall_take|]. split; [|by apply Forall_drop].
      apply Forall_forall. by intros x Hx%list_elem_of_In%repeat_spec; subst.
    + rewrite !length_app, repeat_length, length_take, length_drop. lia.
  - case_bool_decide; [|done]. intros [= <-]. eexists _, _. split; [done|]. apply Hlt; [done|lia].
Qed.

Lemma ParseAddr_ok s a : ParseAddr s = Ok a → addr_ok a ∧ a ≠ AddrZero.
Proof.
  unfold ParseAddr. intros Ha. assert (Hcase : (∃ bs, parseIPv4Fields s = Some bs ∧ a = Addr4 (be_value bs)) ∨ parseIPv6 s = Ok a).
  { repeat (case_match; try done); simplify_eq; eauto. }
  destruct Hcase as [(bs & Hbs & ->)|(v & z & -> & Hv)%parseIPv6_ok]; [|done].
  apply parseIPv4Fields_bytes in Hbs as [Hbs Hn]. split; [|done]. apply be_value_lt in Hbs. by rewrite Hn in Hbs.
Qed.

Lemma ParseCIDR_masked s n : ParseCIDR s = Ok n → masked n.
Proof.
  unfold ParseCIDR. destruct (Cut s "/") as [[addr mask] found]. destruct found; [|done]. cbn [negb].
  destruct (ParseAddr addr) as [a|] eqn:Ha; [|done]. apply ParseAddr_ok in Ha as [Hok Hz].
  case_bool_decide as Hzone; [|done]. cbn [negb]. destruct (dtoi mask) as [[k []]|]; try done.
  destruct (Addr_BitLen a <? k) eqn:Hk; [done|]. intros [= <-]. apply N.ltb_ge in Hk.
  exists a. cbn [n_Ones]. done.
Qed.

(** ** The characters of a text *)

Definition text_char (c : ascii) : bool := plain_char c || one_of ".:/" c.

Lemma text_plain l : forallb plain_char l = true → forallb text_char l = true.
Proof. rewrite !forallb_forall. intros Hl c Hc. unfold text_char. by rewrite (Hl c Hc). Qed.

Lemma text_app s t : forallb text_char (bytes (s +:+ t)) = forallb text_char (bytes s) && forallb text_char (bytes t).
Proof. by rewrite bytes_app, forallb_app. Qed.

Lemma text_Join l sep :
  Forall (λ s, forallb text_char (bytes s) = true) l → forallb text_char (bytes sep) = true →
  forallb text_char (bytes (Join l sep)) = true.
Proof.
  intros Hl Hs. induction Hl as [|s l Hx _ IH]; [done|]. destruct l as [|s' l]; [done|].
  change (Join (s :: s' :: l) sep) with (s +:+ sep +:+ Join (s' :: l) sep). by rewrite !text_app, Hx, Hs, IH.
Qed.

Lemma text_string4 v : forallb text_char (bytes (string4 v)) = true.
Proof.
  apply text_Join; [|done]. apply Forall_fmap, Forall_true. intros k. apply text_plain, octet_spec, v4_byte_lt.
Qed.

Lemma text_groups fs : Forall (λ x, x < 65536) fs → forallb text_char (bytes (Join (appendHex <$> fs) ":")) = true.
Proof.
  intros Hfs. apply text_Join; [|done]. apply Forall_fmap. eapply Forall_impl; [exact Hfs|].
  intros x Hx. by apply text_plain, group_spec.
Qed.

Lemma text_string6 v : forallb text_char (bytes (string6 v)) = true.
Proof.
  destruct (longest_run 0 (fields6 v) (0, 0)%nat) as [s l] eqn:Hr. rewrite (string6_eq v s l Hr).
  pose proof (fields6_lt v) as Hlt. destruct (l =? 0)%nat; [by apply text_groups|].
  rewrite !text_app, !text_groups; [done|by apply Forall_drop|by apply Forall_take].
Qed.

Lemma text_IPNet n : masked n → (∀ v z, n_IP n = Addr6 v z → N.shiftr v 32 ≠ 0xffff) → forallb text_char (bytes (IPNet_String n)) = true.
Proof.
  intros (a & Hok & Hz & Hzone & Hones & Hn) Hmapped. destruct n as [ip ones bits]. cbn [n_Ones n_IP] in *.
  injection Hn as -> ->. assert (Hf : forallb text_char (bytes (FormatUint ones)) = true).
  { apply text_plain, octet_spec. destruct a; cbn in Hones; lia. }
  destruct a as [|v|v z]; [done|..]; cbn [Addr_PrefixAddr Addr_BitLen] in *;
    unfold IPNet_String, networkNumberAndMask; cbn [n_IP n_Ones n_Bits Addr_Unmap].
  - rewrite N.eqb_refl, !text_app, Hf. change (32 =? 32) with true. cbv iota. by rewrite text_string4.
  - rewrite (proj2 (N.eqb_neq _ _) (Hmapped _ _ eq_refl)), N.eqb_refl, !text_app, Hf. change (128 =? 32) with false. cbv iota.
    by rewrite text_string6.
Qed.
