(* ===== verification/Cache.v ===== *)
(** [utils/cache.go]: caches of byte strings by key, the directory implementation over
    a model of the file system, and what a cache promises. *)

From S2P Require Import Prelude GoStrings GoTime GoPath.
From stdpp Require Import options.

(** * Files

    A path is a directory or a file with its modification time. *)
Inductive DiskEntry := EDir | EFile (mtime : Time) (data : string).
Abbreviation Disk := (gmap string DiskEntry).

(** What the operating system answers at the time of a call: the clock, whether a
    file can be read or created, and how many of the bytes a write gets to the disk
    before it fails, if it fails. *)
Record OS := mkOS {
  os_now : Time;
  os_read : string → option goerr;
  os_create : string → option goerr;
  os_write : string → string → option (nat * goerr) }.

(** * The interface *)

(** [Cache]: [Get] may return data with an error. *)
Record Cache := mkCache {
  cache_Get : string → Duration → OS → Disk → string * option goerr;
  cache_Set : string → string → OS → Disk → option goerr * Disk }.

Definition ErrExpired : goerr := ENamed "key expired".

(** [prefixCache] and [CachePrefix]; [None] is a nil cache. *)
Definition prefixCache (c : Cache) (prefix : string) : Cache := mkCache
  (λ key maxAge, cache_Get c (prefix +:+ key) maxAge)
  (λ key value, cache_Set c (prefix +:+ key) value).

Definition CachePrefix (c : option Cache) (prefix : string) : option Cache :=
  match c with None => None | Some c => Some (prefixCache c prefix) end.

(** ** Directories *)

Definition dir_Get (d key : string) (maxAge : Duration) (os : OS) (disk : Disk) : string * option goerr :=
  let fname := path_Join [d; key] in
  match disk !! fname with
  | None => ("", Some (ENew "no such file"))
  | Some EDir => ("", Some (ENew "key is directory"))
  | Some (EFile mtime data) =>
      match os_read os fname with
      | Some e => ("", Some e)
      | None =>
          if Time_Before mtime (Time_Add (os_now os) (- maxAge)%Z) then (data, Some ErrExpired) else (data, None)
      end
  end.

(** [os.Create] truncates; [Write] appends what gets through; [Chtimes] sets the
    modification time in any case. *)
Definition dir_Set (d key value : string) (os : OS) (disk : Disk) : option goerr * Disk :=
  let fname := path_Join [d; key] in
  match os_create os fname, disk !! fname with
  | Some e, _ => (Some e, disk)
  | None, Some EDir => (Some (ENew "is a directory"), disk)
  | None, _ =>
      match os_write os fname value with
      | None => (None, <[fname := EFile (os_now os) value]> disk)
      | Some (n, e) => (Some e, <[fname := EFile (os_now os) (substring_to n value)]> disk)
      end
  end.

Definition dirCache (d : string) : Cache := mkCache (dir_Get d) (dir_Set d).

Definition CacheDirectory (directory : string) (disk : Disk) : result Cache :=
  match disk !! directory with
  | None => Err (ENew "no such file")
  | Some (EFile _ _) => Err (ENew "not a directory")
  | Some EDir => Ok (dirCache directory)
  end.

(** * What a cache promises

    A value that was stored is read back, with an error only once it is too old; an
    entry that another value was stored for stays. [other] tells keys apart that do
    not interfere. *)
Class CacheLaws (c : Cache) (other : string → string → Prop) := {
  law_read_back key value maxAge os os' disk disk' :
    cache_Set c key value os disk = (None, disk') → (∀ p, os_read os' p = None) →
    cache_Get c key maxAge os' disk' =
      (value, if Time_Before (os_now os) (Time_Add (os_now os') (- maxAge)%Z) then Some ErrExpired else None);
  law_frame key key' value maxAge os os' disk :
    other key key' → cache_Get c key' maxAge os' (cache_Set c key value os disk).2 = cache_Get c key' maxAge os' disk }.

#[export] Instance dirCache_laws d : CacheLaws (dirCache d) (λ k k', path_Join [d; k] ≠ path_Join [d; k']).
Proof.
  split; cbn.
  - intros key value maxAge os os' disk disk' Hs Hr. unfold dir_Set in Hs. unfold dir_Get.
    destruct (os_create os _); [done|].
    assert (Hd : disk' = <[path_Join [d; key] := EFile (os_now os) value]> disk).
    { destruct (disk !! _) as [[]|]; [done| |]; destruct (os_write os _ value) as [[]|]; by simplify_eq. }
    rewrite Hd, lookup_insert_eq, Hr. by destruct (Time_Before _ _).
  - intros key key' value maxAge os os' disk Hne. unfold dir_Get.
    enough ((dir_Set d key value os disk).2 !! path_Join [d; key'] = disk !! path_Join [d; key']) as -> by done.
    unfold dir_Set. destruct (os_create os _), (disk !! path_Join [d; key]) as [[]|]; try done;
      destruct (os_write os _ value) as [[]|]; cbn; by rewrite lookup_insert_ne.
Qed.

#[export] Instance prefixCache_laws c other prefix :
  CacheLaws c other → CacheLaws (prefixCache c prefix) (λ k k', other (prefix +:+ k) (prefix +:+ k')).
Proof.
  intros Hc. split; cbn.
  - intros *. apply law_read_back.
  - intros *. apply law_frame.
Qed.

(** A store on a disk that takes everything, for concrete runs. *)
Definition demo_os (t : Time) : OS := mkOS t (λ _, None) (λ _, None) (λ _ _, None).

Example cache1 :
  let disk : Disk := {["/c" := EDir]} in
  let disk' := (cache_Set (prefixCache (dirCache "/c") "networks/") "a" "x" (demo_os 5%Z) disk).2 in
  disk' !! "/c/networks/a" = Some (EFile 5%Z "x") ∧
  cache_Get (prefixCache (dirCache "/c") "networks/") "a" 10%Z (demo_os 15%Z) disk' = ("x", None) ∧
  cache_Get (prefixCache (dirCache "/c") "networks/") "a" 10%Z (demo_os 16%Z) disk' = ("x", Some ErrExpired).
Proof. vm_compute. done. Qed.
