(* ===== verification/Radb.v ===== *)
(** [utils/radb.go]: queries to the RADb whois server, over a model of its side of
    the connection. *)

From S2P Require Import Prelude GoStrings NetAddr GoURL Mime Types GoNetip GoNet.
From stdpp Require Import options.

Definition RADBServer : string := "whois.radb.net:43".

(** The server: whether it can be reached, the error of the n-th write if it fails,
    the lines it sends for a query (without line feeds), and whether it closes the
    connection after them. An open connection without further lines runs into the
    deadline of five seconds. *)
Record Whois := mkWhois {
  wh_dial : option goerr;
  wh_write : nat → option goerr;
  wh_answer : string → list string * bool }.

Definition timeout : goerr := ENew "i/o timeout".
Definition ErrTooLong : goerr := ENamed "bufio.Scanner: token too long".
Definition bufferSize : N := 1024 * 1024 * 16.

(** [bytes.Trim(_, "\r\n")]. *)
Definition line_ends : list string := [of_bytes [byte_of 13]; of_bytes [byte_of 10]].
Definition trim_line (s : string) : string :=
  rev_string (trim_left (String.length s) line_ends (rev_string (trim_left (String.length s) line_ends s))).

Definition end_of_record (buf : string) : bool := HasPrefix buf "%" || bool_decide (buf = "C").

Section query.
  (** [fn] updates the state of the caller from the number of a record and its text. *)
  Context {A : Type} (fn : A → nat → string → result A).

(** The inner loop: the records up to an end of record, or all there are. *)
Fixpoint scan_records (closed : bool) (st : A) (n : nat) (lines : list string) : result (A * list string) :=
  match lines with
  | [] => if closed then Ok (st, []) else Err timeout
  | line :: lines =>
      if (bufferSize <=? N.of_nat (String.length line))%N then Err ErrTooLong
      else
        let buf := trim_line line in
        if end_of_record buf then Ok (st, lines)
        else match fn st n buf with
             | Err e => Err e
             | Ok st => scan_records closed st (S n) lines
             end
  end.

(** The loop over the queries; [lines] are those sent but not read yet. *)
Fixpoint query_loop (wh : Whois) (writes : nat) (closed : bool) (lines : list string) (st : A) (queries : list string) :
    result (A * nat) :=
  match queries with
  | [] => Ok (st, writes)
  | q :: queries =>
      match wh_write wh writes with
      | Some e => Err e
      | None =>
          let '(answer, closes) := if closed then ([], true) else wh_answer wh (TrimSpace q) in
          match scan_records (closed || closes) st 0 (lines ++ answer) with
          | Err e => Err e
          | Ok (st, lines) => query_loop wh (S writes) (closed || closes) lines st queries
          end
      end
  end.

(** [RADb.query]: several queries are framed by [!!] and [q]. *)
Definition query (wh : Whois) (st : A) (queries : list string) : result A :=
  let several := (1 <? length queries)%nat in
  match wh_dial wh with
  | Some e => Err e
  | None =>
      match (if several then wh_write wh 0 else None) with
      | Some e => Err e
      | None =>
          match query_loop wh (if several then 1 else 0) false [] st queries with
          | Err e => Err e
          | Ok (st, writes) =>
              match (if several then wh_write wh writes else None) with
              | Some e => Err e
              | None => Ok st
              end
          end
      end
  end.

End query.

(** * Routes in an answer

    [whoisRouteRegex]: four decimal numbers with dots, or hexadecimal digits and
    colons up to a double colon, then a slash and a decimal number. *)

Definition is_dec (b : ascii) : bool := in_range "0" "9" b.
Definition is_v6 (b : ascii) : bool := in_range "0" "9" b || in_range "a" "f" b || bool_decide (b = ":"%char).

Fixpoint span_bytes (P : ascii → bool) (l : list ascii) : list ascii * list ascii :=
  match l with
  | b :: l' => if P b then let '(x, y) := span_bytes P l' in (b :: x, y) else ([], l)
  | [] => ([], [])
  end.

(** One or more digits. *)
Definition digits (l : list ascii) : option (list ascii * list ascii) :=
  match span_bytes is_dec l with ([], _) => None | r => Some r end.
Definition byte_at (c : ascii) (l : list ascii) : option (list ascii) :=
  match l with b :: r => if bool_decide (b = c) then Some r else None | [] => None end.

Definition route4 (l : list ascii) : option (list ascii * list ascii) :=
  '(a, l) ← digits l; l ← byte_at "." l; '(b, l) ← digits l; l ← byte_at "." l;
  '(c, l) ← digits l; l ← byte_at "." l; '(d, l) ← digits l;
  Some (a ++ "."%char :: b ++ "."%char :: c ++ "."%char :: d, l).

(** The longest run, which ends in two colons and has something before them. *)
Definition route6 (l : list ascii) : option (list ascii * list ascii) :=
  let '(run, rest) := span_bytes is_v6 l in
  if (2 <? length run)%nat && bool_decide (drop (length run - 2) run = [":"%char; ":"%char])
  then Some (run, rest) else None.

(** A match at the front: its text and what follows. *)
Definition route_at (l : list ascii) : option (list ascii * list ascii) :=
  '(addr, l) ← match route4 l with Some r => Some r | None => route6 l end;
  l ← byte_at "/" l; '(ones, l) ← digits l;
  Some (addr ++ "/"%char :: ones, l).

(** [FindAllSubmatch(data, -1)], the group [prefix] of each match, leftmost and not
    overlapping. *)
Fixpoint find_routes (fuel : nat) (l : list ascii) : list string :=
  match fuel, l with
  | O, _ | _, [] => []
  | S fuel, _ :: l' =>
      match route_at l with
      | Some (m, rest) => of_bytes m :: find_routes fuel rest
      | None => find_routes fuel l'
      end
  end.
Definition FindAllRoutes (data : string) : list string := find_routes (String.length data) (bytes data).

(** * Queries *)

(** The callback of [FetchASNets]: the first record is the number of the reply, the
    second is padded. *)
Definition append_record (data : string) (n : nat) (record : string) : result string :=
  Ok (match n with
      | 0 => data
      | 1 => data +:+ " " +:+ record
      | _ => data +:+ record
      end).

Fixpoint parse_routes (l : list string) : result (list IPNet) :=
  match l with
  | [] => Ok []
  | s :: l =>
      match ParseCIDR s with
      | Err e => Err (EWrap ("invalid CIDR " +:+ s +:+ ": ") e)
      | Ok n => (ns <-? parse_routes l; Ok (n :: ns))%go
      end
  end.

Definition FetchASNets (wh : Whois) (asn : Z) : result (list IPNet) :=
  (data <-? query append_record wh "" ["!gas" +:+ FormatInt asn; "!6as" +:+ FormatInt asn];
   parse_routes (FindAllRoutes data))%go.

(** [FetchIPInfo]: the records about the network of one address. *)
Definition FetchIPInfo (wh : Whois) (ip : Addr) : result (list string) :=
  let ipNet := match IP_To4 ip with
               | Some v => mkIPNet (Addr4 v) 32 32
               | None => mkIPNet ip 128 128
               end in
  query (λ l _ record, Ok (l ++ [record])) wh [] ["!r" +:+ IPNet_String ipNet +:+ ",l"].

(** A server that knows IPv4 routes of one system only. *)
Definition demo_whois (no_routes : list string) : Whois :=
  mkWhois None (λ _, None) (λ q,
    (if bool_decide (q = "!gas64500") then ["A26"; "192.0.2.0/24 198.51.100.0/24"; "C"]
     else if bool_decide (q = "!6as64500") then no_routes else ["D"], false)).

Example FetchASNets1 :
  FetchASNets (demo_whois ["A14"; "2001:db8::/32"; "C"]) 64500 =
    Ok [mkIPNet (Addr4 0xc0000200) 24 32; mkIPNet (Addr4 0xc6336400) 24 32;
        mkIPNet (Addr6 (N.shiftl 0x20010db8 96) "") 32 128].
Proof. vm_compute. reflexivity. Qed.
Example FetchASNets2 : FetchASNets (demo_whois ["C"]) 64500 =
  Ok [mkIPNet (Addr4 0xc0000200) 24 32; mkIPNet (Addr4 0xc6336400) 24 32].
Proof. vm_compute. reflexivity. Qed.
Example FindAllRoutes1 : FindAllRoutes " a192.0.2.0/24x1.2.3/8 2001:db8::/32 fe80::1/64 ::/0" =
  ["192.0.2.0/24"; "2001:db8::/32"].
Proof. vm_compute. reflexivity. Qed.

(** * Facts *)

Lemma span_bytes_app P l : (span_bytes P l).1 ++ (span_bytes P l).2 = l.
Proof. induction l as [|b l IH]; cbn; [done|]. destruct (P b); [|done]. destruct (span_bytes P l). cbn in *. by f_equal. Qed.

(** A reply that is not the end of a record leaves the query waiting: if nothing
    else comes, it fails, whatever was read before. *)
Lemma scan_records_open {A} (fn : A → nat → string → result A) st n lines :
  Forall (λ l, end_of_record (trim_line l) = false) lines → is_ok (scan_records fn false st n lines) = false.
Proof.
  intros Hl. revert st n. induction Hl as [|line lines Hline _ IH]; intros st n; [done|]. cbn [scan_records].
  case_match; [done|]. rewrite Hline. destruct (fn st n _); [apply IH|done].
Qed.

(** A record that ends leaves nothing of its answer. *)
Lemma scan_records_end {A} (fn : A → nat → string → result A) st n lines st' rest :
  Forall (λ l, end_of_record (trim_line l) = false ∧ (N.of_nat (String.length l) < bufferSize)%N) lines →
  scan_records fn false st n (lines ++ ["C"]) = Ok (st', rest) → rest = [].
Proof.
  intros Hl. revert st n. induction Hl as [|line lines [Hline _] _ IH]; intros st n; cbn [app scan_records].
  - change (bufferSize <=? N.of_nat (String.length "C"))%N with false.
    change (end_of_record (trim_line "C")) with true. cbv iota. by intros [= _ <-].
  - destruct (bufferSize <=? _)%N; [done|]. rewrite Hline. destruct (fn st n _); [apply IH|done].
Qed.

(** * Properties *)

(** A system without routes of one family, which the server answers with a key not
    found ([D]), cannot be loaded at all: the reply does not end the record, the
    query runs into its deadline and the routes already read are lost. *)
Theorem FetchASNets_not_found (wh : Whois) (asn : Z) (lines : list string)
    (Hreply : wh_answer wh (TrimSpace ("!6as" +:+ FormatInt asn)) = (["D"], false))
    (Hfirst : wh_answer wh (TrimSpace ("!gas" +:+ FormatInt asn)) = (lines ++ ["C"], false))
    (Hlines : Forall (λ l, end_of_record (trim_line l) = false ∧ (N.of_nat (String.length l) < bufferSize)%N) lines) :
  is_ok (FetchASNets wh asn) = false.
Proof.
  unfold FetchASNets, query. cbn [length]. change (1 <? 2)%nat with true. cbv iota zeta.
  destruct (wh_dial wh); [done|]. destruct (wh_write wh 0); [done|]. cbn [query_loop].
  destruct (wh_write wh 1); [done|]. rewrite Hfirst. cbn [orb app].
  destruct (scan_records append_record false "" 0 (lines ++ ["C"])) as [[data rest]|] eqn:Hs; [|done].
  apply scan_records_end in Hs as ->; [|done].
  destruct (wh_write wh 2); [done|]. rewrite Hreply. cbn [orb app].
  pose proof (scan_records_open append_record data 0 ["D"]) as Hd.
  destruct (scan_records append_record false data 0 ["D"]) as [[]|]; [|done].
  discriminate Hd. repeat constructor.
Qed.

Lemma FetchASNets_not_found_witness : is_ok (FetchASNets (demo_whois ["D"]) 64500) = false.
Proof.
  apply (FetchASNets_not_found (demo_whois ["D"]) 64500 ["A26"; "192.0.2.0/24 198.51.100.0/24"]).
  - vm_compute. reflexivity.
  - vm_compute. reflexivity.
  - repeat constructor.
Defined.
