(* ===== verification/GoJSON.v ===== *)
(** [utf8.DecodeRuneInString] and [json.Marshal] of a string, which the refresh
    challenge writes into a script. *)

From S2P Require Import Prelude GoStrings GoURL GoNetip.
From Stdlib Require Import ZifyBool ZifyN.
From stdpp Require Import options.

(** * Runes *)

Definition between (lo hi : N) (b : ascii) : bool := (lo <=? byte_val b)%N && (byte_val b <=? hi)%N.

(** The bits a byte adds to a rune. *)
Definition rune_bits (acc : N) (b : ascii) : N := N.lor (N.shiftl acc 6) (N.land (byte_val b) 0x3f).

(** The first rune and its size; [None] is [RuneError] of size one. *)
Definition DecodeRune (l : list ascii) : option (N * nat) :=
  match l with
  | [] => None
  | b0 :: l =>
      let x := byte_val b0 in
      if (x <? 0x80)%N then Some (x, 1)
      else if (x <? 0xC2)%N then None
      else if (x <? 0xE0)%N then
        match l with
        | b1 :: _ => if between 0x80 0xBF b1 then Some (rune_bits (N.land x 0x1f) b1, 2) else None
        | _ => None
        end
      else if (x <? 0xF0)%N then
        match l with
        | b1 :: b2 :: _ =>
            if between (if (x =? 0xE0)%N then 0xA0 else 0x80) (if (x =? 0xED)%N then 0x9F else 0xBF) b1
               && between 0x80 0xBF b2
            then Some (rune_bits (rune_bits (N.land x 0x0f) b1) b2, 3) else None
        | _ => None
        end
      else if (x <? 0xF5)%N then
        match l with
        | b1 :: b2 :: b3 :: _ =>
            if between (if (x =? 0xF0)%N then 0x90 else 0x80) (if (x =? 0xF4)%N then 0x8F else 0xBF) b1
               && between 0x80 0xBF b2 && between 0x80 0xBF b3
            then Some (rune_bits (rune_bits (rune_bits (N.land x 0x07) b1) b2) b3, 4) else None
        | _ => None
        end
      else None
  end.

(** * Strings *)

Definition quote : ascii := byte_of 0x22.
Definition backslash : ascii := byte_of 0x5C.

(** A byte below 0x80, escaped for HTML as well. *)
Definition json_byte (b : ascii) : list ascii :=
  let x := byte_val b in
  if bool_decide (b = quote) || bool_decide (b = backslash) then [backslash; b]
  else if (x =? 8)%N then [backslash; "b"%char]
  else if (x =? 12)%N then [backslash; "f"%char]
  else if (x =? 10)%N then [backslash; "n"%char]
  else if (x =? 13)%N then [backslash; "r"%char]
  else if (x =? 9)%N then [backslash; "t"%char]
  else if (x <? 0x20)%N || bool_decide (b ∈ bytes "<>&")
  then backslash :: bytes "u00" ++ [hex_char (N.shiftr x 4); hex_char (N.land x 0xf)]
  else [b].

(** The bytes of a rune still to come, copied or dropped. *)
Inductive pending := Copy (n : nat) | Skip (n : nat).

Fixpoint json_chars (p : pending) (l : list ascii) : list ascii :=
  match l with
  | [] => []
  | b :: l' =>
      match p with
      | Copy (S n) => b :: json_chars (Copy n) l'
      | Skip (S n) => json_chars (Skip n) l'
      | _ =>
          if (byte_val b <? 0x80)%N then json_byte b ++ json_chars (Copy 0) l'
          else match DecodeRune l with
               | None => backslash :: bytes "ufffd" ++ json_chars (Copy 0) l'
               | Some (c, size) =>
                   if (c =? 0x2028)%N || (c =? 0x2029)%N
                   then backslash :: bytes "u202" ++ [hex_char (N.land c 0xf)] ++ json_chars (Skip (size - 1)) l'
                   else b :: json_chars (Copy (size - 1)) l'
               end
      end
  end.

(** [json.Marshal(s)]. *)
Definition json_string (s : string) : string :=
  of_bytes (quote :: json_chars (Copy 0) (bytes s) ++ [quote]).

Example json1 : json_string "/a?b=<c>&d" = dquote +:+ "/a?b=\u003cc\u003e\u0026d" +:+ dquote.
Proof. reflexivity. Qed.
Example json2 : json_string (of_bytes (byte_of <$> [0xE2; 0x80; 0xA8; 0xFF; 0xC3; 0xA9; 10; 0x5C]%N)) =
  dquote +:+ "\u2028\ufffd" +:+ of_bytes [byte_of 0xC3; byte_of 0xA9] +:+ "\n\\" +:+ dquote.
Proof. reflexivity. Qed.

(** * Literals stay literals *)

(** The end of a string literal, after its opening quote: what follows the first
    quote that no backslash escapes. *)
Fixpoint literal_end (l : list ascii) : option (list ascii) :=
  match l with
  | [] => None
  | b :: l =>
      if bool_decide (b = quote) then Some l
      else if bool_decide (b = backslash) then match l with [] => None | _ :: l => literal_end l end
      else literal_end l
  end.

(** A byte that neither ends a literal nor begins a tag or an entity. *)
Definition harmless (b : ascii) : bool :=
  negb (bool_decide (b ∈ bytes "<>&")) && (0x20 <=? byte_val b)%N.

Lemma json_byte_harmless : ∀ b, forallb harmless (json_byte b) = true.
Proof. by_all_bytes. Qed.

(** A literal goes on after these bytes, whatever follows. *)
Definition inside (u : list ascii) : Prop := ∀ l, literal_end (u ++ l) = literal_end l.

Lemma inside_nil : inside [].
Proof. done. Qed.
Lemma inside_app u v : inside u → inside v → inside (u ++ v).
Proof. intros Hu Hv l. by rewrite <-app_assoc, Hu, Hv. Qed.
Lemma inside_plain b : b ≠ quote → b ≠ backslash → inside [b].
Proof. intros Hq Hb l. cbn. by rewrite !bool_decide_false. Qed.
Lemma inside_escape b : inside [backslash; b].
Proof. done. Qed.

(** The shape of an escaped byte: two or six bytes after a backslash, or itself. *)
Lemma json_byte_shape : ∀ b, match json_byte b with
  | [x; _] => bool_decide (x = backslash)
  | [x; _; a; c; d; e] => bool_decide (x = backslash) &&
      forallb (λ y, negb (bool_decide (y = quote)) && negb (bool_decide (y = backslash))) [a; c; d; e]
  | [x] => negb (bool_decide (x = quote)) && negb (bool_decide (x = backslash))
  | _ => false
  end = true.
Proof. by_all_bytes. Qed.

Lemma inside_json_byte b : inside (json_byte b).
Proof.
  pose proof (json_byte_shape b) as Hs. destruct (json_byte b) as [|x [|y [|a [|c [|d [|e [|]]]]]]]; try done.
  - apply andb_true_iff in Hs as [?%negb_true_iff%bool_decide_eq_false ?%negb_true_iff%bool_decide_eq_false].
    by apply inside_plain.
  - apply bool_decide_eq_true in Hs as ->. apply inside_escape.
  - apply andb_true_iff in Hs as [->%bool_decide_eq_true Hs].
    apply (inside_app [backslash; y] [a; c; d; e]); [apply inside_escape|].
    rewrite forallb_forall in Hs.
    assert (∀ z, In z [a; c; d; e] → inside [z]) as Hz.
    { intros z Hz. apply Hs, andb_true_iff in Hz as [H1 H2].
      apply negb_true_iff, bool_decide_eq_false in H1, H2. by apply inside_plain. }
    repeat (apply (inside_app [_]); [apply Hz; simpl; tauto|]). apply inside_nil.
Qed.

(** The bytes of a rune after the first are continuation bytes. *)
Lemma DecodeRune_tail b l c size :
  DecodeRune (b :: l) = Some (c, size) → (0x80 <= byte_val b)%N →
  Forall (λ b, (0x80 <=? byte_val b)%N = true) (take (size - 1) l).
Proof.
  unfold DecodeRune, between. intros Hd Hb. destruct (byte_val b <? 0x80)%N eqn:Hx; [lia|].
  repeat (case_match; simplify_eq/=; try done); repeat match goal with
    | H : _ && _ = true |- _ => apply andb_true_iff in H as [? ?] end;
    repeat constructor; lia.
Qed.

Lemma high_plain b : (0x80 <=? byte_val b)%N = true → harmless b = true ∧ b ≠ quote ∧ b ≠ backslash.
Proof. revert b. by_all_bytes. Qed.

(** What is pending is within a rune. *)
Definition pending_ok (p : pending) (l : list ascii) : Prop :=
  match p with Copy n => Forall (λ b, (0x80 <=? byte_val b)%N = true) (take n l) | Skip _ => True end.

(** The characters of a literal keep it open and are harmless. *)
Lemma json_chars_inside l p : pending_ok p l → inside (json_chars p l) ∧ forallb harmless (json_chars p l) = true.
Proof.
  revert p. induction l as [|b l IH]; intros p Hp; [by destruct p|].
  assert (Hgo : inside (json_chars (Copy 0) (b :: l)) ∧ forallb harmless (json_chars (Copy 0) (b :: l)) = true).
  { cbn [json_chars]. destruct (byte_val b <? 0x80)%N eqn:Hb.
    - destruct (IH (Copy 0) (Forall_nil_2 _)) as [H1 H2].
      split; [by apply inside_app; [apply inside_json_byte|]|].
      by rewrite forallb_app, json_byte_harmless, H2.
    - apply N.ltb_ge in Hb. destruct (high_plain b) as (Hh & Hq & Hs); [lia|].
      destruct (DecodeRune (b :: l)) as [[c size]|] eqn:Hd.
      + apply DecodeRune_tail in Hd; [|done]. case_match eqn:Hc.
        * destruct (IH (Skip (size - 1)) I) as [H1 H2].
          assert (Hx : ∃ x, hex_char (N.land c 0xf) = x ∧ (x = "8"%char ∨ x = "9"%char)).
          { eexists. split; [done|]. apply orb_true_iff in Hc as [Hc|Hc]; apply N.eqb_eq in Hc as ->; [by left|by right]. }
          destruct Hx as (x & -> & Hx).
          change (backslash :: bytes "u202" ++ [x] ++ json_chars (Skip (size - 1)) l)
            with ((backslash :: bytes "u202" ++ [x]) ++ json_chars (Skip (size - 1)) l).
          rewrite forallb_app, H2. split; [apply inside_app; [|done]|]; by destruct Hx as [-> | ->].
        * destruct (IH (Copy (size - 1)) Hd) as [H1 H2]. split; [|cbn; by rewrite Hh].
          apply (inside_app [b]); [by apply inside_plain|done].
      + destruct (IH (Copy 0) (Forall_nil_2 _)) as [H1 H2]. split; [|cbn; by rewrite H2].
        by apply (inside_app (backslash :: bytes "ufffd")). }
  destruct p as [[|n]|[|n]]; try exact Hgo.
  - cbn [json_chars]. inversion Hp as [|? ? Hb Hp']; subst. destruct (IH (Copy n) Hp') as [H1 H2].
    destruct (high_plain b Hb) as (Hh & Hq & Hs). split; [|cbn; by rewrite Hh].
    apply (inside_app [b]); [by apply inside_plain|done].
  - cbn [json_chars]. by apply IH.
Qed.
