(* ===== verification/Embed.v ===== *)
(** [embed/embed.go]: the files of the program, with directories of the working directory
    in their place; and [io/fs] as far as it uses it. *)

From S2P Require Import Prelude GoStrings GoPath GoJSON.
From stdpp Require Import options.

Local Open Scope go_scope.

(** * [io/fs] *)

(** [FSInterface]: what reading a directory or a file gives. *)
Record FS := mkFS { fs_ReadDir : string → option goerr; fs_ReadFile : string → result string }.

(** [utf8.ValidString]. *)
Fixpoint valid_runes (fuel : nat) (l : list ascii) : bool :=
  match l, fuel with
  | [], _ => true
  | _, O => false
  | l, S fuel => match DecodeRune l with Some (_, n) => valid_runes fuel (drop n l) | None => false end
  end.
Definition ValidString (s : string) : bool := valid_runes (String.length s) (bytes s).

(** [fs.ValidPath]: the current directory, or elements other than the special ones. *)
Definition ValidPath (name : string) : bool :=
  ValidString name &&
  (bool_decide (name = ".") ||
   forallb (λ e, negb (bool_decide (e = "" ∨ e = "." ∨ e = ".."))) (Split name "/")).

(** [fs.Sub]: the same file system for the current directory, otherwise one that puts
    the directory in front of valid names. *)
Definition Sub (fsys : FS) (dir : string) : result FS :=
  if negb (ValidPath dir) then Err (ENamed "fs.ErrInvalid")
  else if bool_decide (dir = ".") then Ok fsys
  else Ok (mkFS
    (λ name, if negb (ValidPath name) then Some (ENamed "fs.ErrInvalid") else fs_ReadDir fsys (path_Join [dir; name]))
    (λ name, if negb (ValidPath name) then Err (ENamed "fs.ErrInvalid") else fs_ReadFile fsys (path_Join [dir; name]))).

(** * [GetFallbackFS]

    [isDir] tells the directories on disk. *)
Definition GetFallbackFS (isDir : string → bool) (embedFS : FS) (prefix : string) : result FS :=
  if isDir prefix then Ok embedFS
  else match fs_ReadDir embedFS prefix with
       | None => Sub embedFS prefix
       | Some err => Err err
       end.

(** * Facts *)

(** A file system of files with their contents; directories are their prefixes. *)
Definition files (m : gmap string string) : FS :=
  mkFS (λ dir, if existsb (λ kv, HasPrefix kv.1 (dir +:+ "/")) (map_to_list m) then None else Some (ENamed "fs.ErrNotExist"))
    (λ name, match m !! name with Some s => Ok s | None => Err (ENamed "fs.ErrNotExist") end).

Definition demo_files : FS := files {["js-pow/runtime/runtime.wasm" := "binary"; "other/x" := "y"]}.

(** The files below a challenge's directory are read by their names in it; a path that
    leaves it is refused. A directory of that name on disk makes the root of the
    embedded files the result, where the challenge's files are not found. *)
Example GetFallbackFS1 :
  (a <-? GetFallbackFS (λ _, false) demo_files "js-pow"; fs_ReadFile a "runtime/runtime.wasm") = Ok "binary" ∧
  (a <-? GetFallbackFS (λ _, false) demo_files "js-pow"; fs_ReadFile a "../other/x") = Err (ENamed "fs.ErrInvalid") ∧
  (a <-? GetFallbackFS (λ _, true) demo_files "js-pow"; fs_ReadFile a "runtime/runtime.wasm") = Err (ENamed "fs.ErrNotExist").
Proof. vm_compute. done. Qed.
