(* ===== verification/GoJSONValue.v ===== *)
(** [encoding/json]: decoding of texts into values, and lists of strings. *)

From S2P Require Import Prelude GoStrings GoURL GoNetip GoJSON.
From Stdlib Require Import ZifyBool ZifyN.
From stdpp Require Import options.

#[local] Set Warnings "-register-all".

(** * Values

    A number keeps its text; the members of an object are in the order they came
    first. *)
Inductive JSON :=
  | JNull | JBool (b : bool) | JNumber (s : string) | JString (s : string)
  | JArray (l : list JSON) | JObject (l : list (string * JSON)).

(** A later member of the same name replaces the value of the first. *)
Fixpoint object_set (l : list (string * JSON)) (k : string) (v : JSON) : list (string * JSON) :=
  match l with
  | [] => [(k, v)]
  | (k', v') :: l => if bool_decide (k' = k) then (k, v) :: l else (k', v') :: object_set l k v
  end.

(** ** String literals *)

Definition is_hex (b : ascii) : bool := bool_decide (is_Some (hex_value b)).

(** What follows [c] at the front. *)
Definition after (c : ascii) (l : list ascii) : option (list ascii) :=
  match l with b :: r => if bool_decide (b = c) then Some r else None | [] => None end.

(** The raw bytes of a literal, after its opening quote, and what follows it. *)
Fixpoint scan_literal (l : list ascii) : option (list ascii * list ascii) :=
  match l with
  | [] => None
  | b :: l' =>
      if bool_decide (b = quote) then Some ([], l')
      else if bool_decide (b = backslash) then
        match l' with
        | e :: l'' =>
            if bool_decide (e = "u"%char) then
              match l'' with
              | h1 :: h2 :: h3 :: h4 :: l'' =>
                  if is_hex h1 && is_hex h2 && is_hex h3 && is_hex h4
                  then '(raw, rest) ← scan_literal l''; Some (b :: e :: h1 :: h2 :: h3 :: h4 :: raw, rest)
                  else None
              | _ => None
              end
            else if bool_decide (e ∈ quote :: backslash :: bytes "/bfnrt")
            then '(raw, rest) ← scan_literal l''; Some (b :: e :: raw, rest) else None
        | [] => None
        end
      else if (byte_val b <? 0x20)%N then None
      else '(raw, rest) ← scan_literal l'; Some (b :: raw, rest)
  end.

(** [utf8.AppendRune]. *)
Definition EncodeRune (c : N) : list ascii :=
  let cont k := byte_of (N.lor 0x80 (N.land (N.shiftr c (6 * k)) 0x3f)) in
  if (c <? 0x80)%N then [byte_of c]
  else if (c <? 0x800)%N then [byte_of (N.lor 0xC0 (N.shiftr c 6)); cont 0%N]
  else if ((0xD800 <=? c) && (c <=? 0xDFFF) || (0x10FFFF <? c))%N then byte_of <$> [0xEF; 0xBF; 0xBD]%N
  else if (c <? 0x10000)%N then [byte_of (N.lor 0xE0 (N.shiftr c 12)); cont 1%N; cont 0%N]
  else [byte_of (N.lor 0xF0 (N.shiftr c 18)); cont 2%N; cont 1%N; cont 0%N].

Definition RuneError : N := 0xFFFD.

(** [getu4]: the value of an escape [\uXXXX] at the front. *)
Definition getu4 (l : list ascii) : option N :=
  match l with
  | b :: u :: h1 :: h2 :: h3 :: h4 :: _ =>
      if bool_decide (b = backslash) && bool_decide (u = "u"%char) then
        match mapM hex_value [h1; h2; h3; h4] with
        | Some ds => Some (foldl (λ acc d, acc * 16 + d)%N 0%N ds)
        | None => None
        end
      else None
  | _ => None
  end.

(** [utf16.DecodeRune]. *)
Definition surrogate_pair (r1 r2 : N) : option N :=
  if ((0xd800 <=? r1) && (r1 <? 0xdc00) && (0xdc00 <=? r2) && (r2 <? 0xe000))%N
  then Some (N.shiftl (r1 - 0xd800) 10 + (r2 - 0xdc00) + 0x10000)%N else None.

Definition escaped (e : ascii) : ascii :=
  match e with
  | "b"%char => byte_of 8 | "f"%char => byte_of 12 | "n"%char => byte_of 10
  | "r"%char => byte_of 13 | "t"%char => byte_of 9 | _ => e
  end.

(** [unquoteBytes] of a scanned literal. *)
Fixpoint unquote (p : pending) (l : list ascii) : list ascii :=
  match l with
  | [] => []
  | b :: l' =>
      match p with
      | Copy (S n) => b :: unquote (Copy n) l'
      | Skip (S n) => unquote (Skip n) l'
      | _ =>
          if bool_decide (b = backslash) then
            match getu4 l with
            | Some rr =>
                if ((0xd800 <=? rr) && (rr <? 0xe000))%N then
                  match getu4 (drop 6 l) with
                  | Some rr1 =>
                      match surrogate_pair rr rr1 with
                      | Some c => EncodeRune c ++ unquote (Skip 11) l'
                      | None => EncodeRune RuneError ++ unquote (Skip 5) l'
                      end
                  | None => EncodeRune RuneError ++ unquote (Skip 5) l'
                  end
                else EncodeRune rr ++ unquote (Skip 5) l'
            | None => match l' with e :: _ => escaped e :: unquote (Skip 1) l' | [] => [] end
            end
          else if (byte_val b <? 0x80)%N then b :: unquote (Copy 0) l'
          else match DecodeRune l with
               | None => EncodeRune RuneError ++ unquote (Copy 0) l'
               | Some (_, size) => b :: unquote (Copy (size - 1)) l'
               end
      end
  end.

Definition parse_string (l : list ascii) : option (string * list ascii) :=
  '(raw, rest) ← scan_literal l; Some (of_bytes (unquote (Copy 0) raw), rest).

(** ** Numbers *)

Definition is_digit (b : ascii) : bool := in_range "0" "9" b.
Fixpoint span (P : ascii → bool) (l : list ascii) : list ascii * list ascii :=
  match l with
  | b :: l' => if P b then let '(x, y) := span P l' in (b :: x, y) else ([], l)
  | [] => ([], [])
  end.

Definition number_int (l : list ascii) : option (list ascii * list ascii) :=
  match after "0" l with
  | Some l' => Some (["0"%char], l')
  | None => match span is_digit l with ([], _) => None | r => Some r end
  end.
Definition number_frac (l : list ascii) : option (list ascii * list ascii) :=
  match after "." l with
  | Some l' => match span is_digit l' with ([], _) => None | (ds, r) => Some ("."%char :: ds, r) end
  | None => Some ([], l)
  end.
Definition number_exp (l : list ascii) : option (list ascii * list ascii) :=
  match l with
  | e :: l' =>
      if bool_decide (e ∈ bytes "eE") then
        let '(sign, l'') := match l' with
                            | s :: l'' => if bool_decide (s ∈ bytes "+-") then ([s], l'') else ([], l')
                            | [] => ([], [])
                            end in
        match span is_digit l'' with ([], _) => None | (ds, r) => Some (e :: sign ++ ds, r) end
      else Some ([], l)
  | [] => Some ([], l)
  end.

Definition parse_number (l : list ascii) : option (string * list ascii) :=
  let '(sign, l) := match after "-" l with Some l' => (["-"%char], l') | None => ([], l) end in
  '(i, l) ← number_int l; '(f, l) ← number_frac l; '(e, l) ← number_exp l;
  Some (of_bytes (sign ++ i ++ f ++ e), l).

(** ** Values *)

Definition json_space (b : ascii) : bool := bool_decide (byte_val b ∈ [0x20; 0x09; 0x0D; 0x0A]%N).
Definition skip_space (l : list ascii) : list ascii := (span json_space l).2.

Definition maxNestingDepth : N := 10000.

(** A value at the front, below [depth] open brackets, and what follows; [fuel]
    bounds the calls. *)
Fixpoint parse_value (fuel : nat) (depth : N) (l : list ascii) : option (JSON * list ascii) :=
  match fuel with
  | O => None
  | S fuel =>
      match skip_space l with
      | [] => None
      | b :: l' =>
          if bool_decide (b = quote) then '(s, r) ← parse_string l'; Some (JString s, r)
          else if bool_decide (b = "["%char) then
            if (maxNestingDepth <=? depth)%N then None
            else
              match after "]" (skip_space l') with
              | Some r => Some (JArray [], r)
              | None => '(xs, r) ← parse_elements fuel (N.succ depth) l'; Some (JArray xs, r)
              end
          else if bool_decide (b = "{"%char) then
            if (maxNestingDepth <=? depth)%N then None
            else
              match after "}" (skip_space l') with
              | Some r => Some (JObject [], r)
              | None => '(ms, r) ← parse_members fuel (N.succ depth) l' []; Some (JObject ms, r)
              end
          else
            match strip_prefix "null" (of_bytes (b :: l')), strip_prefix "true" (of_bytes (b :: l')),
                  strip_prefix "false" (of_bytes (b :: l')) with
            | Some r, _, _ => Some (JNull, bytes r)
            | _, Some r, _ => Some (JBool true, bytes r)
            | _, _, Some r => Some (JBool false, bytes r)
            | _, _, _ => '(s, r) ← parse_number (b :: l'); Some (JNumber s, r)
            end
      end
  end
(** The elements of an array up to its bracket. *)
with parse_elements (fuel : nat) (depth : N) (l : list ascii) : option (list JSON * list ascii) :=
  match fuel with
  | O => None
  | S fuel =>
      '(v, r) ← parse_value fuel depth l;
      match after "]" (skip_space r), after "," (skip_space r) with
      | Some r, _ => Some ([v], r)
      | None, Some r => '(vs, r) ← parse_elements fuel depth r; Some (v :: vs, r)
      | None, None => None
      end
  end
(** The members of an object up to its brace, after those in [acc]. *)
with parse_members (fuel : nat) (depth : N) (l : list ascii) (acc : list (string * JSON)) :
    option (list (string * JSON) * list ascii) :=
  match fuel with
  | O => None
  | S fuel =>
      l ← after quote (skip_space l);
      '(k, r) ← parse_string l;
      r ← after ":" (skip_space r);
      '(v, r) ← parse_value fuel depth r;
      match after "}" (skip_space r), after "," (skip_space r) with
      | Some r, _ => Some (object_set acc k v, r)
      | None, Some r => parse_members fuel depth r (object_set acc k v)
      | None, None => None
      end
  end.

(** The value of a text, nothing but space around it. *)
Definition parse_json (s : string) : option JSON :=
  match parse_value (2 * String.length s + 2) 0 (bytes s) with
  | Some (v, r) => match skip_space r with [] => Some v | _ => None end
  | None => None
  end.

(** [json.Marshal] of a [[]string]: nil is null. *)
Definition Marshal_strings (l : list string) : string :=
  match l with [] => "null" | _ => "[" +:+ Join (json_string <$> l) "," +:+ "]" end.

(** [json.Unmarshal] into a nil [[]string], its errors ignored: an element of another
    type is left empty, an invalid text leaves the slice nil. *)
Definition Unmarshal_strings (s : string) : list string :=
  match parse_json s with
  | Some (JArray l) => (λ v, match v with JString x => x | _ => "" end) <$> l
  | _ => []
  end.

Example Unmarshal1 :
  Unmarshal_strings (" [" +:+ dquote +:+ "\u00e9\ud83d\ude00\n" +:+ dquote +:+ ", 1e5,null ]") =
    [of_bytes (byte_of <$> [0xC3; 0xA9; 0xF0; 0x9F; 0x98; 0x80; 10]%N); ""; ""].
Proof. vm_compute. reflexivity. Qed.
Example Unmarshal2 : Unmarshal_strings ("[" +:+ dquote +:+ "a" +:+ dquote) = [] ∧ parse_json "[1,]" = None ∧
  parse_json "01" = None ∧ parse_json ("{" +:+ dquote +:+ "a" +:+ dquote +:+ ":-0.5,}") = None.
Proof. vm_compute. done. Qed.

(** * Enough fuel *)

Lemma span_length P l : length (span P l).2 ≤ length l.
Proof. induction l as [|b l IH]; cbn; [done|]. destruct (P b); [|done]. destruct (span P l). cbn in *. lia. Qed.

Lemma skip_space_length l : length (skip_space l) ≤ length l.
Proof. apply span_length. Qed.

Lemma after_length c l r : after c l = Some r → length l = S (length r).
Proof. destruct l as [|b l]; cbn; [done|]. case_bool_decide; [|done]. by intros [= ->]. Qed.

Lemma scan_literal_length l raw r : scan_literal l = Some (raw, r) → length r < length l.
Proof.
  remember (length l) as n eqn:Hn. revert l raw r Hn. induction n as [n IH] using lt_wf_ind. intros l raw r -> Hs.
  destruct l as [|b l]; [done|]. cbn [scan_literal] in Hs. case_bool_decide; [simplify_eq; cbn; lia|].
  assert (Hrec : ∀ l' (x : list ascii) raw' r', length l' < S (length l) →
    ('(raw, rest) ← scan_literal l'; Some (x ++ raw, rest)) = Some (raw', r') → length r' < length l').
  { intros l' x raw' r' Hl Hs'. destruct (scan_literal l') as [[raw0 r0]|] eqn:Hl'; [|done]. simplify_eq/=.
    eapply (IH (length l')); [cbn; lia|done|done]. }
  clear IH. case_bool_decide.
  - destruct l as [|e l]; [done|]. case_bool_decide.
    + destruct l as [|h1 [|h2 [|h3 [|h4 l]]]]; try done. case_match; [|done].
      apply (Hrec l [b; e; h1; h2; h3; h4]) in Hs; cbn; cbn in Hs; lia.
    + case_bool_decide; [|done]. apply (Hrec l [b; e]) in Hs; cbn; cbn in Hs; lia.
  - case_match; [done|]. apply (Hrec l [b]) in Hs; cbn; cbn in Hs; lia.
Qed.

Lemma span_not_nil P l ds r : span P l = (ds, r) → ds ≠ [] → length r < length l.
Proof.
  destruct l as [|b l]; cbn; [by intros [= <- <-]|]. destruct (P b); [|by intros [= <- <-]].
  pose proof (span_length P l). destruct (span P l) as [x y]. intros [= <- <-] _. cbn in *. lia.
Qed.

Lemma number_int_length l i r : number_int l = Some (i, r) → length r < length l.
Proof.
  unfold number_int. destruct (after "0" l) eqn:Ha; [intros [= _ <-]; apply after_length in Ha; lia|].
  destruct (span is_digit l) as [[|d ds] r'] eqn:Hs; [done|]. intros [= _ <-]. by eapply span_not_nil.
Qed.

Lemma number_frac_length l i r : number_frac l = Some (i, r) → length r ≤ length l.
Proof.
  unfold number_frac. destruct (after "." l) eqn:Ha; [apply after_length in Ha|by intros [= _ <-]].
  destruct (span is_digit _) as [[|d ds] r'] eqn:Hs; [done|]. intros [= _ <-].
  apply span_not_nil in Hs; [lia|done].
Qed.

Lemma number_exp_length l i r : number_exp l = Some (i, r) → length r ≤ length l.
Proof.
  unfold number_exp. destruct l as [|e l]; [by intros [= _ <-]|]. case_bool_decide; [|by intros [= _ <-]].
  destruct (match l with [] => _ | s :: l'' => _ end) as [sign l'] eqn:Hl.
  assert (length l' ≤ length l).
  { destruct l as [|s l]; [by simplify_eq|]. case_bool_decide; simplify_eq; cbn; lia. }
  pose proof (span_length is_digit l'). destruct (span is_digit l') as [[|d ds] r']; [done|].
  intros [= _ <-]. cbn in *. lia.
Qed.

Lemma parse_number_length l s r : parse_number l = Some (s, r) → length r < length l.
Proof.
  unfold parse_number. destruct (match after "-" l with Some _ => _ | None => _ end) as [sign l1] eqn:Hl.
  assert (length l1 ≤ length l).
  { destruct (after "-" l) eqn:Ha; simplify_eq; [apply after_length in Ha; lia|done]. }
  cbn. destruct (number_int l1) as [[i l2]|] eqn:H1; [|done]. cbn.
  destruct (number_frac l2) as [[f l3]|] eqn:H2; [|done]. cbn.
  destruct (number_exp l3) as [[e l4]|] eqn:H3; [|done]. cbn. intros [= _ <-].
  apply number_int_length in H1. apply number_frac_length in H2. apply number_exp_length in H3. lia.
Qed.

Lemma parse_string_length l s r : parse_string l = Some (s, r) → length r < length l.
Proof.
  unfold parse_string. destruct (scan_literal l) as [[raw r']|] eqn:Hs; [|done]. cbn. intros [= _ <-].
  by eapply scan_literal_length.
Qed.

Lemma strip_prefix_length p s r : strip_prefix p s = Some r → p ≠ "" → String.length r < String.length s.
Proof.
  intros ->%strip_prefix_Some Hp. rewrite string_length_app. destruct p; [done|]. cbn. lia.
Qed.

Lemma parse_shorter f :
  (∀ d l v r, parse_value f d l = Some (v, r) → length r < length l) ∧
  (∀ d l v r, parse_elements f d l = Some (v, r) → length r < length l) ∧
  (∀ d l acc v r, parse_members f d l acc = Some (v, r) → length r < length l).
Proof.
  induction f as [|f (IHv & IHe & IHm)]; [done|]. repeat split.
  - intros d l v r. cbn [parse_value]. pose proof (skip_space_length l) as Hl.
    destruct (skip_space l) as [|b l']; [done|]. cbn [length] in Hl. case_bool_decide.
    { destruct (parse_string l') as [[s r']|] eqn:Hs; [|done]. apply parse_string_length in Hs. cbn.
      intros [= _ <-]. lia. }
    pose proof (skip_space_length l'). case_bool_decide; [|case_bool_decide].
    + case_match; [done|]. destruct (after "]" _) eqn:Ha; [apply after_length in Ha; intros [= _ <-]; lia|].
      destruct (parse_elements f _ l') as [[xs r']|] eqn:Hp; [|done]. apply IHe in Hp. intros [= _ <-]. lia.
    + case_match; [done|]. destruct (after "}" _) eqn:Ha; [apply after_length in Ha; intros [= _ <-]; lia|].
      destruct (parse_members f _ l' []) as [[xs r']|] eqn:Hp; [|done]. apply IHm in Hp. intros [= _ <-]. lia.
    + assert (Hpre : ∀ p s', strip_prefix p (of_bytes (b :: l')) = Some s' → p ≠ "" → length (bytes s') < length l).
      { intros p s' Hs Hp. apply strip_prefix_length in Hs; [|done]. rewrite length_of_bytes in Hs.
        rewrite length_bytes. cbn in *. lia. }
      destruct (strip_prefix "null" _) eqn:Hp1; [intros [= _ <-]; by eapply Hpre|].
      destruct (strip_prefix "true" _) eqn:Hp2; [intros [= _ <-]; by eapply Hpre|].
      destruct (strip_prefix "false" _) eqn:Hp3; [intros [= _ <-]; by eapply Hpre|].
      destruct (parse_number (b :: l')) as [[s r']|] eqn:Hn; [|done]. apply parse_number_length in Hn.
      intros [= _ <-]. cbn in *. lia.
  - intros d l v r. cbn [parse_elements]. destruct (parse_value f d l) as [[x r1]|] eqn:Hv; [|done]. cbn.
    apply IHv in Hv. pose proof (skip_space_length r1).
    destruct (after "]" _) eqn:Ha1; [apply after_length in Ha1; intros [= _ <-]; lia|].
    destruct (after "," _) eqn:Ha2; [|done]. apply after_length in Ha2.
    destruct (parse_elements f d _) as [[xs r3]|] eqn:He; [|done]. apply IHe in He. intros [= _ <-]. lia.
  - intros d l acc v r. cbn [parse_members]. pose proof (skip_space_length l).
    destruct (after quote _) as [l1|] eqn:Ha1; [|done]. apply after_length in Ha1. cbn.
    destruct (parse_string l1) as [[k r1]|] eqn:Hs; [|done]. apply parse_string_length in Hs. cbn.
    pose proof (skip_space_length r1). destruct (after ":" _) as [r2|] eqn:Ha2; [|done]. apply after_length in Ha2. cbn.
    destruct (parse_value f d r2) as [[x r3]|] eqn:Hv; [|done]. apply IHv in Hv. cbn.
    pose proof (skip_space_length r3).
    destruct (after "}" _) eqn:Ha3; [apply after_length in Ha3; intros [= _ <-]; lia|].
    destruct (after "," _) eqn:Ha4; [|done]. apply after_length in Ha4. intros Hm%IHm. lia.
Qed.

(** With fuel for twice the bytes, more fuel changes nothing. *)
Lemma parse_enough f :
  (∀ f' d l, 2 * length l + 1 ≤ f → f ≤ f' → parse_value f' d l = parse_value f d l) ∧
  (∀ f' d l, 2 * length l + 2 ≤ f → f ≤ f' → parse_elements f' d l = parse_elements f d l) ∧
  (∀ f' d l acc, 2 * length l + 2 ≤ f → f ≤ f' → parse_members f' d l acc = parse_members f d l acc).
Proof.
  induction f as [|f (IHv & IHe & IHm)]; [repeat split; intros; lia|].
  repeat split; intros [|f'] d l *; try lia; intros Hf Hf'.
  - cbn [parse_value]. pose proof (skip_space_length l) as Hl.
    destruct (skip_space l) as [|b l']; [done|]. cbn [length] in Hl.
    rewrite (IHe f'), (IHm f') by lia. done.
  - cbn [parse_elements]. rewrite (IHv f') by lia. destruct (parse_value f d l) as [[x r1]|] eqn:Hv; [|done]. cbn.
    apply (parse_shorter f) in Hv. pose proof (skip_space_length r1). destruct (after "]" _); [done|].
    destruct (after "," _) eqn:Ha2; [|done]. apply after_length in Ha2. by rewrite (IHe f') by lia.
  - cbn [parse_members]. pose proof (skip_space_length l).
    destruct (after quote _) as [l1|] eqn:Ha1; [|done]. apply after_length in Ha1. cbn.
    destruct (parse_string l1) as [[k r1]|] eqn:Hs; [|done]. apply parse_string_length in Hs. cbn.
    pose proof (skip_space_length r1). destruct (after ":" _) as [r2|] eqn:Ha2; [|done]. apply after_length in Ha2. cbn.
    rewrite (IHv f') by lia. destruct (parse_value f d r2) as [[x r3]|] eqn:Hv; [|done].
    apply (parse_shorter f) in Hv. cbn. pose proof (skip_space_length r3).
    destruct (after "}" _); [done|]. destruct (after "," _) eqn:Ha4; [|done]. apply after_length in Ha4.
    by rewrite (IHm f') by lia.
Qed.

Lemma parse_json_fuel s f :
  2 * String.length s + 2 ≤ f →
  parse_json s = match parse_value f 0 (bytes s) with
                 | Some (v, r) => match skip_space r with [] => Some v | _ => None end
                 | None => None
                 end.
Proof.
  intros Hf. unfold parse_json. destruct (parse_enough (2 * String.length s + 2)) as (Hv & _ & _).
  rewrite (Hv f); [done| |done]. rewrite length_bytes. lia.
Qed.

(** * Round trip *)

(** Bytes a literal holds as they are. *)
Definition plain (b : ascii) : bool :=
  harmless b && (byte_val b <? 0x80)%N && negb (bool_decide (b = quote)) && negb (bool_decide (b = backslash)).
Definition plain_string (s : string) : Prop := Forall (λ b, plain b = true) (bytes s).

Lemma plain_json_byte : ∀ b, (if plain b then bool_decide (json_byte b = [b]) else true) = true.
Proof. by_all_bytes. Qed.

Lemma plain_spec b : plain b = true → json_byte b = [b] ∧ b ≠ quote ∧ b ≠ backslash ∧ (0x20 <= byte_val b < 0x80)%N.
Proof.
  intros Hb. pose proof (plain_json_byte b) as Hj. rewrite Hb in Hj. apply bool_decide_eq_true in Hj.
  unfold plain, harmless in Hb. go_bool. repeat split; try done; lia.
Qed.

Lemma json_chars_plain l : Forall (λ b, plain b = true) l → json_chars (Copy 0) l = l.
Proof.
  induction 1 as [|b l Hb _ IH]; [done|]. apply plain_spec in Hb as (Hj & _ & _ & ? & Hlt). cbn [json_chars].
  apply N.ltb_lt in Hlt. by rewrite Hlt, Hj, IH.
Qed.

Lemma scan_plain l r : Forall (λ b, plain b = true) l → scan_literal (l ++ quote :: r) = Some (l, r).
Proof.
  induction 1 as [|b l Hb _ IH]; [done|]. apply plain_spec in Hb as (_ & Hq & Hs & Hlo & _).
  cbn [scan_literal app]. rewrite !bool_decide_false by done. rewrite (proj2 (N.ltb_ge _ _) Hlo), IH. done.
Qed.

Lemma unquote_plain l : Forall (λ b, plain b = true) l → unquote (Copy 0) l = l.
Proof.
  induction 1 as [|b l Hb _ IH]; [done|]. apply plain_spec in Hb as (_ & _ & Hs & _ & Hlt).
  cbn [unquote]. rewrite bool_decide_false by done. apply N.ltb_lt in Hlt. by rewrite Hlt, IH.
Qed.

Lemma parse_plain s f d r :
  plain_string s → 0 < f → parse_value f d (bytes (json_string s) ++ r) = Some (JString s, r).
Proof.
  intros Hs Hf. destruct f as [|f]; [lia|]. unfold json_string. rewrite bytes_of_bytes, json_chars_plain by done.
  rewrite <-app_comm_cons, <-app_assoc. cbn [parse_value app]. unfold skip_space. cbn [span].
  change (json_space quote) with false. cbn. unfold parse_string. rewrite scan_plain by done. cbn.
  by rewrite unquote_plain, of_bytes_bytes.
Qed.

Lemma parse_plain_list l f d r :
  l ≠ [] → Forall plain_string l → length l < f →
  parse_elements f d (bytes (Join (json_string <$> l) ",") ++ "]"%char :: r) = Some (JString <$> l, r).
Proof.
  revert f. induction l as [|s l IH]; intros [|f] Hne Hall Hf; try done; cbn [length] in Hf; try lia.
  inversion Hall as [|?? Hs Hl]; subst. cbn [parse_elements]. destruct l as [|s' l].
  - cbn [fmap list_fmap Join]. by rewrite parse_plain by (done || lia).
  - change (Join (json_string <$> s :: s' :: l) ",") with
      (json_string s +:+ "," +:+ Join (json_string <$> s' :: l) ",").
    rewrite bytes_app, <-app_assoc, parse_plain by (done || lia). cbn [option_bind mbind].
    rewrite bytes_app. change (bytes ",") with [","%char]. cbn [app].
    assert (Hc : ∀ x, skip_space (","%char :: x) = ","%char :: x) by done.
    assert (Ha : ∀ x, after "]" (","%char :: x) = None ∧ after "," (","%char :: x) = Some x) by done.
    rewrite Hc, (proj1 (Ha _)), (proj2 (Ha _)).
    rewrite IH; [done|done|done|cbn in *; lia].
Qed.

(** Lists of plain strings survive being written and read. *)
Lemma Marshal_strings_roundtrip l : Forall plain_string l → Unmarshal_strings (Marshal_strings l) = l.
Proof.
  intros Hl. unfold Unmarshal_strings. destruct l as [|s l]; [reflexivity|]. set (t := Marshal_strings _).
  rewrite (parse_json_fuel t (S (S (S (2 * String.length t + length (s :: l)))))) by lia.
  unfold t, Marshal_strings. rewrite !bytes_app. cbn [parse_value bytes String.list_ascii_of_string app].
  unfold skip_space at 1. cbn [span]. change (json_space "[") with false. cbn [snd].
  rewrite (bool_decide_false ("["%char = quote)) by done. rewrite bool_decide_true by done. cbn [maxNestingDepth N.leb].
  change (maxNestingDepth <=? 0)%N with false. cbv iota.
  assert (Hstart : ∀ u, after "]" (skip_space (bytes (Join (json_string <$> s :: l) ",") ++ u)) = None).
  { intros u. destruct l; reflexivity. }
  rewrite Hstart, parse_plain_list; [|done|done|cbn; lia]. cbn. f_equal.
  rewrite <-list_fmap_compose. by rewrite list_fmap_id.
Qed.
