(* ===== verification/Wasm.v ===== *)
(** [lib/challenge/wasm/interface], [lib/challenge/wasm/utils.go]: calls between the
    proxy and a challenge compiled to WebAssembly.

    Arguments and results are JSON texts in the linear memory of the module; a
    64-bit number names a text by pointer and size. The proxy's side ([..Call]) and
    the module's side ([..Decode]) are modelled over the memory. The JSON library is a
    parameter, with what it documents of the texts it writes ([MessageLaws]); so is the
    allocator of the module. *)

From S2P Require Import Prelude GoStrings GoURL Mime GoJSON GoJSONValue Types.
From stdpp Require Import options.

Local Open Scope N_scope.

(** * [Allocation] *)

Abbreviation Allocation := N.

Definition uint32 (n : N) : N := N.land n (2 ^ 32 - 1).
Definition uint64 (n : N) : N := N.land n (2 ^ 64 - 1).

Definition NewAllocation (ptr size : N) : Allocation := N.lor (uint64 (N.shiftl ptr 32)) size.
Definition Pointer (p : Allocation) : N := uint32 (N.shiftr p 32).
Definition Size (p : Allocation) : N := uint32 p.

(** * Messages *)

Record MakeChallengeInput := mkMakeInput {
  mi_Key : string; mi_Parameters : gomap string string; mi_Headers : MIMEHeader; mi_Data : string }.

Record MakeChallengeOutput := mkMakeOutput {
  mo_Data : string; mo_Code : Z; mo_Headers : gomap string (list string); mo_Error : string }.

Record VerifyChallengeInput := mkVerifyInput {
  vi_Key : string; vi_Parameters : gomap string string; vi_Result : string }.

Abbreviation VerifyChallengeOutput := N.
Definition VerifyChallengeOutputOK : VerifyChallengeOutput := 0.
Definition VerifyChallengeOutputFailed : VerifyChallengeOutput := 1.
Definition VerifyChallengeOutputError : VerifyChallengeOutput := 2.

(** [json.Marshal] and [json.Unmarshal] of the messages. *)
Class MessageJSON := {
  marshal_make_in : MakeChallengeInput → result string;
  unmarshal_make_in : string → result MakeChallengeInput;
  marshal_make_out : MakeChallengeOutput → result string;
  unmarshal_make_out : string → result MakeChallengeOutput;
  marshal_verify_in : VerifyChallengeInput → result string;
  unmarshal_verify_in : string → result VerifyChallengeInput }.

(** * Linear memory *)

Abbreviation Memory := (list ascii).

Definition Memory_Read (m : Memory) (ptr size : N) : option string :=
  if (ptr + size <=? N.of_nat (length m))
  then Some (of_bytes (take (N.to_nat size) (drop (N.to_nat ptr) m))) else None.

Definition Memory_Write (m : Memory) (ptr : N) (data : string) : option Memory :=
  if (ptr + N.of_nat (String.length data) <=? N.of_nat (length m))
  then Some (take (N.to_nat ptr) m ++ bytes data ++ drop (N.to_nat ptr + String.length data) m) else None.

(** A function the module exports: its result or a trap, and the memory after it. *)
Abbreviation Exported := (Memory → N → result N * Memory).

Section calls.
  Context `{MessageJSON}.
  (** [malloc] and [free] of the module; that [free] traps is not looked at. *)
  Context (malloc : Exported) (free : Memory → N → Memory).

(** A text's length as an argument. *)
Definition size_of (s : string) : N := N.of_nat (String.length s).

(** ** The proxy's side *)

(** Write a text, call an exported function with its allocation, read the memory it
    leaves and, last, free the text. *)
Definition call_with {A} (f : Exported) (m : Memory) (inData : string)
    (read : N → Memory → result A * Memory) : result A * Memory :=
  match malloc m (size_of inData) with
  | (Err err, m) => (Err err, m)
  | (Ok ptr, m) =>
      let '(res, m) :=
        match Memory_Write m (uint32 ptr) inData with
        | None => (Err (ENew "could not write memory"), m)
        | Some m =>
            match f m (NewAllocation (uint32 ptr) (uint32 (size_of inData))) with
            | (Err err, m) => (Err err, m)
            | (Ok r, m) => read r m
            end
        end in
      (res, free m ptr)
  end.

(** The text of the result is freed when it has been decoded. *)
Definition MakeChallengeCall (makeChallenge : Exported) (m : Memory) (i : MakeChallengeInput) :
    result MakeChallengeOutput * Memory :=
  match marshal_make_in i with
  | Err err => (Err err, m)
  | Ok inData =>
      call_with makeChallenge m inData (λ r m,
        match Memory_Read m (Pointer r) (Size r) with
        | None => (Err (ENew "could not read result"), m)
        | Some outData => (unmarshal_make_out outData, free m (Pointer r))
        end)
  end.

Definition VerifyChallengeCall (verifyChallenge : Exported) (m : Memory) (i : VerifyChallengeInput) :
    result VerifyChallengeOutput * Memory :=
  match marshal_verify_in i with
  | Err err => (Err err, m)
  | Ok inData => call_with verifyChallenge m inData (λ r m, (Ok r, m))
  end.

(** ** The module's side *)

(** [PtrToBytes]: out of bounds is a trap. *)
Definition PtrToBytes (m : Memory) (a : Allocation) : result string :=
  match Memory_Read m (Pointer a) (Size a) with
  | None => Err (ENew "out of bounds memory access")
  | Some s => Ok s
  end.

Definition BytesToLeakedPtr (m : Memory) (s : string) : result N * Memory :=
  match malloc m (size_of s) with
  | (Err err, m) => (Err err, m)
  | (Ok ptr, m) =>
      match Memory_Write m (uint32 ptr) s with
      | None => (Err (ENew "out of bounds memory access"), m)
      | Some m => (Ok (NewAllocation (uint32 ptr) (uint32 (size_of s))), m)
      end
  end.

(** A callback changes the output it is given, and may panic, with an error ([Some])
    or another value ([None]). *)
Definition MakeCallback : Type :=
  MakeChallengeInput → MakeChallengeOutput → MakeChallengeOutput * option (option string).

(** The output of a call of the callback. *)
Definition recovered (res : MakeChallengeOutput * option (option string)) : MakeChallengeOutput :=
  let '(out, p) := res in
  match p with
  | None => out
  | Some err =>
      mkMakeOutput (mo_Data out) (if (mo_Code out =? 200)%Z then 500%Z else mo_Code out)
        (mo_Headers out) (default "error" err)
  end.

(** Empty headers are not sent. *)
Definition without_headers (out : MakeChallengeOutput) : MakeChallengeOutput :=
  mkMakeOutput (mo_Data out) (mo_Code out)
    (if bool_decide (default ∅ (mo_Headers out) = ∅) then None else mo_Headers out) (mo_Error out).

(** The output a module has for an input it decoded. *)
Definition make_output (callback : MakeCallback) (i : MakeChallengeInput) : MakeChallengeOutput :=
  without_headers (recovered (callback i (mkMakeOutput "" 200 (Some ∅) ""))).

(** An output without text is a panic of the module: a trap. *)
Definition MakeChallengeDecode (callback : MakeCallback) : Exported := λ m a,
  match PtrToBytes m a with
  | Err err => (Err err, m)
  | Ok inData =>
      let out :=
        match unmarshal_make_in inData with
        | Err err => without_headers (mkMakeOutput "" 500 None (Error err))
        | Ok i => make_output callback i
        end in
      match marshal_make_out out with
      | Err err => (Err err, m)
      | Ok outData => BytesToLeakedPtr m outData
      end
  end.

(** [None] is a panic of the callback. *)
Definition VerifyChallengeDecode (callback : VerifyChallengeInput → option VerifyChallengeOutput) : Exported := λ m a,
  match PtrToBytes m a with
  | Err err => (Err err, m)
  | Ok inData =>
      (Ok (match unmarshal_verify_in inData with
           | Err _ => VerifyChallengeOutputError
           | Ok i => default VerifyChallengeOutputError (callback i)
           end), m)
  end.

End calls.

(** ** What a JSON text keeps

    [encoding/json] writes strings as valid UTF-8: a byte that is not part of a rune
    becomes the replacement rune. Byte slices, written in base 64, and numbers are
    kept. The keys of a map are written in order, and of keys that become the same the
    last one read stays. *)
Fixpoint coerce_runes (fuel : nat) (l : list ascii) : list ascii :=
  match l, fuel with
  | [], _ | _, O => []
  | _, S fuel =>
      match DecodeRune l with
      | Some (_, n) => take n l ++ coerce_runes fuel (drop n l)
      | None => EncodeRune RuneError ++ coerce_runes fuel (drop 1 l)
      end
  end.

Definition coerce (s : string) : string := of_bytes (coerce_runes (String.length s) (bytes s)).

Definition coerce_map {V} (f : V → V) (m : gmap string V) : gmap string V :=
  foldl (λ acc k, match m !! k with Some v => <[coerce k := f v]> acc | None => acc end) ∅ (sorted_keys m).

Definition kept_make_in (i : MakeChallengeInput) : MakeChallengeInput :=
  mkMakeInput (mi_Key i) (coerce_map coerce <$> mi_Parameters i)
    (coerce_map (λ vs : list string, coerce <$> vs) (mi_Headers i)) (mi_Data i).

Definition kept_make_out (o : MakeChallengeOutput) : MakeChallengeOutput :=
  mkMakeOutput (mo_Data o) (mo_Code o) (coerce_map (λ vs : list string, coerce <$> vs) <$> mo_Headers o) (coerce (mo_Error o)).

Definition kept_verify_in (i : VerifyChallengeInput) : VerifyChallengeInput :=
  mkVerifyInput (vi_Key i) (coerce_map coerce <$> vi_Parameters i) (vi_Result i).

Class MessageLaws `{MessageJSON} := {
  law_make_in i s : marshal_make_in i = Ok s → unmarshal_make_in s = Ok (kept_make_in i);
  law_make_out o s : marshal_make_out o = Ok s → unmarshal_make_out s = Ok (kept_make_out o);
  law_verify_in i s : marshal_verify_in i = Ok s → unmarshal_verify_in s = Ok (kept_verify_in i) }.

(** * Properties *)

Lemma uint32_id n : n < 2 ^ 32 → uint32 n = n.
Proof.
  intros Hn. unfold uint32. change (2 ^ 32 - 1) with (N.ones 32). rewrite N.land_ones. by apply N.mod_small.
Qed.

Lemma NewAllocation_add ptr size : ptr < 2 ^ 32 → size < 2 ^ 32 → NewAllocation ptr size = ptr * 2 ^ 32 + size.
Proof.
  intros Hp Hs. unfold NewAllocation, uint64. change (2 ^ 64 - 1) with (N.ones 64).
  rewrite N.land_ones, N.shiftl_mul_pow2, N.mod_small by lia.
  rewrite <-N.lxor_lor, <-N.add_nocarry_lxor; [done|..].
  all: apply N.bits_inj; intros i; rewrite N.land_spec, N.bits_0;
    (destruct (N.lt_ge_cases i 32) as [Hi|Hi];
      [rewrite N.mul_pow2_bits_low by done; done|]);
    rewrite andb_comm; (destruct (N.eq_dec size 0) as [->|Hz]; [by rewrite N.bits_0|]);
    rewrite N.bits_above_log2; [done|]; apply N.log2_lt_pow2 in Hs; lia.
Qed.

Lemma uint32_mod n : uint32 n = n mod 2 ^ 32.
Proof. unfold uint32. change (2 ^ 32 - 1) with (N.ones 32). apply N.land_ones. Qed.

Lemma Allocation_unpack ptr size :
  ptr < 2 ^ 32 → size < 2 ^ 32 → Pointer (NewAllocation ptr size) = ptr ∧ Size (NewAllocation ptr size) = size.
Proof.
  intros Hp Hs. unfold Pointer, Size. rewrite NewAllocation_add by done. split.
  - rewrite N.shiftr_div_pow2, N.div_add_l, N.div_small, N.add_0_r by done. by apply uint32_id.
  - rewrite uint32_mod, N.add_comm, N.Div0.mod_add. by apply N.mod_small.
Qed.

(** A 64-bit number names exactly one pointer and size: packing two 32-bit numbers
    and reading them back is the identity, and so is unpacking and packing again. *)
Theorem Allocation_roundtrip (ptr size a : N) (Hp : ptr < 2 ^ 32) (Hs : size < 2 ^ 32) (Ha : a < 2 ^ 64) :
  Pointer (NewAllocation ptr size) = ptr ∧ Size (NewAllocation ptr size) = size ∧
  NewAllocation (Pointer a) (Size a) = a.
Proof.
  assert (Hlt : ∀ n, uint32 n < 2 ^ 32) by (intros n; rewrite uint32_mod; by apply N.mod_lt).
  destruct (Allocation_unpack ptr size Hp Hs) as [H1 H2]. split; [done|]. split; [done|].
  rewrite NewAllocation_add by apply Hlt. unfold Pointer, Size.
  rewrite N.shiftr_div_pow2, !uint32_mod, (N.mod_small (a / 2 ^ 32)); [|by apply N.Div0.div_lt_upper_bound].
  rewrite N.mul_comm. symmetry. apply N.Div0.div_mod.
Qed.

Lemma Allocation_roundtrip_witness : NewAllocation (Pointer 0x1234500000007) (Size 0x1234500000007) = 0x1234500000007.
Proof. apply (Allocation_roundtrip 1 2 0x1234500000007); vm_compute; reflexivity. Defined.

Lemma Memory_Read_Write m ptr s m' : Memory_Write m ptr s = Some m' → Memory_Read m' ptr (size_of s) = Some s.
Proof.
  unfold Memory_Write, Memory_Read, size_of. case_match eqn:Hle; [|done]. intros [= <-].
  apply N.leb_le in Hle. assert (Hl : length (bytes s) = String.length s) by apply length_bytes.
  rewrite !length_app, length_take, length_drop, Hl.
  rewrite (proj2 (N.leb_le _ _)) by lia. f_equal.
  rewrite Nat2N.id, drop_app_length' by (rewrite length_take; lia).
  rewrite take_app_length' by done. apply of_bytes_bytes.
Qed.

Section abi.
  Context `{MessageLaws} (malloc : Exported).
  (** A block the allocator hands out lies in the memory, which is addressed by 32
      bits. *)
  Context (malloc_ok : ∀ m n p m', malloc m n = (Ok p, m') → p + n ≤ N.of_nat (length m') ∧ N.of_nat (length m') < 2 ^ 32).
  Set Default Proof Using "Type*".

(** A block handed out: its text fits, and its allocation names it. *)
Lemma malloc_block m s p m1 :
  malloc m (size_of s) = (Ok p, m1) →
  uint32 p = p ∧ Pointer (NewAllocation p (uint32 (size_of s))) = p ∧
  ∃ m2, Memory_Write m1 p s = Some m2 ∧
    Memory_Read m2 (Pointer (NewAllocation p (uint32 (size_of s)))) (Size (NewAllocation p (uint32 (size_of s)))) = Some s.
Proof.
  intros Hm. apply malloc_ok in Hm as [Hb Hl]. rewrite (uint32_id p), (uint32_id (size_of s)) by lia.
  destruct (Allocation_unpack p (size_of s)) as (H1' & H2'); [lia|lia|].
  split; [done|]. split; [done|]. rewrite H1', H2'.
  destruct (Memory_Write m1 p s) as [m2|] eqn:Hw; [|exfalso].
  - exists m2. split; [done|]. by apply Memory_Read_Write with m1.
  - unfold Memory_Write in Hw. unfold size_of in *. rewrite (proj2 (N.leb_le _ _)) in Hw by lia. done.
Qed.

(** [m1] is the memory after a text was written in a new block [p] of [m]. *)
Definition allocated (m : Memory) (s : string) (p : N) (m1 : Memory) : Prop :=
  ∃ m0, malloc m (size_of s) = (Ok p, m0) ∧ Memory_Write m0 p s = Some m1.

(** The allocator is out of memory. *)
Definition traps (e : goerr) : Prop := ∃ m n m', malloc m n = (Err e, m').

(** The text the module answers with is in a block of its own. *)
Lemma leak_spec m s :
  (∃ e m', BytesToLeakedPtr malloc m s = (Err e, m') ∧ traps e) ∨
  ∃ p m1 a, allocated m s p m1 ∧ BytesToLeakedPtr malloc m s = (Ok a, m1) ∧ Pointer a = p ∧
    Memory_Read m1 (Pointer a) (Size a) = Some s.
Proof.
  unfold BytesToLeakedPtr. destruct (malloc m (size_of s)) as [[p|e] m0] eqn:Hm.
  2:{ left. exists e, m0. split; [done|]. by exists m, (size_of s), m0. }
  right. destruct (malloc_block _ _ _ _ Hm) as (Hp & Hptr & m1 & Hw & Hr). rewrite Hp, Hw.
  exists p, m1, (NewAllocation p (uint32 (size_of s))). split; [by exists m0|]. done.
Qed.

Context (free : Memory → N → Memory).

(** A call either stops in the allocator or gives the function the text. *)
Lemma call_with_spec {A} f m inData (read : N → Memory → result A * Memory) :
  (∃ e m', call_with malloc free f m inData read = (Err e, m') ∧ traps e) ∨
  ∃ p m1 a, allocated m inData p m1 ∧ PtrToBytes m1 a = Ok inData ∧
    call_with malloc free f m inData read =
      (let '(res, m2) := match f m1 a with (Err e, m2) => (Err e, m2) | (Ok r, m2) => read r m2 end in (res, free m2 p)).
Proof.
  unfold call_with. destruct (malloc m (size_of inData)) as [[p|e] m0] eqn:Hm.
  2:{ left. exists e, m0. split; [done|]. by exists m, (size_of inData), m0. }
  right. destruct (malloc_block _ _ _ _ Hm) as (Hp & _ & m1 & Hw & Hr). rewrite Hp, Hw.
  exists p, m1, (NewAllocation p (uint32 (size_of inData))). split; [by exists m0|].
  unfold PtrToBytes. by rewrite Hr.
Qed.

(** A call of [MakeChallenge]: what stops it, or its answer and the memory it leaves. *)
Lemma make_call callback m i (out := make_output callback (kept_make_in i)) :
  match MakeChallengeCall malloc free (MakeChallengeDecode malloc callback) m i with
  | (Ok res, m') => res = kept_make_out out ∧
      ∃ inData outData p q m1 m2, marshal_make_in i = Ok inData ∧ marshal_make_out out = Ok outData ∧
        allocated m inData p m1 ∧ allocated m1 outData q m2 ∧ m' = free (free m2 q) p
  | (Err e, _) => marshal_make_in i = Err e ∨ marshal_make_out out = Err e ∨ traps e
  end.
Proof.
  unfold MakeChallengeCall. destruct (marshal_make_in i) as [inData|e] eqn:Hin; [|by left].
  match goal with |- context [call_with _ _ ?f m inData ?read] =>
    destruct (call_with_spec f m inData read) as [(e & m' & -> & He)|(p & m1 & a & Ha & Hread & ->)] end; [auto|].
  unfold MakeChallengeDecode. rewrite Hread, (law_make_in i inData Hin). fold out.
  destruct (marshal_make_out out) as [outData|e] eqn:Hout; [|auto].
  destruct (leak_spec m1 outData) as [(e & m' & -> & He)|(q & m2 & b & Hb & -> & <- & ->)]; [auto|].
  rewrite (law_make_out out outData Hout). split; [done|].
  exists inData, outData, p, (Pointer b), m1, m2. done.
Qed.

Lemma verify_call callback m i :
  match VerifyChallengeCall malloc free (VerifyChallengeDecode callback) m i with
  | (Ok res, m') => res = default VerifyChallengeOutputError (callback (kept_verify_in i)) ∧
      ∃ inData p m1, marshal_verify_in i = Ok inData ∧ allocated m inData p m1 ∧ m' = free m1 p
  | (Err e, _) => marshal_verify_in i = Err e ∨ traps e
  end.
Proof.
  unfold VerifyChallengeCall. destruct (marshal_verify_in i) as [inData|e] eqn:Hin; [|by left].
  destruct (call_with_spec (VerifyChallengeDecode callback) m inData (λ r m, (Ok r, m)))
    as [(e & m' & -> & He)|(p & m1 & a & Ha & Hread & ->)]; [auto|].
  unfold VerifyChallengeDecode. rewrite Hread, (law_verify_in i inData Hin). split; [done|].
  by exists inData, p, m1.
Qed.

End abi.

(** C39: A call across the memory of the module is a call of its callback. What the
    proxy reads is the callback's output on the input it sent, with a panic turned
    into a 500 and its message and with empty headers dropped, or the callback's
    verdict, a panic being an error; both as far as JSON keeps them, which replaces
    bytes that are not UTF-8. The block of the answer and the block of the input are
    freed, in this order. Only a message without a JSON text and an allocator that
    traps stop a call. *)
Theorem module_calls `{MessageLaws} (malloc : Exported) (free : Memory → N → Memory) (make : MakeCallback)
    (verify : VerifyChallengeInput → option VerifyChallengeOutput) (m : Memory)
    (Hmalloc : ∀ m n p m', malloc m n = (Ok p, m') →
       p + n ≤ N.of_nat (length m') ∧ N.of_nat (length m') < 2 ^ 32) :
  (∀ i, let out := make_output make (kept_make_in i) in
    match MakeChallengeCall malloc free (MakeChallengeDecode malloc make) m i with
    | (Ok res, m') => res = kept_make_out out ∧
        ∃ inData outData p q m1 m2, marshal_make_in i = Ok inData ∧ marshal_make_out out = Ok outData ∧
          allocated malloc m inData p m1 ∧ allocated malloc m1 outData q m2 ∧ m' = free (free m2 q) p
    | (Err e, _) => marshal_make_in i = Err e ∨ marshal_make_out out = Err e ∨ traps malloc e
    end) ∧
  (∀ i, match VerifyChallengeCall malloc free (VerifyChallengeDecode verify) m i with
    | (Ok res, m') => res = default VerifyChallengeOutputError (verify (kept_verify_in i)) ∧
        ∃ inData p m1, marshal_verify_in i = Ok inData ∧ allocated malloc m inData p m1 ∧ m' = free m1 p
    | (Err e, _) => marshal_verify_in i = Err e ∨ traps malloc e
    end).
Proof.
  split; [exact (make_call malloc Hmalloc free make m)|exact (verify_call malloc Hmalloc free verify m)].
Qed.

(** ** A concrete module

    Messages are encoded as any countable value is, and the allocator extends the
    memory. *)
#[local] Instance MakeChallengeInput_eq_dec : EqDecision MakeChallengeInput.
Proof. solve_decision. Defined.
#[local] Instance MakeChallengeOutput_eq_dec : EqDecision MakeChallengeOutput.
Proof. solve_decision. Defined.
#[local] Instance VerifyChallengeInput_eq_dec : EqDecision VerifyChallengeInput.
Proof. solve_decision. Defined.
#[local] Instance MakeChallengeInput_countable : Countable MakeChallengeInput.
Proof.
  refine (inj_countable' (λ i, (mi_Key i, mi_Parameters i, mi_Headers i, mi_Data i))
    (λ '(a, b, c, d), mkMakeInput a b c d) _). by intros [].
Defined.
#[local] Instance MakeChallengeOutput_countable : Countable MakeChallengeOutput.
Proof.
  refine (inj_countable' (λ o, (mo_Data o, mo_Code o, mo_Headers o, mo_Error o))
    (λ '(a, b, c, d), mkMakeOutput a b c d) _). by intros [].
Defined.
#[local] Instance VerifyChallengeInput_countable : Countable VerifyChallengeInput.
Proof.
  refine (inj_countable' (λ i, (vi_Key i, vi_Parameters i, vi_Result i))
    (λ '(a, b, c), mkVerifyInput a b c) _). by intros [].
Defined.

Definition demo_decode {A} `{Countable A} (s : string) : result A :=
  match decode_text s with Some x => Ok x | None => Err (ENew "unexpected end of JSON input") end.

#[export] Instance demo_json : MessageJSON := {
  marshal_make_in i := Ok (encode_text (kept_make_in i)); unmarshal_make_in := demo_decode;
  marshal_make_out o := Ok (encode_text (kept_make_out o)); unmarshal_make_out := demo_decode;
  marshal_verify_in i := Ok (encode_text (kept_verify_in i)); unmarshal_verify_in := demo_decode }.

#[export] Instance demo_json_laws : MessageLaws.
Proof.
  split; intros ? ? [= <-]; [unfold unmarshal_make_in|unfold unmarshal_make_out|unfold unmarshal_verify_in];
    unfold demo_json, demo_decode; by rewrite decode_encode_text.
Defined.

Definition demo_malloc : Exported := λ m n,
  let len := N.of_nat (length m) in
  if (len + n <? 2 ^ 32) then (Ok len, m ++ repeat (byte_of 0) (N.to_nat n)) else (Err (ENew "out of memory"), m).

(** The block and what follows it. *)
Definition demo_free : Memory → N → Memory := λ m p, take (N.to_nat p) m.

(** A callback that answers with its key and one that panics with a byte that is not
    UTF-8. *)
Definition demo_callback : MakeCallback := λ i out,
  (mkMakeOutput (mi_Key i) (mo_Code out) (Some {["Content-Type" := ["text/plain"]]}) "", None).
Definition demo_panic : MakeCallback := λ i out, (out, Some (Some ("bad " +:+ of_bytes [byte_of 255]))).

Lemma demo_malloc_ok m n p m' :
  demo_malloc m n = (Ok p, m') → p + n ≤ N.of_nat (length m') ∧ N.of_nat (length m') < 2 ^ 32.
Proof.
  unfold demo_malloc. case_match eqn:Hl; [|done]. intros [= <- <-].
  apply N.ltb_lt in Hl. rewrite length_app, repeat_length. lia.
Qed.

Lemma module_calls_witness :
  (MakeChallengeCall demo_malloc demo_free (MakeChallengeDecode demo_malloc demo_callback) []
    (mkMakeInput "k" None ∅ "")).1 = Ok (mkMakeOutput "k" 200 (Some {["Content-Type" := ["text/plain"]]}) "").
Proof.
  pose proof (proj1 (module_calls demo_malloc demo_free demo_callback (λ _, None) [] demo_malloc_ok)
    (mkMakeInput "k" None ∅ "")) as Hcall. revert Hcall.
  destruct (MakeChallengeCall _ _ _ _ _) as [[res|e] m'] eqn:Hres; intros Hcall.
  - destruct Hcall as [-> _]. vm_compute. reflexivity.
  - exfalso. revert Hres. vm_compute. discriminate.
Defined.

Example panic_coerced :
  MakeChallengeCall demo_malloc demo_free (MakeChallengeDecode demo_malloc demo_panic) [] (mkMakeInput "k" None ∅ "") =
    (Ok (mkMakeOutput "" 500 None ("bad " +:+ of_bytes (byte_of <$> [0xEF; 0xBF; 0xBD]))), []).
Proof. vm_compute. reflexivity. Qed.

Example coerce1 : coerce_map (λ s, s) {[of_bytes [byte_of 255] := "1"; of_bytes [byte_of 254] := "2"; "a" := "3"]}
  = {[of_bytes (byte_of <$> [0xEF; 0xBF; 0xBD]) := "1"; "a" := "3"]}.
Proof. vm_compute. reflexivity. Qed.
