(* ===== verification/Pow.v ===== *)
(** [embed/challenge/js-pow-sha256/runtime/runtime.go]: the proof of work challenge
    that is compiled to WebAssembly, and the comparison its script makes
    ([static/load.mjs]). *)

From S2P Require Import Prelude GoStrings GoCrypto GoURL Mime Hex Types Wasm.
From Stdlib Require Import ZifyBool ZifyN.
From stdpp Require Import options.

Local Open Scope N_scope.

(** A uint64 as a signed integer of [w] bits, as [int] is on the target. *)
Definition to_int (w : N) (n : N) : Z :=
  let m := n mod 2 ^ w in if m <? 2 ^ (w - 1) then Z.of_N m else (Z.of_N m - 2 ^ Z.of_N w)%Z.

(** The challenge and its difficulty; an error is a panic. *)
Definition getChallenge (key : string) (params : gomap string string) : result (string * N) :=
  (difficulty <-? match default ∅ params !! "difficulty" with
                  | Some diffStr => ParseUint diffStr
                  | None => Ok 20
                  end;
   Ok (sha256 (of_bytes (le_bytes64 difficulty) +:+ key), difficulty))%go.

(** ** Targets *)

(** One iteration of the inner loop, over the byte and the zero bits left. *)
Definition target_bit (s : N * N) : N * N :=
  let v := N.land (N.shiftl s.1 1) 255 in
  if s.2 =? 0 then (N.lor v 1, 0) else (v, s.2 - 1).

Definition target_byte (nBits : N) : N * N := Nat.iter 8 target_bit (0, nBits).

Fixpoint make_target (n : nat) (nBits : N) : list ascii :=
  match n with
  | O => []
  | S n => let '(v, nBits) := target_byte nBits in byte_of v :: make_target n nBits
  end.

(** [inline.Encode] into a buffer of the encoded length. *)
Definition encode_hex (src : list ascii) : option string :=
  match Encode (repeat (byte_of 0) (EncodedLen (length src))) src with
  | Some (dst, n) => Some (of_bytes (take n dst))
  | None => None
  end.

Definition make_data (challenge target : string) (difficulty : N) : string :=
  "{" +:+ dquote +:+ "challenge" +:+ dquote +:+ ": " +:+ dquote +:+ challenge +:+ dquote +:+ ", " +:+
  dquote +:+ "target" +:+ dquote +:+ ": " +:+ dquote +:+ target +:+ dquote +:+ ", " +:+
  dquote +:+ "difficulty" +:+ dquote +:+ ": " +:+ FormatUint difficulty +:+ "}".

(** The callback of [MakeChallenge]. *)
Definition MakeChallenge : MakeCallback := λ i out,
  match getChallenge (mi_Key i) (mi_Parameters i) with
  | Err err => (out, Some (Some (Error err)))
  | Ok (c, difficulty) =>
      match encode_hex (bytes c), encode_hex (make_target (String.length c) difficulty) with
      | Some dst, Some targetDst =>
          let data := make_data dst targetDst difficulty in
          match mo_Headers out with
          | Some headers =>
              (mkMakeOutput data (mo_Code out)
                 (Some (hdr_Set headers "Content-Type" "application/json; charset=utf-8")) (mo_Error out), None)
          | None => (mkMakeOutput data (mo_Code out) None (mo_Error out), Some (Some "assignment to entry in nil map"))
          end
      | _, _ => (out, Some (Some "index out of range"))
      end
  end.

(** ** Verification *)

(** [bits.LeadingZeros8]. *)
Definition LeadingZeros8 (b : ascii) : N := 8 - N.size (byte_val b).

Fixpoint leadingZeroesCount (hash : list ascii) : N :=
  match hash with
  | [] => 0
  | b :: hash => if LeadingZeros8 b <? 8 then LeadingZeros8 b else LeadingZeros8 b + leadingZeroesCount hash
  end.

(** The callback of [VerifyChallenge], where [int] has [w] bits; [None] is a panic. *)
Definition VerifyChallenge (w : N) (i : VerifyChallengeInput) : option VerifyChallengeOutput :=
  match getChallenge (vi_Key i) (vi_Parameters i) with
  | Err _ => None
  | Ok (c, difficulty) =>
      let src := bytes (vi_Result i) in
      match Decode (repeat (byte_of 0) (DecodedLen (length src))) src with
      | None => None
      | Some (_, _, Some err) => Some VerifyChallengeOutputError
      | Some (dst, n, None) =>
          let result := take n dst in
          if (length result <? 8)%nat then Some VerifyChallengeOutputError
          else if negb (bool_decide (of_bytes (take (length result - 8) result) = c))
          then Some VerifyChallengeOutputFailed
          else if (Z.of_N (leadingZeroesCount (bytes (sha256 (of_bytes result)))) <? to_int w difficulty)%Z
          then Some VerifyChallengeOutputFailed
          else Some VerifyChallengeOutputOK
      end
  end.

(** ** The script *)

(** [lessThan] of the script, over equally long byte arrays. *)
Fixpoint lessThan (buf target : list ascii) : bool :=
  match buf, target with
  | b :: buf, t :: target =>
      if byte_val b <? byte_val t then true
      else if byte_val t <? byte_val b then false
      else lessThan buf target
  | _, _ => false
  end.

(** * Numbers of bytes *)

(** The number big-endian bytes stand for. *)
Fixpoint be_value (l : list ascii) : N :=
  match l with [] => 0 | b :: l => byte_val b * 2 ^ (8 * N.of_nat (length l)) + be_value l end.

Lemma be_value_bound l : be_value l < 2 ^ (8 * N.of_nat (length l)).
Proof.
  induction l as [|b l IH]; [done|]. cbn [be_value length]. pose proof (byte_val_bound b).
  replace (8 * N.of_nat (S (length l))) with (8 + 8 * N.of_nat (length l)) by lia.
  rewrite N.pow_add_r. change (2 ^ 8) with 256. nia.
Qed.

Lemma lessThan_value a b : length a = length b → lessThan a b = (be_value a <? be_value b).
Proof.
  revert b. induction a as [|x a IH]; intros [|y b]; try done. cbn [lessThan be_value length].
  intros [= Hl]. rewrite <-Hl, IH by done. pose proof (be_value_bound a). pose proof (be_value_bound b) as Hb.
  rewrite <-Hl in Hb. set (P := 2 ^ _) in *.
  destruct (byte_val x <? byte_val y) eqn:H1; [symmetry; apply N.ltb_lt; nia|].
  destruct (byte_val y <? byte_val x) eqn:H2; [symmetry; apply N.ltb_ge; nia|].
  assert (byte_val x = byte_val y) as -> by lia.
  destruct (be_value a <? be_value b) eqn:H3; symmetry; [apply N.ltb_lt|apply N.ltb_ge]; nia.
Qed.

Lemma LeadingZeros8_bounds : ∀ b, (LeadingZeros8 b <=? 8) && (byte_val b <? 2 ^ (8 - LeadingZeros8 b)) &&
  ((LeadingZeros8 b =? 8) && (byte_val b =? 0) || (LeadingZeros8 b <? 8) && (2 ^ (7 - LeadingZeros8 b) <=? byte_val b)) = true.
Proof. by_all_bytes. Qed.

(** Leading zero bits bound the number. *)
Lemma leadingZeroesCount_value l d :
  d <= 8 * N.of_nat (length l) →
  d <= leadingZeroesCount l ↔ be_value l < 2 ^ (8 * N.of_nat (length l) - d).
Proof.
  revert d. induction l as [|b l IH]; intros d Hd.
  { cbn in *. assert (d = 0) as -> by lia. done. }
  cbn [leadingZeroesCount be_value length] in *. pose proof (be_value_bound l) as Hl.
  pose proof (LeadingZeros8_bounds b) as Hb. set (z := LeadingZeros8 b) in *.
  set (n := N.of_nat (length l)) in *. replace (N.of_nat (S (length l))) with (n + 1) in * by lia.
  apply andb_true_iff in Hb as [[Hz Hlt]%andb_true_iff [[H8 H0]%andb_true_iff|[H8 Hge]%andb_true_iff]%orb_true_iff].
  - apply N.eqb_eq in H0. rewrite H0, N.mul_0_l, N.add_0_l. replace (z <? 8) with false by lia.
    destruct (N.le_gt_cases d 8) as [Hle|Hgt].
    + split; [intros _|lia]. eapply N.lt_le_trans; [done|]. apply N.pow_le_mono_r; lia.
    + rewrite (N.add_comm z). replace (8 * (n + 1) - d) with (8 * n - (d - 8)) by lia.
      rewrite <-IH by lia. lia.
  - rewrite H8. assert (Hp : 0 < 2 ^ (8 * n)) by (apply N.neq_0_lt_0, N.pow_nonzero; done).
    split; intros Hz'.
    + assert (byte_val b + 1 <= 2 ^ (8 - d)) as Hb.
      { apply N.ltb_lt in Hlt. assert (2 ^ (8 - z) <= 2 ^ (8 - d)) by (apply N.pow_le_mono_r; lia). lia. }
      replace (8 * (n + 1) - d) with ((8 - d) + 8 * n) by lia. rewrite N.pow_add_r. nia.
    + destruct (N.le_gt_cases d z) as [|Hgt]; [done|]. exfalso. apply N.leb_le in Hge.
      destruct (N.le_gt_cases d 8) as [Hd8|Hd8].
      * assert (2 ^ (8 - d) <= byte_val b).
        { etrans; [|exact Hge]. apply N.pow_le_mono_r; lia. }
        replace (8 * (n + 1) - d) with ((8 - d) + 8 * n) in Hz' by lia. rewrite N.pow_add_r in Hz'. nia.
      * assert (2 ^ (8 * (n + 1) - d) <= 2 ^ (8 * n)) by (apply N.pow_le_mono_r; lia).
        assert (1 <= byte_val b); [|nia]. etrans; [|exact Hge]. change 1 with (2 ^ 0). apply N.pow_le_mono_r; lia.
Qed.

(** ** Targets *)

Lemma target_bit_more v n : 0 < n → target_bit (v, n) = (N.land (N.shiftl v 1) 255, n - 1).
Proof. intros Hn. unfold target_bit. cbn [fst snd]. by rewrite (proj2 (N.eqb_neq n 0)) by lia. Qed.

Lemma target_byte_full d : 8 <= d → target_byte d = (0, d - 8).
Proof.
  intros Hd. unfold target_byte, Nat.iter, nat_rect.
  do 8 (rewrite target_bit_more by lia). f_equal. lia.
Qed.

Lemma target_byte_part d : d < 8 → target_byte d = (2 ^ (8 - d) - 1, 0).
Proof.
  intros Hd. assert (d = 0 ∨ d = 1 ∨ d = 2 ∨ d = 3 ∨ d = 4 ∨ d = 5 ∨ d = 6 ∨ d = 7) as Hin by lia.
  by destruct_or! Hin; subst.
Qed.

Lemma length_make_target n d : length (make_target n d) = n.
Proof.
  revert d. induction n as [|n IH]; intros d; [done|]. cbn [make_target].
  destruct (target_byte d) as [v d']. cbn [length]. by rewrite IH.
Qed.

Lemma byte_val_small n : n < 256 → byte_val (byte_of n) = n.
Proof. intros Hn. rewrite byte_val_of. by apply N.mod_small. Qed.

(** A target is the greatest number with so many leading zero bits. *)
Lemma make_target_value n d : be_value (make_target n d) + 1 = 2 ^ (8 * N.of_nat n - d).
Proof.
  revert d. induction n as [|n IH]; intros d; [done|]. cbn [make_target].
  destruct (N.le_gt_cases 8 d) as [Hd|Hd].
  - rewrite target_byte_full by done. cbn [be_value]. rewrite byte_val_small by done.
    replace (8 * N.of_nat (S n) - d) with (8 * N.of_nat n - (d - 8)) by lia. rewrite <-IH. lia.
  - rewrite target_byte_part by done. cbn [be_value]. rewrite length_make_target.
    assert (2 ^ (8 - d) <= 2 ^ 8) as Hp by (apply N.pow_le_mono_r; lia). change (2 ^ 8) with 256 in Hp.
    assert (0 < 2 ^ (8 - d)) by (apply N.neq_0_lt_0, N.pow_nonzero; done).
    rewrite byte_val_small by lia. pose proof (IH 0) as H0. rewrite N.sub_0_r in H0.
    replace (8 * N.of_nat (S n) - d) with ((8 - d) + 8 * N.of_nat n) by lia. rewrite N.pow_add_r. nia.
Qed.

(** ** Verification *)

Lemma to_int_small w d : d < 2 ^ (w - 1) → 1 <= w → to_int w d = Z.of_N d.
Proof.
  intros Hd Hw. unfold to_int. assert (2 ^ w = 2 * 2 ^ (w - 1)) as H2.
  { rewrite <-N.pow_succ_r'. f_equal. lia. }
  rewrite N.mod_small by lia. by rewrite (proj2 (N.ltb_lt _ _) Hd).
Qed.

(** Decoding into a fresh buffer of the decoded length. *)
Lemma Decode_fresh src :
  let '(bs, e) := hex_dec src in
  ∃ dst, Decode (repeat (byte_of 0) (DecodedLen (length src))) src = Some (dst, length bs, e) ∧
    take (length bs) dst = bs.
Proof.
  pose proof (decode_loop_spec _ src [] (repeat (byte_of 0) (DecodedLen (length src))) 0 (Nat.le_refl _) eq_refl) as Hdec.
  destruct (hex_dec src) as [bs e]. simpl in Hdec. unfold Decode. rewrite Hdec by (rewrite repeat_length; lia).
  eexists. split; [reflexivity|]. by rewrite take_app_length.
Qed.

Lemma VerifyChallenge_eq w i c difficulty :
  getChallenge (vi_Key i) (vi_Parameters i) = Ok (c, difficulty) →
  VerifyChallenge w i = Some
    match DecodeString (vi_Result i) with
    | Err _ => VerifyChallengeOutputError
    | Ok result =>
        let l := bytes result in
        if (length l <? 8)%nat then VerifyChallengeOutputError
        else if negb (bool_decide (of_bytes (take (length l - 8) l) = c)) then VerifyChallengeOutputFailed
        else if (Z.of_N (leadingZeroesCount (bytes (sha256 result))) <? to_int w difficulty)%Z
        then VerifyChallengeOutputFailed else VerifyChallengeOutputOK
    end.
Proof.
  intros Hg. unfold VerifyChallenge, DecodeString. rewrite Hg.
  pose proof (Decode_fresh (bytes (vi_Result i))) as Hd. destruct (hex_dec _) as [bs e].
  destruct Hd as (dst & -> & Ht). destruct e as [e|]; [done|]. rewrite Ht, bytes_of_bytes. by repeat case_match.
Qed.

Lemma VerifyChallenge_iff (w : N) (i : VerifyChallengeInput) (c : string) (difficulty : N)
    (Hg : getChallenge (vi_Key i) (vi_Parameters i) = Ok (c, difficulty))
    (Hd : difficulty <= 256) (Hw : 16 <= w) :
  VerifyChallenge w i = Some VerifyChallengeOutputOK ↔
  ∃ nonce, String.length nonce = 8%nat ∧ DecodeString (vi_Result i) = Ok (c +:+ nonce) ∧
    be_value (bytes (sha256 (c +:+ nonce))) < 2 ^ (256 - difficulty).
Proof.
  rewrite (VerifyChallenge_eq w i c difficulty Hg).
  assert (Hint : to_int w difficulty = Z.of_N difficulty).
  { apply to_int_small; [|lia]. eapply N.le_lt_trans; [done|]. change 256 with (2 ^ 8). apply N.pow_lt_mono_r; lia. }
  assert (Hz : ∀ m, be_value (bytes (sha256 m)) < 2 ^ (256 - difficulty) ↔
    (Z.of_N (leadingZeroesCount (bytes (sha256 m))) <? to_int w difficulty)%Z = false).
  { intros m. pose proof (leadingZeroesCount_value (bytes (sha256 m)) difficulty) as Hl.
    rewrite length_bytes, length_sha256 in Hl. change (8 * N.of_nat sha256_Size) with 256 in Hl.
    rewrite <-Hl by done. rewrite Hint. lia. }
  split.
  - intros [= Hv]. destruct (DecodeString (vi_Result i)) as [res|] eqn:Hr; [|done]. cbv zeta in Hv.
    destruct (_ <? 8)%nat eqn:Hlen in Hv; [done|]. apply Nat.ltb_ge in Hlen.
    case_bool_decide as Hc; [|done]. cbn [negb] in Hv. rewrite length_bytes in *.
    exists (of_bytes (drop (String.length res - 8) (bytes res))).
    assert (res = c +:+ of_bytes (drop (String.length res - 8) (bytes res))) as Heq.
    { apply bytes_inj. rewrite <-Hc, bytes_app, !bytes_of_bytes. by rewrite take_drop. }
    rewrite <-Heq. split; [rewrite length_of_bytes, length_drop, length_bytes; lia|]. split; [done|].
    apply Hz. by destruct (_ <? _)%Z in Hv |- *.
  - intros (nonce & Hn & -> & Hlt). apply Hz in Hlt. cbv zeta.
    rewrite length_bytes, string_length_app, Hn, bytes_app.
    replace (String.length c + 8 <? 8)%nat with false by lia.
    rewrite take_app_length' by (rewrite length_bytes; lia). rewrite of_bytes_bytes.
    rewrite bool_decide_true by done. cbn [negb]. by rewrite Hlt.
Qed.

Lemma encode_hex_eq src : encode_hex src = Some (EncodeToString (of_bytes src)).
Proof.
  unfold encode_hex, EncodeToString, Encode.
  pose proof (encode_loop_spec src [] (repeat (byte_of 0) (EncodedLen (length src))) 0 eq_refl) as He. simpl in He.
  rewrite He by (rewrite repeat_length; lia). cbn [mbind option_bind].
  by rewrite take_app_length', bytes_of_bytes by (symmetry; apply length_hex_enc).
Qed.

(** * Properties *)

(** C11: The server accepts a proof of work exactly when it is, in hexadecimal, the
    challenge of its key followed by eight bytes of nonce, and the SHA-256 of these
    is a number of at least the difficulty's leading zero bits. *)
Theorem VerifyChallenge_spec (w : N) (i : VerifyChallengeInput) (c : string) (difficulty : N)
    (Hg : getChallenge (vi_Key i) (vi_Parameters i) = Ok (c, difficulty))
    (Hd : difficulty <= 256) (Hw : 16 <= w) :
  VerifyChallenge w i = Some VerifyChallengeOutputOK ↔
  ∃ nonce, String.length nonce = 8%nat ∧ DecodeString (vi_Result i) = Ok (c +:+ nonce) ∧
    be_value (bytes (sha256 (c +:+ nonce))) < 2 ^ (256 - difficulty).
Proof. by apply VerifyChallenge_iff. Qed.

(** The challenge of a key at difficulty 1, and a nonce that solves it. *)
Definition demo_params : gomap string string := Some {["difficulty" := "1"]}.
Definition demo_pow : string := sha256 (of_bytes (le_bytes64 1) +:+ "key").
Definition demo_nonce : string := of_bytes (byte_of <$> [0; 0; 0; 0; 0; 0; 0; 2]).

Lemma VerifyChallenge_spec_witness :
  VerifyChallenge 32 (mkVerifyInput "key" demo_params (EncodeToString (demo_pow +:+ demo_nonce)))
    = Some VerifyChallengeOutputOK.
Proof.
  apply (VerifyChallenge_spec 32 _ demo_pow 1); [vm_compute; reflexivity|lia|lia|].
  exists demo_nonce. split; [reflexivity|]. split; vm_compute; reflexivity.
Defined.

(** C38: What the script finds the server accepts: for the challenge and the target that
    [MakeChallenge] answers with, a nonce whose hash the script's comparison puts
    below the target gives, sent back with the challenge, a proof that
    [VerifyChallenge] accepts for the same key and settings. *)
Theorem script_proof_accepted (w : N) (i : MakeChallengeInput) (data : string) (code : Z) (headers : MIMEHeader)
    (err : string) (c : string) (difficulty : N) (Hg : getChallenge (mi_Key i) (mi_Parameters i) = Ok (c, difficulty))
    (Hd : difficulty <= 256) (Hw : 16 <= w) :
  let target := of_bytes (make_target 32 difficulty) in
  ∃ out', MakeChallenge i (mkMakeOutput data code (Some headers) err) = (out', None) ∧
    mo_Data out' = make_data (EncodeToString c) (EncodeToString target) difficulty ∧
    ∀ nonce, String.length nonce = 8%nat →
      lessThan (bytes (sha256 (c +:+ nonce))) (bytes target) = true →
      VerifyChallenge w (mkVerifyInput (mi_Key i) (mi_Parameters i) (EncodeToString (c +:+ nonce)))
        = Some VerifyChallengeOutputOK.
Proof.
  assert (String.length c = 32%nat) as Hc.
  { revert Hg. unfold getChallenge. destruct (match _ with Some _ => _ | None => _ end); [|done].
    cbn. intros [= <- _]. apply length_sha256. }
  cbv zeta. unfold MakeChallenge. rewrite Hg, !encode_hex_eq, Hc, of_bytes_bytes.
  eexists. split; [reflexivity|]. split; [reflexivity|]. intros nonce Hn Hlt.
  apply (VerifyChallenge_iff w (mkVerifyInput (mi_Key i) (mi_Parameters i) (EncodeToString (c +:+ nonce))) c
    difficulty Hg Hd Hw). exists nonce. split; [done|].
  split; [apply DecodeString_EncodeToString|].
  rewrite bytes_of_bytes, lessThan_value in Hlt.
  - apply N.ltb_lt in Hlt. pose proof (make_target_value 32 difficulty) as Ht.
    change (8 * N.of_nat 32) with 256 in Ht. lia.
  - by rewrite length_make_target, length_bytes, length_sha256.
Qed.

Lemma script_proof_accepted_witness :
  VerifyChallenge 32 (mkVerifyInput "key" demo_params (EncodeToString (demo_pow +:+ demo_nonce)))
    = Some VerifyChallengeOutputOK.
Proof.
  destruct (script_proof_accepted 32 (mkMakeInput "key" demo_params ∅ "") "" 200 ∅ "" demo_pow 1)
    as (out' & _ & _ & Hall); [vm_compute; reflexivity|lia|lia|].
  apply Hall; vm_compute; reflexivity.
Defined.

(** The difficulty is compared as a signed integer: from half the range of the
    target's integers on it is negative, and every nonce is a proof. *)
Theorem difficulty_wraps (key nonce : string) (Hn : String.length nonce = 8%nat) :
  let params : gomap string string := Some {["difficulty" := "9223372036854775808"]} in
  let c := sha256 (of_bytes (le_bytes64 (2 ^ 63)) +:+ key) in
  VerifyChallenge 64 (mkVerifyInput key params (EncodeToString (c +:+ nonce))) = Some VerifyChallengeOutputOK.
Proof.
  intros params c. rewrite (VerifyChallenge_eq 64 _ c (2 ^ 63)).
  2:{ unfold getChallenge. cbn [vi_Key vi_Parameters]. subst params c.
      change (default ∅ (Some {["difficulty" := "9223372036854775808"]}) !! "difficulty")
        with (Some "9223372036854775808"). reflexivity. }
  cbn [vi_Result]. rewrite DecodeString_EncodeToString. cbv zeta.
  rewrite length_bytes, string_length_app, Hn, bytes_app.
  replace (String.length c + 8 <? 8)%nat with false by lia.
  rewrite take_app_length' by (rewrite length_bytes; lia). rewrite of_bytes_bytes.
  rewrite bool_decide_true by done. cbn [negb].
  replace (_ <? _)%Z with false; [done|]. symmetry. apply Z.ltb_ge. transitivity 0%Z; [|lia].
  vm_compute. discriminate.
Qed.

Lemma difficulty_wraps_witness :
  VerifyChallenge 64 (mkVerifyInput "key" (Some {["difficulty" := "9223372036854775808"]})
    (EncodeToString (sha256 (of_bytes (le_bytes64 (2 ^ 63)) +:+ "key") +:+ "any text")))
    = Some VerifyChallengeOutputOK.
Proof. apply (difficulty_wraps "key" "any text"). reflexivity. Defined.
