(* ===== verification/Networks.v ===== *)
(** [lib/policy/network.go] and the loading of networks in [lib/state.go]: address
    lists from prefixes, services, files and whois answers, their cache, and the set
    of addresses a network stands for. *)

From S2P Require Import Prelude GoStrings GoCrypto GoTime Hex NetAddr GoURL Mime Types GoNetip GoNet NetipText.
From S2P Require Import GoPath GoJSON GoJSONValue Cache Radb.
From stdpp Require Import options.

Local Open Scope go_scope.

Record Network := mkNetwork {
  net_Url : option string; net_File : option string; net_ASN : option Z;
  net_JqPath : option string; net_Regex : option string; net_Prefixes : list string }.

(** The libraries and the I/O the loading uses, at the time of a call: an HTTP GET (the
    status and the body), opening and reading a file, the whois server, a jq program
    over a value (each result a string or something else), and a regular expression:
    the texts its group [prefix] matches, if it has that group. *)
Record NetLibs := mkNetLibs {
  lib_Get : string → result (Z * result string);
  lib_Open : string → result (result string);
  lib_whois : Whois;
  lib_number : string → bool;
  lib_jq : string → result (JSON → list (option string));
  lib_regexp : string → result (option (string → list string)) }.

(** [parseCIDROrIP]. *)
Definition parseCIDROrIP (value : string) : result IPNet :=
  match ParseCIDR value with
  | Ok ipNet => Ok ipNet
  | Err e =>
      match ParseIP value with
      | None => Err (ENew ("failed to parse CIDR: " +:+ Error e))
      | Some ip =>
          match IP_To4 ip with
          | Some ip4 => Ok (mkIPNet (Addr4 ip4) 32 32)
          | None => Ok (mkIPNet ip 128 128)
          end
      end
  end.

Fixpoint parse_all (l : list string) : result (list IPNet) :=
  match l with
  | [] => Ok []
  | s :: l => (n <-? parseCIDROrIP s; ns <-? parse_all l; Ok (n :: ns))
  end.

(** The results of a jq program must be strings. *)
Fixpoint parse_jq (l : list (option string)) : result (list IPNet) :=
  match l with
  | [] => Ok []
  | None :: _ => Err (ENew "invalid value from jq-query")
  | Some s :: l => (n <-? parseCIDROrIP s; ns <-? parse_jq l; Ok (n :: ns))
  end.

(** Every number of a value has a float. *)
Fixpoint numbers_ok (number : string → bool) (v : JSON) : bool :=
  match v with
  | JNumber s => number s
  | JArray l => forallb (numbers_ok number) l
  | JObject l => forallb (λ kv, numbers_ok number kv.2) l
  | _ => true
  end.

(** The part of [FetchPrefixes] after a source was opened: [output] are the prefixes
    of the list itself. *)
Definition read_prefixes (lib : NetLibs) (n : Network) (output : list IPNet) (reader : result string) : result (list IPNet) :=
  data <-? reader;
  match net_JqPath n, net_Regex n with
  | Some path, _ =>
      match parse_json data with
      | None => Err (ENew "invalid JSON")
      | Some v =>
          if negb (numbers_ok (lib_number lib) v) then Err (ENew "number out of range")
          else
            query <-? lib_jq lib path;
            ns <-? parse_jq (query v);
            Ok (output ++ ns)
      end
  | None, Some regex =>
      expr <-? lib_regexp lib regex;
      match expr with
      | None => Err (ENew "could not find prefix named match")
      | Some matches => ns <-? parse_all (matches data); Ok (output ++ ns)
      end
  | None, None => Err (ENew "no jq-path or regex specified")
  end.

(** [FetchPrefixes]. *)
Definition FetchPrefixes (lib : NetLibs) (n : Network) : result (list IPNet) :=
  output <-? parse_all (net_Prefixes n);
  match net_Url n, net_File n, net_ASN n with
  | Some url, _, _ =>
      response <-? lib_Get lib url;
      if negb (response.1 =? 200)%Z then Err (ENew ("unexpected status code: " +:+ FormatInt response.1))
      else read_prefixes lib n output response.2
  | None, Some file, _ => reader <-? lib_Open lib file; read_prefixes lib n output reader
  | None, None, Some asn =>
      match FetchASNets (lib_whois lib) asn with
      | Ok result => Ok result
      | Err e => Err (ENew ("failed to fetch ASN " +:+ FormatInt asn +:+ ": " +:+ Error e))
      end
  | None, None, None =>
      if (0 <? length output)%nat then Ok output else Err (ENew "no url, file or prefixes specified")
  end.

(** * Loading ([lib/state.go]) *)

Definition Day : Duration := (Hour * 24)%Z.

(** Whether a list is cached, and the key of its cache entry. *)
Definition cacheKey (k : string) (i : nat) (e : Network) : bool * string :=
  let key := k +:+ "-" +:+ FormatUint (N.of_nat i) +:+ "-" in
  match net_Url e, net_ASN e with
  | Some url, _ => (true, key +:+ EncodeToString (substring_to 4 (sha256 url)))
  | None, Some asn => (true, key +:+ FormatInt asn)
  | None, None => (false, key)
  end.

(** The networks of a cache entry: what does not parse is left out. *)
Definition cached_prefixes (cachedData : string) : list IPNet :=
  omap (λ s, match ParseCIDR s with Ok n => Some n | Err _ => None end) (Unmarshal_strings cachedData).

(** The closure that loads the [i]-th list of network [k]: its prefixes, the error,
    and the disk afterwards. *)
Definition load_list (lib : NetLibs) (os : OS) (networkCache : option Cache) (k : string) (i : nat) (e : Network)
    (disk : Disk) : list IPNet * option goerr * Disk :=
  let '(useCache, key) := cacheKey k i e in
  let '(cached, fresh) :=
    match networkCache with
    | Some c => if useCache then
                  let '(cachedData, err) := cache_Get c key Day os disk in
                  (cached_prefixes cachedData, bool_decide (err = None))
                else ([], false)
    | None => ([], false)
    end in
  if fresh then (cached, None, disk)
  else
    match FetchPrefixes lib e with
    | Err err => if (0 <? length cached)%nat then (cached, Some err, disk) else ([], Some err, disk)
    | Ok prefixes =>
        let disk := match networkCache with
                    | Some c => if useCache then (cache_Set c key (Marshal_strings (IPNet_String <$> prefixes)) os disk).2
                                else disk
                    | None => disk
                    end in
        (prefixes, None, disk)
    end.

(** ** Rangers

    [cidranger], a library: sets of networks. *)
Class Cidranger := {
  Ranger : Type;
  NewPCTrieRanger : Ranger;
  Ranger_Insert : Ranger → IPNet → result Ranger;
  Ranger_Contains : Ranger → Addr → result bool }.

(** A network whose mask is as long as its address, IPv4 in 4 bytes. *)
Definition regular (n : IPNet) : Prop :=
  match n_IP n with
  | AddrZero => False
  | Addr4 _ => n_Bits n = 32%N
  | Addr6 v _ => n_Bits n = 128%N ∧ N.shiftr v 32 ≠ 0xffff%N
  end.

(** It holds the regular networks inserted into it. *)
Class CidrangerLaws `{Cidranger} := {
  holds : Ranger → list IPNet → Prop;
  law_new : holds NewPCTrieRanger [];
  law_insert r l n : holds r l → regular n → ∃ r', Ranger_Insert r n = Ok r' ∧ holds r' (l ++ [n]);
  law_contains r l ip : holds r l → ip ≠ AddrZero → Ranger_Contains r ip = Ok (existsb (λ n, Contains n ip) l) }.

Section load.
  Context `{Cidranger} (lib : NetLibs) (os : OS) (networkCache : option Cache) (k : string).

(** A prefix that cannot be inserted is reported and left out. *)
Definition insert_all (ranger : Ranger) (prefixes : list IPNet) : Ranger :=
  foldl (λ r p, match Ranger_Insert r p with Ok r => r | Err _ => r end) ranger prefixes.

(** The function of a network: its lists in order, those that fail left out. *)
Fixpoint load_lists (i : nat) (network : list Network) (ranger : Ranger) (disk : Disk) : Ranger * Disk :=
  match network with
  | [] => (ranger, disk)
  | e :: network =>
      let '(prefixes, err, disk) := load_list lib os networkCache k i e disk in
      match err with
      | Some _ => load_lists (S i) network ranger disk
      | None => load_lists (S i) network (insert_all ranger prefixes) disk
      end
  end.

Definition load_network (network : list Network) (disk : Disk) : Ranger * Disk :=
  load_lists 0 network NewPCTrieRanger disk.

End load.

(** * What a network stands for

    The prefixes of the lists that load, in order. *)
Fixpoint loaded (lib : NetLibs) (os : OS) (networkCache : option Cache) (k : string) (i : nat) (network : list Network)
    (disk : Disk) : list IPNet :=
  match network with
  | [] => []
  | e :: network =>
      let '(prefixes, err, disk) := load_list lib os networkCache k i e disk in
      (match err with None => prefixes | Some _ => [] end) ++ loaded lib os networkCache k (S i) network disk
  end.

Section facts.
  Context `{CidrangerLaws}.
  Set Default Proof Using "Type*".

Lemma insert_all_holds l ns r :
  Forall regular ns → holds r l → holds (insert_all r ns) (l ++ ns).
Proof.
  intros Hns. revert l r. induction Hns as [|n ns Hn _ IH]; intros l r Hr; [by rewrite app_nil_r|].
  destruct (law_insert r l n Hr Hn) as (r' & Hi & Hr'). cbn [insert_all foldl]. rewrite Hi.
  rewrite cons_middle, app_assoc. by apply IH.
Qed.

Lemma load_lists_holds lib os networkCache k network i l r disk :
  Forall regular (loaded lib os networkCache k i network disk) → holds r l →
  holds (load_lists lib os networkCache k i network r disk).1 (l ++ loaded lib os networkCache k i network disk).
Proof.
  revert i l r disk. induction network as [|e network IH]; intros i l r disk Hreg Hr; cbn [load_lists loaded] in *.
  { by rewrite app_nil_r. }
  destruct (load_list lib os networkCache k i e disk) as [[prefixes err] disk'].
  apply Forall_app in Hreg as [Hp Hreg]. destruct err as [err|]; [by apply IH|].
  rewrite app_assoc. apply IH; [done|]. by apply insert_all_holds.
Qed.

End facts.

(** A network stands for the union of its lists: the ranger it is loaded into contains
    an address exactly when a prefix of a list that could be loaded does; a list that
    fails only loses its own prefixes. *)
Lemma load_network_holds `{CidrangerLaws} lib os networkCache k network disk ip :
  Forall regular (loaded lib os networkCache k 0 network disk) → ip ≠ AddrZero →
  Ranger_Contains (load_network lib os networkCache k network disk).1 ip =
    Ok (existsb (λ n, Contains n ip) (loaded lib os networkCache k 0 network disk)).
Proof. intros Hreg Hip. apply law_contains; [|done]. apply (load_lists_holds lib os networkCache k network 0 [] _ disk Hreg law_new). Qed.

(** ** The cache of a list *)

Section cache.
  Context (lib : NetLibs) (os : OS) (c : Cache) (k : string) (i : nat) (e : Network) (disk : Disk).

(** A fresh entry is used as it is, whatever it holds. *)
Lemma load_list_fresh key data :
  cacheKey k i e = (true, key) → cache_Get c key Day os disk = (data, None) →
  load_list lib os (Some c) k i e disk = (cached_prefixes data, None, disk).
Proof. intros Hk Hg. unfold load_list. by rewrite Hk, Hg. Qed.

(** Otherwise the list is fetched, and stored when that succeeds. *)
Lemma load_list_fetch key data err :
  cacheKey k i e = (true, key) → cache_Get c key Day os disk = (data, Some err) →
  match FetchPrefixes lib e with
  | Ok ns => load_list lib os (Some c) k i e disk =
      (ns, None, (cache_Set c key (Marshal_strings (IPNet_String <$> ns)) os disk).2)
  | Err err' => ∃ ns, load_list lib os (Some c) k i e disk = (ns, Some err', disk)
  end.
Proof.
  intros Hk Hg. unfold load_list. rewrite Hk, Hg. rewrite bool_decide_false by done.
  destruct (FetchPrefixes lib e); [done|]. destruct (0 <? length _)%nat; eauto.
Qed.

End cache.

(** A text that is not JSON is no network at all. *)
Lemma cached_prefixes_invalid data : parse_json data = None → cached_prefixes data = [].
Proof. intros Hd. unfold cached_prefixes, Unmarshal_strings. by rewrite Hd. Qed.

(** ** What is stored is read back *)

Lemma parseCIDROrIP_masked s n : parseCIDROrIP s = Ok n → masked n.
Proof.
  unfold parseCIDROrIP. destruct (ParseCIDR s) eqn:Hc; [intros [= <-]; by apply (ParseCIDR_masked s)|].
  destruct (ParseIP s) as [ip|] eqn:Hip; [|done].
  assert (Hv : ∃ v, ip = Addr6 v "" ∧ (v < 2 ^ 128)%N).
  { unfold ParseIP in Hip. destruct (ParseAddr s) as [[|v|v z]|] eqn:Ha; try done; apply ParseAddr_ok in Ha as [Hok _]; cbn in Hok.
    - injection Hip as <-. eexists. split; [done|]. change (N.shiftl 65535 32) with (2 ^ 48 - 2 ^ 32)%N. lia.
    - destruct z; [|done]. injection Hip as <-. eauto. }
  destruct Hv as (v & -> & Hv). destruct (IP_To4 _) as [w|] eqn:Hw; intros [= <-].
  - exists (Addr4 w). cbn. split; [|by rewrite N.shiftl_0_r]. unfold IP_To4, Addr_Unmap in Hw.
    destruct (_ =? _)%N; [|done]. injection Hw as <-. change (2 ^ 32 - 1)%N with (N.ones 32). rewrite N.land_ones. by apply N.mod_lt.
  - exists (Addr6 v ""). cbn. by rewrite N.shiftl_0_r.
Qed.

Lemma parse_all_masked l ns : parse_all l = Ok ns → Forall masked ns.
Proof.
  revert ns. induction l as [|s l IH]; intros ns; cbn; [by intros [= <-]|].
  destruct (parseCIDROrIP s) eqn:Hs; [|done]. cbn. destruct (parse_all l); [|done]. intros [= <-].
  constructor; [by apply (parseCIDROrIP_masked s)|by apply IH].
Qed.

Lemma parse_jq_masked l ns : parse_jq l = Ok ns → Forall masked ns.
Proof.
  revert ns. induction l as [|[s|] l IH]; intros ns; cbn; [by intros [= <-]| |done].
  destruct (parseCIDROrIP s) eqn:Hs; [|done]. cbn. destruct (parse_jq l); [|done]. intros [= <-].
  constructor; [by apply (parseCIDROrIP_masked s)|by apply IH].
Qed.

Lemma parse_routes_masked l ns : parse_routes l = Ok ns → Forall masked ns.
Proof.
  revert ns. induction l as [|s l IH]; intros ns; cbn; [by intros [= <-]|].
  destruct (ParseCIDR s) eqn:Hs; [|done]. cbn. destruct (parse_routes l); [|done]. intros [= <-].
  constructor; [by apply (ParseCIDR_masked s)|by apply IH].
Qed.

Lemma read_prefixes_masked lib e output reader ns :
  Forall masked output → read_prefixes lib e output reader = Ok ns → Forall masked ns.
Proof.
  intros Ho. unfold read_prefixes. destruct reader as [data|]; [|done]. cbn.
  destruct (net_JqPath e) as [path|]; [|destruct (net_Regex e) as [regex|]; [|done]].
  - destruct (parse_json data); [|done]. destruct (numbers_ok _ _); [|done]. cbn.
    destruct (lib_jq lib path); [|done]. cbn. destruct (parse_jq _) eqn:Hp; [|done]. cbn. intros [= <-].
    apply Forall_app. split; [done|]. by eapply parse_jq_masked.
  - destruct (lib_regexp lib regex) as [[matches|]|]; try done. cbn. destruct (parse_all _) eqn:Hp; [|done]. cbn. intros [= <-].
    apply Forall_app. split; [done|]. by eapply parse_all_masked.
Qed.

(** Every prefix that is fetched has its host bits cleared. *)
Lemma FetchPrefixes_masked lib e ns : FetchPrefixes lib e = Ok ns → Forall masked ns.
Proof.
  unfold FetchPrefixes. destruct (parse_all (net_Prefixes e)) as [output|] eqn:Ho; [|done]. apply parse_all_masked in Ho. cbn.
  destruct (net_Url e) as [url|]; [|destruct (net_File e) as [file|]; [|destruct (net_ASN e) as [asn|]]].
  - destruct (lib_Get lib url) as [[status body]|]; [|done]. cbn. destruct (status =? 200)%Z; [|done]. cbn.
    by apply read_prefixes_masked.
  - destruct (lib_Open lib file); [|done]. cbn. by apply read_prefixes_masked.
  - unfold FetchASNets. destruct (query _ _ _ _); [|done]. cbn. destruct (parse_routes _) eqn:Hp; [|done]. intros [= <-].
    by eapply parse_routes_masked.
  - destruct output as [|x output]; [done|]. cbn. by intros [= <-].
Qed.

Lemma regular_unmapped n v z : regular n → n_IP n = Addr6 v z → N.shiftr v 32 ≠ 0xffff%N.
Proof. unfold regular. intros Hn Hip. rewrite Hip in Hn. by destruct Hn. Qed.

Lemma text_char_plain c : text_char c = true → plain c = true.
Proof.
  revert c. assert (Hall : ∀ c, implb (text_char c) (plain c) = true) by by_all_bytes.
  intros c Hc. specialize (Hall c). by rewrite Hc in Hall.
Qed.

Lemma cached_prefixes_roundtrip ns :
  Forall masked ns → Forall regular ns → cached_prefixes (Marshal_strings (IPNet_String <$> ns)) = ns.
Proof.
  intros Hm Hr. unfold cached_prefixes. rewrite Marshal_strings_roundtrip.
  - induction ns as [|n ns IH]; [done|]. apply Forall_cons in Hm as [Hm Hms], Hr as [Hr Hrs].
    cbn. rewrite (ParseCIDR_String n Hm (λ v z, regular_unmapped n v z Hr)). by rewrite IH.
  - apply Forall_fmap, Forall_forall. intros n Hn. rewrite Forall_forall in Hm, Hr.
    pose proof (text_IPNet n (Hm n Hn) (λ v z, regular_unmapped n v z (Hr n Hn))) as Ht.
    rewrite forallb_forall in Ht. apply Forall_forall. intros c Hc. by apply text_char_plain, Ht, list_elem_of_In.
Qed.

(** Entries stored one after the other. *)
Definition store_all (c : Cache) (entries : list (string * string * OS)) (disk : Disk) : Disk :=
  foldl (λ disk x, (cache_Set c x.1.1 x.1.2 x.2 disk).2) disk entries.

Lemma store_all_frame `{CacheLaws c other} key maxAge os entries disk :
  Forall (λ x, other x.1.1 key) entries → cache_Get c key maxAge os (store_all c entries disk) = cache_Get c key maxAge os disk.
Proof.
  intros He. revert disk. induction He as [|x entries Hx _ IH]; intros disk; [done|]. cbn [store_all foldl].
  etransitivity; [apply IH|]. by apply law_frame.
Qed.

(** * Properties *)

(** Rangers as lists. *)
#[export] Instance list_ranger : Cidranger := {
  Ranger := list IPNet; NewPCTrieRanger := []; Ranger_Insert r n := Ok (r ++ [n]);
  Ranger_Contains r ip := Ok (existsb (λ n, Contains n ip) r) }.
#[export] Instance list_ranger_laws : CidrangerLaws.
Proof.
  refine {| holds := λ r l, r = l |}; [done| |].
  - intros r l n -> _. by exists (l ++ [n]).
  - by intros r l ip -> _.
Defined.

(** No service, no library, no whois server. *)
Definition demo_libs : NetLibs :=
  mkNetLibs (λ _, Err (ENew "offline")) (λ _, Err (ENew "no file"))
    (mkWhois (Some (ENew "offline")) (λ _, None) (λ _, ([], true))) (λ _, true)
    (λ _, Err (ENew "no jq")) (λ _, Err (ENew "no regexp")).

Definition demo_network : list Network :=
  [mkNetwork None None None None None ["192.0.2.0/24"]; mkNetwork (Some "https://lists.example/") None None None (Some "x") [];
   mkNetwork None None None None None ["2001:db8::1"]].

(** C26: A write to the cache that fails half way empties the list: the truncated entry
    is dated like a complete one, so for a day every load takes it as it is, finds
    no JSON in it and ends up without a prefix and without an error, although the
    list could be fetched. *)
Theorem partial_write_empties (lib lib' : NetLibs) (os os' : OS) (d k key : string) (i : nat) (e : Network)
    (disk : Disk) (data : string) (err werr : goerr) (written : nat) (ns : list IPNet)
    (Hkey : cacheKey k i e = (true, key))
    (Hstale : cache_Get (dirCache d) key Day os disk = (data, Some err))
    (Hfetch : FetchPrefixes lib e = Ok ns)
    (Hcreate : os_create os (path_Join [d; key]) = None) (Hfile : disk !! path_Join [d; key] ≠ Some EDir)
    (Hwrite : os_write os (path_Join [d; key]) (Marshal_strings (IPNet_String <$> ns)) = Some (written, werr))
    (Hcut : parse_json (substring_to written (Marshal_strings (IPNet_String <$> ns))) = None)
    (Hread : os_read os' (path_Join [d; key]) = None) (Hday : (os_now os' - Day ≤ os_now os)%Z) :
  let first := load_list lib os (Some (dirCache d)) k i e disk in
  first.1 = (ns, None) ∧
  load_list lib' os' (Some (dirCache d)) k i e first.2 = ([], None, first.2).
Proof.
  cbv zeta. pose proof (load_list_fetch lib os (dirCache d) k i e disk key data err Hkey Hstale) as Hl.
  rewrite Hfetch in Hl. rewrite Hl. split; [done|]. cbn [snd]. set (disk' := (cache_Set _ _ _ _ _).2).
  assert (Hd : disk' !! path_Join [d; key] =
    Some (EFile (os_now os) (substring_to written (Marshal_strings (IPNet_String <$> ns))))).
  { subst disk'. cbn. unfold dir_Set. rewrite Hcreate, Hwrite.
    destruct (disk !! _) as [[]|]; [done|..]; cbn; by rewrite lookup_insert_eq. }
  rewrite (load_list_fresh lib' os' (dirCache d) k i e disk' key
    (substring_to written (Marshal_strings (IPNet_String <$> ns)))); [|done|].
  - by rewrite cached_prefixes_invalid.
  - cbn. unfold dir_Get. rewrite Hd, Hread. unfold Time_Before, Time_Add.
    rewrite (proj2 (Z.ltb_ge _ _)); [done|lia].
Qed.

(** C25: A list that was fetched and stored is loaded again from the cache for a day as
    exactly the prefixes that were fetched, without asking its source, whatever other
    entries are stored in the meantime. After that it is fetched anew; if that fails,
    the prefixes are still read from the stale entry, but returned with the error, for
    which the caller leaves the list out. *)
Theorem cache_roundtrip {other} (c : Cache) `{CacheLaws c other} (lib lib' : NetLibs) (os os' : OS) (k key : string)
    (i : nat) (e : Network) (disk disk' : Disk) (data : string) (err : goerr) (ns : list IPNet)
    (entries : list (string * string * OS))
    (Hkey : cacheKey k i e = (true, key)) (Hstale : cache_Get c key Day os disk = (data, Some err))
    (Hfetch : FetchPrefixes lib e = Ok ns) (Hreg : Forall regular ns)
    (Hset : cache_Set c key (Marshal_strings (IPNet_String <$> ns)) os disk = (None, disk'))
    (Hread : ∀ p, os_read os' p = None) (Hother : Forall (λ x, other x.1.1 key) entries) :
  load_list lib os (Some c) k i e disk = (ns, None, disk') ∧
  let later := store_all c entries disk' in
  load_list lib' os' (Some c) k i e later =
    if (os_now os <? os_now os' - Day)%Z then
      match FetchPrefixes lib' e with
      | Ok ns' => (ns', None, (cache_Set c key (Marshal_strings (IPNet_String <$> ns')) os' later).2)
      | Err err' => (ns, Some err', later)
      end
    else (ns, None, later).
Proof.
  pose proof (load_list_fetch lib os c k i e disk key data err Hkey Hstale) as Hl.
  rewrite Hfetch, Hset in Hl. split; [done|]. intros later.
  assert (Hget : cache_Get c key Day os' later =
    (Marshal_strings (IPNet_String <$> ns), if (os_now os <? os_now os' - Day)%Z then Some ErrExpired else None)).
  { unfold later. rewrite store_all_frame by done. by rewrite (law_read_back _ _ _ _ _ _ _ Hset Hread). }
  pose proof (cached_prefixes_roundtrip ns (FetchPrefixes_masked lib e ns Hfetch) Hreg) as Hback.
  destruct (_ <? _)%Z.
  - unfold load_list. rewrite Hkey, Hget, Hback. rewrite bool_decide_false by done.
    destruct (FetchPrefixes lib' e); [done|]. by destruct ns.
  - by rewrite (load_list_fresh lib' os' c k i e later key _ Hkey Hget), Hback.
Qed.

(** A service that lists one network, and a disk that takes ten bytes. *)
Definition demo_service : NetLibs :=
  mkNetLibs (λ _, Ok (200%Z, Ok "x")) (λ _, Err (ENew "no file")) (mkWhois (Some timeout) (λ _, None) (λ _, ([], true)))
    (λ _, true) (λ _, Err (ENew "no jq")) (λ _, Ok (Some (λ _, ["192.0.2.0/24"]))).
Definition demo_full (t : Time) : OS := mkOS t (λ _, None) (λ _, None) (λ _ _, Some (10, ENew "no space left on device")).
Definition demo_list : Network := mkNetwork (Some "https://lists.example/") None None None (Some "x") [].

Lemma partial_write_empties_witness :
  let first := load_list demo_service (demo_full 0%Z) (Some (dirCache "/c")) "n" 0 demo_list ∅ in
  load_list demo_service (demo_os (2 * Hour)%Z) (Some (dirCache "/c")) "n" 0 demo_list first.2 = ([], None, first.2).
Proof.
  refine (proj2 (partial_write_empties demo_service demo_service (demo_full 0%Z) (demo_os (2 * Hour)%Z) "/c" "n"
    ("n-0-" +:+ EncodeToString (substring_to 4 (sha256 "https://lists.example/"))) 0 demo_list ∅ "" (ENew "no such file")
    (ENew "no space left on device") 10 [mkIPNet (Addr4 0xc0000200) 24 32] _ _ _ _ _ _ _ _ _));
    first [by vm_compute | by rewrite lookup_empty].
Defined.

Lemma cache_roundtrip_witness :
  let disk := (load_list demo_service (demo_os 0%Z) (Some (dirCache "/c")) "n" 0 demo_list ∅).2 in
  load_list demo_libs (demo_os (2 * Hour)%Z) (Some (dirCache "/c")) "n" 0 demo_list
    (store_all (dirCache "/c") [("m-0-1", "[]", demo_os Hour)] disk) =
  ([mkIPNet (Addr4 0xc0000200) 24 32], None, store_all (dirCache "/c") [("m-0-1", "[]", demo_os Hour)] disk).
Proof.
  refine (proj2 (cache_roundtrip (dirCache "/c") demo_service demo_libs (demo_os 0%Z) (demo_os (2 * Hour)%Z) "n"
    ("n-0-" +:+ EncodeToString (substring_to 4 (sha256 "https://lists.example/"))) 0 demo_list ∅
    (load_list demo_service (demo_os 0%Z) (Some (dirCache "/c")) "n" 0 demo_list ∅).2 "" (ENew "no such file")
    [mkIPNet (Addr4 0xc0000200) 24 32] [("m-0-1", "[]", demo_os Hour)] _ _ _ _ _ _ _)).
  - by vm_compute.
  - by vm_compute.
  - by vm_compute.
  - by repeat constructor.
  - by vm_compute.
  - done.
  - repeat constructor. by vm_compute.
Defined.
