(* ===== verification/NetworkLoad.v ===== *)
(** Networks that load while requests run (lib/state.go): a network's lists are fetched by the
    first condition that asks for it, under [sync.OnceValue], while other requests wait.
    The loading of [Networks] in one step per list, interleaved with any number of
    callers and with changes of the disk. *)

From S2P Require Import Prelude GoStrings GoCrypto GoTime NetAddr GoNet Cache Networks.
From stdpp Require Import options.

Section load.
  Context `{Cidranger} (lib : NetLibs) (os : OS) (networkCache : option Cache) (k : string) (network : list Network).

(** The function of a network: not called yet; being run by a caller, at a list, with the
    lists left and the ranger so far; or done. *)
Inductive once :=
  | ONew
  | ORunning (t : nat) (i : nat) (rest : list Network) (ranger : Ranger)
  | ODone (ranger : Ranger).

(** A caller that waits or runs the function, and one that returned. *)
Inductive caller := Calling | Got (ranger : Ranger).

(** [ns_loaded]: the lists whose closures ran, by index. *)
Record sys := mkSys { ns_once : once; ns_disk : Disk; ns_callers : gmap nat caller; ns_loaded : list nat }.

Definition initial (disk : Disk) : sys := mkSys ONew disk ∅ [].

(** A caller begins, a caller gets on, and the disk is changed by somebody else. *)
Inductive op := OCall (t : nat) | OStep (t : nat) | ODisk (disk : Disk).

(** A caller finds the function new and runs it, gets on with it, is blocked by the one who
    runs it, or finds its value. *)
Definition step (s : sys) (o : op) : sys :=
  let '(mkSys once disk callers loaded) := s in
  match o with
  | OCall t => match callers !! t with None => mkSys once disk (<[t := Calling]> callers) loaded | Some _ => s end
  | ODisk disk => mkSys once disk callers loaded
  | OStep t =>
      match callers !! t with
      | Some Calling =>
          match once with
          | ONew => mkSys (ORunning t 0 network NewPCTrieRanger) disk callers loaded
          | ORunning t' i rest ranger =>
              if bool_decide (t' = t) then
                match rest with
                | [] => mkSys (ODone ranger) disk (<[t := Got ranger]> callers) loaded
                | e :: rest =>
                    let '(prefixes, err, disk) := load_list lib os networkCache k i e disk in
                    let ranger := match err with Some _ => ranger | None => insert_all ranger prefixes end in
                    mkSys (ORunning t (S i) rest ranger) disk callers (loaded ++ [i])
                end
              else s
          | ODone ranger => mkSys once disk (<[t := Got ranger]> callers) loaded
          end
      | _ => s
      end
  end.

Definition run (s : sys) (ops : list op) : sys := foldl step s ops.

(** ** The invariant *)

Record ok (s : sys) : Prop := {
  ok_once : match ns_once s with
            | ONew => ns_loaded s = []
            | ORunning t i rest _ => ns_callers s !! t = Some Calling ∧ ns_loaded s = seq 0 i ∧ drop i network = rest ∧ i ≤ length network
            | ODone _ => ns_loaded s = seq 0 (length network)
            end;
  ok_got : ∀ t r, ns_callers s !! t = Some (Got r) → ns_once s = ODone r }.

Lemma step_ok s o : ok s → ok (step s o).
Proof.
  destruct s as [once disk callers loaded]. intros [Ho Hg]. cbn in *. destruct o as [t|t|d]; cbn.
  - destruct (callers !! t) as [c|] eqn:Ht; [by split|]. split; cbn.
    + destruct once as [|t' i rest r|r]; try done. destruct Ho as (Hc & Ho). split; [|done].
      rewrite lookup_insert_ne; [done|]. intros ->. congruence.
    + intros t' r. rewrite lookup_insert_Some. intros [[_ ?]|[_ Ht']]; [done|by eapply Hg].
  - destruct (callers !! t) as [[|r]|] eqn:Ht; try by split. destruct once as [|t' i rest r|r].
    + split; cbn; [rewrite drop_0; split_and!; [done..|lia]|]. intros t' r Ht'. by apply Hg in Ht'.
    + case_bool_decide as Hb; [subst t'|by split]. destruct Ho as (Hc & Hl & Hd & Hi). destruct rest as [|e rest].
      * split; cbn.
        -- assert (Hle : length network ≤ i) by (apply (f_equal length) in Hd; rewrite length_drop in Hd; cbn in Hd; lia).
           rewrite Hl. f_equal. lia.
        -- intros t' r'. rewrite lookup_insert_Some. intros [[_ [= ->]]|[_ Ht']]; [done|]. by apply Hg in Ht'.
      * destruct (load_list _ _ _ _ _ _ _) as [[prefixes err] disk'].
        assert (Hlt : i < length network) by (apply (f_equal length) in Hd; rewrite length_drop in Hd; cbn in Hd; lia).
        split; cbn [ns_once ns_callers ns_loaded].
        -- split; [done|]. rewrite Hl, seq_S. split; [done|]. split; [|lia]. by rewrite <-(Nat.add_1_r i), <-drop_drop, Hd.
        -- intros t' r'. intros Ht'. by apply Hg in Ht'.
    + split; cbn; [done|]. intros t' r'. rewrite lookup_insert_Some. intros [[_ [= ->]]|[_ Ht']]; [done|by eapply Hg].
  - by split.
Qed.

Lemma run_ok s ops : ok s → ok (run s ops).
Proof. revert s. induction ops as [|o ops IH]; intros s Hs; [done|]. apply IH. by apply step_ok. Qed.

Lemma initial_ok disk : ok (initial disk).
Proof. split; [done|]. intros t r Ht. cbn [initial ns_callers] in Ht. by rewrite lookup_empty in Ht. Qed.

(** ** The value *)

Definition changes_disk (o : op) : bool := match o with ODisk _ => true | _ => false end.

(** What is left to do leads to what loading in one step leads to. *)
Definition leads (disk : Disk) (s : sys) : Prop :=
  match ns_once s with
  | ONew => ns_disk s = disk
  | ORunning _ i rest r => load_lists lib os networkCache k i rest r (ns_disk s) = load_network lib os networkCache k network disk
  | ODone r => r = (load_network lib os networkCache k network disk).1
  end.

Lemma step_leads disk s o : changes_disk o = false → leads disk s → leads disk (step s o).
Proof.
  destruct s as [once d callers loaded]. unfold leads. destruct o as [t|t|d']; cbn [step ns_once ns_disk]; intros Hc Hl; [| |done].
  - by destruct (callers !! t).
  - destruct (callers !! t) as [[|r]|]; try done. destruct once as [|t' i rest r|r]; cbn [ns_once ns_disk] in *; [by subst| |done].
    case_bool_decide; [|done]. destruct rest as [|e rest]; cbn [ns_once]; [by rewrite <-Hl|].
    cbn [load_lists] in Hl. destruct (load_list _ _ _ _ _ _ _) as [[prefixes err] d1]. cbn [ns_once ns_disk]. by destruct err.
Qed.

Lemma run_leads disk s ops : forallb (λ o, negb (changes_disk o)) ops = true → leads disk s → leads disk (run s ops).
Proof.
  revert s. induction ops as [|o ops IH]; intros s Hc Hl; [done|]. cbn in Hc. go_bool. apply IH; [done|]. by apply step_leads.
Qed.

(** ** Progress *)

Lemma step_calling s o t : ns_callers s !! t = Some Calling → o ≠ OStep t → ns_callers (step s o) !! t = Some Calling.
Proof.
  destruct s as [once d callers loaded]. cbn. intros Ht Ho. destruct o as [t'|t'|d']; cbn; [| |done].
  - destruct (callers !! t') eqn:Ht'; [done|]. cbn. rewrite lookup_insert_ne; [done|]. intros ->. congruence.
  - assert (Hne : t' ≠ t) by congruence. destruct (callers !! t') as [[|r]|]; try done. destruct once as [|t1 i rest r|r]; cbn; [done| |].
    + case_bool_decide; [|done]. destruct rest as [|e rest]; cbn; [by rewrite lookup_insert_ne|].
      by destruct (load_list _ _ _ _ _ _ _) as [[prefixes err] d1].
    + by rewrite lookup_insert_ne.
Qed.

(** The caller that runs the function comes to its end. *)
Lemma runner_finishes rest : ∀ s t i r, ns_once s = ORunning t i rest r → ns_callers s !! t = Some Calling →
  ∃ r', ns_once (run s (repeat (OStep t) (S (length rest)))) = ODone r' ∧
    ns_callers (run s (repeat (OStep t) (S (length rest)))) = <[t := Got r']> (ns_callers s).
Proof.
  induction rest as [|e rest IH]; intros [once d callers loaded] t i r Ho Hc; cbn in Ho, Hc; subst once.
  - cbn. rewrite Hc, bool_decide_true by done. by eexists.
  - change (repeat (OStep t) (S (length (e :: rest)))) with (OStep t :: repeat (OStep t) (S (length rest))).
    cbn [run foldl step]. rewrite Hc, bool_decide_true by done.
    destruct (load_list _ _ _ _ _ _ _) as [[prefixes err] d1].
    match goal with |- context [mkSys ?o ?d ?c ?l] => exact (IH (mkSys o d c l) t (S i) _ eq_refl Hc) end.
Qed.

Lemma done_returns s t r : ns_once s = ODone r → ns_callers s !! t = Some Calling →
  ns_callers (step s (OStep t)) !! t = Some (Got r).
Proof. destruct s as [once d callers loaded]. cbn. intros -> ->. cbn. by rewrite lookup_insert_eq. Qed.

Lemma running_returns s t t' i rest r :
  ns_once s = ORunning t' i rest r → ns_callers s !! t' = Some Calling → ns_callers s !! t = Some Calling →
  ∃ r', ns_callers (run s (repeat (OStep t') (S (length rest)) ++ [OStep t])) !! t = Some (Got r').
Proof.
  intros Ho Hc Ht. destruct (runner_finishes rest s t' i r Ho Hc) as (r' & Hd & Hcs). exists r'.
  unfold run. rewrite foldl_app. fold (run s (repeat (OStep t') (S (length rest)))). cbn [foldl].
  set (s1 := run s _) in *. destruct (decide (t = t')) as [->|Hne].
  - destruct s1 as [once d callers loaded]. cbn in Hd, Hcs |- *. rewrite Hcs, lookup_insert_eq. cbn [ns_callers]. by rewrite ?lookup_insert_eq.
  - apply done_returns; [done|]. by rewrite Hcs, lookup_insert_ne.
Qed.

(** From every state each caller can return, within the steps of two callers. *)
Lemma caller_returns s t : ok s → ns_callers s !! t = Some Calling →
  ∃ ops r, length ops ≤ length network + 3 ∧ ns_callers (run s ops) !! t = Some (Got r) ∧
    forallb (λ o, match o with OStep _ => true | _ => false end) ops = true.
Proof.
  assert (Hsteps : ∀ t' n, forallb (λ o, match o with OStep _ => true | _ => false end) (repeat (OStep t') n ++ [OStep t]) = true).
  { intros t' n. rewrite forallb_app. cbn. rewrite andb_true_r. by induction n. }
  intros [Ho _] Ht. destruct (ns_once s) as [|t' i rest r|r] eqn:Honce.
  - destruct (running_returns (step s (OStep t)) t t 0 network NewPCTrieRanger) as [r' Hr'].
    1-3: destruct s as [once d callers loaded]; cbn in *; subst once; by rewrite Ht.
    exists (OStep t :: repeat (OStep t) (S (length network)) ++ [OStep t]), r'. split; [|split; [exact Hr'|apply Hsteps]].
    cbn. rewrite length_app, repeat_length. cbn. lia.
  - destruct Ho as (Hc & _ & Hd & Hi). destruct (running_returns s t t' i rest r Honce Hc Ht) as [r' Hr'].
    exists (repeat (OStep t') (S (length rest)) ++ [OStep t]), r'. split; [|split; [exact Hr'|apply Hsteps]].
    rewrite length_app, repeat_length, <-Hd, length_drop. cbn. lia.
  - exists [OStep t], r. split; [cbn; lia|]. split; [by apply done_returns|done].
Qed.

End load.

(** * Properties *)

(** C35: A network that requests ask for at the same time is loaded once, for all of them:
    under every interleaving each of its lists is fetched at most once, in order, every
    request that goes on got the same ranger, and while nobody else writes the cache it
    is the one a request alone would have loaded; and no request is stuck: from every
    state of the execution a waiting one returns within the steps of the one that loads. *)
Theorem loaded_once `{Cidranger} (lib : NetLibs) (os : OS) (networkCache : option Cache) (k : string) (network : list Network)
    (disk : Disk) (ops : list op) :
  let s := run lib os networkCache k network (initial disk) ops in
  (∃ n, n ≤ length network ∧ ns_loaded s = seq 0 n) ∧
  (∀ t t' r r', ns_callers s !! t = Some (Got r) → ns_callers s !! t' = Some (Got r') → r = r') ∧
  (forallb (λ o, negb (changes_disk o)) ops = true →
     ∀ t r, ns_callers s !! t = Some (Got r) → r = (load_network lib os networkCache k network disk).1) ∧
  (∀ t, ns_callers s !! t = Some Calling →
     ∃ ops' r, length ops' ≤ length network + 3 ∧ ns_callers (run lib os networkCache k network s ops') !! t = Some (Got r)).
Proof.
  intros s. assert (Hok : ok network s) by apply run_ok, initial_ok. pose proof Hok as [Ho Hg].
  split; [|split; [|split]].
  - destruct (ns_once s) as [|t i rest r|r].
    + by exists 0; split; [lia|].
    + destruct Ho as (_ & Hl & _ & Hi). by exists i.
    + by exists (length network).
  - intros t t' r r' Ht Ht'. apply Hg in Ht, Ht'. congruence.
  - intros Hc t r Ht. pose proof (run_leads lib os networkCache k network disk (initial disk) ops Hc eq_refl) as Hl.
    fold s in Hl. unfold leads in Hl. by rewrite (Hg t r Ht) in Hl.
  - intros t Ht. destruct (caller_returns lib os networkCache k network s t Hok Ht) as (ops' & r & ? & ? & _). by exists ops', r.
Qed.

(** Three requests, the second runs the function. *)
Example loading :
  let s := run (H:=list_ranger) demo_libs (demo_os 0%Z) None "n" demo_network (initial ∅)
    [OCall 1; OCall 2; OStep 2; OStep 1; OStep 2; OCall 3; OStep 3; OStep 2; OStep 2; OStep 2; OStep 1] in
  (λ t, match ns_callers s !! t with Some (Got _) => Some true | Some Calling => Some false | None => None end) <$> [1; 2; 3] =
    [Some true; Some true; Some false].
Proof. vm_compute. reflexivity. Qed.
