(* ===== verification/Cookie.v ===== *)
(** [utils/cookie.go]: setting and clearing cookies, with the parts of [net/http]
    and [net] it uses: [Cookie.String], [http.SetCookie], [net.SplitHostPort]. *)

From S2P Require Import Prelude GoStrings GoTime NetAddr GoURL Mime Types.
From stdpp Require Import options.

Local Open Scope go_scope.

(** [r.Cookie(name)]: the first cookie of the name. *)
Definition Request_Cookie (r : Request) (name : string) : option Cookie :=
  snd <$> list_find (λ c, ck_Name c = name) (rq_Cookies r).

(** * [http.Cookie] *)

(** The fields [SetCookie] and [ClearCookie] fill. *)
Record HTTPCookie := mkHTTPCookie {
  hc_Name : string; hc_Value : string; hc_Expires : Time; hc_MaxAge : Z;
  hc_HttpOnly : bool; hc_Secure : bool; hc_SameSiteLax : bool;
  hc_Path : string; hc_Domain : string }.

(** [isToken]: a non-empty header token. *)
Definition isToken (s : string) : bool :=
  negb (bool_decide (s = "")) && string_forallb token_byte s.

Fixpoint string_filter (P : ascii → bool) (s : string) : string :=
  match s with
  | EmptyString => ""
  | String c s => if P c then String c (string_filter P s) else string_filter P s
  end.

Definition validCookieValueByte (b : ascii) : bool :=
  (0x20 <=? byte_val b)%N && (byte_val b <? 0x7f)%N && negb (byte_val b =? 0x22)%N &&
  negb (bool_decide (b = ";"%char)) && negb (bool_decide (b = "\"%char)).
Definition validCookiePathByte (b : ascii) : bool :=
  (0x20 <=? byte_val b)%N && (byte_val b <? 0x7f)%N && negb (bool_decide (b = ";"%char)).

(** Invalid bytes are dropped; a value with a space or comma is quoted. *)
Definition sanitizeCookieValue (v : string) : string :=
  let v := string_filter validCookieValueByte v in
  if bool_decide (v = "") then v
  else if ContainsByte v " " || ContainsByte v "," then dquote +:+ v +:+ dquote else v.
Definition sanitizeCookiePath (v : string) : string := string_filter validCookiePathByte v.

(** The loop of [isCookieDomainName]: the last byte, a letter seen, the length of
    the current label. *)
Fixpoint domain_loop (last : ascii) (ok : bool) (partlen : nat) (s : string) : bool :=
  match s with
  | EmptyString => negb (bool_decide (last = "-"%char)) && (partlen <=? 63) && ok
  | String c s =>
      if in_range "a" "z" c || in_range "A" "Z" c then domain_loop c true (S partlen) s
      else if in_range "0" "9" c then domain_loop c ok (S partlen) s
      else if bool_decide (c = "-"%char) then
        negb (bool_decide (last = "."%char)) && domain_loop c ok (S partlen) s
      else if bool_decide (c = "."%char) then
        negb (bool_decide (last = "."%char)) && negb (bool_decide (last = "-"%char)) &&
        (partlen <=? 63) && negb (partlen =? 0) && domain_loop c ok 0 s
      else false
  end.

Definition isCookieDomainName (s : string) : bool :=
  negb (bool_decide (s = "")) && (String.length s <=? 255) &&
  domain_loop "." false 0 (default s (strip_prefix "." s)).

(** [net.ParseIP] of a text without colons: four decimal fields below 256, without
    leading zeros. *)
Definition ipv4_field (s : string) : bool :=
  (String.length s <=? 3) &&
  match ParseUint s with Ok n => (n <? 256)%N && bool_decide (FormatUint n = s) | Err _ => false end.
Definition isIPv4Text (s : string) : bool :=
  let fs := Split s "." in bool_decide (length fs = 4) && forallb ipv4_field fs.

Definition validCookieDomain (v : string) : bool :=
  isCookieDomainName v || (isIPv4Text v && negb (ContainsByte v ":")).

(** ** Dates: [http.TimeFormat] *)

(** Civil date of a day number counted from 0000-03-01 (era arithmetic of the
    proleptic Gregorian calendar): year, month, day. *)
Definition civil (z : Z) : Z * Z * Z :=
  (let era := z / 146097 in
   let doe := z mod 146097 in
   let yoe := (doe - doe / 1460 + doe / 36524 - doe / 146096) / 365 in
   let doy := doe - (365 * yoe + yoe / 4 - yoe / 100) in
   let mp := (5 * doy + 2) / 153 in
   let d := doy - (153 * mp + 2) / 5 + 1 in
   let m := if mp <? 10 then mp + 3 else mp - 9 in
   (yoe + era * 400 + (if m <=? 2 then 1 else 0), m, d))%Z.

(** Days from 0000-03-01 to 0001-01-01, the zero time. *)
Definition zero_day : Z := 306.

Definition two_digits (z : Z) : string :=
  (if (z <? 10)%Z then "0" else "") +:+ FormatUint (Z.to_N z).
Definition four_digits (z : Z) : string :=
  (if (z <? 10)%Z then "000" else if (z <? 100)%Z then "00" else if (z <? 1000)%Z then "0" else "")
  +:+ FormatUint (Z.to_N z).
Definition day_names := ["Mon"; "Tue"; "Wed"; "Thu"; "Fri"; "Sat"; "Sun"].
Definition month_names :=
  ["Jan"; "Feb"; "Mar"; "Apr"; "May"; "Jun"; "Jul"; "Aug"; "Sep"; "Oct"; "Nov"; "Dec"].

(** The zero time is a Monday. *)
Definition TimeFormat (t : Time) : string :=
  let sec := (t / Second)%Z in
  let days := (sec / 86400)%Z in
  let s := (sec mod 86400)%Z in
  let '(y, m, d) := civil (days + zero_day) in
  nth (Z.to_nat (days mod 7)%Z) day_names "" +:+ ", " +:+ two_digits d +:+ " " +:+
  nth (Z.to_nat (m - 1)) month_names "" +:+ " " +:+ four_digits y +:+ " " +:+
  two_digits (s / 3600)%Z +:+ ":" +:+ two_digits (s / 60 mod 60)%Z +:+ ":" +:+ two_digits (s mod 60)%Z
  +:+ " GMT".

Example TimeFormat1 : TimeFormat (Unix 0) = "Thu, 01 Jan 1970 00:00:00 GMT".
Proof. vm_compute. reflexivity. Qed.
Example TimeFormat2 : TimeFormat (Unix 1709210096) = "Thu, 29 Feb 2024 12:34:56 GMT".
Proof. vm_compute. reflexivity. Qed.

(** Cookie expiry years before 1601 are dropped. *)
Definition validCookieExpires (t : Time) : bool :=
  (1601 <=? (civil (t / Second / 86400 + zero_day)).1.1)%Z.

(** [Cookie.String]. *)
Definition HTTPCookie_String (c : HTTPCookie) : string :=
  if negb (isToken (hc_Name c)) then ""
  else
    hc_Name c +:+ "=" +:+ sanitizeCookieValue (hc_Value c) +:+
    (if bool_decide (hc_Path c = "") then "" else "; Path=" +:+ sanitizeCookiePath (hc_Path c)) +:+
    (if validCookieDomain (hc_Domain c)
     then "; Domain=" +:+ default (hc_Domain c) (strip_prefix "." (hc_Domain c)) else "") +:+
    (if validCookieExpires (hc_Expires c) then "; Expires=" +:+ TimeFormat (hc_Expires c) else "") +:+
    (if (0 <? hc_MaxAge c)%Z then "; Max-Age=" +:+ FormatUint (Z.to_N (hc_MaxAge c))
     else if (hc_MaxAge c <? 0)%Z then "; Max-Age=0" else "") +:+
    (if hc_HttpOnly c then "; HttpOnly" else "") +:+
    (if hc_Secure c then "; Secure" else "") +:+
    (if hc_SameSiteLax c then "; SameSite=Lax" else "").

(** * [net.SplitHostPort] *)

Definition IndexByte (s : string) (c : ascii) : option nat :=
  fst <$> list_find (λ x, x = c) (bytes s).

Definition SplitHostPort (hostport : string) : result (string * string) :=
  let addrErr why := Err (ENew ("address " +:+ hostport +:+ ": " +:+ why)) in
  match CutLast hostport ":" with
  | None => addrErr "missing port in address"
  | Some (before, port) =>
      let i := String.length before in
      let brackets j k host :=
        if ContainsByte (substring_from j hostport) "[" then addrErr "unexpected '[' in address"
        else if ContainsByte (substring_from k hostport) "]" then addrErr "unexpected ']' in address"
        else Ok (host, port) in
      match strip_prefix "[" hostport with
      | Some _ =>
          match IndexByte hostport "]" with
          | None => addrErr "missing ']' in address"
          | Some e =>
              if e + 1 =? String.length hostport then addrErr "missing port in address"
              else if e + 1 =? i then
                brackets 1 (e + 1) (substring_from 1 (substring_to e hostport))
              else if ContainsByte (substring_to 1 (substring_from (e + 1) hostport)) ":"
                   then addrErr "too many colons in address"
              else addrErr "missing port in address"
          end
      | None =>
          if ContainsByte before ":" then addrErr "too many colons in address"
          else brackets 0 0 before
      end
  end.

(** * [utils/cookie.go] *)

Definition DefaultCookiePrefix : string := ".go-away-".

Definition getValidHost (host : string) : string :=
  match SplitHostPort host with Ok (ipStr, _) => ipStr | Err _ => host end.

(** [http.SetCookie]. *)
Definition http_SetCookie (c : HTTPCookie) (h : MIMEHeader) : MIMEHeader :=
  let v := HTTPCookie_String c in
  if bool_decide (v = "") then h else hdr_Add h "Set-Cookie" v.

Definition state_cookie (name value : string) (expires : Time) (maxAge : Z) (host : string) :
    HTTPCookie :=
  mkHTTPCookie name value expires maxAge true true true "/" (getValidHost host).

Definition SetCookie (name value : string) (expiry : Time) (host : string) (h : MIMEHeader) :
    MIMEHeader :=
  http_SetCookie (state_cookie name value expiry 0%Z host) h.

Definition ClearCookie (name : string) (now : Time) (host : string) (h : MIMEHeader) : MIMEHeader :=
  http_SetCookie (state_cookie name "" (Time_Add now (-1 * Hour)%Z) (-1)%Z host) h.

Example getValidHost1 : getValidHost "example.test:8443" = "example.test".
Proof. reflexivity. Qed.
Example getValidHost2 : getValidHost "[2001:db8::1]:443" = "2001:db8::1".
Proof. reflexivity. Qed.
Example getValidHost3 : getValidHost "example.test" = "example.test".
Proof. reflexivity. Qed.
