(* ===== verification/Register.v ===== *)
(** [lib/challenge/register.go]: registrations and the register of challenges,
    and the part of the server state request handling reads ([lib/state.go],
    [lib/policy/state.go], [lib/policy/challenge.go]). *)

From S2P Require Import Prelude GoStrings GoTime NetAddr GoURL Mime GoPath Types.
From stdpp Require Import options.

(** * Registrations *)

(** A CEL value is a boolean or a value of another type. *)
Inductive CelVal := CelBool (b : bool) | CelOther (typeName : string).

(** What the request data resolves a name to ([ResolveName] of [data.go]). *)
Inductive ActVal :=
  | AStr (s : string)
  | ABytes (b : string)
  | AQuery (q : Values)
  | AHeaders (h : MIMEHeader)
  | AFp (fp : gmap string string).

Definition ResolveName (d : RequestData) (r : Request) (name : string) : option ActVal :=
  if bool_decide (name = "host") then Some (AStr (rq_Host r))
  else if bool_decide (name = "method") then Some (AStr (rq_Method r))
  else if bool_decide (name = "remoteAddress") then
    Some (ABytes (Addr_AsSlice (ap_Addr (rd_RemoteAddress d))))
  else if bool_decide (name = "userAgent") then Some (AStr (hdr_Get (rq_Header r) "User-Agent"))
  else if bool_decide (name = "path") then Some (AStr (Path (rq_URL r)))
  else if bool_decide (name = "query") then Some (AQuery (rd_query d))
  else if bool_decide (name = "headers") then Some (AHeaders (rq_Header r))
  else if bool_decide (name = "fp") then Some (AFp (rd_fp d))
  else None.

(** [cel.Program]: [Eval] with an activation that resolves names. [None] for the
    value is Go's nil. *)
Definition Program : Type := (string → option ActVal) → option CelVal * option goerr.

Abbreviation Key := string.

(** [VerifyFunc]. *)
Definition VerifyFunc : Type := Key → string → Request → VerifyResult * option goerr.

Record Registration := mkReg {
  reg_id : Id;
  reg_Name : string;
  reg_Class : Class;
  reg_Condition : option Program;
  reg_Path : string;
  reg_Duration : Duration;
  reg_Handler : option (M unit);
  reg_Verify : option VerifyFunc;
  reg_VerifyProbability : spec_float;
  reg_KeyHeaders : list string;
  reg_LegacyKeyHeaders : list string;
  reg_IssueChallenge : Key → Time → M VerifyResult }.

Definition set_reg_id (i : Id) (r : Registration) : Registration :=
  let 'mkReg _ a b c d e f g h j k l := r in mkReg i a b c d e f g h j k l.

Definition set_Class (x : Class) (r : Registration) : Registration :=
  let 'mkReg i a _ c d e f g h j k l := r in mkReg i a x c d e f g h j k l.
Definition set_Handler (x : M unit) (r : Registration) : Registration :=
  let 'mkReg i a b c d e _ g h j k l := r in mkReg i a b c d e (Some x) g h j k l.
Definition set_Verify (x : VerifyFunc) (r : Registration) : Registration :=
  let 'mkReg i a b c d e f _ h j k l := r in mkReg i a b c d e f (Some x) h j k l.
Definition set_VerifyProbability (x : spec_float) (r : Registration) : Registration :=
  let 'mkReg i a b c d e f g _ j k l := r in mkReg i a b c d e f g x j k l.
Definition set_KeyHeaders (x : list string) (r : Registration) : Registration :=
  let 'mkReg i a b c d e f g h _ k l := r in mkReg i a b c d e f g h x k l.
Definition set_LegacyKeyHeaders (x : list string) (r : Registration) : Registration :=
  let 'mkReg i a b c d e f g h j _ l := r in mkReg i a b c d e f g h j x l.
Definition set_IssueChallenge (x : Key → Time → M VerifyResult) (r : Registration) : Registration :=
  let 'mkReg i a b c d e f g h j k _ := r in mkReg i a b c d e f g h j k x.

Definition DefaultDuration : Duration := (Hour * 24 * 7)%Z.

Definition DefaultKeyHeaders : list string :=
  ["User-Agent"; "Accept-Language"; "Accept-Encoding"; "Sec-Ch-Ua"; "Sec-Ch-Ua-Platform"].
Definition MinimalKeyHeaders : list string := ["Accept-Language"; "User-Agent"].
Definition StableBrowserKeyHeaders : list string := ["User-Agent"].

(** * The register *)

Abbreviation Register := (gmap Id Registration).

Definition Register_Get (r : Register) (id : Id) : option Registration := r !! id.

(** The loop of [GetByName] over the entries in the order [entries]. *)
Fixpoint GetByName_loop (entries : list (Id * Registration)) (name : string) :
    option (Registration * Id) :=
  match entries with
  | [] => None
  | (id, c) :: entries =>
      if bool_decide (reg_Name c = name) then Some (c, id) else GetByName_loop entries name
  end.

Definition GetByName (r : Register) (name : string) : option (Registration * Id) :=
  GetByName_loop (map_to_list r) name.

(** [policy.Challenge]; [Y] is the type of YAML nodes. *)
Record Challenge (Y : Type) := mkChallenge {
  pc_Conditions : list string; pc_Runtime : string; pc_Duration : Duration;
  pc_Parameters : option Y }.
Arguments mkChallenge {_} _ _ _ _.
Arguments pc_Conditions {_} _.
Arguments pc_Runtime {_} _.
Arguments pc_Duration {_} _.
Arguments pc_Parameters {_} _.

Section create.
  Context {Y : Type}.

(** [FillRegistration]: a runtime completes the registration it is given; [None] when it
    panics. *)
Definition FillRegistration : Type := Registration → option Y → option (result Registration).

(** [Register.Create]. The package variable [idCounter] is threaded: the result
    is the registration or the error, the register and the counter, or a panic of
    the runtime. *)
Definition Create (Runtimes : gmap string FillRegistration)
    (RegisterCondition : list string → result Program) (urlPath : string)
    (r : Register) (idCounter : Id) (name : string) (pol : Challenge Y)
    (replacer : option (string → string)) : option (result Registration * Register * Id) :=
  match Runtimes !! pc_Runtime pol with
  | None => Some (Err (ENew ("unknown challenge runtime " +:+ pc_Runtime pol)), r, idCounter)
  | Some runtime =>
      let duration := if bool_decide (pc_Duration pol = 0%Z) then DefaultDuration
                      else pc_Duration pol in
      let conditions := default id replacer <$> pc_Conditions pol in
      match (match conditions with
             | [] => Ok None
             | _ => result_bind (RegisterCondition conditions) (λ p, Ok (Some p))
             end) with
      | Err e => Some (Err (EWrap "error compiling condition: " e), r, idCounter)
      | Ok condition =>
          let '(id, idCounter) :=
            match GetByName r name with
            | Some (_, oldId) => (oldId, idCounter)
            | None => (idCounter + 1, idCounter + 1)%Z
            end in
          let reg := mkReg id name ClassTransparent condition
            (path_Join [urlPath; "challenge"; name]) duration None None (S754_zero false)
            DefaultKeyHeaders [] (λ _ _, panic (ENew "nil function")) in
          match runtime reg (pc_Parameters pol) with
          | None => None
          | Some (Err e) => Some (Err (ENew ("error filling registration: " +:+ Error e)), r, idCounter)
          | Some (Ok reg) => Some (Ok reg, <[id := reg]> r, idCounter)
          end
      end
  end.

(** [Register.Add]. *)
Definition Add (r : Register) (idCounter : Id) (c : Registration) : Register * Id * Id :=
  match GetByName r (reg_Name c) with
  | Some (_, oldId) => (<[oldId := set_reg_id oldId c]> r, idCounter, oldId)
  | None =>
      let id := (idCounter + 1)%Z in
      (<[id := set_reg_id id c]> r, id, id)
  end.

(** ** The register invariant *)

(** Entries carry their key as identifier, identifiers were handed out by the
    counter, and names are unique. *)
Record register_wf (r : Register) (idCounter : Id) : Prop := {
  rwf_id : ∀ id c, r !! id = Some c → reg_id c = id;
  rwf_bound : ∀ id c, r !! id = Some c → (0 < id ≤ idCounter)%Z;
  rwf_name : ∀ id id' c c', r !! id = Some c → r !! id' = Some c' →
    reg_Name c = reg_Name c' → id = id' }.

Lemma GetByName_loop_Some es name c id :
  GetByName_loop es name = Some (c, id) → (id, c) ∈ es ∧ reg_Name c = name.
Proof.
  induction es as [|[i c'] es IH]; simpl; [done|]. case_bool_decide.
  - intros ?. simplify_eq. split; [left|done].
  - intros [? ?]%IH. split; [by right|done].
Qed.

Lemma GetByName_loop_None es name :
  GetByName_loop es name = None → ∀ id c, (id, c) ∈ es → reg_Name c ≠ name.
Proof.
  induction es as [|[i c'] es IH]; simpl; [intros _ ?? ?%elem_of_nil; done|].
  case_bool_decide; [done|]. intros Hn id c [Heq|Hin]%elem_of_cons; [by simplify_eq|eauto].
Qed.

Lemma GetByName_Some r name c id : GetByName r name = Some (c, id) → r !! id = Some c ∧ reg_Name c = name.
Proof. intros [Hin ?]%GetByName_loop_Some. by apply elem_of_map_to_list in Hin. Qed.

Lemma GetByName_None r name id c : GetByName r name = None → r !! id = Some c → reg_Name c ≠ name.
Proof. intros Hn Hr. eapply GetByName_loop_None, elem_of_map_to_list; done. Qed.

Lemma register_wf_insert_old r n c id c0 :
  register_wf r n → r !! id = Some c0 → reg_Name c = reg_Name c0 → reg_id c = id →
  register_wf (<[id := c]> r) n.
Proof.
  intros [Hid Hb Hn] H0 Hname Hc. split.
  - intros i c' [[-> ->]|[_ ?]]%lookup_insert_Some; eauto.
  - intros i c' [[-> ->]|[_ ?]]%lookup_insert_Some; eauto.
  - intros i i' c1 c2 [[-> ->]|[? H1]]%lookup_insert_Some [[-> ->]|[? H2]]%lookup_insert_Some Heq;
      try done; eapply Hn; eauto; congruence.
Qed.

Lemma register_wf_insert_new r n c :
  register_wf r n → (0 ≤ n)%Z → (∀ id c', r !! id = Some c' → reg_Name c' ≠ reg_Name c) →
  reg_id c = (n + 1)%Z → register_wf (<[(n + 1)%Z := c]> r) (n + 1)%Z.
Proof.
  intros [Hid Hb Hn] Hpos Hnew Hc. split.
  - intros i c' [[? ?]|[_ ?]]%lookup_insert_Some; subst; eauto.
  - intros i c' [[? ?]|[_ Hi]]%lookup_insert_Some; [lia|]. apply Hb in Hi. lia.
  - intros i i' c1 c2 [[? ?]|[? H1]]%lookup_insert_Some [[? ?]|[? H2]]%lookup_insert_Some Heq;
      subst; try done; [by eapply Hnew in H2|by eapply Hnew in H1|by eapply Hn].
Qed.

Lemma register_wf_empty : register_wf ∅ 0.
Proof. split; intros *; rewrite lookup_empty; done. Qed.

Lemma register_wf_mono r n m : register_wf r n → (n ≤ m)%Z → register_wf r m.
Proof. intros [Hid Hb Hn] Hle. split; [done| |done]. intros id c Hr. apply Hb in Hr. lia. Qed.

(** A runtime that leaves the name and identifier of the registration alone. *)
Definition keeps_identity (f : FillRegistration) : Prop :=
  ∀ reg y reg', f reg y = Some (Ok reg') → reg_Name reg' = reg_Name reg ∧ reg_id reg' = reg_id reg.

Lemma set_reg_id_name i c : reg_Name (set_reg_id i c) = reg_Name c.
Proof. by destruct c. Qed.
Lemma set_reg_id_id i c : reg_id (set_reg_id i c) = i.
Proof. by destruct c. Qed.

Lemma Add_wf r n c :
  register_wf r n → (0 ≤ n)%Z → register_wf (Add r n c).1.1 (Add r n c).1.2 ∧ (0 ≤ (Add r n c).1.2)%Z.
Proof.
  intros Hwf Hn. unfold Add. destruct (GetByName r (reg_Name c)) as [[c0 oldId]|] eqn:Hg; simpl.
  - apply GetByName_Some in Hg as [Hr H0]. split; [|done].
    eapply register_wf_insert_old; eauto using set_reg_id_id. by rewrite set_reg_id_name.
  - split; [|lia]. apply register_wf_insert_new; auto using set_reg_id_id.
    rewrite set_reg_id_name. intros id c' ?. by eapply GetByName_None.
Qed.

Lemma GetByName_unique r n name c id es :
  register_wf r n → es ≡ₚ map_to_list r → GetByName r name = Some (c, id) →
  GetByName_loop es name = Some (c, id).
Proof.
  intros Hwf Hp [Hr Hname]%GetByName_Some.
  destruct (GetByName_loop es name) as [[c' id']|] eqn:Hl.
  - apply GetByName_loop_Some in Hl as [Hin Hname']. rewrite Hp in Hin.
    apply elem_of_map_to_list in Hin.
    assert (id' = id) as -> by (eapply (rwf_name _ _ Hwf); eauto; congruence). congruence.
  - exfalso. eapply GetByName_loop_None; eauto. rewrite Hp. by apply elem_of_map_to_list.
Qed.

End create.

(** [Create] on every path: the invariant, and what the register maps to. *)
Lemma Create_spec {Y} (Runtimes : gmap string (@FillRegistration Y)) RC urlPath
    (r r' : Register) (n n' : Id) (name : string) (pol : Challenge Y) replacer res
    (Hwf : register_wf r n) (Hn : (0 ≤ n)%Z)
    (Hrt : map_Forall (λ _, keeps_identity) Runtimes)
    (Hc : Create Runtimes RC urlPath r n name pol replacer = Some (res, r', n')) :
  register_wf r' n' ∧ (n ≤ n')%Z ∧
  match res with
  | Err _ => r' = r
  | Ok reg =>
      reg_Name reg = name ∧ r' = <[reg_id reg := reg]> r ∧
      match GetByName r name with
      | Some (_, oldId) => reg_id reg = oldId ∧ n' = n
      | None => reg_id reg = n' ∧ r !! n' = None
      end
  end.
Proof.
  unfold Create in Hc. destruct (Runtimes !! _) as [f|] eqn:Hf; [|by simplify_eq].
  apply Hrt in Hf. destruct (match default id replacer <$> pc_Conditions pol with [] => _ | _ => _ end)
    as [cond|e]; [|by simplify_eq].
  destruct (GetByName r name) as [[c0 oldId]|] eqn:Hg.
  - destruct (f _ _) as [[reg|]|] eqn:Hreg; [|by simplify_eq..].
    apply Hf in Hreg as [Hname Hid]. simpl in *. simplify_eq.
    apply GetByName_Some in Hg as [Hr H0]. split; [|done].
    eapply register_wf_insert_old; eauto; congruence.
  - destruct (f _ _) as [[reg|]|] eqn:Hreg; simplify_eq.
    2:{ split; [|split; [lia|done]]. eapply register_wf_mono; [done|lia]. }
    apply Hf in Hreg as [Hname Hid]. simpl in *. split; [|split; [lia|]].
    + apply register_wf_insert_new; auto. rewrite Hname. intros id c ?. by eapply GetByName_None.
    + split; [done|]. rewrite Hid. split; [done|]. split; [done|].
      destruct (r !! (n + 1)%Z) eqn:Hr; [|done]. apply (rwf_bound _ _ Hwf) in Hr. lia.
Qed.

(** * Properties *)

(** [Register.Create] keeps the register invariant (unique names, identifiers
    below the counter and equal to the keys) on every path, errors included, for
    runtimes that leave name and identifier alone; when it succeeds, the register
    maps the returned identifier to the registration, every other entry is
    unchanged, and an existing challenge of the same name keeps its identifier. *)
Theorem Create_correct {Y} (Runtimes : gmap string (@FillRegistration Y)) RC urlPath
    (r r' : Register) (n n' : Id) (name : string) (pol : Challenge Y) replacer res
    (Hwf : register_wf r n) (Hn : (0 ≤ n)%Z)
    (Hrt : map_Forall (λ _, keeps_identity) Runtimes)
    (Hc : Create Runtimes RC urlPath r n name pol replacer = Some (res, r', n')) :
  register_wf r' n' ∧ (n ≤ n')%Z ∧
  match res with
  | Err _ => r' = r
  | Ok reg =>
      reg_Name reg = name ∧ r' = <[reg_id reg := reg]> r ∧
      match GetByName r name with
      | Some (_, oldId) => reg_id reg = oldId ∧ n' = n
      | None => reg_id reg = n' ∧ r !! n' = None
      end
  end.
Proof. by eapply Create_spec. Qed.

Lemma Create_correct_witness :
  let rt : gmap string (@FillRegistration unit) := {[ "x" := λ reg _, Some (Ok reg) ]} in
  let pol := mkChallenge [] "x" 0%Z None in
  ∃ res r', Create rt (λ _, Err (ENew "")) "/base" ∅ 0%Z "a" pol None = Some (res, r', 1%Z) ∧ register_wf r' 1%Z.
Proof.
  cbv zeta. eexists _, _. split; [reflexivity|].
  refine (proj1 (Create_correct (Y := unit) {[ "x" := λ reg _, Some (Ok reg) ]} (λ _, Err (ENew ""))
    "/base" ∅ _ 0%Z 1%Z "a" (mkChallenge [] "x" 0%Z None) None _ register_wf_empty _ _ eq_refl)).
  - lia.
  - apply map_Forall_singleton. intros reg y reg' Heq. by simplify_eq.
Defined.

(** The name lookup does not depend on the order in which Go iterates over
    the register: in a register with unique names every order finds the entry of
    that name, if there is one. *)
Theorem GetByName_order (r : Register) (n : Id) (es : list (Id * Registration)) (name : string)
    (Hwf : register_wf r n) (Hes : es ≡ₚ map_to_list r) :
  GetByName_loop es name = GetByName r name.
Proof.
  destruct (GetByName r name) as [[c id]|] eqn:Hg; [by eapply GetByName_unique|].
  destruct (GetByName_loop es name) as [[c id]|] eqn:Hl; [|done]. exfalso.
  apply GetByName_loop_Some in Hl as [Hin Hname]. rewrite Hes in Hin.
  apply elem_of_map_to_list in Hin. by eapply GetByName_None in Hg.
Qed.

Definition demo_registration (id : Id) (name : string) : Registration :=
  mkReg id name ClassBlocking None ("/c/" +:+ name) DefaultDuration None None (S754_zero false)
    DefaultKeyHeaders [] (λ _ _, ret VerifyResultNone).

Definition demo_register : Register := (Add (Add ∅ 0%Z (demo_registration 0%Z "a")).1.1 1%Z
  (demo_registration 0%Z "b")).1.1.

Lemma GetByName_order_witness :
  GetByName_loop (reverse (map_to_list demo_register)) "b" = GetByName demo_register "b".
Proof.
  apply (GetByName_order demo_register 2%Z); [|by rewrite reverse_Permutation].
  refine (proj1 (Add_wf (Add ∅ 0%Z (demo_registration 0%Z "a")).1.1 1%Z
    (demo_registration 0%Z "b") _ _)); [|lia].
  refine (proj1 (Add_wf ∅ 0%Z (demo_registration 0%Z "a") register_wf_empty _)). lia.
Defined.
