(* ===== verification/State.v ===== *)
(** The server state of a running proxy as request handling sees it
    ([lib/state.go], [lib/policy/state.go], [lib/settings/settings.go]) and the
    methods of [lib/interface.go]: none of it changes after [NewState]. *)

From S2P Require Import Prelude GoStrings GoTime NetAddr GoURL Mime UtilsHttp Types Register.
From stdpp Require Import options.

Local Open Scope handler_scope.

(** [policy.StateSettings]. *)
Record StateSettings := mkStateSettings {
  ss_Backends : gmap string Backend;
  ss_MainName : string;
  ss_MainVersion : string;
  ss_ClientIpHeader : string;
  ss_BackendIpHeader : string;
  ss_ChallengeResponseCode : Z }.

(** A value of the [map[string]any] a page template is executed with. *)
Inductive TplVal :=
  | TStr (s : string)
  | TStrings (m : gmap string string)
  | TLinks (l : list (string * string))
  | TTags (l : list (gmap string string))
  | THtmls (l : list string).

Abbreviation TplInput := (gmap string TplVal).

(** [settings.Settings], the part pages use. *)
Record Settings := mkSettings {
  opt_Strings : gmap string string;
  opt_Links : list (string * string);
  opt_ChallengeTemplate : string;
  opt_ChallengeTemplateOverrides : gmap string string }.

(** [State]. [st_templates] maps a template name to its execution (html/template):
    the page, or an error; [st_parseHTML] lists the element nodes of a document in
    order ([golang.org/x/net/html]); [st_DetectContentType] is the content sniffing
    of [net/http], which test recorders apply to responses without a content type;
    [st_cacheBust] is the random text of
    [utils.StaticCacheBust]. *)
Record State := mkState {
  st_settings : StateSettings;
  st_opt : Settings;
  st_privateKey : string;
  st_publicKey : string;
  st_privateKeyFingerprint : string;
  st_urlPath : string;
  st_challenges : Register;
  st_templates : gmap string (TplInput → result string);
  st_parseHTML : string → option (list Node);
  st_DetectContentType : string → string;
  st_cacheBust : string }.

Definition set_challenges (r : Register) (st : State) : State :=
  let 'mkState a b c d e f _ g h i j := st in mkState a b c d e f r g h i j.

Definition GetChallenge (st : State) (id : Id) : option Registration := Register_Get (st_challenges st) id.
Definition GetChallenges (st : State) : Register := st_challenges st.
Definition GetChallengeByName (st : State) (name : string) : option Registration :=
  fst <$> GetByName (st_challenges st) name.
Definition GetBackend (st : State) (host : string) : option Backend :=
  SelectHTTPHandler (ss_Backends (st_settings st)) host.

(** [Strings.Get]. *)
Definition Strings_Get (s : gmap string string) (value : string) : string :=
  default ("string:" +:+ value) (s !! value).

(** [set], which copies over what is there, and [NewStrings]. *)
Definition Strings_set (s v : gmap string string) : gmap string string := v ∪ s.
Definition NewStrings (v : gmap string string) : gmap string string := Strings_set ∅ v.

Definition DefaultStrings : gmap string string :=
  let lf := String (byte_of 10) "" in let tab := String (byte_of 9) "" in
  NewStrings (list_to_map
    [("title_challenge", "Confirming you are a whale");
     ("title_error", "Oh no!");
     ("noscript_warning", "<p>Sadly, you may need to enable JavaScript to get past this challenge. This is required because AI companies have changed the social contract around how website hosting works.</p>");
     ("details_title", "Why am I seeing this?");
     ("details_text", lf +:+ "<p>" +:+ lf +:+ tab
        +:+ "To avoid this Proof of Work (PoW) check, try entering a password at <a href=" +:+ dquote +:+ "/auth" +:+ dquote
        +:+ ">bantculture.com/auth</a>." +:+ lf +:+ "</p>" +:+ lf);
     ("details_contact_admin_with_request_id", "If you have any issues contact the site administrator and provide the following Request Id");
     ("button_refresh_page", "Refresh page");
     ("status_loading_challenge", "Loading challenge");
     ("status_starting_challenge", "Starting challenge");
     ("status_loading", "Loading...");
     ("status_calculating", "Onyx is pouring sproke into your computer...");
     ("status_challenge_success", "Challenge success!");
     ("status_challenge_done_took", "Done! Took");
     ("status_error", "Error:")]).

(** A string is found as it was set, under its old value when it was not set anew; one
    that is nowhere shows its name. *)
Lemma Strings_Get_set s v k :
  Strings_Get (Strings_set s v) k = match v !! k with Some x => x | None => Strings_Get s k end.
Proof. unfold Strings_Get, Strings_set. rewrite lookup_union. destruct (v !! k), (s !! k); done. Qed.

Example DefaultStrings1 :
  (Strings_Get DefaultStrings <$> ["title_challenge"; "title_error"; "x"]) = ["Confirming you are a whale"; "Oh no!"; "string:x"].
Proof. vm_compute. reflexivity. Qed.

(** * Redaction *)

(** [publicRawQuery] ([lib/http.go]): the raw query without the arguments whose key
    starts with the prefix. *)
Definition publicRawQuery (rawQuery : string) : string :=
  EncodeRawQuery (delete_prefix QueryArgPrefix (ParseRawQuery rawQuery).1).

Definition publicRedirect (redirect : string) : string :=
  match Parse redirect with
  | Err _ => ""
  | Ok uri => URL_String (set_RawQuery uri (publicRawQuery (RawQuery uri)))
  end.

(** * Reports

    The methods of [lib/interface.go] write a structured audit record and count an
    event in [lib/metrics.go]. *)
Definition ChallengeDiagnostic (d : RequestData) (id : Id) : string * string :=
  (rd_stateCookieStatus d, default "" (rd_challengeDiagnostic d !! id)).

Definition challengeDiagnostics (reg : Registration) : M (string * string) :=
  d <- get_data;; ret (ChallengeDiagnostic d (reg_id reg)).

Definition audit (event status outcome : string) (reg : Registration) (err : option goerr)
    (redirect : string) : M unit :=
  diag <- challengeDiagnostics reg;;
  emit (EvAudit event status outcome (reg_Name reg) diag.1 diag.2 err (publicRedirect redirect)).

Definition ChallengeFailed (reg : Registration) (err : option goerr) (redirect : string) : M unit :=
  audit "challenge.failed" "failed" "challenge_error" reg err redirect;;
  emit (EvChallenge (reg_Name reg) "fail").
Definition ChallengePassed (reg : Registration) (redirect : string) : M unit :=
  audit "challenge.passed" "passed" "passed" reg None redirect;;
  emit (EvChallenge (reg_Name reg) "pass").
Definition ChallengeIssued (reg : Registration) (redirect : string) : M unit :=
  audit "challenge.issued" "pending" "issued" reg None redirect;;
  emit (EvChallenge (reg_Name reg) "issue").
Definition ChallengeChecked (reg : Registration) (redirect : string) : M unit :=
  audit "challenge.checked" "passed" "existing_proof" reg None redirect;;
  emit (EvChallenge (reg_Name reg) "check").
Definition RuleHit (name : string) : M unit := emit (EvRule name "hit").
Definition RuleMiss (name : string) : M unit := emit (EvRule name "miss").
Definition ActionHit (name : RuleAction) : M unit := emit (EvAction name).

(** * Properties *)

Lemma publicRawQuery_lookup q k :
  (ParseRawQuery (publicRawQuery q)).1 !! k =
    if HasPrefix k QueryArgPrefix then None
    else xs ← (ParseRawQuery q).1 !! k; match kept k xs with [] => None | ys => Some ys end.
Proof.
  unfold publicRawQuery.
  destruct (ParseRawQuery_Encode (delete_prefix QueryArgPrefix (ParseRawQuery q).1)) as [_ Hl];
    [auto with go|].
  rewrite Hl, delete_prefix_lookup. by destruct (HasPrefix k QueryArgPrefix).
Qed.

(** The query the proxy logs, and forwards to backends, holds no argument of the
    proxy: reading it back gives the map of the original query without every key
    that starts with the proxy's prefix, the other keys with all their values in
    order (an empty value of an empty key leaves no trace). *)
Theorem publicRawQuery_redacts (q : string) (k : string) :
  (ParseRawQuery (publicRawQuery q)).1 !! k =
    (if HasPrefix k "__goaway" then None
     else xs ← (ParseRawQuery q).1 !! k; match kept k xs with [] => None | ys => Some ys end) ∧
  (ParseRawQuery (publicRawQuery q)).2 = None.
Proof.
  split; [apply publicRawQuery_lookup|]. unfold publicRawQuery.
  apply ParseRawQuery_Encode. auto with go.
Qed.

(** The redaction compares raw keys, while the verifier reads decoded ones: an
    argument whose key is percent-encoded is honoured and not redacted. *)
Theorem publicRawQuery_encoded_key :
  publicRawQuery "%5f_goaway_token=secret" = "%5f_goaway_token=secret" ∧
  values_Get (ParseQuery "%5f_goaway_token=secret") QueryArgToken = "secret".
Proof. split; vm_compute; reflexivity. Qed.
