(* ===== verification/Key.v ===== *)
(** [lib/challenge/key.go]: challenge keys, the 32 bytes a proof is bound to. *)

From S2P Require Import Prelude GoStrings GoCrypto GoTime NetAddr GoURL Mime Hex Types.
From S2P Require Import Register State.
From stdpp Require Import options.

Local Open Scope go_scope.

(** * Keys and flags *)

Definition KeySize : nat := sha256_Size.

(** [KeyFlags] is a [uint8]. *)
Abbreviation KeyFlags := N.
Definition KeyFlagIsIPv4 : KeyFlags := N.shiftl 1 0.

Definition map_first (f : N → N) (k : Key) : Key :=
  match k with String c k' => String (byte_of (f (byte_val c))) k' | EmptyString => "" end.
Definition first_val (k : Key) : N :=
  match k with String c _ => byte_val c | EmptyString => 0 end.

Definition Key_Set (k : Key) (flags : KeyFlags) : Key := map_first (λ b, N.lor b flags) k.
Definition Key_Get (k : Key) (flags : KeyFlags) : KeyFlags := N.land (first_val k) flags.
Definition Key_Unset (k : Key) (flags : KeyFlags) : Key :=
  map_first (λ b, N.land b (N.lxor flags 0xff)) k.

Definition KeyFromString (s : string) : result Key :=
  b <-? Hex.DecodeString s;
  if bool_decide (String.length b = KeySize) then Ok b
  else Err (ENew "invalid challenge key").

(** * Keys of a request *)

(** [RequestData.NetworkPrefix] ([data.go]). *)
Definition NetworkPrefix (d : RequestData) : Addr :=
  let address := Addr_Unmap (ap_Addr (rd_RemoteAddress d)) in
  if Addr_Is4 address then Addr_PrefixAddr address 24 else Addr_PrefixAddr address 64.

Definition nul : string := of_bytes [byte_of 0].
Definition soh : string := of_bytes [byte_of 1].

Fixpoint hash_values (vs : list string) : string :=
  match vs with [] => "" | v :: vs => v +:+ soh +:+ hash_values vs end.

Fixpoint hash_headers (h : MIMEHeader) (keyHeaders : list string) : string :=
  match keyHeaders with
  | [] => ""
  | k :: ks => k +:+ nul +:+ hash_values (hdr_Values h k) +:+ nul +:+ hash_headers h ks
  end.

(** The two's complement of an [int64], little endian. *)
Definition int64_le (z : Z) : string := of_bytes (le_bytes64 (Z.to_N (z mod 2 ^ 64)%Z)).

(** The bytes written to the hasher, in order. *)
Definition key_preimage (fp : string) (reg : Registration) (keyHeaders : list string)
    (until : Time) (d : RequestData) (r : Request) : string :=
  "challenge" +:+ nul +:+ reg_Name reg +:+ nul +:+
  Addr_As16 (NetworkPrefix d) +:+ nul +:+
  hash_headers (rq_Header r) keyHeaders +:+ nul +:+
  int64_le (Time_Unix until) +:+ nul +:+
  fp +:+ nul.

Definition getChallengeKeyForRequest (fp : string) (reg : Registration) (keyHeaders : list string)
    (until : Time) (d : RequestData) (r : Request) : Key :=
  let sum := sha256 (key_preimage fp reg keyHeaders until d r) in
  let sum := map_first (λ _, 0%N) sum in
  if Addr_Is4 (Addr_Unmap (ap_Addr (rd_RemoteAddress d))) then Key_Set sum KeyFlagIsIPv4 else sum.

Definition GetChallengeKeyForRequest (st : State) (reg : Registration) (until : Time)
    (d : RequestData) (r : Request) : Key :=
  getChallengeKeyForRequest (st_privateKeyFingerprint st) reg (reg_KeyHeaders reg) until d r.

(** * Lemmas *)

Lemma map_first_length f k : String.length (map_first f k) = String.length k.
Proof. by destruct k. Qed.

Lemma getChallengeKey_length fp reg hs u d r :
  String.length (getChallengeKeyForRequest fp reg hs u d r) = KeySize.
Proof.
  unfold getChallengeKeyForRequest, Key_Set. case_match; rewrite !map_first_length; apply length_sha256.
Qed.

(** The digest without its first byte, which holds the flags. *)
Definition digest_tail (m : string) : string :=
  match sha256 m with String _ t => t | EmptyString => "" end.

Lemma sha256_split m : ∃ c, sha256 m = String c (digest_tail m).
Proof.
  unfold digest_tail. pose proof (length_sha256 m) as Hl.
  destruct (sha256 m) as [|c t]; [done|by exists c].
Qed.

(** A key is the flag byte and the digest tail. *)
Lemma getChallengeKey_eq fp reg hs u d r :
  getChallengeKeyForRequest fp reg hs u d r =
  String (byte_of (if Addr_Is4 (Addr_Unmap (ap_Addr (rd_RemoteAddress d))) then 1 else 0))
    (digest_tail (key_preimage fp reg hs u d r)).
Proof.
  unfold getChallengeKeyForRequest. destruct (sha256_split (key_preimage fp reg hs u d r)) as [c ->].
  by destruct (Addr_Is4 _).
Qed.

Definition no_ctl (s : string) : Prop := string_forallb (λ c, (1 <? byte_val c)%N) s = true.

Lemma no_ctl_cons c s : no_ctl (String c s) ↔ (1 < byte_val c)%N ∧ no_ctl s.
Proof. unfold no_ctl. rewrite string_forallb_cons, andb_true_iff, N.ltb_lt. done. Qed.

(** A text without control bytes followed by a separator is read back uniquely. *)
Lemma no_ctl_app_inj s s' (c c' : ascii) t t' :
  no_ctl s → no_ctl s' → (byte_val c ≤ 1)%N → (byte_val c' ≤ 1)%N →
  s +:+ String c t = s' +:+ String c' t' → s = s' ∧ c = c' ∧ t = t'.
Proof.
  revert s'. induction s as [|x s IH]; intros [|x' s'] Hs Hs' Hc Hc' Heq;
    rewrite ?string_app_cons, ?string_app_nil_l in Heq; simplify_eq/=.
  - done.
  - apply no_ctl_cons in Hs' as [? _]. lia.
  - apply no_ctl_cons in Hs as [? _]. lia.
  - apply no_ctl_cons in Hs as [_ ?], Hs' as [_ ?].
    destruct (IH s') as (-> & -> & ->); auto.
Qed.

Lemma soh_eq : soh = String (byte_of 1) "". Proof. done. Qed.
Lemma nul_eq : nul = String (byte_of 0) "". Proof. done. Qed.
Lemma byte0 : byte_val (byte_of 0) = 0%N. Proof. done. Qed.
Lemma byte1 : byte_val (byte_of 1) = 1%N. Proof. done. Qed.

Lemma hash_values_inj vs vs' t t' :
  Forall no_ctl vs → Forall no_ctl vs' →
  hash_values vs +:+ nul +:+ t = hash_values vs' +:+ nul +:+ t' → vs = vs' ∧ t = t'.
Proof.
  rewrite nul_eq. revert vs'.
  induction vs as [|v vs IH]; intros [|v' vs'] Hv Hv' Heq; simpl in Heq;
    rewrite ?soh_eq, <- ?string_app_assoc, ?string_app_cons, ?string_app_nil_l in Heq.
  - by simplify_eq.
  - apply Forall_cons in Hv' as [Hv' _].
    pose proof (no_ctl_app_inj "" v' (byte_of 0) (byte_of 1) t
      (hash_values vs' +:+ String (byte_of 0) t')) as H.
    destruct H as (_ & H & _); done.
  - apply Forall_cons in Hv as [Hv _].
    pose proof (no_ctl_app_inj v "" (byte_of 1) (byte_of 0)
      (hash_values vs +:+ String (byte_of 0) t) t') as H.
    destruct H as (_ & H & _); done.
  - apply Forall_cons in Hv as [Hv Hvs], Hv' as [Hv' Hvs'].
    apply no_ctl_app_inj in Heq as (-> & _ & Heq); [|done..].
    destruct (IH vs') as [-> ->]; auto.
Qed.

(** The values of the key headers of a request. *)
Definition header_values (h : MIMEHeader) (keyHeaders : list string) : list (list string) :=
  hdr_Values h <$> keyHeaders.

Lemma hash_headers_inj h h' hs t t' :
  Forall (Forall no_ctl) (header_values h hs) → Forall (Forall no_ctl) (header_values h' hs) →
  hash_headers h hs +:+ t = hash_headers h' hs +:+ t' →
  header_values h hs = header_values h' hs ∧ t = t'.
Proof.
  induction hs as [|k hs IH]; simpl; [done|]. intros [Hv Hvs]%Forall_cons [Hv' Hvs']%Forall_cons Heq.
  rewrite <-!string_app_assoc in Heq. do 2 apply string_app_inj_l in Heq.
  apply hash_values_inj in Heq as [Hval Heq]; [|done..].
  destruct (IH Hvs Hvs' Heq) as [-> ->]. by rewrite Hval.
Qed.

Lemma le_bytes64_be n : le_bytes64 n = reverse (be_bytesN 8 n).
Proof. reflexivity. Qed.

Lemma int64_le_inj z z' :
  (- 2 ^ 63 ≤ z < 2 ^ 63)%Z → (- 2 ^ 63 ≤ z' < 2 ^ 63)%Z → int64_le z = int64_le z' → z = z'.
Proof.
  intros Hz Hz' Heq. unfold int64_le in Heq. apply (f_equal bytes) in Heq.
  rewrite !bytes_of_bytes, !le_bytes64_be in Heq. apply (f_equal reverse) in Heq.
  rewrite !reverse_involutive in Heq.
  assert (Hm : ∀ x, (0 ≤ x mod 2 ^ 64 < 2 ^ 64)%Z) by (intros x; by apply Z.mod_pos_bound).
  apply be_bytesN_inj in Heq.
  2,3: apply N2Z.inj_lt; rewrite Z2N.id; [apply Hm|apply Hm].
  apply Z2N.inj in Heq; [|apply Hm..].
  assert (E : ∀ x, (- 2 ^ 63 ≤ x < 2 ^ 63)%Z →
    (x mod 2 ^ 64 = if bool_decide (0 ≤ x) then x else x + 2 ^ 64)%Z).
  { intros x Hx. case_bool_decide; [apply Z.mod_small; lia|].
    rewrite <-(Z.mod_add _ 1) by lia. apply Z.mod_small. lia. }
  rewrite (E z), (E z') in Heq by done. repeat case_bool_decide; lia.
Qed.

Lemma int64_le_length z : String.length (int64_le z) = 8.
Proof. unfold int64_le. rewrite length_of_bytes. reflexivity. Qed.

(** What a key binds. *)
Lemma key_preimage_inj fp fp' reg hs u u' d d' r r' :
  Forall (Forall no_ctl) (header_values (rq_Header r) hs) →
  Forall (Forall no_ctl) (header_values (rq_Header r') hs) →
  (- 2 ^ 63 ≤ Time_Unix u < 2 ^ 63)%Z → (- 2 ^ 63 ≤ Time_Unix u' < 2 ^ 63)%Z →
  key_preimage fp reg hs u d r = key_preimage fp' reg hs u' d' r' →
  Addr_As16 (NetworkPrefix d) = Addr_As16 (NetworkPrefix d') ∧
  header_values (rq_Header r) hs = header_values (rq_Header r') hs ∧
  Time_Unix u = Time_Unix u' ∧ fp = fp'.
Proof.
  intros Hh Hh' Hu Hu' Heq. unfold key_preimage in Heq.
  do 4 apply string_app_inj_l in Heq.
  apply string_app_inj in Heq as [HA Heq]; [|by rewrite !Addr_As16_length].
  apply string_app_inj_l in Heq. apply hash_headers_inj in Heq as [HH Heq]; [|done..].
  apply string_app_inj_l in Heq.
  apply string_app_inj in Heq as [HU Heq]; [|by rewrite !int64_le_length].
  apply string_app_inj_l in Heq. apply int64_le_inj in HU; [|done..].
  assert (fp = fp') as ->; [|done].
  apply (f_equal rev_string) in Heq. unfold rev_string in Heq.
  rewrite !bytes_app, !reverse_app, !of_bytes_app in Heq. apply string_app_inj_l in Heq.
  apply (f_equal bytes) in Heq. rewrite !bytes_of_bytes in Heq.
  apply (f_equal reverse) in Heq. rewrite !reverse_involutive in Heq. by apply bytes_inj.
Qed.

(** * Properties *)

(** C15: Two requests get the same challenge key for a challenge exactly when they
    agree on the client network (/24 or /64), on the values of every key header, on
    the expiry second and on the server key, and on being IPv4; header values have
    no control bytes (the HTTP server refuses them) and the two hash inputs do not
    collide in the 31 digest bytes a key keeps. *)
Theorem Key_binding fp fp' (reg : Registration) hs u u' d d' r r'
    (Hh : Forall (Forall no_ctl) (header_values (rq_Header r) hs))
    (Hh' : Forall (Forall no_ctl) (header_values (rq_Header r') hs))
    (Hu : (- 2 ^ 63 ≤ Time_Unix u < 2 ^ 63)%Z) (Hu' : (- 2 ^ 63 ≤ Time_Unix u' < 2 ^ 63)%Z)
    (Hcol : digest_tail (key_preimage fp reg hs u d r) =
            digest_tail (key_preimage fp' reg hs u' d' r') →
            key_preimage fp reg hs u d r = key_preimage fp' reg hs u' d' r') :
  getChallengeKeyForRequest fp reg hs u d r = getChallengeKeyForRequest fp' reg hs u' d' r' ↔
  Addr_As16 (NetworkPrefix d) = Addr_As16 (NetworkPrefix d') ∧
  header_values (rq_Header r) hs = header_values (rq_Header r') hs ∧
  Time_Unix u = Time_Unix u' ∧ fp = fp' ∧
  Addr_Is4 (Addr_Unmap (ap_Addr (rd_RemoteAddress d))) =
  Addr_Is4 (Addr_Unmap (ap_Addr (rd_RemoteAddress d'))).
Proof.
  rewrite !getChallengeKey_eq. split.
  - intros Heq. injection Heq as Hflag Htail.
    apply Hcol, key_preimage_inj in Htail as (? & ? & ? & ?); [|done..].
    do 4 (split; [done|]). destruct (Addr_Is4 _), (Addr_Is4 _); done.
  - intros (HA & HH & HU & -> & ->). do 2 f_equal. unfold key_preimage.
    rewrite HA, HU. do 6 f_equal. clear -HH. f_equal.
    induction hs as [|k hs IH]; simpl in *; [done|]. injection HH as Hv Hvs.
    rewrite Hv. by rewrite (IH Hvs).
Qed.

Definition demo_h (lang : string) : MIMEHeader :=
  {[ "User-Agent" := ["agent"]; "Accept-Language" := [lang] ]}.

(** Another address of the same /24 and another value of an unbound header. *)
Lemma Key_binding_witness :
  getChallengeKeyForRequest "fp" (demo_registration 1%Z "pow") StableBrowserKeyHeaders 0%Z
    (demo_data 0%Z (Addr4 0xC0000207)) (demo_request (demo_h "en")) =
  getChallengeKeyForRequest "fp" (demo_registration 1%Z "pow") StableBrowserKeyHeaders 0%Z
    (demo_data 0%Z (Addr6 0xFFFFC00002FE "eth0")) (demo_request (demo_h "fr")).
Proof.
  apply (Key_binding "fp" "fp" (demo_registration 1%Z "pow") StableBrowserKeyHeaders 0%Z 0%Z);
    [repeat constructor..|by vm_compute|by vm_compute| |].
  - intros _. reflexivity.
  - repeat split; reflexivity.
Defined.

(** The text form of a key (hexadecimal) is read back by [KeyFromString] to the
    same key, and every key a request gets has it. *)
Theorem Key_roundtrip fp (reg : Registration) hs u d r :
  KeyFromString (EncodeToString (getChallengeKeyForRequest fp reg hs u d r)) =
    Ok (getChallengeKeyForRequest fp reg hs u d r).
Proof.
  unfold KeyFromString. rewrite DecodeString_EncodeToString. simpl.
  by rewrite getChallengeKey_length, bool_decide_true.
Qed.
