(* ===== verification/Data.v ===== *)
(** [lib/challenge/data.go]: the request data, challenge tokens and their
    verification, the encrypted state cookie, and the headers the proxy adds. *)

From S2P Require Import Prelude GoStrings GoCrypto GoTime NetAddr GoURL Mime Hex UtilsHttp.
From S2P Require Import GoNetip Types Cookie Register State Key.
From stdpp Require Import options.

Local Open Scope handler_scope.

(** * The JOSE library ([github.com/go-jose/go-jose]) *)

Class Jose := {
  EncToken : Type;
  SignedToken : Type;
  (** [NumericDate.Time()]. *)
  jose_Time : NumericDate → Time;
  (** The error of [NewSigner] for a private key, of [NewEncrypter] for a key. *)
  jose_NewSigner : string → option goerr;
  jose_NewEncrypter : string → option goerr;
  (** Sign with a private key, encrypt with a key, serialize. *)
  jose_Serialize : string → string → Token → result string;
  (** [ParseSignedAndEncrypted], [Decrypt] with a key, [Claims] with a public key. *)
  jose_Parse : string → result EncToken;
  jose_Decrypt : EncToken → string → result SignedToken;
  jose_Claims : SignedToken → string → result Token }.

(** What the library documents, for the key pair of a server: numeric dates are
    Unix seconds; well-formed keys are accepted; a serialized token is parsed,
    decrypted under its key and verified under the public key to the same claims;
    the compact form is base64url text with dots; a token sealed under another key
    does not decrypt. Names are ASCII (JSON text
    replaces bytes that are not UTF-8). *)
Class JoseLaws `{Jose} (priv pub : string) := {
  law_Time : ∀ n, jose_Time n = Unix n;
  law_signer : jose_NewSigner priv = None;
  law_encrypter : ∀ k, String.length k = 32 → jose_NewEncrypter k = None;
  law_serialize : ∀ k t, String.length k = 32 → is_ok (jose_Serialize priv k t) = true;
  law_open : ∀ k t s, String.length k = 32 →
    map_Forall (λ name _, string_forallb (λ c, (byte_val c <? 128)%N) name = true) (default ∅ (tok_State t)) →
    jose_Serialize priv k t = Ok s →
    ∃ e sg, jose_Parse s = Ok e ∧ jose_Decrypt e k = Ok sg ∧ jose_Claims sg pub = Ok t;
  law_text : ∀ k t s, jose_Serialize priv k t = Ok s →
    string_forallb (λ c, is_alnum c || one_of "-_." c) s = true;
  law_sealed : ∀ k k' t s e, jose_Serialize priv k t = Ok s → jose_Parse s = Ok e →
    k ≠ k' → is_ok (jose_Decrypt e k') = false }.

(** * Request data *)

Definition RequestId_String (id : string) : string := EncodeToString id.

Definition cookieHostKey (host : string) (d : RequestData) : string :=
  let sum := sha256 (host +:+ nul +:+ Addr_AsSlice (NetworkPrefix d) +:+ nul) in
  substring_to 6 sum.

Definition cookieKey (st : State) (host : string) (d : RequestData) : string :=
  sha256 (host +:+ nul +:+ Addr_AsSlice (NetworkPrefix d) +:+ nul +:+ st_privateKey st +:+ nul +:+
          "1.0/DEFLATE" +:+ nul).

Definition set_cookieName (n : string) (d : RequestData) : RequestData :=
  let 'mkRequestData a b c e f g h i j k _ l m o p q := d in
  mkRequestData a b c e f g h i j k n l m o p q.

(** [CreateRequestData]: [rid] is the random id, [now] the time, [ja3n] and [ja4]
    the TLS fingerprints of the connection, when there are any. *)
Definition CreateRequestData (st : State) (rid : string) (now : Time) (ja3n ja4 : option string)
    (r : Request) : RequestData :=
  let q := URL_Query (rq_URL r) in
  let d := mkRequestData rid now ∅ ∅ ∅ None false false ""
    (GetRequestAddress r (ss_ClientIpHeader (st_settings st))) ""
    (if values_Has q QueryArgChallenge then values_Get q QueryArgChallenge else "")
    ∅
    (partial_alter (λ _, ja4) "ja4" (partial_alter (λ _, ja3n) "ja3n" ∅))
    (delete_prefix QueryArgPrefix q) ∅ in
  set_cookieName (DefaultCookiePrefix +:+ EncodeToString (cookieHostKey (rq_Host r) d) +:+ "-state") d.

Definition RequestOptBackendHost : string := "backend-host".
Definition RequestOptProxyMetaTags : string := "proxy-meta-tags".
Definition RequestOptProxySafeLinkTags : string := "proxy-safe-link-tags".

Definition SetOpt (n v : string) : M unit := upd_data (upd_opts (λ o, <[n := v]> o)).

Definition GetOpt (d : RequestData) (n def : string) : string := default def (rd_opts d !! n).

Definition GetOptBool (d : RequestData) (n : string) (def : bool) : bool :=
  match rd_opts d !! n with
  | None => def
  | Some v =>
      if bool_decide (v ∈ ["true"; "t"; "1"; "yes"; "yep"; "y"; "ok"]) then true
      else if bool_decide (v ∈ ["false"; "f"; "0"; "no"; "nope"; "n"; "err"]) then false
      else def
  end.

Definition BackendHost (st : State) (d : RequestData) (r : Request) : option Backend * string :=
  let host := rq_Host r in
  let opt := GetOpt d RequestOptBackendHost "" in
  let host := if negb (bool_decide (opt = "")) && negb (bool_decide (opt = host))
              then rq_Host r else host in
  (GetBackend st host, host).

(** * Tokens *)

Definition ErrVerifyKeyMismatch : goerr := ENamed "verify: key mismatch".
Definition ErrVerifyVerifyMismatch : goerr := ENamed "verify: verification mismatch".
Definition ErrTokenExpired : goerr := ENamed "token: expired".
Definition ErrNoCookie : goerr := ENamed "http: named cookie not present".
Definition ErrTokenNotYet : goerr := ENew "token not valid yet".

Definition err_is (e : option goerr) (target : goerr) : bool :=
  match e with Some e => errorsIs e target | None => false end.

(** [delete(d.ChallengeMap, reg.Name)]: deleting from a nil map does nothing. *)
Definition ClearChallengeToken (reg : Registration) : M unit :=
  upd_data (λ d, set_ChallengeMap (delete (reg_Name reg) <$> rd_ChallengeMap d) d).

(** The evaluation order of Go: the clock is read before the map is written; a
    write to a nil map panics. *)
Definition IssueChallengeToken (reg : Registration) (key : Key) (res : string) (until : Time)
    (ok : bool) : M unit :=
  if negb ok then ret ()
  else
    t <- now;;
    d <- get_data;;
    match rd_ChallengeMap d with
    | None => panic (ENew "assignment to entry in nil map")
    | Some m =>
        upd_data (set_ChallengeMap (Some
          (<[reg_Name reg := mkTokenChallenge key res ok (Time_Unix until) 0 (Time_Unix t)]> m)));;
        upd_data (set_MapModified true)
    end.

Definition Expiration (d : RequestData) (duration : Duration) : Time :=
  Time_Round (Time_Add (rd_Time d) duration) duration.

Definition HasValidChallenge (d : RequestData) (id : Id) : bool := VerifyResult_Ok (rd_verify d id).

Definition HasAnyValidChallenge (d : RequestData) : bool :=
  existsb (λ kr, VerifyResult_Ok kr.2) (map_to_list (rd_ChallengeVerify d)).

Section tokens.
  Context `{Jose} (st : State).

(** [VerifyChallengeToken]. *)
Definition VerifyChallengeToken (reg : Registration) (token : TokenChallenge) (expectedKey : Key) :
    M (VerifyResult * VerifyState * option goerr) :=
  t1 <- now;;
  if (Time_Compare (jose_Time (tc_Expiry token)) t1 <? 0)%Z
  then ret (VerifyResultFail, VerifyStateNone, Some ErrTokenExpired)
  else
    t2 <- now;;
    if (0 <? Time_Compare (jose_Time (tc_NotBefore token)) t2)%Z
    then ret (VerifyResultFail, VerifyStateNone, Some ErrTokenNotYet)
    else if negb (bool_decide (expectedKey = tc_Key token))
    then ret (VerifyResultFail, VerifyStateNone, Some ErrVerifyKeyMismatch)
    else
      let brief := if tc_Ok token then (VerifyResultOK, VerifyStateBrief, None)
                   else (VerifyResultNotOK, VerifyStateBrief, None) in
      match reg_Verify reg with
      | None => ret brief
      | Some verify =>
          f <- float64;;
          if SFltb f (reg_VerifyProbability reg) then
            r <- get_req;;
            ret (let '(ok, err) := verify expectedKey (tc_Result token) r in
                 match err with
                 | Some e => (VerifyResultFail, VerifyStateFull, Some e)
                 | None =>
                     if bool_decide (ok = VerifyResultNotOK)
                     then (VerifyResultNotOK, VerifyStateFull, None)
                     else if negb (VerifyResult_Ok ok)
                     then (ok, VerifyStateFull, Some ErrVerifyVerifyMismatch)
                     else (ok, VerifyStateFull, None)
                 end)
          else ret brief
      end.

(** The legacy retry of [verifyChallenge] after a key mismatch. *)
Definition verify_legacy (reg : Registration) (token : TokenChallenge)
    (res : VerifyResult * VerifyState * option goerr) : M (VerifyResult * VerifyState * option goerr) :=
  if err_is res.2 ErrVerifyKeyMismatch && (0 <? length (reg_LegacyKeyHeaders reg)) then
    d <- get_data;; r <- get_req;;
    VerifyChallengeToken reg token
      (getChallengeKeyForRequest (st_privateKeyFingerprint st) reg (reg_LegacyKeyHeaders reg)
         (Expiration d (reg_Duration reg)) d r)
  else ret res.

(** Does the condition of the challenge evaluate to a boolean other than true? *)
Definition condition_skips (reg : Registration) (d : RequestData) (r : Request) : bool :=
  match reg_Condition reg with
  | None => false
  | Some prog =>
      match prog (ResolveName d r) with
      | (Some (CelBool b), None) => negb b
      | _ => false
      end
  end.

(** The final test of [verifyChallenge]: a challenge that was just issued is
    skipped, to prevent loops. *)
Definition verify_issued (reg : Registration) (res : VerifyResult * VerifyState * option goerr) :
    M (VerifyResult * VerifyState * option goerr) :=
  d <- get_data;;
  if negb (VerifyResult_Ok res.1.1) && bool_decide (rd_issuedChallenge d = reg_Name reg)
  then ret (VerifyResultSkip, res.1.2, res.2)
  else ret res.

Definition verifyChallenge (reg : Registration) (key : Key) :
    M (VerifyResult * VerifyState * option goerr) :=
  d <- get_data;;
  match default ∅ (rd_ChallengeMap d) !! reg_Name reg with
  | None => verify_issued reg (VerifyResultFail, VerifyStateNone, None)
  | Some token =>
      res <- VerifyChallengeToken reg token key;;
      res <- verify_legacy reg token res;;
      (if bool_decide (res.2 ≠ None) && negb (err_is res.2 ErrNoCookie)
       then ClearChallengeToken reg else ret ());;
      d <- get_data;; r <- get_req;;
      if negb (VerifyResult_Ok res.1.1) && condition_skips reg d r
      then ret (VerifyResultSkip, res.1.2, None)
      else verify_issued reg res
  end.

Definition challengeStateErrorCategory (err : goerr) : string :=
  if errorsIs err ErrNoCookie then "missing"
  else if errorsIs err ErrTokenExpired then "expired"
  else "invalid".

Definition challengeVerificationCategory (tokenPresent : bool) (res : VerifyResult)
    (err : option goerr) : string :=
  if VerifyResult_Ok res then "valid"
  else if negb tokenPresent then "missing"
  else if err_is err ErrTokenExpired then "expired"
  else if err_is err ErrVerifyKeyMismatch then "key_mismatch"
  else if err_is err ErrVerifyVerifyMismatch then "verification_mismatch"
  else if bool_decide (err ≠ None) then "invalid"
  else if bool_decide (res = VerifyResultSkip) then "skipped"
  else "rejected".

(** * The state cookie *)

Definition verifyChallengeStateCookie (cookie : option Cookie) : M (result TokenChallengeMap) :=
  match cookie with
  | None => ret (Err ErrNoCookie)
  | Some cookie =>
      d <- get_data;; r <- get_req;;
      match (encryptedToken <-? jose_Parse (ck_Value cookie);
             signedToken <-? jose_Decrypt encryptedToken (cookieKey st (rq_Host r) d);
             jose_Claims signedToken (st_publicKey st))%go with
      | Err e => ret (Err e)
      | Ok i =>
          t1 <- now;;
          if (Time_Compare (jose_Time (tok_Expiry i)) t1 <? 0)%Z then ret (Err ErrTokenExpired)
          else
            t2 <- now;;
            if (0 <? Time_Compare (jose_Time (tok_NotBefore i)) t2)%Z then ret (Err ErrTokenNotYet)
            else ret (Ok (tok_State i))
      end
  end.

(** The loop of [verifyChallengeState] over the cookies of the state's name; [last]
    is the result so far. *)
Fixpoint state_loop (cookies : list Cookie) (last : result TokenChallengeMap) :
    M (result TokenChallengeMap) :=
  match cookies with
  | [] => ret last
  | cookie :: cookies =>
      res <- verifyChallengeStateCookie (Some cookie);;
      match res with Ok _ => ret res | Err _ => state_loop cookies res end
  end.

Definition verifyChallengeState : M (result TokenChallengeMap) :=
  d <- get_data;; r <- get_req;;
  state_loop (filter (λ c, ck_Name c = rd_cookieName d) (rq_Cookies r)) (Err ErrNoCookie).

(** The clock is read for [NotBefore] before [IssuedAt]. *)
Definition issueChallengeState (until : Time) : M (result string) :=
  match jose_NewSigner (st_privateKey st) with
  | Some e => ret (Err e)
  | None =>
      d <- get_data;; r <- get_req;;
      let key := cookieKey st (rq_Host r) d in
      match jose_NewEncrypter key with
      | Some e => ret (Err e)
      | None =>
          t1 <- now;; t2 <- now;;
          ret (jose_Serialize (st_privateKey st) key
            (mkToken (rd_ChallengeMap d) (Time_Unix until) (Time_Unix (Time_AddDays t1 (-1)))
               (Time_Unix t2)))
      end
  end.

(** * Evaluation of all challenges *)

(** One iteration of the loop of [EvaluateChallenges]. *)
Definition evaluate_one (reg : Registration) : M unit :=
  d <- get_data;; r <- get_req;;
  let tokenPresent := bool_decide (is_Some (default ∅ (rd_ChallengeMap d) !! reg_Name reg)) in
  let key := GetChallengeKeyForRequest st reg (Expiration d (reg_Duration reg)) d r in
  res <- verifyChallenge reg key;;
  upd_data (upd_Diagnostic (λ m,
    <[reg_id reg := challengeVerificationCategory tokenPresent res.1.1 res.2]> m));;
  (if bool_decide (res.2 ≠ None) then ClearChallengeToken reg else ret ());;
  upd_data (upd_Verify (λ m, <[reg_id reg := res.1.1]> m));;
  upd_data (upd_State (λ m, <[reg_id reg := res.1.2]> m)).

Fixpoint evaluate_all (regs : list Registration) : M unit :=
  match regs with
  | [] => ret ()
  | reg :: regs => evaluate_one reg;; evaluate_all regs
  end.

(** [EvaluateChallenges], with the registrations in the order Go happens to
    iterate over the register. *)
Definition EvaluateChallenges (regs : list Registration) : M unit :=
  res <- verifyChallengeState;;
  (match res with
   | Err e => upd_data (set_cookieStatus (challengeStateErrorCategory e));;
              upd_data (set_ChallengeMap (Some ∅))
   | Ok m => upd_data (set_cookieStatus "valid");; upd_data (set_ChallengeMap m)
   end);;
  evaluate_all regs.

(** * Headers *)

Definition broadVaryHeaderValue : string :=
  "Cookie, Accept, Accept-Encoding, Accept-Language, User-Agent".

Definition applyBroadVary : M unit :=
  upd_data (set_broadVary true);; w_Set "Vary" broadVaryHeaderValue.

Definition ResponseHeaders : M unit :=
  applyBroadVary;;
  r <- get_req;;
  (let s := st_settings st in
   if negb (bool_decide (ss_MainName s = ""))
   then w_Add "Via" (rq_Proto r +:+ " " +:+ ss_MainName s +:+ "@" +:+ ss_MainVersion s)
   else ret ());;
  d <- get_data;;
  if rd_challengeMapModified d then
    let expiration := Expiration d DefaultDuration in
    res <- issueChallengeState expiration;;
    match res with
    | Ok token => upd_w (upd_w_Header (SetCookie (rd_cookieName d) token expiration (rq_Host r)))
    | Err _ => ret ()
    end
  else ret ().

Definition ClearChallengeState : M unit :=
  d <- get_data;; r <- get_req;; t <- now;;
  upd_w (upd_w_Header (ClearCookie (rd_cookieName d) t (rq_Host r))).

(** The loop of [RequestHeaders] over the verification results, in iteration order. *)
Fixpoint result_headers (d : RequestData) (results : list (Id * VerifyResult)) (headers : MIMEHeader) :
    result MIMEHeader :=
  match results with
  | [] => Ok headers
  | (id, res) :: results =>
      if VerifyResult_Ok res then
        match GetChallenge st id with
        | None => Err (ENew "challenge not found")
        | Some c =>
            match VerifyState_String (rd_state d id) with
            | None => Err (ENew "unsupported")
            | Some s =>
                result_headers d results
                  (hdr_Set (hdr_Set headers ("X-Away-Challenge-" +:+ reg_Name c +:+ "-Result")
                              (VerifyResult_String res))
                     ("X-Away-Challenge-" +:+ reg_Name c +:+ "-State") s)
            end
        end
      else result_headers d results headers
  end.

(** [RequestHeaders]; an [Err] is a panic. *)
Definition RequestHeaders (d : RequestData) (headers : MIMEHeader) : result MIMEHeader :=
  let headers := hdr_Set headers "X-Away-Id" (RequestId_String (rd_Id d)) in
  let s := st_settings st in
  let headers :=
    if negb (bool_decide (ss_BackendIpHeader s = "")) then
      let headers := if negb (bool_decide (ss_ClientIpHeader s = ""))
                     then hdr_Del headers (ss_ClientIpHeader s) else headers in
      hdr_Set headers (ss_BackendIpHeader s) (Addr_String (Addr_Unmap (ap_Addr (rd_RemoteAddress d))))
    else headers in
  (headers <-? result_headers d (map_to_list (rd_ChallengeVerify d)) headers;
   let headers := match rd_fp d !! "ja4" with
                  | Some v => hdr_Set headers "X-TLS-Fingerprint-JA4" v | None => headers end in
   let headers := match rd_fp d !! "ja3n" with
                  | Some v => hdr_Set headers "X-TLS-Fingerprint-JA3N" v | None => headers end in
   Ok (rd_ExtraHeaders d ∪ headers))%go.

End tokens.
