(* ===== verification/Backends.v ===== *)
(** [lib/settings/backend.go], [MakeReverseProxy] of [utils/http.go] and
    [utils/unix.go]: the reverse proxies in front of the backends, what they dial and
    how they rewrite the requests they forward. *)

From S2P Require Import Prelude GoStrings GoTime NetAddr GoURL Mime GoNetip Types Cookie Register State Key Data.
From stdpp Require Import options.

Local Open Scope go_scope.

(** [settings.Backend]. *)
Record BackendSettings := mkBackendSettings {
  bs_URL : string; bs_Host : string; bs_HTTP2Enabled : bool; bs_TLSSkipVerify : bool; bs_IpHeader : string;
  bs_GoDNS : bool; bs_Transparent : bool; bs_DialTimeout : Duration; bs_TLSHandshakeTimeout : Duration;
  bs_IdleConnTimeout : Duration; bs_ResponseHeaderTimeout : Duration; bs_ExpectContinueTimeout : Duration }.

(** What a transport dials. *)
Inductive Dial := DialUnix (addr : string) (timeout : Duration) | DialGo (timeout : Duration) | DialNet (timeout : Duration).

(** [http.Transport], the fields that are set. *)
Record Transport := mkTransport {
  tr_Dial : Dial; tr_UnixProtocol : bool; tr_TLSHandshakeTimeout : Duration; tr_IdleConnTimeout : Duration;
  tr_ResponseHeaderTimeout : Duration; tr_ExpectContinueTimeout : Duration; tr_ForceAttemptHTTP2 : bool;
  tr_InsecureSkipVerify : bool; tr_ServerName : string }.

(** [httputil.ReverseProxy]: the director rewrites a request, given the data and the
    remote address in its context; the data comes with its [State]. An [Err] is a panic. *)
Definition Director : Type := option (State * RequestData) → option AddrPort → Request → result Request.
Record ReverseProxy := mkReverseProxy { rp_Director : Director; rp_Transport : Transport }.

(** ** [httputil.NewSingleHostReverseProxy] *)


Definition joinURLPath (a b : URL) : string * string :=
  if bool_decide (RawPath a = "") && bool_decide (RawPath b = "") then
    (match HasSuffix (Path a) "/", HasPrefix (Path b) "/" with
     | true, true => Path a +:+ substring_from 1 (Path b)
     | false, false => Path a +:+ "/" +:+ Path b
     | _, _ => Path a +:+ Path b
     end, "")
  else
    let apath := EscapedPath a in
    let bpath := EscapedPath b in
    match HasSuffix apath "/", HasPrefix bpath "/" with
    | true, true => (Path a +:+ substring_from 1 (Path b), apath +:+ substring_from 1 bpath)
    | false, false => (Path a +:+ "/" +:+ Path b, apath +:+ "/" +:+ bpath)
    | _, _ => (Path a +:+ Path b, apath +:+ bpath)
    end.

Definition rewriteRequestURL (target u : URL) : URL :=
  let '(path, rawPath) := joinURLPath target u in
  let query := if bool_decide (RawQuery target = "") || bool_decide (RawQuery u = "")
               then RawQuery target +:+ RawQuery u else RawQuery target +:+ "&" +:+ RawQuery u in
  mkURL (Scheme target) (Opaque u) (User u) (Host target) path rawPath (OmitHost u) (ForceQuery u) query
    (Fragment u) (RawFragment u).

Definition single_host (target : URL) : Director := λ _ _ r, Ok (upd_rq_URL (rewriteRequestURL target) r).

(** ** [MakeReverseProxy]

    [http.DefaultTransport] attempts HTTP/2 and has timeouts of its own. *)
Definition DefaultTransport (dial : Dial) (unix : bool) : Transport :=
  mkTransport dial unix (10 * Second)%Z (90 * Second)%Z 0%Z Second true false "".

Definition MakeReverseProxy (target : string) (goDns : bool) (dialTimeout : Duration) : result ReverseProxy :=
  match Parse target with
  | Err e => Err (EWrap "failed to parse target URL: " e)
  | Ok u =>
      if bool_decide (Scheme u = "unix") then
        Ok (mkReverseProxy (single_host (set_Path u "")) (DefaultTransport (DialUnix (Path u) dialTimeout) true))
      else
        Ok (mkReverseProxy (single_host u)
             (DefaultTransport (if goDns then DialGo dialTimeout else DialNet dialTimeout) false))
  end.

(** [UnixRoundTripper.RoundTrip]: the request its transport gets. *)
Definition UnixRoundTrip (r : Request) : Request :=
  let host := if bool_decide (rq_Host r = "") then "localhost" else rq_Host r in
  let 'mkRequest m _ p pm u h ck ra tls := r in
  mkRequest m host p pm (mkURL "http" (Opaque u) (User u) host (Path u) (RawPath u) (OmitHost u) (ForceQuery u)
    (RawQuery u) (Fragment u) (RawFragment u)) h ck ra tls.

Definition set_rq_Host (host : string) (r : Request) : Request :=
  let 'mkRequest m _ p pm u h ck ra tls := r in mkRequest m host p pm u h ck ra tls.

(** The director [Create] puts in front. *)
Definition wrap_director (b : BackendSettings) (director : Director) : Director := λ data remote r,
  r <-? (if negb (bs_Transparent b) then
           match data with
           | Some (st, d) => headers <-? RequestHeaders st d (rq_Header r); Ok (upd_rq_Header (λ _, headers) r)
           | None => Ok r
           end
         else Ok r);
  let r := if negb (bool_decide (bs_IpHeader b = "")) && negb (bs_Transparent b) then
             match remote with
             | Some ip => upd_rq_Header (λ h, hdr_Set h (bs_IpHeader b) (Addr_String (Addr_Unmap (ap_Addr ip)))) r
             | None => r
             end
           else r in
  let r := if negb (bool_decide (bs_Host b = "")) then set_rq_Host (bs_Host b) r else r in
  director data remote r.

Definition ignore_dash (b : BackendSettings) : BackendSettings :=
  let 'mkBackendSettings u h h2 skip ip dns tr t1 t2 t3 t4 t5 := b in
  mkBackendSettings u h h2 skip (if bool_decide (ip = "-") then "" else ip) dns tr t1 t2 t3 t4 t5.

(** [Backend.Create]. *)
Definition Backend_Create (b : BackendSettings) : result ReverseProxy :=
  let b := ignore_dash b in
  proxy <-? MakeReverseProxy (bs_URL b) (bs_GoDNS b) (bs_DialTimeout b);
  let t := rp_Transport proxy in
  let t := mkTransport (tr_Dial t) (tr_UnixProtocol t) (bs_TLSHandshakeTimeout b) (bs_IdleConnTimeout b)
             (bs_ResponseHeaderTimeout b) (bs_ExpectContinueTimeout b)
             (if bs_HTTP2Enabled b then true else tr_ForceAttemptHTTP2 t)
             (if bs_TLSSkipVerify b then true else tr_InsecureSkipVerify t)
             (if negb (bool_decide (bs_Host b = "")) then bs_Host b else tr_ServerName t) in
  Ok (mkReverseProxy
        (if negb (bool_decide (bs_IpHeader b = "")) || negb (bool_decide (bs_Host b = "")) || negb (bs_Transparent b)
         then wrap_director b (rp_Director proxy) else rp_Director proxy) t).

(** ** [ReverseProxy.ServeHTTP]

    What becomes of the headers after the director. *)
Definition hopHeaders : list string :=
  ["Connection"; "Proxy-Connection"; "Keep-Alive"; "Proxy-Authenticate"; "Proxy-Authorization"; "Te"; "Trailer";
   "Transfer-Encoding"; "Upgrade"].

(** Bytes at both ends of a text that satisfy [f] are cut. *)
Fixpoint trim_bytes (f : ascii → bool) (l : list ascii) : list ascii :=
  match l with c :: l' => if f c then trim_bytes f l' else l | [] => [] end.
Definition trim_both (f : ascii → bool) (s : string) : string :=
  of_bytes (reverse (trim_bytes f (reverse (trim_bytes f (bytes s))))).

(** [textproto.TrimString] and the [trimOWS] of tokens. *)
Definition is_space (c : ascii) : bool := bool_decide (byte_val c ∈ [32; 9; 10; 13]%N).
Definition is_OWS (c : ascii) : bool := bool_decide (byte_val c ∈ [32; 9]%N).

(** The headers a [Connection] header names. *)
Definition connection_names (h : MIMEHeader) : list string :=
  hdr_Values h "Connection" ≫= λ f, filter (λ sf, sf ≠ "") (trim_both is_space <$> Split f ",").

Definition removeHopByHopHeaders (h : MIMEHeader) : MIMEHeader := foldl hdr_Del h (connection_names h ++ hopHeaders).

(** [httpguts.HeaderValuesContainsToken]; [tokenEqual] ignores the case of ASCII letters. *)
Definition tokenEqual (s t : string) : bool := bool_decide ((lower_byte <$> bytes s) = (lower_byte <$> bytes t)).
Definition HeaderValuesContainsToken (values : list string) (token : string) : bool :=
  existsb (λ v, existsb (λ t, tokenEqual (trim_both is_OWS t) token) (Split v ",")) values.

Definition upgradeType (h : MIMEHeader) : string :=
  if HeaderValuesContainsToken (hdr_Values h "Connection") "Upgrade" then hdr_Get h "Upgrade" else "".

Definition IsPrint (s : string) : bool := forallb (λ c, (32 <=? byte_val c)%N && (byte_val c <=? 126)%N) (bytes s).

(** The headers that are sent: the director's, without those of the client's connection,
    and with the peer, the address of the connection, at the end of [X-Forwarded-For],
    unless that header was set to nil. [None] when the request is answered with an error
    instead. *)
Definition add_forwarded (RemoteAddr : string) (h : MIMEHeader) : MIMEHeader :=
  match SplitHostPort RemoteAddr with
  | Err _ => h
  | Ok (clientIP, _) =>
      match h !! "X-Forwarded-For" with
      | Some [] => h
      | Some prior => hdr_Set h "X-Forwarded-For" (String.concat ", " prior +:+ ", " +:+ clientIP)
      | None => hdr_Set h "X-Forwarded-For" clientIP
      end
  end.

Definition outgoing (RemoteAddr : string) (h : MIMEHeader) : option MIMEHeader :=
  let reqUpType := upgradeType h in
  if negb (IsPrint reqUpType) then None
  else
    let te := hdr_Values (removeHopByHopHeaders h) "Te" in
    let h := removeHopByHopHeaders h in
    let h := if HeaderValuesContainsToken te "trailers" then hdr_Set h "Te" "trailers" else h in
    let h := if bool_decide (reqUpType = "") then h else hdr_Set (hdr_Set h "Connection" "Upgrade") "Upgrade" reqUpType in
    let h := add_forwarded RemoteAddr h in
    Some (if bool_decide (is_Some (h !! "User-Agent")) then h else hdr_Set h "User-Agent" "").

Example joinURLPath1 : joinURLPath (set_Path emptyURL "/base/") (set_Path emptyURL "/a") = ("/base/a", "").
Proof. reflexivity. Qed.

(** * Facts *)

Lemma rq_Header_upd f r : rq_Header (upd_rq_Header f r) = f (rq_Header r).
Proof. by destruct r. Qed.
Lemma rq_Header_set_Host h r : rq_Header (set_rq_Host h r) = rq_Header r.
Proof. by destruct r. Qed.
Lemma rq_Header_upd_URL f r : rq_Header (upd_rq_URL f r) = rq_Header r.
Proof. by destruct r. Qed.

(** Directors that leave the headers alone. *)
Definition keeps_headers (director : Director) : Prop :=
  ∀ d a r r', director d a r = Ok r' → rq_Header r' = rq_Header r.

Lemma single_host_keeps target : keeps_headers (single_host target).
Proof. intros d a r r' [= <-]. apply rq_Header_upd_URL. Qed.

Lemma MakeReverseProxy_keeps target dns t proxy : MakeReverseProxy target dns t = Ok proxy → keeps_headers (rp_Director proxy).
Proof.
  unfold MakeReverseProxy. destruct (Parse target); [|done]. case_bool_decide; intros [= <-]; apply single_host_keeps.
Qed.

(** What a created backend does to the headers. *)
Definition forwarded (st : State) (b : BackendSettings) (d : RequestData) (a : option AddrPort) (h : MIMEHeader) :
    result MIMEHeader :=
  h <-? RequestHeaders st d h;
  Ok (match a with
      | Some ip => if bool_decide (bs_IpHeader b = "" ∨ bs_IpHeader b = "-") then h
                   else hdr_Set h (bs_IpHeader b) (Addr_String (Addr_Unmap (ap_Addr ip)))
      | None => h
      end).

Lemma Backend_Create_headers st b proxy d a r r' :
  bs_Transparent b = false → Backend_Create b = Ok proxy → rp_Director proxy (Some (st, d)) a r = Ok r' →
  forwarded st b d a (rq_Header r) = Ok (rq_Header r').
Proof.
  intros Htr. unfold Backend_Create. destruct b as [u h h2 skip ip dns tr t1 t2 t3 t4 t5]. cbn in Htr. subst tr.
  cbn [ignore_dash bs_URL bs_GoDNS bs_DialTimeout].
  destruct (MakeReverseProxy u dns t1) as [p|] eqn:Hp; [|done]. apply MakeReverseProxy_keeps in Hp. cbn [result_bind].
  intros [= <-]. cbn [rp_Director bs_Transparent bs_IpHeader bs_Host negb]. rewrite orb_true_r.
  unfold wrap_director, forwarded. cbn [bs_Transparent bs_IpHeader bs_Host negb].
  destruct (RequestHeaders st d (rq_Header r)) as [hs|]; cbn [result_bind]; [|done]. rewrite andb_true_r. cbv zeta.
  set (ip' := if bool_decide (ip = "-") then "" else ip).
  intros Hd. apply Hp in Hd. rewrite Hd.
  assert (Hs : ∀ x, rq_Header (if negb (bool_decide (h = "")) then set_rq_Host h x else x) = rq_Header x).
  { intros x. case_bool_decide; [done|apply rq_Header_set_Host]. }
  rewrite Hs. subst ip'. destruct a as [addr|].
  - destruct (decide (ip = "-")) as [->|H1]; [by destruct r|].
    rewrite (bool_decide_false (ip = "-")) by done. destruct (decide (ip = "")) as [->|H2]; [by destruct r|].
    rewrite (bool_decide_false (ip = "")) by done. cbn [negb].
    rewrite (bool_decide_false (ip = "" ∨ ip = "-")) by naive_solver. by rewrite !rq_Header_upd.
  - destruct (negb (bool_decide ((if bool_decide (ip = "-") then "" else ip) = ""))); by rewrite rq_Header_upd.
Qed.

(** What is sent of a header that is no matter of one connection. *)
Lemma removeHopByHop_Values h k :
  CanonicalMIMEHeaderKey k ∉ hopHeaders →
  hdr_Values (removeHopByHopHeaders h) k =
    if bool_decide (CanonicalMIMEHeaderKey k ∈ CanonicalMIMEHeaderKey <$> connection_names h) then [] else hdr_Values h k.
Proof.
  intros Hk. unfold removeHopByHopHeaders.
  assert (Hdel : ∀ names h, hdr_Values (foldl hdr_Del h names) k =
    if bool_decide (CanonicalMIMEHeaderKey k ∈ CanonicalMIMEHeaderKey <$> names) then [] else hdr_Values h k).
  { induction names as [|n names IH]; intros h0; [done|]. cbn [foldl]. rewrite IH, hdr_Values_Del, fmap_cons.
    repeat case_bool_decide; repeat case_decide; set_solver. }
  rewrite Hdel, fmap_app. assert (CanonicalMIMEHeaderKey <$> hopHeaders = hopHeaders) as -> by (vm_compute; reflexivity).
  repeat case_bool_decide; set_solver.
Qed.

Lemma concat_snoc sep (l : list string) s :
  l ≠ [] → String.concat sep (l ++ [s]) = String.concat sep l +:+ sep +:+ s.
Proof.
  induction l as [|a [|b l] IH]; intros Hl; [done..|]. specialize (IH ltac:(done)).
  change (a +:+ sep +:+ String.concat sep ((b :: l) ++ [s]) = (a +:+ sep +:+ String.concat sep (b :: l)) +:+ sep +:+ s).
  by rewrite IH, !string_app_assoc.
Qed.

Lemma add_forwarded_Values peer h k :
  (CanonicalMIMEHeaderKey k = "X-Forwarded-For" → h !! "X-Forwarded-For" ≠ Some []) →
  hdr_Values (add_forwarded peer h) k =
    if bool_decide (CanonicalMIMEHeaderKey k = "X-Forwarded-For") then
      match SplitHostPort peer with
      | Ok (ip, _) => [String.concat ", " (hdr_Values h k ++ [ip])]
      | Err _ => hdr_Values h k
      end
    else hdr_Values h k.
Proof.
  intros Hnil. unfold add_forwarded. destruct (SplitHostPort peer) as [[ip port]|]; [|by case_bool_decide].
  assert (Hx : CanonicalMIMEHeaderKey "X-Forwarded-For" = "X-Forwarded-For") by (vm_compute; reflexivity).
  destruct (decide (CanonicalMIMEHeaderKey k = "X-Forwarded-For")) as [Hk|Hk].
  - specialize (Hnil Hk). rewrite bool_decide_true by done. unfold hdr_Values at 2. rewrite Hk.
    destruct (h !! "X-Forwarded-For") as [[|v vs]|]; [done|..]; rewrite hdr_Values_Set, decide_True by congruence; [|done].
    cbn [default from_option id]. by rewrite concat_snoc.
  - rewrite bool_decide_false by done.
    destruct (h !! "X-Forwarded-For") as [[|v vs]|]; [done|..]; by rewrite hdr_Values_Set, decide_False by congruence.
Qed.

Lemma Del_not_nil names h x : h !! x ≠ Some [] → foldl hdr_Del h names !! x ≠ Some [].
Proof.
  revert h. induction names as [|n names IH]; intros h Hh; [done|]. apply IH. unfold hdr_Del. rewrite lookup_delete.
  by case_decide.
Qed.

Lemma hop_canonical c : c ∈ "User-Agent" :: hopHeaders → CanonicalMIMEHeaderKey c = c.
Proof.
  assert (Hc : Forall (λ c, CanonicalMIMEHeaderKey c = c) ("User-Agent" :: hopHeaders)) by (by repeat constructor).
  rewrite Forall_forall in Hc. apply Hc.
Qed.

Lemma outgoing_Values peer h h' k :
  CanonicalMIMEHeaderKey k ∉ "User-Agent" :: hopHeaders → outgoing peer h = Some h' →
  (CanonicalMIMEHeaderKey k = "X-Forwarded-For" → h !! "X-Forwarded-For" ≠ Some []) →
  let own := if bool_decide (CanonicalMIMEHeaderKey k ∈ CanonicalMIMEHeaderKey <$> connection_names h) then [] else hdr_Values h k in
  hdr_Values h' k =
    if bool_decide (CanonicalMIMEHeaderKey k = "X-Forwarded-For") then
      match SplitHostPort peer with Ok (ip, _) => [String.concat ", " (own ++ [ip])] | Err _ => own end
    else own.
Proof.
  intros Hk Hout Hnil. cbv zeta. unfold outgoing in Hout. destruct (negb (IsPrint _)); [done|]. injection Hout as <-.
  rewrite not_elem_of_cons in Hk. destruct Hk as [Hua Hk].
  set (h0 := removeHopByHopHeaders h).
  assert (Hset : ∀ c v x, c ∈ "User-Agent" :: hopHeaders → hdr_Values (hdr_Set x c v) k = hdr_Values x k).
  { intros c v x Hc. rewrite hdr_Values_Set, decide_False; [done|]. intros Heq.
    rewrite (hop_canonical c Hc) in Heq. subst c. by apply elem_of_cons in Hc as [?|?]. }
  assert (Hx : ∀ c v x, c ∈ "User-Agent" :: hopHeaders → hdr_Set x c v !! "X-Forwarded-For" = x !! "X-Forwarded-For").
  { intros c v x Hc. unfold hdr_Set. apply lookup_insert_ne. rewrite (hop_canonical c Hc). intros ->. by apply (bool_decide_eq_true_2 _) in Hc. }
  assert (Hin : ∀ c, c ∈ "User-Agent" :: hopHeaders ↔ bool_decide (c ∈ "User-Agent" :: hopHeaders) = true)
    by (intros c; by rewrite bool_decide_eq_true).
  set (te := HeaderValuesContainsToken _ _). set (up := upgradeType h). clearbody te up.
  set (h1 := if te then hdr_Set h0 "Te" "trailers" else h0).
  assert (H1 : hdr_Values h1 k = hdr_Values h0 k ∧ h1 !! "X-Forwarded-For" = h0 !! "X-Forwarded-For").
  { subst h1. destruct te; [|done]. rewrite Hset, Hx; [done|by apply Hin..]. }
  set (h2 := if bool_decide (up = "") then h1 else hdr_Set (hdr_Set h1 "Connection" "Upgrade") "Upgrade" up).
  assert (H2 : hdr_Values h2 k = hdr_Values h0 k ∧ h2 !! "X-Forwarded-For" = h0 !! "X-Forwarded-For").
  { subst h2. case_bool_decide; [done|]. rewrite !Hset, !Hx; [done|by apply Hin..]. }
  clearbody h1 h2. destruct H2 as [Hv2 Hx2].
  assert (Hnil2 : CanonicalMIMEHeaderKey k = "X-Forwarded-For" → h2 !! "X-Forwarded-For" ≠ Some []).
  { intros Hkx. specialize (Hnil Hkx). rewrite Hx2. by apply Del_not_nil. }
  transitivity (hdr_Values (add_forwarded peer h2) k).
  { case_bool_decide; [done|]. apply Hset. by apply Hin. }
  rewrite add_forwarded_Values, Hv2 by done. subst h0. by rewrite removeHopByHop_Values.
Qed.

(** * Properties *)

(** C18: A backend with a header for client addresses, not a transparent one, is told the
    address the proxy determined: whatever the client sent in that header is replaced
    by that one address, IPv4-mapped addresses as IPv4. A client can keep it from being
    sent, by naming the header in [Connection], but can put nothing in its place; and
    when the header is [X-Forwarded-For], the address of the connection follows. *)
Theorem director_client_ip (st : State) (b : BackendSettings) (proxy : ReverseProxy) (d : RequestData) (a : AddrPort)
    (r r' : Request) (h : MIMEHeader)
    (Htr : bs_Transparent b = false) (Hip : bs_IpHeader b ≠ "") (Hdash : bs_IpHeader b ≠ "-")
    (Hhop : CanonicalMIMEHeaderKey (bs_IpHeader b) ∉ "User-Agent" :: hopHeaders)
    (Hproxy : Backend_Create b = Ok proxy) (Hd : rp_Director proxy (Some (st, d)) (Some a) r = Ok r')
    (Hout : outgoing (rq_RemoteAddr r) (rq_Header r') = Some h) :
  hdr_Values (rq_Header r') (bs_IpHeader b) = [Addr_String (Addr_Unmap (ap_Addr a))] ∧
  let named := bool_decide (CanonicalMIMEHeaderKey (bs_IpHeader b) ∈ CanonicalMIMEHeaderKey <$> connection_names (rq_Header r')) in
  let told := if named then [] else [Addr_String (Addr_Unmap (ap_Addr a))] in
  hdr_Values h (bs_IpHeader b) =
    if bool_decide (CanonicalMIMEHeaderKey (bs_IpHeader b) = "X-Forwarded-For") then
      match SplitHostPort (rq_RemoteAddr r) with
      | Ok (peer, _) => [String.concat ", " (told ++ [peer])]
      | Err _ => told
      end
    else told.
Proof.
  pose proof (Backend_Create_headers st b proxy d (Some a) r r' Htr Hproxy Hd) as Hf. unfold forwarded in Hf.
  destruct (RequestHeaders st d (rq_Header r)) as [hs|]; [|done]. cbn [result_bind] in Hf.
  rewrite bool_decide_false in Hf by naive_solver. injection Hf as Hf.
  assert (Hv : hdr_Values (rq_Header r') (bs_IpHeader b) = [Addr_String (Addr_Unmap (ap_Addr a))]).
  { rewrite <-Hf, hdr_Values_Set. by rewrite decide_True. }
  split; [done|]. cbv zeta. rewrite (outgoing_Values _ _ _ _ Hhop Hout), Hv; [done|].
  intros Hx. rewrite <-Hf, <-Hx. unfold hdr_Set. by rewrite lookup_insert_eq.
Qed.

(** A backend cannot tell what the proxy says about challenges from what the client
    says: for a request without a passed challenge the director sets no challenge
    header, and it removes none, so a client that sends
    [X-Away-Challenge-...-Result: OK] itself looks to the backend as if it had passed. *)
Theorem director_forwards_claims (st : State) (b : BackendSettings) (proxy : ReverseProxy) (d : RequestData)
    (a : option AddrPort) (r r' : Request) (k : string)
    (Htr : bs_Transparent b = false) (Hdash : bs_IpHeader b = "-") (Hs : ss_BackendIpHeader (st_settings st) = "")
    (Hverify : rd_ChallengeVerify d = ∅) (Hextra : rd_ExtraHeaders d = ∅) (Hfp : rd_fp d = ∅)
    (Hk : CanonicalMIMEHeaderKey k ≠ CanonicalMIMEHeaderKey "X-Away-Id")
    (Hproxy : Backend_Create b = Ok proxy) (Hd : rp_Director proxy (Some (st, d)) a r = Ok r') :
  hdr_Values (rq_Header r') k = hdr_Values (rq_Header r) k.
Proof.
  pose proof (Backend_Create_headers st b proxy d a r r' Htr Hproxy Hd) as Hf. unfold forwarded, RequestHeaders in Hf.
  rewrite Hs, Hverify, Hextra, Hfp, map_to_list_empty in Hf. cbn [result_headers result_bind] in Hf.
  rewrite !lookup_empty, (left_id_L ∅ (∪)) in Hf.
  rewrite Hdash in Hf. rewrite (bool_decide_true (_ ∨ _)) in Hf by naive_solver.
  assert (Hh : rq_Header r' = hdr_Set (rq_Header r) "X-Away-Id" (RequestId_String (rd_Id d))).
  { destruct a; by injection Hf. }
  rewrite Hh, hdr_Values_Set. by rewrite decide_False.
Qed.

Definition demo_backend_settings (header : string) : BackendSettings :=
  mkBackendSettings "http://backend:8080/base" "" false false header false false 0%Z 0%Z 0%Z 0%Z 0%Z.

(** A client that claims an address and a passed challenge. *)
Definition demo_claims : Request :=
  demo_request (hdr_Set (hdr_Set ∅ "X-Real-Ip" "203.0.113.9") "X-Away-Challenge-js-Result" "OK").

Definition demo_proxy_state : State :=
  mkState (mkStateSettings ∅ "" "" "" "" 418) (mkSettings ∅ [] "anubis" ∅)
    "key" "key" "fingerprint" "/base" ∅ ∅ (λ _, None) (λ _, "") "bust".

Definition demo_forward (header : string) : result Request :=
  proxy <-? Backend_Create (demo_backend_settings header);
  rp_Director proxy (Some (demo_proxy_state, demo_data 0%Z (Addr6 0xffffc0000207 ""))) (Some (mkAddrPort (Addr6 0xffffc0000207 "") 4711)) demo_claims.

Lemma demo_forward_ok : is_ok (demo_forward "X-Real-Ip") = true ∧ is_ok (demo_forward "-") = true.
Proof. vm_compute. done. Qed.

Lemma demo_sent : ∃ r' h, demo_forward "X-Forwarded-For" = Ok r' ∧ outgoing (rq_RemoteAddr demo_claims) (rq_Header r') = Some h.
Proof.
  assert (Hs : match demo_forward "X-Forwarded-For" with
    Ok r' => bool_decide (is_Some (outgoing (rq_RemoteAddr demo_claims) (rq_Header r'))) | Err _ => false end = true)
    by (vm_compute; reflexivity).
  destruct (demo_forward "X-Forwarded-For") as [r'|]; [|done]. apply bool_decide_eq_true in Hs as [h Hh]. by exists r', h.
Qed.

Lemma director_client_ip_witness :
  ∃ r' h, outgoing (rq_RemoteAddr demo_claims) (rq_Header r') = Some h ∧
    hdr_Values h "X-Forwarded-For" = [(if bool_decide ("X-Forwarded-For" ∈ CanonicalMIMEHeaderKey <$> connection_names (rq_Header r'))
      then "" else "192.0.2.7, ") +:+ "192.0.2.7"].
Proof.
  destruct demo_sent as (r' & h & Hr & Hh). exists r', h. split; [done|]. unfold demo_forward in Hr.
  destruct (Backend_Create (demo_backend_settings "X-Forwarded-For")) as [proxy|] eqn:Hp; [|discriminate Hr].
  cbn [result_bind] in Hr.
  etransitivity; [exact (proj2 (director_client_ip demo_proxy_state (demo_backend_settings "X-Forwarded-For") proxy
    (demo_data 0%Z (Addr6 0xffffc0000207 "")) (mkAddrPort (Addr6 0xffffc0000207 "") 4711) demo_claims r' h eq_refl
    ltac:(discriminate) ltac:(discriminate) ltac:(by apply (bool_decide_unpack _)) Hp Hr Hh))|]. cbv zeta.
  change (CanonicalMIMEHeaderKey (bs_IpHeader (demo_backend_settings "X-Forwarded-For"))) with "X-Forwarded-For".
  case_bool_decide; vm_compute; reflexivity.
Defined.

(** A client that names the header in [Connection] reaches the backend without an
    address, and without the identifier of its request. *)
Example named_headers_dropped :
  (λ h, (hdr_Values h "X-Real-Ip", hdr_Values h "X-Away-Id")) <$>
    outgoing "192.0.2.7:4711" (hdr_Set (hdr_Set (hdr_Set ∅ "X-Real-Ip" "192.0.2.7") "X-Away-Id" "00") "Connection" "close, x-real-ip, X-Away-Id")
  = Some ([], []).
Proof. vm_compute. reflexivity. Qed.

Lemma director_forwards_claims_witness :
  ∃ r', demo_forward "-" = Ok r' ∧ hdr_Values (rq_Header r') "X-Away-Challenge-js-Result" = ["OK"].
Proof.
  destruct demo_forward_ok as [_ Hok]. destruct (demo_forward "-") as [r'|] eqn:Hr; [|discriminate Hok].
  exists r'. split; [done|]. unfold demo_forward in Hr.
  destruct (Backend_Create (demo_backend_settings "-")) as [proxy|] eqn:Hp; [|discriminate Hr].
  cbn [result_bind] in Hr.
  rewrite (director_forwards_claims demo_proxy_state (demo_backend_settings "-") proxy
    (demo_data 0%Z (Addr6 0xffffc0000207 "")) (Some (mkAddrPort (Addr6 0xffffc0000207 "") 4711)) demo_claims r'
    "X-Away-Challenge-js-Result" eq_refl eq_refl eq_refl eq_refl eq_refl eq_refl ltac:(vm_compute; discriminate) Hp Hr).
  vm_compute. reflexivity.
Defined.
