(* ===== verification/ResponsePolicy.v ===== *)
(** The response writer: [net/http]'s writer, [http.Error] and [http.Redirect], and
    [lib/challenge/response_policy.go], the writer that wraps it and rewrites the
    cache policy of immutable media before the headers are committed. *)

From S2P Require Import Prelude GoStrings GoTime NetAddr GoURL Mime UtilsHttp GoPath GoNetip.
From S2P Require Import Types Cookie Register State Key Data.
From stdpp Require Import options.

Local Open Scope handler_scope.

(** * [net/http] *)

(** [http.StatusText]. *)
Definition status_table : list (Z * string) :=
  [(100, "Continue"); (101, "Switching Protocols"); (102, "Processing"); (103, "Early Hints");
   (200, "OK"); (201, "Created"); (202, "Accepted"); (203, "Non-Authoritative Information");
   (204, "No Content"); (205, "Reset Content"); (206, "Partial Content"); (207, "Multi-Status");
   (208, "Already Reported"); (226, "IM Used");
   (300, "Multiple Choices"); (301, "Moved Permanently"); (302, "Found"); (303, "See Other");
   (304, "Not Modified"); (305, "Use Proxy"); (307, "Temporary Redirect"); (308, "Permanent Redirect");
   (400, "Bad Request"); (401, "Unauthorized"); (402, "Payment Required"); (403, "Forbidden");
   (404, "Not Found"); (405, "Method Not Allowed"); (406, "Not Acceptable");
   (407, "Proxy Authentication Required"); (408, "Request Timeout"); (409, "Conflict"); (410, "Gone");
   (411, "Length Required"); (412, "Precondition Failed"); (413, "Request Entity Too Large");
   (414, "Request URI Too Long"); (415, "Unsupported Media Type");
   (416, "Requested Range Not Satisfiable"); (417, "Expectation Failed"); (418, "I'm a teapot");
   (421, "Misdirected Request"); (422, "Unprocessable Entity"); (423, "Locked");
   (424, "Failed Dependency"); (425, "Too Early"); (426, "Upgrade Required");
   (428, "Precondition Required"); (429, "Too Many Requests");
   (431, "Request Header Fields Too Large"); (451, "Unavailable For Legal Reasons");
   (500, "Internal Server Error"); (501, "Not Implemented"); (502, "Bad Gateway");
   (503, "Service Unavailable"); (504, "Gateway Timeout"); (505, "HTTP Version Not Supported");
   (506, "Variant Also Negotiates"); (507, "Insufficient Storage"); (508, "Loop Detected");
   (510, "Not Extended"); (511, "Network Authentication Required")]%Z.

Definition StatusText (code : Z) : string :=
  match list_find (λ kv, kv.1 = code) status_table with Some (_, kv) => kv.2 | None => "" end.

Definition informational (status : Z) : bool :=
  (100 <=? status)%Z && (status <? 200)%Z && negb (status =? 101)%Z.

(** [WriteHeader] of the server's writer: nothing after a hijack or a final status,
    a panic on a code out of range, informational responses sent at once. *)
Definition base_WriteHeader (status : Z) : M unit :=
  w <- get_w;;
  if w_Hijacked w || bool_decide (w_Final w ≠ None) then ret ()
  else if (status <? 100)%Z || (999 <? status)%Z then panic (ENew "invalid WriteHeader code")
  else if informational status then upd_w (add_w_Info status)
  else upd_w (set_w_Final status).

(** Statuses without a body. *)
Definition bodyAllowedForStatus (status : Z) : bool :=
  negb ((100 <=? status)%Z && (status <=? 199)%Z) && negb (status =? 204)%Z && negb (status =? 304)%Z.

Definition base_Write (data : string) : M unit :=
  w <- get_w;;
  (if bool_decide (w_Final w = None) then base_WriteHeader 200 else ret ());;
  w <- get_w;;
  match w_Final w with
  | Some (status, _) =>
      if w_Hijacked w || negb (bodyAllowedForStatus status) then ret () else upd_w (add_w_Body data)
  | None => ret ()
  end.

(** * [response_policy.go] *)

(** The inner loop over the directives of one Cache-Control value. *)
Definition has_directive (expected value : string) : bool :=
  existsb (λ directive, EqualFold (Cut (TrimSpace directive) "=").1.1 expected) (Split value ",").

Definition hasCacheControlDirective (header : MIMEHeader) (expected : string) : bool :=
  existsb (has_directive expected) (hdr_Values header "Cache-Control").

Definition media_extensions : list string :=
  [".avif"; ".bmp"; ".flac"; ".gif"; ".ico"; ".jpeg"; ".jpg"; ".jxl";
   ".mp3"; ".mp4"; ".ogg"; ".png"; ".svg"; ".wav"; ".webm"; ".webp"].

Definition media_type_ok (contentType : string) : bool :=
  match ParseMediaType contentType with
  | (mediaType, None) =>
      HasPrefix mediaType "image/" || HasPrefix mediaType "audio/" || HasPrefix mediaType "video/"
  | (_, Some _) => false
  end.

Definition isImmutableMediaResponse (r : Request) (header : MIMEHeader) (status : Z) : bool :=
  if negb (bool_decide (rq_Method r = "GET")) && negb (bool_decide (rq_Method r = "HEAD")) then false
  else if ((status <? 200)%Z || (300 <=? status)%Z) && negb (status =? 304)%Z then false
  else if negb (hasCacheControlDirective header "immutable") then false
  else if media_type_ok (hdr_Get header "Content-Type") then true
  else bool_decide (ToLower (Ext (Path (rq_URL r))) ∈ media_extensions).

(** A directive [makeCacheControlPrivate] drops: empty, or one of the three it
    replaces. *)
Definition dropped_directive (directive : string) : bool :=
  bool_decide (directive = "") ||
  bool_decide (ToLower (TrimSpace (Cut directive "=").1.1) ∈ ["private"; "public"; "s-maxage"]).

Definition private_directives (values : list string) : list string :=
  "private" ::
  filter (λ d, dropped_directive d = false)
    (value ← values; TrimSpace <$> Split value ",").

Definition makeCacheControlPrivate (header : MIMEHeader) : MIMEHeader :=
  hdr_Set header "Cache-Control" (Join (private_directives (hdr_Values header "Cache-Control")) ", ").

(** Drop the first occurrence of [value]. *)
Fixpoint remove_first (value : string) (values : list string) : list string * bool :=
  match values with
  | [] => ([], false)
  | c :: cs =>
      if bool_decide (c = value) then (cs, true)
      else let '(kept, removed) := remove_first value cs in (c :: kept, removed)
  end.

Definition removeFirstHeaderValue (header : MIMEHeader) (name value : string) : MIMEHeader :=
  let '(kept, removed) := remove_first value (hdr_Values header name) in
  if removed : bool then foldl (λ h c, hdr_Add h name c) (hdr_Del header name) kept else header.

(** [apply]. *)
Definition policy_apply (d : RequestData) (r : Request) (status : Z) (header : MIMEHeader) : MIMEHeader :=
  if negb (HasAnyValidChallenge d) then header
  else if negb (isImmutableMediaResponse r header status) then header
  else
    let header := makeCacheControlPrivate header in
    if rd_broadVaryApplied d then removeFirstHeaderValue header "Vary" broadVaryHeaderValue else header.

Definition policy_WriteHeader (status : Z) : M unit :=
  if informational status then base_WriteHeader status
  else
    w <- get_w;;
    if w_wroteHeader w then ret ()
    else
      upd_w set_w_wroteHeader;;
      d <- get_data;; r <- get_req;;
      upd_w (upd_w_Header (policy_apply d r status));;
      base_WriteHeader status.

Definition policy_Write (data : string) : M unit :=
  w <- get_w;;
  (if negb (w_wroteHeader w) then policy_WriteHeader 200 else ret ());;
  base_Write data.

(** [FlushError] of the two writers: headers that are not sent yet go out with a 200. *)
Definition base_FlushError : M unit :=
  w <- get_w;; if bool_decide (w_Final w = None) then base_WriteHeader 200 else ret ().
Definition policy_FlushError : M unit :=
  w <- get_w;;
  (if negb (w_wroteHeader w) then policy_WriteHeader 200 else ret ());;
  base_FlushError.

(** The writer a handler holds is the server's or the policy writer around it. *)
Definition w_WriteHeader (status : Z) : M unit :=
  w <- get_w;; if w_Policy w then policy_WriteHeader status else base_WriteHeader status.
Definition w_Write (data : string) : M unit :=
  w <- get_w;; if w_Policy w then policy_Write data else base_Write data.
Definition w_FlushError : M unit :=
  w <- get_w;; if w_Policy w then policy_FlushError else base_FlushError.

(** [NewResponsePolicyWriter]: the wrapper has the methods of [http.ResponseWriter]
    only, so the handler's type assertions for [http.Hijacker] and [http.Pusher]
    fail on it. *)
Definition NewResponsePolicyWriter (w : ResponseWriter) : ResponseWriter :=
  let 'mkWriter a b c d _ f g _ _ _ := w in mkWriter a b c d false f g false true false.

(** * [http.Error] and [http.Redirect] *)

Definition newline : string := of_bytes [byte_of 10].

Definition http_Error (error : string) (code : Z) : M unit :=
  w_Del "Content-Length";;
  w_Set "Content-Type" "text/plain; charset=utf-8";;
  w_Set "X-Content-Type-Options" "nosniff";;
  w_WriteHeader code;;
  w_Write (error +:+ newline).

(** [path.Split], the directory. *)
Definition path_dir (p : string) : string :=
  match CutLast p "/" with Some (d, _) => d +:+ "/" | None => "" end.

(** The [Location] of [http.Redirect]: a target without scheme and host is made
    absolute against the request path and cleaned. *)
Definition redirect_location (oldpath url : string) : string :=
  match Parse url with
  | Err _ => url
  | Ok u =>
      if bool_decide (Scheme u = "") && bool_decide (Host u = "") then
        let oldpath := if bool_decide (oldpath = "") then "/" else oldpath in
        let url := if HasPrefix url "/" then url else path_dir oldpath +:+ url in
        let '(p, query, found) := Cut url "?" in
        let q := if found : bool then "?" +:+ query else "" in
        let cleaned := Clean p in
        (if HasSuffix p "/" && negb (HasSuffix cleaned "/") then cleaned +:+ "/" else cleaned) +:+ q
      else url
  end.

(** [hexEscapeNonASCII] and [htmlEscape]. *)
Fixpoint hexEscapeNonASCII (s : string) : string :=
  match s with
  | EmptyString => ""
  | String c s =>
      (if (0x80 <=? byte_val c)%N then "%" +:+ appendHex (byte_val c) else String c "")
      +:+ hexEscapeNonASCII s
  end.

Definition html_char (c : ascii) : string :=
  match byte_val c with
  | 0x26%N => "&amp;" | 0x3c%N => "&lt;" | 0x3e%N => "&gt;" | 0x22%N => "&#34;" | 0x27%N => "&#39;"
  | _ => String c ""
  end.
Fixpoint htmlEscape (s : string) : string :=
  match s with EmptyString => "" | String c s => html_char c +:+ htmlEscape s end.

Definition http_Redirect (url : string) (code : Z) : M unit :=
  r <- get_req;;
  let url := redirect_location (Path (rq_URL r)) url in
  w <- get_w;;
  let hadCT := bool_decide (is_Some (w_Header w !! "Content-Type")) in
  w_Set "Location" (hexEscapeNonASCII url);;
  (if negb hadCT && (bool_decide (rq_Method r = "GET") || bool_decide (rq_Method r = "HEAD"))
   then w_Set "Content-Type" "text/html; charset=utf-8" else ret ());;
  w_WriteHeader code;;
  (if negb hadCT && bool_decide (rq_Method r = "GET") then
     w_Write ("<a href=" +:+ dquote +:+ htmlEscape url +:+ dquote +:+ ">" +:+ StatusText code +:+ "</a>."
              +:+ newline +:+ newline)
   else ret ()).

(** * Replaying a backend's operations on the writer *)

Definition w_op (op : WOp) : M unit :=
  match op with
  | OpHeader f => upd_w (upd_w_Header f)
  | OpWriteHeader status => w_WriteHeader status
  | OpWrite data => w_Write data
  | OpFlush => w_FlushError
  end.

Fixpoint w_ops (ops : list WOp) : M unit :=
  match ops with [] => ret () | op :: ops => w_op op;; w_ops ops end.

(** [backend.ServeHTTP(w, r)]: the request as it is now goes to the backend. When
    the handler returns without a status, the server sends 200. *)
Definition serve (b : Backend) : M unit :=
  r <- get_req;;
  emit (EvServe (b_Name b) r);;
  w_ops (b_ServeHTTP b r).

(** * Facts *)

(** The directives of Cache-Control values, trimmed. *)
Definition directives (values : list string) : list string :=
  value ← values; TrimSpace <$> Split value ",".

(** Directives as [makeCacheControlPrivate] writes them: trimmed, without commas. *)
Definition clean_directive (d : string) : Prop := TrimSpace d = d ∧ ContainsByte d "," = false.

Lemma directives_clean values : Forall clean_directive (directives values).
Proof.
  apply Forall_forall. intros d. unfold directives.
  intros (v & Hd & _)%list_elem_of_bind. apply list_elem_of_fmap in Hd as (x & -> & Hx).
  pose proof (Split_parts v ",") as Hp. rewrite Forall_forall in Hp. apply Hp in Hx.
  split; [apply TrimSpace_idemp|].
  destruct (TrimSpace_spec x) as (_ & _ & a & b & Heq). rewrite Heq, !ContainsByte_app in Hx.
  by apply orb_false_iff in Hx as [_ [? _]%orb_false_iff].
Qed.

Lemma TrimSpace_pad d : clean_directive d → TrimSpace (" " +:+ d) = d.
Proof. intros [Ht _]. rewrite <-Ht at 1. by rewrite TrimSpace_space. Qed.

Lemma Split_Join_padded ds :
  ds ≠ [] → Forall clean_directive ds → TrimSpace <$> Split (" " +:+ Join ds ", ") "," = ds.
Proof.
  intros Hne Hall. induction Hall as [|x ds Hx Hds IH]; [done|].
  assert (ContainsByte (" " +:+ x) "," = false) as Hc.
  { destruct Hx as [_ Hx]. by rewrite ContainsByte_app, Hx. }
  destruct ds as [|y ds].
  - cbn [Join]. rewrite Split_absent by done. cbn. by rewrite TrimSpace_pad.
  - change (Join (x :: y :: ds) ", ") with (x +:+ ", " +:+ Join (y :: ds) ", ").
    rewrite string_app_assoc. change (", " +:+ Join (y :: ds) ", ") with
      (String "," (" " +:+ Join (y :: ds) ", ")).
    rewrite Split_app by done. rewrite fmap_cons, TrimSpace_pad, IH by done. done.
Qed.

Lemma Split_Join_clean ds :
  ds ≠ [] → Forall clean_directive ds → TrimSpace <$> Split (Join ds ", ") "," = ds.
Proof.
  intros Hne Hall. destruct Hall as [|x ds [Ht Hc] Hds]; [done|]. destruct ds as [|y ds].
  - cbn [Join]. rewrite Split_absent by done. cbn. by rewrite Ht.
  - change (Join (x :: y :: ds) ", ") with (x +:+ String "," (" " +:+ Join (y :: ds) ", ")).
    rewrite Split_app by done. by rewrite fmap_cons, Ht, Split_Join_padded.
Qed.

Lemma private_directives_clean values : Forall clean_directive (private_directives values).
Proof.
  unfold private_directives. constructor; [split; by vm_compute|].
  apply Forall_forall. intros d [_ Hd]%list_elem_of_filter.
  pose proof (directives_clean values) as Hc. rewrite Forall_forall in Hc. by apply Hc.
Qed.

Lemma directives_private h :
  directives (hdr_Values (makeCacheControlPrivate h) "Cache-Control") =
    "private" :: filter (λ d, dropped_directive d = false) (directives (hdr_Values h "Cache-Control")).
Proof.
  unfold makeCacheControlPrivate. rewrite hdr_Values_Set, decide_True by done.
  unfold directives at 1. cbn [mbind list_bind]. rewrite app_nil_r.
  rewrite Split_Join_clean; [done|done|apply private_directives_clean].
Qed.

Lemma hdr_Values_removeFirst h name value k :
  CanonicalMIMEHeaderKey k ≠ CanonicalMIMEHeaderKey name →
  hdr_Values (removeFirstHeaderValue h name value) k = hdr_Values h k.
Proof.
  intros Hne. unfold removeFirstHeaderValue. destruct (remove_first _ _) as [kept []]; [|done].
  assert (∀ l h', hdr_Values (foldl (λ h c, hdr_Add h name c) h' l) k = hdr_Values h' k) as ->.
  { intros l. induction l as [|c l IH]; intros h'; simpl; [done|]. rewrite IH, hdr_Values_Add.
    by rewrite decide_False by done. }
  rewrite hdr_Values_Del. by rewrite decide_False by done.
Qed.

(** ** The policy writer *)

(** What holds of a world behind the policy writer once data and request are fixed. *)
Record policy_inv (d : RequestData) (r : Request) (w : World) : Prop := {
  pi_data : wd_Data w = d;
  pi_req : wd_Req w = r;
  pi_policy : w_Policy (wd_W w) = true;
  pi_wrote : w_wroteHeader (wd_W w) = false → w_Final (wd_W w) = None;
  pi_final : ∀ status h, w_Final (wd_W w) = Some (status, h) →
    ∃ h0, h = policy_apply d r status h0 }.

(** After a return, a written header is committed (unless the connection is gone). *)
Definition policy_ok (d : RequestData) (r : Request) (w : World) : Prop :=
  policy_inv d r w ∧
  (w_wroteHeader (wd_W w) = true → w_Final (wd_W w) ≠ None ∨ w_Hijacked (wd_W w) = true).

(** [m] keeps the invariant. *)
Definition keeps {A} (d : RequestData) (r : Request) (m : M A) : Prop :=
  ∀ w, policy_ok d r w → runs m w (λ _, policy_ok d r) (policy_inv d r).

Lemma keeps_bind {A B} d r (m : M A) (f : A → M B) :
  keeps d r m → (∀ a, keeps d r (f a)) → keeps d r (bind m f).
Proof.
  intros Hm Hf w Hw. apply runs_bind. eapply runs_mono; [by apply Hm|..]; [|done].
  intros a w' Hw'. by apply Hf.
Qed.

Lemma keeps_ret {A} d r (a : A) : keeps d r (ret a).
Proof. by intros w Hw. Qed.

Lemma base_WriteHeader_final status w :
  let w' := world_of (base_WriteHeader status w) in
  wd_Data w' = wd_Data w ∧ wd_Req w' = wd_Req w ∧ w_Policy (wd_W w') = w_Policy (wd_W w) ∧
  w_wroteHeader (wd_W w') = w_wroteHeader (wd_W w) ∧
  (w_Final (wd_W w') = w_Final (wd_W w) ∨
   informational status = false ∧ w_Final (wd_W w') = Some (status, w_Header (wd_W w))).
Proof.
  destruct w as [d r [h info fin body hj hjok hjd pu pol wr] tr tg db c t ra dr].
  unfold base_WriteHeader, bind, get_w, ret, panic, upd_w. cbn.
  destruct (_ || _); cbn; [by auto 6|]. destruct (_ || _); cbn; [by auto 6|].
  destruct (informational status) eqn:Hi; cbn; auto 7.
Qed.

Lemma policy_WriteHeader_keeps d r status : keeps d r (policy_WriteHeader status).
Proof.
  intros w [Hinv Hc]. destruct w as [d0 r0 [h info fin body hj hjok hjd pu pol wr] tr tg db c t ra dr].
  destruct Hinv as [Hid Hir Hip Hiw Hif]. cbn in *. subst d0 r0 pol.
  unfold policy_WriteHeader, base_WriteHeader, runs, bind, get_w, upd_w, get_data, get_req, ret, panic.
  destruct (informational status) eqn:Hi; cbn.
  - destruct (_ || _); cbn; [by repeat split|]. destruct (_ || _); cbn; [by split|by repeat split].
  - destruct wr; cbn; [by repeat split|]. rewrite Hiw by done.
    destruct hjd; cbn.
    + split; [split|]; cbn; auto; congruence.
    + destruct (_ || _); cbn; [by split|].
      split; [split|]; cbn; auto; [done|]. intros status' h' [= <- <-]. by exists h.
Qed.

Lemma w_WriteHeader_keeps d r status : keeps d r (w_WriteHeader status).
Proof.
  intros w Hw. unfold w_WriteHeader, runs, bind, get_w.
  rewrite (pi_policy _ _ _ (proj1 Hw)). by apply policy_WriteHeader_keeps.
Qed.

Lemma upd_header_keeps d r f : keeps d r (upd_w (upd_w_Header f)).
Proof. intros w [[] Hc]. destruct w as [? ? [] ? ? ? ? ? ? ?]. by repeat split. Qed.

(** Writing and flushing send the headers first. *)
Lemma send_first_keeps d r (m : M unit) :
  (∀ w, policy_ok d r w → w_wroteHeader (wd_W w) = true → runs m w (λ _, policy_ok d r) (policy_inv d r)) →
  keeps d r (w <- get_w;; (if negb (w_wroteHeader w) then policy_WriteHeader 200 else ret ());; m)%handler.
Proof.
  intros Hm w Hw. apply runs_bind. apply runs_ret.
  apply runs_bind. destruct (w_wroteHeader (wd_W w)) eqn:Hwr; cbn [negb].
  - apply runs_ret. by apply Hm.
  - pose proof (policy_WriteHeader_keeps d r 200 w Hw) as Hk. unfold runs in *.
    destruct (policy_WriteHeader 200 w) as [[] w'|e w'] eqn:Hrun; [|done].
    apply Hm; [done|]. revert Hrun. clear -Hwr.
    destruct w as [d0 r0 [h info fin body hj hjok hjd pu pol wr] tr tg db c t ra dr]. cbn in Hwr. subst wr.
    unfold policy_WriteHeader, base_WriteHeader, bind, get_w, upd_w, get_data, get_req, ret. cbn.
    destruct (_ || _); cbn; by intros [= <-].
Qed.

Lemma policy_Write_keeps d r data : keeps d r (policy_Write data).
Proof.
  apply send_first_keeps. intros w [Hinv Hc] Hwr.
  destruct w as [d0 r0 [h info fin body hj hjok hjd pu pol wr] tr tg db c t ra dr].
  unfold base_Write, runs, bind, get_w, ret, base_WriteHeader, upd_w. cbn in *. specialize (Hc Hwr).
  destruct fin as [[status h']|]; cbn.
  - destruct (_ || _); cbn; [by split|]. destruct Hinv. by repeat split.
  - destruct Hc as [|Hc]; [done|]. subst hjd. cbn. split; [done|]. by right.
Qed.

Lemma policy_FlushError_keeps d r : keeps d r policy_FlushError.
Proof.
  apply send_first_keeps. intros w [Hinv Hc] Hwr.
  destruct w as [d0 r0 [h info fin body hj hjok hjd pu pol wr] tr tg db c t ra dr].
  unfold base_FlushError, runs, bind, get_w, ret, base_WriteHeader, upd_w. cbn in *. specialize (Hc Hwr).
  destruct fin as [[status h']|]; cbn; [by split|].
  destruct Hc as [|Hc]; [done|]. subst hjd. cbn. split; [done|]. by right.
Qed.

Lemma w_ops_keeps d r ops : keeps d r (w_ops ops).
Proof.
  induction ops as [|op ops IH]; simpl; [apply keeps_ret|]. apply keeps_bind; [|done].
  destruct op as [f|status|data|]; simpl; [apply upd_header_keeps|apply w_WriteHeader_keeps|..];
    intros w Hw; unfold w_Write, w_FlushError, runs, bind, get_w; rewrite (pi_policy _ _ _ (proj1 Hw)).
  - by apply policy_Write_keeps.
  - by apply policy_FlushError_keeps.
Qed.

(** Facts about [policy_apply]. *)
Lemma policy_apply_media d r status h0 :
  HasAnyValidChallenge d = true → isImmutableMediaResponse r (policy_apply d r status h0) status = true →
  isImmutableMediaResponse r h0 status = true.
Proof.
  intros Hv. unfold policy_apply. rewrite Hv. simpl.
  destruct (isImmutableMediaResponse r h0 status) eqn:Hi; simpl; congruence.
Qed.

Lemma policy_apply_directives d r status h0 :
  HasAnyValidChallenge d = true → isImmutableMediaResponse r h0 status = true →
  directives (hdr_Values (policy_apply d r status h0) "Cache-Control") =
    "private" :: filter (λ d, dropped_directive d = false) (directives (hdr_Values h0 "Cache-Control")).
Proof.
  intros Hv Hi. unfold policy_apply. rewrite Hv, Hi. simpl. rewrite <-directives_private.
  destruct (rd_broadVaryApplied d); [|done]. by rewrite hdr_Values_removeFirst.
Qed.

(** * Properties *)

(** C21: No shared cache may store immutable media sent to a client that passed a
    challenge: whatever a backend does with the response writer (any sequence of
    header updates, status and body writes, repeated or missing [WriteHeader]s),
    if the response committed to the client is immutable media, its Cache-Control
    directives are [private] followed by the backend's own other directives, with
    no [public], [private] or [s-maxage] among them. *)
Theorem immutable_media_private (ops : list WOp) (w : World)
    (Hpol : w_Policy (wd_W w) = true) (Hnew : w_wroteHeader (wd_W w) = false)
    (Hfin : w_Final (wd_W w) = None) (Hvalid : HasAnyValidChallenge (wd_Data w) = true)
    (status : Z) (h : MIMEHeader)
    (Hh : w_Final (wd_W (world_of (w_ops ops w))) = Some (status, h))
    (Hmedia : isImmutableMediaResponse (wd_Req w) h status = true) :
  ∃ rest, directives (hdr_Values h "Cache-Control") = "private" :: rest ∧
    Forall (λ d, dropped_directive d = false) rest.
Proof.
  assert (policy_ok (wd_Data w) (wd_Req w) w) as Hok.
  { split; [split; try done; rewrite Hfin; done|congruence]. }
  pose proof (w_ops_keeps _ _ ops w Hok) as Hk. unfold runs in Hk.
  assert (policy_inv (wd_Data w) (wd_Req w) (world_of (w_ops ops w))) as Hinv
    by (destruct (w_ops ops w); [apply Hk|done]).
  destruct (pi_final _ _ _ Hinv _ _ Hh) as [h0 ->].
  rewrite (policy_apply_directives _ _ _ _ Hvalid) by (by eapply policy_apply_media).
  eexists. split; [reflexivity|]. apply Forall_forall. intros d [? _]%list_elem_of_filter. done.
Qed.

Definition media_ops : list WOp :=
  [OpHeader (λ h, hdr_Set (hdr_Set h "Content-Type" "image/png") "Cache-Control"
     "public, max-age=31536000, S-MAXAGE=600, immutable"); OpWriteHeader 200; OpWrite "png"].

Definition verified_world : World :=
  mkWorld (upd_Verify (λ _, {[1%Z := VerifyResultOK]}) (demo_data 0%Z (Addr4 0)))
    (demo_request ∅) (NewResponsePolicyWriter demo_writer) [] ∅ ∅ (λ _, 0%Z) 0 (λ _, S754_zero false) 0.

Lemma immutable_media_private_witness :
  ∃ status h rest, w_Final (wd_W (world_of (w_ops media_ops verified_world))) = Some (status, h) ∧
    directives (hdr_Values h "Cache-Control") = "private" :: rest.
Proof.
  eexists _, _.
  edestruct (immutable_media_private media_ops verified_world) as (rest & Hr & _);
    [reflexivity|reflexivity|reflexivity|reflexivity|vm_compute; reflexivity|vm_compute; reflexivity|].
  exists rest. split; [vm_compute; reflexivity|exact Hr].
Defined.

(** The private rewrite itself: reading the rewritten header back gives
    [private] and then exactly the directives that are not [private], [public],
    [s-maxage] (in any case) or empty, in their order; a response that is not
    immutable media, or whose client passed no challenge, is not touched. *)
Theorem policy_apply_spec (d : RequestData) (r : Request) (status : Z) (h : MIMEHeader) :
  directives (hdr_Values (makeCacheControlPrivate h) "Cache-Control") =
    "private" :: filter (λ d, dropped_directive d = false) (directives (hdr_Values h "Cache-Control")) ∧
  (HasAnyValidChallenge d && isImmutableMediaResponse r h status = false →
   policy_apply d r status h = h).
Proof.
  split; [apply directives_private|]. unfold policy_apply.
  destruct (HasAnyValidChallenge d); simpl; [|done]. by intros ->.
Qed.

Lemma policy_apply_spec_witness :
  policy_apply (demo_data 0%Z AddrZero) (demo_request ∅) 200
    {["Cache-Control" := ["public, immutable"]]} = {["Cache-Control" := ["public, immutable"]]}.
Proof. by apply policy_apply_spec. Defined.
