(* ===== verification/Mux.v ===== *)
(** [http.ServeMux]: patterns, their registration with the conflicts it refuses, and the
    tree that is walked to match a request. *)

From S2P Require Import Prelude GoStrings GoTime NetAddr GoURL Mime GoPath Types.
From S2P Require Import Cookie Register State Key Data ResponsePolicy.
From stdpp Require Import options.

Local Open Scope handler_scope.

(** * Patterns

    A segment: a literal, a wildcard for one segment, or one for the rest of the path, which
    has no name when it is what a trailing slash stands for. *)
Inductive Segment := SLit (s : string) | SWild (name : string) | SMulti (name : string).

#[export] Instance segment_eq_dec : EqDecision Segment.
Proof. solve_decision. Defined.

Record Pattern := mkPattern { pat_Method : string; pat_Host : string; pat_Segments : list Segment }.

Definition pathUnescape (s : string) : string :=
  match unescape s encodePath with Ok t => t | Err _ => s end.

(** [cleanPath]. *)
Definition cleanPath (p : string) : string :=
  if bool_decide (p = "") then "/"
  else
    let p := if HasPrefix p "/" then p else "/" +:+ p in
    let np := Clean p in
    if HasSuffix p "/" && negb (bool_decide (np = "/")) then np +:+ "/" else np.

(** The text before the first blank and behind it. *)
Fixpoint cut_blank (s : string) : option (string * string) :=
  match s with
  | EmptyString => None
  | String c s' =>
      if one_of " 	" c then Some ("", s')
      else '(before, after) ← cut_blank s'; Some (String c before, after)
  end.

Fixpoint trim_blank (s : string) : string :=
  match s with String c s' => if one_of " 	" c then trim_blank s' else s | EmptyString => "" end.

(** [strings.CutSuffix]; [None] when it is not there. *)
Definition strip_suffix (suffix s : string) : option string :=
  rev_string <$> strip_prefix (rev_string suffix) (rev_string s).

(** A Go identifier, in ASCII: letters beyond it are not looked up. *)
Definition isValidWildcardName (s : string) : bool :=
  let letter c := in_range "a" "z" c || in_range "A" "Z" c || one_of "_" c in
  match s with
  | EmptyString => false
  | String c s => letter c && string_forallb (λ c, letter c || in_range "0" "9" c) s
  end.

(** The segments of a path behind its first slash, which was split at the others. *)
Fixpoint parse_segments (seenNames : list string) (segs : list string) : option (list Segment) :=
  match segs with
  | [] => Some []
  | seg :: rest =>
      if bool_decide (seg = "") && bool_decide (rest = []) then Some [SMulti ""]
      else if negb (ContainsByte seg "{") then cons (SLit (pathUnescape seg)) <$> parse_segments seenNames rest
      else
        name ← strip_prefix "{" seg ≫= strip_suffix "}";
        if bool_decide (name = "$") then if bool_decide (rest = []) then Some [SLit "/"] else None
        else
          let '(name, is_multi) := match strip_suffix "..." name with Some name => (name, true) | None => (name, false) end in
          if is_multi && negb (bool_decide (rest = [])) then None
          else if negb (isValidWildcardName name) || bool_decide (name ∈ seenNames) then None
          else cons (if is_multi then SMulti name else SWild name) <$> parse_segments (name :: seenNames) rest
  end.

(** [parsePattern]: ["[METHOD ][HOST]/[PATH]"]; what follows the method first. *)
Definition parse_path (method rest : string) : option Pattern :=
  let '(host, path, found) := Cut rest "/" in
  if negb found || ContainsByte host "{" then None
  else if negb (bool_decide (method = "")) && negb (bool_decide (method = "CONNECT")) &&
          negb (bool_decide (cleanPath ("/" +:+ path) = "/" +:+ path)) then None
  else mkPattern method host <$> parse_segments [] (Split path "/").

Definition parsePattern (s : string) : option Pattern :=
  match cut_blank s with
  | Some (method, rest) => if negb (bool_decide (method = "")) && negb (isToken method) then None else parse_path method (trim_blank rest)
  | None => parse_path "" s
  end.

Example parsePattern1 :
  parsePattern "GET /base/assets/" = Some (mkPattern "GET" "" [SLit "base"; SLit "assets"; SMulti ""]) ∧
  parsePattern "/" = Some (mkPattern "" "" [SMulti ""]) ∧
  parsePattern "b.org/x/{id}/{rest...}" = Some (mkPattern "" "b.org" [SLit "x"; SWild "id"; SMulti "rest"]) ∧
  parsePattern "POST 	/a%20b/{$}" = Some (mkPattern "POST" "" [SLit "a b"; SLit "/"]) ∧
  parsePattern "/my challenge/" = None ∧ parsePattern "GET /a//b" = None ∧ parsePattern "/a{b}" = None ∧
  parsePattern "/{x}/{x}" = None ∧ parsePattern "assets" = None ∧ parsePattern "/{a...}/" = None.
Proof. vm_compute. repeat split. Qed.

(** ** Conflicts

    How what one pattern matches relates to what another does. *)
Inductive Relationship := Equivalent | MoreGeneral | MoreSpecific | Disjoint | Overlaps.

#[export] Instance relationship_eq_dec : EqDecision Relationship.
Proof. solve_decision. Defined.

Definition inverseRelationship (r : Relationship) : Relationship :=
  match r with MoreSpecific => MoreGeneral | MoreGeneral => MoreSpecific | r => r end.

Definition combineRelationships (r1 r2 : Relationship) : Relationship :=
  match r1 with
  | Equivalent => r2
  | Disjoint => Disjoint
  | Overlaps => if bool_decide (r2 = Disjoint) then Disjoint else Overlaps
  | MoreGeneral | MoreSpecific =>
      if bool_decide (r2 = Equivalent) then r1
      else if bool_decide (r2 = inverseRelationship r1) then Overlaps else r2
  end.

Definition compareMethods (m1 m2 : string) : Relationship :=
  if bool_decide (m1 = m2) then Equivalent
  else if bool_decide (m1 = "") then MoreGeneral
  else if bool_decide (m2 = "") then MoreSpecific
  else if bool_decide (m1 = "GET") && bool_decide (m2 = "HEAD") then MoreGeneral
  else if bool_decide (m2 = "GET") && bool_decide (m1 = "HEAD") then MoreSpecific
  else Disjoint.

Definition compareSegments (s1 s2 : Segment) : Relationship :=
  match s1, s2 with
  | SMulti _, SMulti _ | SWild _, SWild _ => Equivalent
  | SMulti _, _ => MoreGeneral
  | _, SMulti _ => MoreSpecific
  | SWild _, SLit s => if bool_decide (s = "/") then Disjoint else MoreGeneral
  | SLit s, SWild _ => if bool_decide (s = "/") then Disjoint else MoreSpecific
  | SLit s1, SLit s2 => if bool_decide (s1 = s2) then Equivalent else Disjoint
  end.

Definition is_multi (s : Segment) : bool := match s with SMulti _ => true | _ => false end.
Definition last_multi (segs : list Segment) : bool := match last segs with Some s => is_multi s | None => false end.

(** The loop over corresponding segments, and what the rest of the longer one adds. *)
Fixpoint compare_loop (multi1 multi2 : bool) (rel : Relationship) (segs1 segs2 : list Segment) : Relationship :=
  match segs1, segs2 with
  | [], [] => rel
  | s1 :: segs1, s2 :: segs2 =>
      let rel := combineRelationships rel (compareSegments s1 s2) in
      if bool_decide (rel = Disjoint) then rel else compare_loop multi1 multi2 rel segs1 segs2
  | [], _ => if multi1 then combineRelationships rel MoreGeneral else Disjoint
  | _, [] => if multi2 then combineRelationships rel MoreSpecific else Disjoint
  end.

Definition comparePaths (segs1 segs2 : list Segment) : Relationship :=
  let multi1 := last_multi segs1 in
  let multi2 := last_multi segs2 in
  if negb (length segs1 =? length segs2) && negb multi1 && negb multi2 then Disjoint
  else compare_loop multi1 multi2 Equivalent segs1 segs2.

Definition comparePathsAndMethods (p1 p2 : Pattern) : Relationship :=
  let mrel := compareMethods (pat_Method p1) (pat_Method p2) in
  if bool_decide (mrel = Disjoint) then Disjoint
  else combineRelationships mrel (comparePaths (pat_Segments p1) (pat_Segments p2)).

Definition conflictsWith (p1 p2 : Pattern) : bool :=
  bool_decide (pat_Host p1 = pat_Host p2) &&
  bool_decide (comparePathsAndMethods p1 p2 = Equivalent ∨ comparePathsAndMethods p1 p2 = Overlaps).

(** * The mux *)

Section mux.
  Context {H : Type}.
  Implicit Types routes : list (Pattern * H).

(** [ServeMux.Handle]; [None] is the panic for a pattern that does not parse or conflicts
    with one that is there. *)
Definition handle routes (pattern : string) (h : H) : option (list (Pattern * H)) :=
  p ← parsePattern pattern;
  if existsb (λ q : Pattern * H, conflictsWith p q.1) routes then None else Some (routes ++ [(p, h)]).

(** A mux with these patterns, registered in order. *)
Fixpoint handle_all routes (patterns : list (string * H)) : option (list (Pattern * H)) :=
  match patterns with
  | [] => Some routes
  | (pattern, h) :: patterns => routes ← handle routes pattern h; handle_all routes patterns
  end.

(** ** The routing tree

    A node is what is left of the patterns below it. *)
Abbreviation Node := (list (list Segment * (Pattern * H))).

Definition descend (f : Segment → bool) (n : Node) : Node :=
  omap (λ e : list Segment * (Pattern * H),
    match e.1 with s :: segs => if f s then Some (segs, e.2) else None | [] => None end) n.

Definition findChild (seg : string) : Node → Node := descend (λ s, bool_decide (s = SLit seg)).
Definition emptyChild : Node → Node := descend (λ s, match s with SWild _ => true | _ => false end).
Definition multiChild (n : Node) : option (Pattern * H) := snd <$> head (descend is_multi n).
Definition node_pattern (n : Node) : option (Pattern * H) := snd <$> head (filter (λ e : list Segment * (Pattern * H), e.1 = []) n).

(** [matchPath]: a literal first, then a wildcard, which is no last slash, then the rest. *)
Fixpoint matchPath (n : Node) (path : list string) : option (Pattern * H) :=
  match path with
  | [] => node_pattern n
  | seg :: rest =>
      match matchPath (findChild seg n) rest with
      | Some l => Some l
      | None =>
          match (if bool_decide (seg = "/") then None else matchPath (emptyChild n) rest) with
          | Some l => Some l
          | None => multiChild n
          end
      end
  end.

(** [firstSegment], all along a path: a slash at its end is a segment. *)
Fixpoint unescape_segments (segs : list string) : list string :=
  match segs with
  | [] => []
  | seg :: rest => (if bool_decide (seg = "") && bool_decide (rest = []) then "/" else pathUnescape seg) :: unescape_segments rest
  end.

Definition path_segments (path : string) : list string :=
  match path with EmptyString => [] | String _ path => unescape_segments (Split path "/") end.

(** The patterns of a host and a method. *)
Definition method_node routes (host method : string) : Node :=
  (λ ph : Pattern * H, (pat_Segments ph.1, ph)) <$>
    filter (λ ph : Pattern * H, pat_Host ph.1 = host ∧ pat_Method ph.1 = method) routes.

Definition matchMethodAndPath routes (host method path : string) : option (Pattern * H) :=
  let segs := path_segments path in
  match matchPath (method_node routes host method) segs with
  | Some l => Some l
  | None =>
      match (if bool_decide (method = "HEAD") then matchPath (method_node routes host "GET") segs else None) with
      | Some l => Some l
      | None => matchPath (method_node routes host "") segs
      end
  end.

(** [routingNode.match]: a pattern with the host wins. *)
Definition tree_match routes (host method path : string) : option (Pattern * H) :=
  match (if bool_decide (host = "") then None else matchMethodAndPath routes host method path) with
  | Some l => Some l
  | None => matchMethodAndPath routes "" method path
  end.

Definition Count (s : string) (c : ascii) : nat := length (filter (λ d, d = c) (bytes s)).

Definition exactMatch (n : option (Pattern * H)) (path : string) : bool :=
  match n with
  | None => false
  | Some (p, _) =>
      if negb (last_multi (pat_Segments p)) then true
      else if negb (bool_decide (path = "")) && negb (HasSuffix path "/") then false
      else length (pat_Segments p) =? Count path "/"
  end.

(** [matchOrRedirect]: what matches, or the path with a last slash to redirect to. *)
Definition matchOrRedirect routes (host method path : string) (u : option URL) : option (Pattern * H) * option URL :=
  let n := tree_match routes host method path in
  match u with
  | Some u =>
      if negb (exactMatch n path) && negb (HasSuffix path "/") &&
         exactMatch (tree_match routes host method (path +:+ "/")) (path +:+ "/")
      then (n, Some (set_RawQuery (set_Path emptyURL (cleanPath (Path u) +:+ "/")) (RawQuery u)))
      else (n, None)
  | None => (n, None)
  end.

(** [matchingMethods]: the methods of routes for the path, with or without a last slash. *)
Definition methods_at routes (host path : string) : list string :=
  filter (λ m, m ≠ "" ∧ is_Some (matchPath (method_node routes host m) (path_segments path))) ((λ ph, pat_Method ph.1) <$> routes).

Definition matchingMethods routes (host path : string) : gset string :=
  let at_ path : gset string := list_to_set ((if bool_decide (host = "") then [] else methods_at routes host path) ++ methods_at routes "" path) in
  let ms := at_ path ∪ (if HasSuffix path "/" then ∅ else at_ (path +:+ "/")) in
  ms ∪ (if bool_decide ("GET" ∈ ms) then {[ "HEAD" ]} else ∅).

(** [stripHostPort]. *)
Definition stripHostPort (h : string) : string :=
  if ContainsByte h ":" then match SplitHostPort h with Ok (host, _) => host | Err _ => h end else h.

(** What the mux does with a request: call a handler, redirect to a URL, or refuse. *)
Inductive Route := RHandler (h : H) | RRedirect (u : string) | RNotAllowed (methods : gset string) | RNotFound.

(** [findHandler]; a CONNECT request's path is used as it is. *)
Definition findHandler routes (r : Request) : Route :=
  let escapedPath := EscapedPath (rq_URL r) in
  let found host path n :=
    match n with
    | Some (_, h) => RHandler h
    | None => let ms := matchingMethods routes host path in if bool_decide (ms = ∅) then RNotFound else RNotAllowed ms
    end in
  if bool_decide (rq_Method r = "CONNECT") then
    let host := Host (rq_URL r) in
    match (matchOrRedirect routes host (rq_Method r) escapedPath (Some (rq_URL r))).2 with
    | Some u => RRedirect (URL_String u)
    | None => found host escapedPath (matchOrRedirect routes (rq_Host r) (rq_Method r) escapedPath None).1
    end
  else
    let host := stripHostPort (rq_Host r) in
    let path := cleanPath escapedPath in
    match matchOrRedirect routes host (rq_Method r) path (Some (rq_URL r)) with
    | (_, Some u) => RRedirect (URL_String u)
    | (n, None) =>
        if bool_decide (path = escapedPath) then found host path n
        else RRedirect (URL_String (set_RawQuery (set_Path emptyURL path) (RawQuery (rq_URL r))))
    end.

End mux.
Arguments RHandler {H} _.
Arguments RRedirect {H} _.
Arguments RNotAllowed {H} _.
Arguments RNotFound {H}.

(** [ServeMux.ServeHTTP] over handlers. *)
Definition serve_mux (routes : list (Pattern * M unit)) : M unit :=
  r <- get_req;;
  if bool_decide (Path (rq_URL r) = "*") then
    (if (1 <? rq_ProtoMajor r)%Z || bool_decide (rq_Proto r = "HTTP/1.1")
     then w_Set "Connection" "close" else ret ());;
    w_WriteHeader 400
  else
    match findHandler routes r with
    | RHandler h => h
    | RRedirect u => http_Redirect u 301
    | RNotAllowed ms =>
        w_Set "Allow" (Join (merge_sort String.le (elements ms)) ", ");;
        http_Error (StatusText 405) 405
    | RNotFound => http_Error "404 page not found" 404
    end.

(** * Facts *)

Section facts.
  Context {H : Type}.
  Implicit Types routes : list (Pattern * H).

Lemma descend_in f (n : list (list Segment * (Pattern * H))) segs x : (segs, x) ∈ descend f n → ∃ segs', (segs', x) ∈ n.
Proof.
  intros ([segs' y] & Hin & Hf)%list_elem_of_omap. cbn in Hf. destruct segs' as [|s segs']; [done|].
  destruct (f s); [|done]. injection Hf as -> ->. by eexists.
Qed.

Lemma head_in {A} (l : list A) x : head l = Some x → x ∈ l.
Proof. destruct l; [done|]. intros [= ->]. by left. Qed.

(** What is matched is in the tree. *)
Lemma snd_head_in {A B} (l : list (A * B)) x : snd <$> head l = Some x → ∃ a, (a, x) ∈ l.
Proof. destruct l as [|[a b] l]; [done|]. intros [= ->]. exists a. by left. Qed.

Lemma matchPath_in path : ∀ (n : list (list Segment * (Pattern * H))) x, matchPath n path = Some x → ∃ segs, (segs, x) ∈ n.
Proof.
  induction path as [|seg path IH]; intros n x; cbn [matchPath].
  - intros (segs & [_ Hin]%list_elem_of_filter)%snd_head_in. by exists segs.
  - destruct (matchPath (findChild seg n) path) as [l|] eqn:H1.
    { intros [= ->]. apply IH in H1 as [segs Hin]. by eapply descend_in. }
    destruct (if bool_decide (seg = "/") then None else matchPath (emptyChild n) path) as [l|] eqn:H2.
    { intros [= ->]. case_bool_decide; [done|]. apply IH in H2 as [segs Hin]. by eapply descend_in. }
    intros (segs & Hin)%snd_head_in. by eapply descend_in.
Qed.

Lemma tree_match_in routes host method path x : tree_match routes host method path = Some x → x ∈ routes.
Proof.
  assert (Hnode : ∀ h m, matchPath (method_node routes h m) (path_segments path) = Some x → x ∈ routes).
  { intros h m (segs & Hin)%matchPath_in. apply list_elem_of_fmap in Hin as (y & [= _ ->] & Hin).
    by apply list_elem_of_filter in Hin as [_ Hin]. }
  assert (Hhost : ∀ h, matchMethodAndPath routes h method path = Some x → x ∈ routes).
  { intros h. unfold matchMethodAndPath. destruct (matchPath (method_node routes h method) _) eqn:Hm; [intros [= ->]; by eapply Hnode|].
    case_bool_decide; [|apply Hnode]. destruct (matchPath (method_node routes h "GET") _) eqn:Hg; [intros [= ->]; by eapply Hnode|apply Hnode]. }
  unfold tree_match. case_bool_decide; [apply Hhost|].
  destruct (matchMethodAndPath routes host method path) eqn:Hm; [intros [= ->]; by eapply Hhost|apply Hhost].
Qed.

Lemma findHandler_in routes r h : findHandler routes r = RHandler h → ∃ p, (p, h) ∈ routes.
Proof.
  unfold findHandler, matchOrRedirect. cbv zeta.
  assert (Hfound : ∀ n (ms : gset string), (∀ x, n = Some x → x ∈ routes) →
    (match n with Some (_, h) => RHandler h | None => if bool_decide (ms = ∅) then RNotFound else RNotAllowed ms end) = RHandler h →
    ∃ p, (p, h) ∈ routes).
  { intros [[p h']|] ms Hn; [|by case_bool_decide]. intros [= ->]. exists p. by apply Hn. }
  case_bool_decide.
  - destruct (negb (exactMatch _ _) && _ && _); cbn [fst snd]; [done|]. apply Hfound. intros x. apply tree_match_in.
  - destruct (negb (exactMatch _ _) && _ && _); [done|]. case_bool_decide; [|done]. apply Hfound. intros x. apply tree_match_in.
Qed.

(** A mux that was registered holds the handlers it was given. *)
Lemma handle_all_in patterns : ∀ routes routes' p h,
  handle_all routes patterns = Some routes' → (p, h) ∈ routes' → (p, h) ∈ routes ∨ ∃ pattern, (pattern, h) ∈ patterns.
Proof.
  induction patterns as [|[pattern h0] patterns IH]; intros routes routes' p h; cbn [handle_all]; [intros [= ->]; by left|].
  unfold handle. destruct (parsePattern pattern) as [q|]; [|done]. cbn [mbind option_bind].
  destruct (existsb _ routes); [done|]. cbn [mbind option_bind]. intros Hall Hin.
  destruct (IH _ _ _ _ Hall Hin) as [Hin'|[pattern' Hin']].
  - apply elem_of_app in Hin' as [?|[= -> ->]%list_elem_of_singleton]; [by left|]. right. exists pattern. by left.
  - right. exists pattern'. by right.
Qed.

End facts.

(** Whether a mux takes patterns does not depend on their handlers. *)
Definition on_handler {K H H'} (f : H → H') (e : K * H) : K * H' := (e.1, f e.2).

Lemma handle_all_fmap {H H'} (f : H → H') (patterns : list (string * H)) : ∀ routes : list (Pattern * H),
  handle_all (on_handler f <$> routes) (on_handler f <$> patterns) =
    fmap (M:=list) (on_handler f) <$> handle_all routes patterns.
Proof.
  induction patterns as [|[pattern h] patterns IH]; intros routes; [done|]. rewrite fmap_cons. cbn [on_handler fst snd handle_all].
  unfold handle. destruct (parsePattern pattern) as [p|]; [|done]. cbn [mbind option_bind].
  assert (Hex : existsb (λ q : Pattern * H', conflictsWith p q.1) (on_handler f <$> routes) =
    existsb (λ q : Pattern * H, conflictsWith p q.1) routes) by (by induction routes as [|[] routes IHr]; cbn; [|rewrite IHr]).
  rewrite Hex. destruct (existsb _ routes); [done|]. cbn [mbind option_bind].
  by rewrite <-IH, fmap_app.
Qed.

Lemma handle_all_accepts {H H'} (patterns : list (string * H)) (patterns' : list (string * H')) :
  patterns.*1 = patterns'.*1 → is_Some (handle_all [] patterns) → is_Some (handle_all [] patterns').
Proof.
  intros Heq [routes Hr]. pose proof (handle_all_fmap (λ _, ()) patterns []) as H1.
  pose proof (handle_all_fmap (λ _, ()) patterns' []) as H2. rewrite Hr in H1.
  change (on_handler (λ _ : H', ()) <$> ([] : list (Pattern * H'))) with ([] : list (Pattern * ())) in H2.
  change (on_handler (λ _ : H, ()) <$> ([] : list (Pattern * H))) with ([] : list (Pattern * ())) in H1.
  assert (Hu : ∀ A (l : list (string * A)), on_handler (λ _, ()) <$> l = (λ s, (s, ())) <$> l.*1)
    by (intros A l; by rewrite <-list_fmap_compose).
  rewrite (Hu _ patterns), Heq, <-(Hu _ patterns'), H2 in H1. destruct (handle_all [] patterns'); [by eexists|done].
Qed.

Definition demo_mux : option (list (Pattern * nat)) :=
  handle_all [] [("/", 0); ("POST /b/clear", 1); ("GET /b/assets/", 2); ("/b/c/x/", 3); ("/b/c/y/verify", 4)].

Example mux1 :
  let at_ m p := (λ routes, findHandler routes (mkRequest m "" "HTTP/1.1" 1 (set_Path emptyURL p) ∅ [] "" false)) <$> demo_mux in
  at_ "POST" "/b/clear" = Some (RHandler 1) ∧ at_ "GET" "/b/clear" = Some (RHandler 0) ∧
  at_ "HEAD" "/b/assets/x.css" = Some (RHandler 2) ∧ at_ "PUT" "/b/c/x/any/thing" = Some (RHandler 3) ∧
  at_ "GET" "/b/c/x" = Some (RRedirect "/b/c/x/") ∧ at_ "GET" "/b/c/y/verify" = Some (RHandler 4) ∧
  at_ "GET" "/b/c/y/../../assets/" = Some (RRedirect "/b/assets/") ∧ at_ "GET" "" = Some (RRedirect "/") ∧
  at_ "POST" "/b/assets" = Some (RHandler 0) ∧ at_ "GET" "/b/assets" = Some (RRedirect "/b/assets/").
Proof. vm_compute. repeat split. Qed.

(** What is refused: a pattern that is there, and one that is neither more specific nor
    more general. *)
Example conflicts1 :
  handle_all [] [("/b/c/x/", 0); ("/b/c/x/", 1)] = None ∧
  handle_all [] [("GET /b/assets/", 0); ("/b/assets/x/", 1)] = None ∧
  is_Some (handle_all [] [("GET /b/assets/", 0); ("GET /b/assets/x/", 1); ("/b/{x}/", 2); ("b.org/b/assets/", 3)]).
Proof. vm_compute. split; [done|]. split; [done|]. by eexists. Qed.
