(* ===== verification/Pages.v ===== *)
(** [lib/template.go], [lib/http.go] (tags), [utils/tagfetcher.go]: challenge and
    error pages, and the tags they copy from the protected site. *)

From S2P Require Import Prelude GoStrings GoTime NetAddr GoURL Mime UtilsHttp GoPath DecayMap.
From S2P Require Import Types Register State Key Data ResponsePolicy.
From stdpp Require Import options.

Local Open Scope handler_scope.

(** * [utils/tagfetcher.go] *)

(** [httptest.ResponseRecorder]: headers, committed status with its headers, body. *)
Record Recorder := mkRecorder {
  rec_Header : MIMEHeader; rec_Snap : option (Z * MIMEHeader); rec_Body : string }.

Definition rec_WriteHeader (status : Z) (rec : Recorder) : Recorder :=
  match rec_Snap rec with
  | Some _ => rec
  | None => mkRecorder (rec_Header rec) (Some (status, rec_Header rec)) (rec_Body rec)
  end.

Section pages.
  Context (st : State).

(** A write without a status commits 200, with a sniffed content type if none is set. *)
Definition rec_Write (data : string) (rec : Recorder) : Recorder :=
  let rec :=
    match rec_Snap rec with
    | Some _ => rec
    | None =>
        let h := rec_Header rec in
        let h := if bool_decide (is_Some (h !! "Content-Type")) ||
                    negb (bool_decide (hdr_Get h "Transfer-Encoding" = "")) then h
                 else hdr_Set h "Content-Type" (st_DetectContentType st data) in
        rec_WriteHeader 200 (mkRecorder h None (rec_Body rec))
    end in
  mkRecorder (rec_Header rec) (rec_Snap rec) (rec_Body rec +:+ data).

Definition rec_op (rec : Recorder) (op : WOp) : Recorder :=
  match op with
  | OpHeader f => mkRecorder (f (rec_Header rec)) (rec_Snap rec) (rec_Body rec)
  | OpWriteHeader status => rec_WriteHeader status rec
  | OpWrite data => rec_Write data rec
  | OpFlush => match rec_Snap rec with Some _ => rec | None => rec_WriteHeader 200 rec end
  end.

Definition fetch_request (uri : URL) : Request :=
  mkRequest "GET" "" "" 0 uri
    {[ "User-Agent" := ["Mozilla 5.0 (compatible; go-away/1.0 fetch-tags) TwitterBot/1.0"];
       "Accept" := ["text/html,application/xhtml+xml"] ]} [] "" false.

(** The nodes found; Go's nil slice is the empty list. *)
Definition FetchTags (backend : Backend) (uri : URL) (kinds : list string) : list Node :=
  let rec := foldl rec_op (mkRecorder ∅ None "") (b_ServeHTTP backend (fetch_request uri)) in
  let '(status, header) := default (200%Z, rec_Header rec) (rec_Snap rec) in
  if negb (status =? 200)%Z then []
  else
    let contentType := (ParseMediaType (hdr_Get header "Content-Type")).1 in
    if negb (bool_decide (contentType = "text/html")) &&
       negb (bool_decide (contentType = "application/xhtml+xml")) then []
    else
      match st_parseHTML st (rec_Body rec) with
      | None => []
      | Some nodes => filter (λ n, n_Data n ∈ kinds) nodes
      end.

(** * [fetchTags] of [lib/http.go] *)

(** The relation of a link: the first [rel] attribute. *)
Definition link_name (attrs : list Attribute) : string :=
  match list_find (λ a, a_Namespace a = "" ∧ a_Key a = "rel") attrs with
  | Some (_, a) => a_Val a
  | None => ""
  end.

Definition link_keep (name : string) : bool :=
  bool_decide (name ∈ ["icon"; "alternate icon"; "alternate"; "canonical"; "search"; "author";
                       "privacy-policy"; "license"; "copyright"; "terms-of-service"; "manifest"]).

(** The name of a meta tag: its [name] attribute, or the first non-empty
    [property] before one. *)
Fixpoint meta_name (attrs : list Attribute) (name : string) : string :=
  match attrs with
  | [] => name
  | a :: attrs =>
      if negb (bool_decide (a_Namespace a = "")) then meta_name attrs name
      else if bool_decide (a_Key a = "name") then a_Val a
      else if bool_decide (a_Key a = "property") && bool_decide (name = "")
           then meta_name attrs (a_Val a)
      else meta_name attrs name
  end.

(** The calls are [strings.HasPrefix("og:", name)]: the name is the prefix. *)
Definition meta_keep (name : string) : bool :=
  HasPrefix "og:" name || HasPrefix "fb:" name || HasPrefix "twitter:" name || HasPrefix "profile:" name
  || bool_decide (name = "vcs") || HasPrefix "vcs:" name
  || bool_decide (name = "forge") || HasPrefix "forge:" name
  || HasPrefix "citation_" name
  || bool_decide (name ∈
       ["theme-color"; "color-scheme"; "origin-trials";
        "application-name"; "origin"; "author"; "creator"; "contact"; "title"; "description";
        "thumbnail"; "rating";
        "license"; "license:uri"; "rights"; "rights-standard";
        "go-import"; "go-source";
        "apple-itunes-app"; "appstore:bundle_id"; "appstore:developer_url"; "appstore:store_id";
        "google-play-app";
        "verify-v1"; "google-site-verification"; "p:domain_verify"; "yandex-verification";
        "alexaverifyid";
        "keywords"; "robots"; "google"; "googlebot"; "bingbot"; "pinterest"; "Slurp"]).

Definition link_attributes : list string := ["rel"; "href"; "hreflang"; "media"; "title"; "type"].
Definition meta_attributes : list string := ["name"; "property"; "content"].

Definition safe_node (safeAttributes : list string) (n : Node) : option Node :=
  match filter (λ a, a_Namespace a = "" ∧ a_Key a ∈ safeAttributes) (n_Attr n) with
  | [] => None
  | attrs => Some (mkNode (n_Data n) "" attrs)
  end.

(** One iteration of the loop over the nodes. *)
Definition tag_entry (n : Node) : option Node :=
  if negb (bool_decide (n_Namespace n = "")) then None
  else if bool_decide (n_Data n = "link") then
    let name := link_name (n_Attr n) in
    if bool_decide (name = "") then None
    else if link_keep name then safe_node link_attributes n else None
  else if bool_decide (n_Data n = "meta") then
    let name := meta_name (n_Attr n) "" in
    if bool_decide (name = "") then None
    else if meta_keep name then safe_node meta_attributes n else None
  else None.

Definition tag_kinds (meta link : bool) : list string :=
  if meta then ["meta"] else if link then ["link"] else [].

Definition tags_Get (key : string) : M (option (list Node)) :=
  λ w, match wd_Tags w !! key with
       | None => Ret None w
       | Some _ =>
           (t <- now;; λ w,
            let '(v, m) := DecayMap.Get t (wd_Tags w) key in Ret v (with_tags m w)) w
       end.

Definition tags_Set (key : string) (v : list Node) (ttl : Duration) : M unit :=
  t <- now;; λ w, Ret () (with_tags (Set_ t (wd_Tags w) key v ttl) w).

Definition fetchTags (host : string) (backend : option Backend) (meta link : bool) : M (list Node) :=
  r <- get_req;;
  let uri := set_RawQuery (rq_URL r)
    (Values_Encode (delete_prefix QueryArgPrefix (URL_Query (rq_URL r)))) in
  let key := host +:+ ":" +:+ URL_String uri in
  cached <- tags_Get key;;
  match cached with
  | Some v => ret v
  | None =>
      match backend with
      | None => panic (ENew "invalid memory address or nil pointer dereference")
      | Some b =>
          emit (EvFetch (b_Name b) uri);;
          match FetchTags b uri (tag_kinds meta link) with
          | [] => ret []
          | result =>
              let entries := omap tag_entry result in
              tags_Set key entries (6 * Hour)%Z;;
              ret entries
          end
      end
  end.

(** * [lib/template.go] *)

Definition tag_attrs (n : Node) : gmap string string :=
  foldl (λ m a, <[a_Key a := a_Val a]> m) ∅ (n_Attr n).

Definition input_tags (input : TplInput) (k : string) : list (gmap string string) :=
  match input !! k with Some (TTags l) => l | _ => [] end.

(** Every cached tag, links included, is appended to the meta tags. *)
Definition addCachedTags (input : TplInput) : M TplInput :=
  d <- get_data;; r <- get_req;;
  let proxyMetaTags := GetOptBool d RequestOptProxyMetaTags false in
  let proxySafeLinkTags := GetOptBool d RequestOptProxySafeLinkTags false in
  if proxyMetaTags || proxySafeLinkTags then
    let '(backend, host) := BackendHost st d r in
    tags <- fetchTags host backend proxyMetaTags proxySafeLinkTags;;
    match tags with
    | [] => ret input
    | _ =>
        let metaTagMap := input_tags input "MetaTags" ++ (tag_attrs <$> tags) in
        let linkTagMap := input_tags input "LinkTags" in
        ret (<["LinkTags" := TTags linkTagMap]> (<["MetaTags" := TTags metaTagMap]> input))
    end
  else ret input.

Definition template_exec (input : TplInput) : M (result string) :=
  match st_templates st !! opt_ChallengeTemplate (st_opt st) with
  | Some f => ret (f input)
  | None => panic (ENew "invalid memory address or nil pointer dereference")
  end.

Definition page_headers : M unit :=
  w_Set "Content-Type" "text/html; charset=utf-8";;
  w_Set "Cache-Control" "no-cache, no-store, must-revalidate".

Definition with_overrides (input : TplInput) : TplInput :=
  (TStr <$> opt_ChallengeTemplateOverrides (st_opt st)) ∪ input.

Context `{Jose}.

Definition send_page (status : Z) (body : string) : M unit :=
  ResponseHeaders st;; w_WriteHeader status;; w_Write body.

Definition error_input (d : RequestData) (status : Z) (err : goerr) (redirect : string) : TplInput :=
  with_overrides
    (list_to_map
       [("Id", TStr (RequestId_String (rd_Id d))); ("Random", TStr (st_cacheBust st));
        ("Error", TStr (Error err)); ("Path", TStr (st_urlPath st)); ("Theme", TStr "");
        ("Title", TStr (Strings_Get (opt_Strings (st_opt st)) "title_error" +:+ " " +:+ StatusText status));
        ("Challenge", TStr ""); ("Redirect", TStr redirect); ("Links", TLinks (opt_Links (st_opt st)));
        ("Strings", TStrings (opt_Strings (st_opt st)))]).

Definition ErrorPage (status : Z) (err : goerr) (redirect : string) : M unit :=
  d <- get_data;;
  page_headers;;
  input <- addCachedTags (error_input d status err redirect);;
  res <- template_exec input;;
  match res with
  | Err err2 => panic err2
  | Ok body => send_page status body
  end.

Definition challenge_input (d : RequestData) (reg : option Registration) (params : TplInput) : TplInput :=
  let input := with_overrides
    (list_to_map
       [("Id", TStr (RequestId_String (rd_Id d))); ("Random", TStr (st_cacheBust st));
        ("Path", TStr (st_urlPath st)); ("Links", TLinks (opt_Links (st_opt st)));
        ("Strings", TStrings (opt_Strings (st_opt st)))]) in
  let input := match reg with Some reg => <["Challenge" := TStr (reg_Name reg)]> input | None => input end in
  let input := params ∪ input in
  if bool_decide (is_Some (input !! "Title")) then input
  else <["Title" := TStr (Strings_Get (opt_Strings (st_opt st)) "title_challenge")]> input.

Definition ChallengePage (status : Z) (reg : option Registration) (params : TplInput) : M unit :=
  d <- get_data;;
  input <- addCachedTags (challenge_input d reg params);;
  page_headers;;
  res <- template_exec input;;
  match res with
  | Err err => ErrorPage 500 err ""
  | Ok body => send_page status body
  end.

End pages.

(** * Properties *)

(** The tags of the protected site that are kept: a node is a link or meta element without
    namespace, its relation or name is allowed, and every attribute it has left is one
    of the original's, on the safe list and without namespace. *)
Lemma tag_entry_safe (n n' : Node) (Hk : tag_entry n = Some n') :
  n_Namespace n = "" ∧ n_Data n' = n_Data n ∧ n_Attr n' ≠ [] ∧
  ((n_Data n = "link" ∧ link_keep (link_name (n_Attr n)) = true ∧
    ∀ a, a ∈ n_Attr n' ↔ a ∈ n_Attr n ∧ a_Namespace a = "" ∧ a_Key a ∈ link_attributes) ∨
   (n_Data n = "meta" ∧ meta_keep (meta_name (n_Attr n) "") = true ∧
    ∀ a, a ∈ n_Attr n' ↔ a ∈ n_Attr n ∧ a_Namespace a = "" ∧ a_Key a ∈ meta_attributes)).
Proof.
  assert (Hsafe : ∀ safe, safe_node safe n = Some n' → n_Data n' = n_Data n ∧ n_Attr n' ≠ [] ∧
    ∀ a, a ∈ n_Attr n' ↔ a ∈ n_Attr n ∧ a_Namespace a = "" ∧ a_Key a ∈ safe).
  { intros safe. unfold safe_node. destruct (filter _ _) as [|a l] eqn:Hf; [done|].
    intros [= <-]. split; [done|]. split; [done|]. intros b. cbn. rewrite <-Hf, list_elem_of_filter.
    tauto. }
  unfold tag_entry in Hk. repeat case_bool_decide; simpl in Hk; try done; try by case_match.
  - destruct (link_keep _) eqn:Hl; [|done]. apply Hsafe in Hk as (? & ? & ?).
    do 3 (split; [done|]). by left.
  - destruct (meta_keep _) eqn:Hl; [|done]. apply Hsafe in Hk as (? & ? & ?).
    do 3 (split; [done|]). by right.
Qed.

Definition demo_meta (k v : string) : Node :=
  mkNode "meta" "" [mkAttr "" "onclick" "x()"; mkAttr "" k v; mkAttr "" "content" "text"].

Example tag_entry1 :
  tag_entry (demo_meta "name" "description") =
    Some (mkNode "meta" "" [mkAttr "" "name" "description"; mkAttr "" "content" "text"]).
Proof. vm_compute. reflexivity. Qed.

(** ** What may be shown

    The relations and names that are meant to be shown, on their own: of the names with a
    prefix the code keeps the prefix itself, or less of it ([meta_keep_swapped]). *)
Definition allowed_rels : list string :=
  ["alternate"; "alternate icon"; "author"; "canonical"; "copyright"; "icon"; "license"; "manifest";
   "privacy-policy"; "search"; "terms-of-service"].
Definition allowed_prefixes : list string := ["citation_"; "fb:"; "forge:"; "og:"; "profile:"; "twitter:"; "vcs:"].
Definition allowed_names : list string :=
  ["Slurp"; "alexaverifyid"; "apple-itunes-app"; "application-name"; "appstore:bundle_id"; "appstore:developer_url";
   "appstore:store_id"; "author"; "bingbot"; "color-scheme"; "contact"; "creator"; "description"; "forge"; "go-import";
   "go-source"; "google"; "google-play-app"; "google-site-verification"; "googlebot"; "keywords"; "license";
   "license:uri"; "origin"; "origin-trials"; "p:domain_verify"; "pinterest"; "rating"; "rights"; "rights-standard";
   "robots"; "theme-color"; "thumbnail"; "title"; "vcs"; "verify-v1"; "yandex-verification"].

Definition allowed_name (name : string) : Prop :=
  name ∈ allowed_names ∨ name ≠ "" ∧ ∃ p, p ∈ allowed_prefixes ∧ HasPrefix p name = true.

(** The value of the first attribute of that name. *)
Definition attr_value (k : string) (attrs : list Attribute) : option string :=
  a_Val ∘ snd <$> list_find (λ a, a_Namespace a = "" ∧ a_Key a = k) attrs.

(** A tag that may be shown: a link of an allowed relation, or a meta element of an allowed
    name, or without a name and with an allowed property, with safe attributes only. *)
Definition safe_tag (n : Node) : Prop :=
  (n_Data n = "link" ∧ (∃ rel, attr_value "rel" (n_Attr n) = Some rel ∧ rel ∈ allowed_rels) ∧
   ∀ a, a ∈ n_Attr n → a_Namespace a = "" ∧ a_Key a ∈ link_attributes) ∨
  (n_Data n = "meta" ∧
   (∃ name, allowed_name name ∧
      (attr_value "name" (n_Attr n) = Some name ∨
       attr_value "name" (n_Attr n) = None ∧ mkAttr "" "property" name ∈ n_Attr n)) ∧
   ∀ a, a ∈ n_Attr n → a_Namespace a = "" ∧ a_Key a ∈ meta_attributes).

Lemma attr_value_cons k a attrs :
  attr_value k (a :: attrs) =
    if decide (a_Namespace a = "" ∧ a_Key a = k) then Some (a_Val a) else attr_value k attrs.
Proof. unfold attr_value. cbn [list_find]. case_decide; [done|]. by destruct (list_find _ attrs) as [[]|]. Qed.

(** The filter leaves what decided. *)
Lemma attr_value_safe k (safe : list string) attrs :
  k ∈ safe → attr_value k (filter (λ a, a_Namespace a = "" ∧ a_Key a ∈ safe) attrs) = attr_value k attrs.
Proof.
  intros Hk. induction attrs as [|a attrs IH]; [done|]. rewrite filter_cons, attr_value_cons.
  destruct (decide (a_Namespace a = "" ∧ a_Key a = k)) as [[Hn Ha]|Hna].
  - rewrite decide_True by (by rewrite Ha). rewrite attr_value_cons. by rewrite decide_True.
  - case_decide; [|done]. rewrite attr_value_cons. by rewrite decide_False.
Qed.

Lemma link_name_value attrs : link_name attrs = default "" (attr_value "rel" attrs).
Proof. unfold link_name, attr_value. by destruct (list_find _ _) as [[]|]. Qed.

Lemma meta_name_value attrs : ∀ start,
  match attr_value "name" attrs with
  | Some name => meta_name attrs start = name
  | None => meta_name attrs start = start ∨ mkAttr "" "property" (meta_name attrs start) ∈ attrs
  end.
Proof.
  induction attrs as [|[ns k v] attrs IH]; intros start; [by left|]. rewrite attr_value_cons. cbn [meta_name a_Namespace a_Key a_Val].
  destruct (decide (ns = "")) as [->|Hns].
  2:{ rewrite decide_False by naive_solver. rewrite bool_decide_false by done. cbn [negb].
      specialize (IH start). destruct (attr_value "name" attrs); [done|]. destruct IH; [by left|right; by right]. }
  rewrite bool_decide_true by done. cbn [negb]. destruct (decide (k = "name")) as [->|Hk].
  { by rewrite decide_True. }
  rewrite decide_False by naive_solver. rewrite (bool_decide_false (k = "name")) by done.
  destruct (bool_decide (k = "property") && bool_decide (start = "")) eqn:Hp.
  - apply andb_true_iff in Hp as [->%bool_decide_eq_true ->%bool_decide_eq_true]. specialize (IH v).
    destruct (attr_value "name" attrs); [done|]. destruct IH as [->|]; right; [by left|by right].
  - specialize (IH start). destruct (attr_value "name" attrs); [done|]. destruct IH; [by left|right; by right].
Qed.

Lemma link_keep_allowed name : link_keep name = true → name ∈ allowed_rels.
Proof. unfold link_keep, allowed_rels. rewrite bool_decide_eq_true. set_solver. Qed.

Lemma meta_keep_allowed name : name ≠ "" → meta_keep name = true → allowed_name name.
Proof.
  intros Hne. unfold meta_keep, allowed_name. rewrite !orb_true_iff, !bool_decide_eq_true.
  assert (Hp : ∀ p, p ∈ allowed_prefixes → HasPrefix p name = true →
    name ∈ allowed_names ∨ name ≠ "" ∧ ∃ p, p ∈ allowed_prefixes ∧ HasPrefix p name = true) by eauto.
  assert (Hn : ∀ l, bool_decide (l ⊆ allowed_names) = true → name ∈ l → name ∈ allowed_names)
    by (intros l Hl%bool_decide_eq_true; set_solver).
  intros [[[[[[[[[H|H]|H]|H]|H]|H]|H]|H]|H]|H]; try (revert H; apply Hp; by apply (bool_decide_eq_true_1 _)); left.
  - subst name. by apply (bool_decide_eq_true_1 _).
  - subst name. by apply (bool_decide_eq_true_1 _).
  - revert H. apply Hn. vm_compute. reflexivity.
Qed.

Lemma tag_entry_safe_tag n n' : tag_entry n = Some n' → safe_tag n'.
Proof.
  intros Hk. pose proof (tag_entry_safe n n' Hk) as (_ & Hd & _ & Hs). unfold tag_entry, safe_node in Hk.
  repeat case_bool_decide; try done; cbn [negb] in Hk; case_match; try done; revert Hk;
    (destruct (filter _ _) as [|a0 l] eqn:Hf; [done|]; intros [= <-]; rewrite <-Hf; unfold safe_tag; cbn [n_Data n_Attr]).
  - left. split; [done|]. split; [|by intros a [? _]%list_elem_of_filter].
    rewrite attr_value_safe by (by apply (bool_decide_eq_true_1 _)). rewrite link_name_value in *.
    destruct (attr_value "rel" (n_Attr n)) as [rel|]; [|done]. exists rel. split; [done|]. by apply link_keep_allowed.
  - right. split; [done|]. split; [|by intros a [? _]%list_elem_of_filter].
    rewrite attr_value_safe by (by apply (bool_decide_eq_true_1 _)). pose proof (meta_name_value (n_Attr n) "") as Hn.
    exists (meta_name (n_Attr n) ""). split; [by apply meta_keep_allowed|].
    destruct (attr_value "name" (n_Attr n)) as [name|]; [left; congruence|right]. split; [done|]. destruct Hn as [|Hn]; [done|].
    apply list_elem_of_filter. split; [|done]. split; [done|]. by apply (bool_decide_eq_true_1 _).
Qed.

Lemma kept_safe_tags nodes : Forall safe_tag (omap tag_entry nodes).
Proof. apply Forall_forall. intros n (n0 & _ & Hn)%list_elem_of_omap. by eapply tag_entry_safe_tag. Qed.

(** The attributes of a tag as a page gets them. *)
Definition safe_attributes (attrs : gmap string string) : Prop :=
  dom attrs ⊆ list_to_set link_attributes ∨ dom attrs ⊆ list_to_set meta_attributes.

Lemma tag_attrs_dom n : dom (tag_attrs n) = list_to_set (a_Key <$> n_Attr n).
Proof.
  unfold tag_attrs. assert (Hd : ∀ l (m : gmap string string),
    dom (foldl (λ m a, <[a_Key a := a_Val a]> m) m l) = dom m ∪ list_to_set (a_Key <$> l)).
  { intros l. induction l as [|a l IH]; intros m; cbn; [set_solver|]. rewrite IH, dom_insert_L. set_solver. }
  rewrite Hd. set_solver.
Qed.

Lemma safe_tag_attributes n : safe_tag n → safe_attributes (tag_attrs n).
Proof.
  intros [(_ & _ & Ha)|(_ & _ & Ha)]; [left|right]; intros k; rewrite tag_attrs_dom, !elem_of_list_to_set;
    intros (a & -> & Hin)%list_elem_of_fmap; by apply Ha.
Qed.

(** The social tags the allow list means to keep are dropped, because the
    arguments of the prefix test are swapped: no name that properly extends
    [og:], [fb:], [twitter:], [profile:], [vcs:], [forge:] or [citation_] is kept. *)
Theorem meta_keep_swapped (p s : string)
    (Hp : p ∈ ["og:"; "fb:"; "twitter:"; "profile:"; "vcs:"; "forge:"; "citation_"]) (Hs : s ≠ "") :
  meta_keep (p +:+ s) = false.
Proof.
  destruct s as [|c s]; [done|].
  set_unfold in Hp. destruct_or! Hp; subst p; unfold meta_keep, HasPrefix; simpl;
    repeat case_decide; simplify_eq; simpl; rewrite ?bool_decide_false; try done; set_solver.
Qed.

Lemma meta_keep_swapped_witness : meta_keep "og:title" = false ∧ meta_keep "og:" = true.
Proof. split; [apply (meta_keep_swapped "og:" "title"); [set_solver|done]|reflexivity]. Defined.
