(* ===== verification/Helper.v ===== *)
(** [lib/challenge/helper.go]: key verifiers, the verify and redirect URLs, and the
    handler behind a challenge's verify URL. *)

From S2P Require Import Prelude GoStrings GoCrypto GoTime NetAddr GoURL Mime Hex UtilsHttp.
From S2P Require Import Types Register State Key Data ResponsePolicy Pages.
From stdpp Require Import options.

Local Open Scope handler_scope.

Definition ErrInvalidToken : goerr := ENamed "invalid token".
Definition ErrMismatchedToken : goerr := ENamed "mismatched token".
Definition ErrMismatchedTokenHappyEyeballs : goerr :=
  ENamed "mismatched token: IPv4 to IPv6 upgrade detected, retrying".

(** * Key verifiers *)

(** [NewKeyVerifier]: the verifier and the issuer. *)
Definition key_verify : VerifyFunc := λ key token _,
  match DecodeString token with
  | Err err => (VerifyResultFail, Some err)
  | Ok expectedKey =>
      if negb (String.length expectedKey =? KeySize) then (VerifyResultFail, Some ErrInvalidToken)
      else if bool_decide (key = expectedKey) then (VerifyResultOK, None)
      else if (Key_Get key KeyFlagIsIPv4 =? 0)%N && (0 <? Key_Get expectedKey KeyFlagIsIPv4)%N
      then (VerifyResultOK, Some ErrMismatchedTokenHappyEyeballs)
      else (VerifyResultFail, Some ErrMismatchedToken)
  end.

Definition key_issue (key : Key) : string := EncodeToString key.

Definition NewKeyVerifier : VerifyFunc * (Key → string) := (key_verify, key_issue).

(** * URLs *)

Definition MakeChallengeUrlSuffix : string := "/make-challenge".
Definition VerifyChallengeUrlSuffix : string := "/verify-challenge".

(** [len(RequestId{})]. *)
Definition RequestIdSize : nat := 16.

(** The request id of a verify URL: [hex.Decode] into the array. *)
Definition decode_request_id (requestIdHex : string) : result string :=
  if negb (RequestIdSize =? DecodedLen (String.length requestIdHex)) then Err (ENew "invalid request id")
  else match Decode (repeat (byte_of 0) RequestIdSize) (bytes requestIdHex) with
       | None => Err (ENew "index out of range")
       | Some (_, _, Some err) => Err (hex_goerr err)
       | Some (dst, n, None) =>
           if negb (n =? RequestIdSize) then Err (ENew "invalid request id") else Ok (of_bytes dst)
       end.

(** [GetVerifyInformation]: request id, redirect and token. *)
Definition GetVerifyInformation (r : Request) (reg : Registration) : result (string * string * string) :=
  let q := URL_Query (rq_URL r) in
  if negb (bool_decide (values_Get q QueryArgChallenge = reg_Name reg))
  then Err (ENew ("unexpected challenge: got " +:+ dquote +:+ values_Get q QueryArgChallenge +:+ dquote))
  else
    (requestId <-? decode_request_id (values_Get q QueryArgRequestId);
     redirect <-? EnsureNoOpenRedirect (values_Get q QueryArgRedirect);
     Ok (requestId, redirect, values_Get q QueryArgToken))%go.

(** [values.Set(k, url.QueryEscape(v))]. *)
Definition set_escaped (k v : string) (values : Values) : Values := values_Set values k (QueryEscape v).

(** The query of a redirect URL. *)
Definition redirect_values (d : RequestData) (r : Request) (reg : Registration) : Values :=
  let values := (ParseRawQuery (RawQuery (rq_URL r))).1 in
  let values := set_escaped QueryArgRequestId (RequestId_String (rd_Id d)) values in
  let ref := hdr_Get (rq_Header r) "Referer" in
  let values := if negb (bool_decide (ref = "")) then set_escaped QueryArgReferer ref values else values in
  set_escaped QueryArgChallenge (reg_Name reg) values.

Definition RedirectUrl (d : RequestData) (r : Request) (reg : Registration) : result URL :=
  (uri <-? ParseRequestURI (URL_String (rq_URL r));
   Ok (set_RawQuery uri (EncodeRawQuery (redirect_values d r reg))))%go.

(** [t.UTC().UnixMilli()]. *)
Definition UnixMilli (t : Time) : Z := (t / 1000000 - unixToInternal * 1000)%Z.

(** [strconv.FormatInt(n, 10)]. *)
Definition FormatInt (n : Z) : string :=
  if (n <? 0)%Z then "-" +:+ FormatUint (Z.to_N (- n)) else FormatUint (Z.to_N n).

(** The query of a verify URL made at the time [t]. *)
Definition verify_values (d : RequestData) (r : Request) (reg : Registration) (redirect token : string)
    (t : Time) : Values :=
  let values := (ParseRawQuery (RawQuery (rq_URL r))).1 in
  let values := set_escaped QueryArgRequestId (RequestId_String (rd_Id d)) values in
  let values := set_escaped QueryArgRedirect redirect values in
  let values := set_escaped QueryArgToken token values in
  let values := set_escaped QueryArgChallenge (reg_Name reg) values in
  set_escaped QueryArgBust (FormatInt (UnixMilli t)) values.

Definition VerifyUrl (reg : Registration) (token : string) : M (result URL) :=
  d <- get_data;; r <- get_req;;
  match RedirectUrl d r reg with
  | Err e => ret (Err e)
  | Ok redirectUrl =>
      t <- now;;
      ret (Ok (set_RawQuery (set_Path emptyURL (reg_Path reg +:+ VerifyChallengeUrlSuffix))
        (EncodeRawQuery (verify_values d r reg (URL_String redirectUrl) token t))))
  end.

(** * The verify handler *)

Section handler.
  Context `{Jose} (st : State).

(** The URL a client whose address family changed is sent to: the request's own,
    without the proxy's arguments but the referer. *)
Definition retry_url (r : Request) : URL :=
  let q := URL_Query (rq_URL r) in
  let ref := values_Get q QueryArgReferer in
  let q := delete_prefix QueryArgPrefix q in
  let q := if negb (bool_decide (ref = "")) then values_Set q QueryArgReferer ref else q in
  set_RawQuery (rq_URL r) (Values_Encode q).

(** The type of response functions: result, error, redirect. *)
Definition ResponseFunc : Type := VerifyResult → option goerr → string → M unit.

Definition VerifyHandlerChallengeResponseFunc : ResponseFunc := λ verifyResult err redirect,
  match err with
  | Some e =>
      if errorsIs e ErrMismatchedTokenHappyEyeballs then
        r <- get_req;;
        ResponseHeaders st;;
        http_Redirect (URL_String (retry_url r)) 307
      else ErrorPage st 400 e redirect
  | None =>
      if negb (VerifyResult_Ok verifyResult)
      then ErrorPage st 403 (ENew "access denied: failed challenge") redirect
      else ResponseHeaders st;; http_Redirect redirect 307
  end.

(** The body of the inner function: the error that sends the handler to its last part. *)
Definition verify_and_issue (reg : Registration) (verify : VerifyFunc) (responseFunc : ResponseFunc)
    (redirect token : string) : M (option goerr) :=
  d <- get_data;; r <- get_req;;
  let expiration := Expiration d (reg_Duration reg) in
  let key := GetChallengeKeyForRequest st reg expiration d r in
  match verify key token r with
  | (_, Some err) => ret (Some err)
  | (verifyResult, None) =>
      if negb (VerifyResult_Ok verifyResult) then
        ChallengeFailed reg None redirect;;
        responseFunc verifyResult None redirect;;
        ret None
      else
        IssueChallengeToken reg key token expiration true;;
        upd_data (upd_Verify (λ m, <[reg_id reg := verifyResult]> m));;
        ChallengePassed reg redirect;;
        responseFunc verifyResult None redirect;;
        ret None
  end.

(** [VerifyHandlerFunc]: [None] for the verifier means the registration's (whose
    absence is a nil function call), [None] for the response function the default. *)
Definition VerifyHandlerFunc (reg : Registration) (verify : option VerifyFunc)
    (responseFunc : option ResponseFunc) : M unit :=
  let responseFunc := default VerifyHandlerChallengeResponseFunc responseFunc in
  r <- get_req;;
  match GetVerifyInformation r reg with
  | Err err =>
      ChallengeFailed reg (Some err) "";;
      responseFunc VerifyResultFail (Some (EWrap "internal error: " err)) ""
  | Ok (requestId, redirect, token) =>
      upd_data (set_Id requestId);;
      match (match verify with Some v => Some v | None => reg_Verify reg end) with
      | None => panic (ENew "invalid memory address or nil pointer dereference")
      | Some verify =>
          res <- verify_and_issue reg verify responseFunc redirect token;;
          match res with
          | None => ret ()
          | Some err =>
              ChallengeFailed reg (Some err) redirect;;
              responseFunc VerifyResultFail
                (Some (EWrap ("access denied: error in challenge " +:+ reg_Name reg +:+ ": ") err)) redirect
          end
      end
  end.

End handler.
