(* ===== verification/CookieRuntime.v ===== *)
(** [lib/challenge/cookie/cookie.go]: a redirect that proves the client keeps cookies. *)

From S2P Require Import Prelude GoStrings GoCrypto GoTime NetAddr GoURL Mime UtilsHttp.
From S2P Require Import Types Cookie Register State Key Data ResponsePolicy Pages Helper.
From stdpp Require Import options.

Local Open Scope handler_scope.

Section cookie.
  Context `{Jose} (st : State) {Y : Type}.

(** The token is set before the redirect, whose response carries the state cookie. *)
Definition IssueChallenge (reg : Registration) (key : Key) (expiry : Time) : M VerifyResult :=
  IssueChallengeToken reg key "" expiry true;;
  d <- get_data;; r <- get_req;;
  match RedirectUrl d r reg with
  | Err _ => ret VerifyResultFail
  | Ok uri =>
      ResponseHeaders st;;
      http_Redirect (URL_String uri) 307;;
      ret VerifyResultNone
  end.

Definition FillRegistration : @Register.FillRegistration Y := λ reg _,
  let reg := set_Class ClassBlocking reg in
  Some (Ok (set_IssueChallenge (IssueChallenge reg) reg)).

End cookie.
