(* ===== verification/HttpRuntime.v ===== *)
(** [lib/challenge/http/http.go]: asking another service about the client. *)

From S2P Require Import Prelude GoStrings GoCrypto GoTime NetAddr GoURL Mime UtilsHttp.
From S2P Require Import Types Parameters Cookie Register State Key Data ResponsePolicy Pages Helper.
From stdpp Require Import options.

Local Open Scope handler_scope.

Record Parameters := mkParameters {
  VerifyProbability : spec_float;
  HttpMethod : string; HttpCode : Z; HttpCookie : string; Url : string }.

Definition DefaultParameters : Parameters := mkParameters float_0_20 "GET" 200 "" "".

(** The hash of the client's cookie, bound to the challenge key. *)
Definition bindAuthValue (params : Parameters) (key : Key) (r : Request) : result string :=
  match Request_Cookie r (HttpCookie params) with
  | None => Err ErrNoCookie
  | Some cookie => Ok (sha256 (ck_Value cookie +:+ nul +:+ key))
  end.

Definition Verify (params : Parameters) : VerifyFunc := λ key token r,
  match bindAuthValue params key r with
  | Err err => (VerifyResultFail, Some err)
  | Ok sum =>
      if bool_decide (sum = token) then (VerifyResultOK, None)
      else (VerifyResultFail, Some (ENew "invalid cookie value"))
  end.

(** [http.NewRequest] without a body: its method; the URL is kept as text. *)
Definition NewRequest (method url : string) : result string :=
  let method := if bool_decide (method = "") then "GET" else method in
  if negb (isToken method) then Err (ENew "net/http: invalid method")
  else match Parse url with Err e => Err e | Ok _ => Ok method end.

Definition excludeHeaders : list string := ["Host"; "Content-Length"; "Upgrade"; "Accept-Encoding"; "Range"].

(** The client's headers but those that belong to its own connection. *)
Definition forwarded_headers (r : Request) : MIMEHeader :=
  filter (λ kv : string * list string, kv.1 ∉ excludeHeaders) (rq_Header r).

Definition info_headers (r : Request) (h : MIMEHeader) : MIMEHeader :=
  let h := hdr_Set h "X-Away-Method" (rq_Method r) in
  let h := hdr_Set h "X-Away-Host" (rq_Host r) in
  let h := hdr_Set h "X-Away-Path" (Path (rq_URL r)) in
  hdr_Set h "X-Away-Query" (RawQuery (rq_URL r)).

(** No cookie to ask about: the challenge has a cookie and the client does not. *)
Definition no_cookie (params : Parameters) (r : Request) : bool :=
  negb (bool_decide (HttpCookie params = "")) && bool_decide (Request_Cookie r (HttpCookie params) = None).

Section http.
  Context `{Jose} (st : State) {Y : Type} (unmarshal : Y → Parameters → result Parameters).
  (** The client: the status another service answers a request with, given what
      happened so far. *)
  Context (Client_Do : list Event → string → string → MIMEHeader → list Cookie → result Z).

Definition IssueChallenge (params : Parameters) (reg : Registration) (key : Key) (expiry : Time) :
    M VerifyResult :=
  r <- get_req;;
  if no_cookie params r then ret VerifyResultSkip
  else
    match (if bool_decide (HttpCookie params = "") then Ok "" else bindAuthValue params key r) with
    | Err _ => ret VerifyResultFail
    | Ok sum =>
        d <- get_data;;
        match NewRequest (HttpMethod params) (Url params) with
        | Err _ => ret VerifyResultFail
        | Ok method =>
            match RequestHeaders st d (forwarded_headers r) with
            | Err e => panic e
            | Ok h =>
                let h := info_headers r h in
                past <- get_trace;;
                emit (EvRequest method (Url params) h (rq_Cookies r));;
                match Client_Do past method (Url params) h (rq_Cookies r) with
                | Err _ => ret VerifyResultFail
                | Ok status =>
                    if negb (status =? HttpCode params)%Z then
                      IssueChallengeToken reg key sum expiry false;;
                      ret VerifyResultNotOK
                    else
                      IssueChallengeToken reg key sum expiry true;;
                      ret VerifyResultOK
                end
            end
        end
    end.

Definition FillRegistration : @Register.FillRegistration Y := λ reg parameters,
  (params <-?? read_parameters unmarshal DefaultParameters parameters;
   if bool_decide (Url params = "") then Some (Err (ENew "empty url"))
   else
     let reg := set_Class ClassTransparent reg in
     let reg := set_VerifyProbability (clampProbability float_0_20 (VerifyProbability params)) reg in
     let reg := if negb (bool_decide (HttpCookie params = "")) then set_Verify (Verify params) reg else reg in
     Some (Ok (set_IssueChallenge (IssueChallenge params reg) reg)))%go.

End http.
