(* ===== verification/Refresh.v ===== *)
(** [lib/challenge/refresh/refresh.go]: a page that sends the client to its verify URL. *)

From S2P Require Import Prelude GoStrings GoCrypto GoTime NetAddr GoURL Mime UtilsHttp.
From S2P Require Import Types Parameters Cookie Register State Key Data ResponsePolicy Pages Helper.
From S2P Require Import GoNetip GoJSON.
From stdpp Require Import options.

Local Open Scope handler_scope.

Record Parameters := mkParameters { Mode : string }.

Definition DefaultParameters : Parameters := mkParameters "header".

Definition refresh_script (literal : string) : string :=
  "<script type=" +:+ dquote +:+ "text/javascript" +:+ dquote +:+ ">window.location = " +:+ literal +:+ ";</script>".

Section refresh.
  Context `{Jose} (st : State) {Y : Type} (unmarshal : Y → Parameters → result Parameters).

Definition challenge_page (reg : Registration) (params : TplInput) : M unit :=
  ChallengePage st (ss_ChallengeResponseCode (st_settings st)) (Some reg) params.

Definition IssueChallenge (params : Parameters) (reg : Registration) (key : Key) (expiry : Time) :
    M VerifyResult :=
  res <- VerifyUrl reg (key_issue key);;
  match res with
  | Err _ => ret VerifyResultFail
  | Ok uri =>
      (if bool_decide (Mode params = "javascript") then
         challenge_page reg {[ "EndTags" := THtmls [refresh_script (json_string (URL_String uri))] ]}
       else if bool_decide (Mode params = "meta") then
         challenge_page reg {[ "MetaTags" := TTags [{[ "http-equiv" := "refresh";
           "content" := "0; url=" +:+ URL_String uri ]}] ]}
       else
         w_Set "Refresh" ("0; url=" +:+ URL_String uri);;
         challenge_page reg ∅);;
      ret VerifyResultNone
  end.

Definition FillRegistration : @Register.FillRegistration Y := λ reg parameters,
  (params <-?? read_parameters unmarshal DefaultParameters parameters;
   let reg := set_Verify NewKeyVerifier.1 (set_Class ClassBlocking reg) in
   Some (Ok (set_IssueChallenge (IssueChallenge params reg) reg)))%go.

End refresh.

(** * Properties *)

(** A client cannot write into the page of the javascript mode: whatever its verify
    URL holds, the literal has no byte that opens or closes an element or begins an
    entity, and a reader that began it at its opening quote leaves it at its
    closing quote, the end of the statement. *)
Theorem refresh_script_safe (uri : string) :
  ∃ lit, json_string uri = dquote +:+ lit +:+ dquote ∧
    forallb harmless (bytes lit) = true ∧
    literal_end (bytes (lit +:+ dquote +:+ ";</script>")) = Some (bytes ";</script>").
Proof.
  destruct (json_chars_inside (bytes uri) (Copy 0)) as [Hin Hh]; [constructor|].
  exists (of_bytes (json_chars (Copy 0) (bytes uri))). rewrite bytes_of_bytes. split; [|split; [done|]].
  - apply bytes_inj. unfold json_string. by rewrite !bytes_app, !bytes_of_bytes.
  - by rewrite bytes_app, bytes_of_bytes, Hin.
Qed.
