(* ===== verification/ResourceLoad.v ===== *)
(** [lib/challenge/resource-load/resource-load.go]: a page that loads its verify URL
    as a style sheet and then refreshes. *)

From S2P Require Import Prelude GoStrings GoCrypto GoTime NetAddr GoURL Mime UtilsHttp.
From S2P Require Import Types Parameters Cookie Register State Key Data ResponsePolicy Pages Helper.
From S2P Require Import Mux.
From stdpp Require Import options.

Local Open Scope handler_scope.

Section resource_load.
  Context `{Jose} (st : State) {Y : Type}.

Definition IssueChallenge (reg : Registration) (key : Key) (expiry : Time) : M VerifyResult :=
  res <- VerifyUrl reg (key_issue key);;
  match res with
  | Err _ => ret VerifyResultFail
  | Ok uri =>
      d <- get_data;; r <- get_req;;
      match RedirectUrl d r reg with
      | Err _ => ret VerifyResultFail
      | Ok redirectUri =>
          w_Set "Refresh" ("2; url=" +:+ URL_String redirectUri);;
          ChallengePage st (ss_ChallengeResponseCode (st_settings st)) (Some reg)
            {[ "LinkTags" := TTags [{[ "href" := URL_String uri; "rel" := "stylesheet";
                 "crossorigin" := "use-credentials" ]}] ]};;
          ret VerifyResultNone
      end
  end.

(** The headers of an empty style sheet. *)
Definition css_headers : M unit :=
  w_Set "Content-Type" "text/css; charset=utf-8";;
  w_Set "Cache-Control" "no-cache, no-store, must-revalidate";;
  w_Set "Content-Length" "0".

Definition responseFunc : ResponseFunc := λ verifyResult err redirect,
  css_headers;;
  ResponseHeaders st;;
  w_WriteHeader (if negb (VerifyResult_Ok verifyResult) then 403 else 200).

Definition FillRegistrationHeader : @Register.FillRegistration Y := λ reg parameters,
  let reg := set_Verify NewKeyVerifier.1 (set_Class ClassBlocking reg) in
  mux ← handle_all [] [("GET " +:+ reg_Path reg +:+ VerifyChallengeUrlSuffix, VerifyHandlerFunc st reg None (Some responseFunc))];
  Some (Ok (set_Handler (serve_mux mux) (set_IssueChallenge (IssueChallenge reg) reg))).

End resource_load.
