(* ===== verification/PreloadLink.v ===== *)
(** [lib/challenge/preload-link/preload-link.go]: an early hint the client preloads
    while its request waits. *)

From S2P Require Import Prelude GoStrings GoCrypto GoTime NetAddr GoURL Mime UtilsHttp.
From S2P Require Import Types Parameters Cookie Register State Key Data ResponsePolicy Pages Helper.
From S2P Require Import Mux ResourceLoad.
From stdpp Require Import options.

Local Open Scope handler_scope.

Record Parameters := mkParameters { Deadline : Duration }.

Definition DefaultParameters : Parameters := mkParameters (2 * Second)%Z.

Definition set_origin (scheme host : string) (u : URL) : URL :=
  mkURL scheme (Opaque u) (User u) host (Path u) (RawPath u) (OmitHost u)
    (ForceQuery u) (RawQuery u) (Fragment u) (RawFragment u).

(** The URL of the hint: absolute, and without a redirect. *)
Definition hint_url (r : Request) (uri : URL) : URL :=
  let values := values_Del (ParseRawQuery (RawQuery uri)).1 QueryArgRedirect in
  set_origin (GetRequestScheme (rq_Header r) (rq_TLS r)) (rq_Host r)
    (set_RawQuery uri (EncodeRawQuery values)).

Definition hint_link (u : URL) : string :=
  "<" +:+ URL_String u +:+ ">; rel=" +:+ dquote +:+ "preload" +:+ dquote +:+ "; as=" +:+ dquote +:+ "style"
  +:+ dquote +:+ "; fetchpriority=high".

Section preload.
  Context `{Jose} (st : State) {Y : Type} (unmarshal : Y → Parameters → result Parameters).
  (** What [Await] returns for a key within a deadline, given what happened so far
      (its steps are in Awaiter.v). *)
  Context (Await : list Event → string → Duration → VerifyResult).

Definition IssueChallenge (params : Parameters) (reg : Registration) (key : Key) (expiry : Time) :
    M VerifyResult :=
  r <- get_req;; w <- get_w;;
  if (rq_ProtoMajor r <? 2)%Z && negb (w_Pusher w) then ret VerifyResultSkip
  else
    let issuerKey := key_issue key in
    res <- VerifyUrl reg issuerKey;;
    match res with
    | Err _ => ret VerifyResultFail
    | Ok uri =>
        w_Set "Link" (hint_link (hint_url r uri));;
        w_WriteHeader 103;;
        past <- get_trace;;
        let result := Await past issuerKey (Deadline params) in
        w_Del "Link";;
        ret (if VerifyResult_Ok result then VerifyResultOK
             else if bool_decide (result = VerifyResultNone) then VerifyResultFail
             else result)
    end.

(** The handler of the verify URL. It goes on after an invalid URL, whose token
    is then empty. *)
Definition verify_handler (reg : Registration) : M unit :=
  css_headers;;
  d <- get_data;; r <- get_req;;
  let key := GetChallengeKeyForRequest st reg (Expiration d (reg_Duration reg)) d r in
  let issuerKey := key_issue key in
  let info := GetVerifyInformation r reg in
  (match info with Err _ => w_WriteHeader 400 | Ok _ => ret () end);;
  let token := match info with Err _ => "" | Ok (_, _, token) => token end in
  let verifyResult := (key_verify key token r).1 in
  ResponseHeaders st;;
  w_WriteHeader (if negb (VerifyResult_Ok verifyResult) then 401 else 200);;
  emit (EvSolve (reg_Name reg) issuerKey verifyResult);;
  if negb (VerifyResult_Ok verifyResult) then emit (EvSolve (reg_Name reg) token verifyResult) else ret ().

Definition FillRegistration : @Register.FillRegistration Y := λ reg parameters,
  (params <-?? read_parameters unmarshal DefaultParameters parameters;
   let reg := set_KeyHeaders MinimalKeyHeaders
     (set_Class ClassTransparent (set_Verify NewKeyVerifier.1 reg)) in
   mux ← handle_all [] [("GET " +:+ reg_Path reg +:+ VerifyChallengeUrlSuffix, verify_handler reg)];
   Some (Ok (set_Handler (serve_mux mux) (set_IssueChallenge (IssueChallenge params reg) reg))))%go.

End preload.
