(* ===== verification/DnsblRuntime.v ===== *)
(** [lib/challenge/dnsbl/dnsbl.go]: asking a DNS block list about the client's address. *)

From S2P Require Import Prelude GoStrings GoCrypto GoTime NetAddr GoURL Mime UtilsHttp.
From S2P Require Import Types Parameters Cookie Register State Key Data ResponsePolicy Pages Helper.
From S2P Require Import DecayMap Dnsbl.
From stdpp Require Import options.

Local Open Scope handler_scope.

Record Parameters := mkParameters {
  VerifyProbability : spec_float; Host : string; Timeout : Duration; Decay : Duration }.

Definition DefaultParameters : Parameters :=
  mkParameters float_0_10 "dnsbl.dronebl.org" Second Hour.

(** The cache of a challenge, by its identifier. *)
Definition cache_of (id : Id) (w : World) : DecayMap string N := default ∅ (wd_Dnsbl w !! id).

(** [DecayMap.Get] reads the clock only for an entry that is there. *)
Definition cache_Get (id : Id) (key : string) : M (option N) :=
  λ w, match cache_of id w !! key with
       | None => Ret None w
       | Some _ =>
           (t <- now;; λ w,
            let '(v, m) := DecayMap.Get t (cache_of id w) key in
            Ret v (with_dnsbl (<[id := m]> (wd_Dnsbl w)) w)) w
       end.

Definition cache_Set (id : Id) (key : string) (v : N) (ttl : Duration) : M unit :=
  t <- now;; λ w, Ret () (with_dnsbl (<[id := Set_ t (cache_of id w) key v ttl]> (wd_Dnsbl w)) w).

(** The key of the cache: the 16 bytes of an address, zeroes without one. *)
Definition cache_key (ip : string) : string := default (of_bytes (repeat (byte_of 0) 16)) (To16 ip).

Section dnsbl.
  Context `{Jose} (st : State) {Y : Type} (unmarshal : Y → Parameters → result Parameters).
  (** The resolver's answer to a query for A records within a timeout, given what
      happened so far. *)
  Context (LookupIP : list Event → string → Duration → result (list string)).

Definition lookup (params : Parameters) (id : Id) (ip : string) : M (DNSBLResponse * option goerr) :=
  let key := cache_key ip in
  cached <- cache_Get id key;;
  match cached with
  | Some result => ret (result, None)
  | None =>
      past <- get_trace;;
      emit (EvLookup (lookup_target (Host params) ip));;
      match Lookup (λ target, LookupIP past target (Timeout params)) (Host params) ip with
      | None => panic (ENew "index out of range")
      | Some (result, err) =>
          cache_Set id key result (Decay params);;
          ret (result, err)
      end
  end.

Definition IssueChallenge (params : Parameters) (reg : Registration) (key : Key) (expiry : Time) :
    M VerifyResult :=
  d <- get_data;;
  res <- lookup params (reg_id reg) (Addr_AsSlice (Addr_Unmap (ap_Addr (rd_RemoteAddress d))));;
  if Bad res.1 then
    IssueChallengeToken reg key "" expiry false;;
    ret VerifyResultNotOK
  else
    IssueChallengeToken reg key "" expiry true;;
    ret VerifyResultOK.

(** The goroutine that drops expired entries from the cache is [DecayMap.Decay]
    between requests; it does not change what lookups find. *)
Definition FillRegistration : @Register.FillRegistration Y := λ reg parameters,
  (params <-?? read_parameters unmarshal DefaultParameters parameters;
   if bool_decide (Host params = "") then Some (Err (ENew "empty host"))
   else
     let reg := set_Class ClassTransparent reg in
     let reg := set_VerifyProbability (clampProbability float_0_20 (VerifyProbability params)) reg in
     Some (Ok (set_IssueChallenge (IssueChallenge params reg) reg)))%go.

End dnsbl.
