(* ===== verification/JsRuntime.v ===== *)
(** [lib/challenge/wasm/registration.go], [lib/challenge/script.go]: challenges that run
    in the browser and are verified by a WebAssembly module. *)

From S2P Require Import Prelude GoStrings GoCrypto GoTime NetAddr GoURL Mime UtilsHttp GoPath GoNetip GoJSON.
From S2P Require Import Types Parameters Cookie Register State Key Data ResponsePolicy Pages Helper.
From S2P Require Import Mux Wasm.
From stdpp Require Import options.

Local Open Scope handler_scope.

Record Parameters := mkParameters {
  Path : string; Loader : string; Runtime : string; Settings : gomap string string;
  NativeCompiler : bool; VerifyProbability : spec_float }.

Definition DefaultParameters : Parameters := mkParameters "" "" "" None true float_0_10.

(** A compiled module, each call on a fresh instance, and the static files next to
    it. The input of a make call is read once there is an instance. *)
Record Module := mkModule {
  mod_Make : result MakeChallengeInput → result MakeChallengeOutput;
  mod_Verify : VerifyChallengeInput → result VerifyChallengeOutput;
  mod_static : M unit }.

(** [json.Marshal] of the settings: keys in order; the nil map is null. *)
Definition json_settings (params : gomap string string) : string :=
  match params with
  | None => "null"
  | Some m =>
      "{" +:+ Join ((λ k, json_string k +:+ ":" +:+ json_string (default "" (m !! k))) <$> sorted_keys m) "," +:+ "}"
  end.

(** The [Verify] closure. *)
Definition wasm_verify (module : Module) (params : Parameters) : VerifyFunc := λ key token _,
  match mod_Verify module (mkVerifyInput key (Settings params) token) with
  | Err err => (VerifyResultFail, Some err)
  | Ok out =>
      if (out =? VerifyChallengeOutputError)%N
      then (VerifyResultFail, Some (ENew "error checking challenge"))
      else if (out =? VerifyChallengeOutputOK)%N then (VerifyResultOK, None)
      else (VerifyResultFail, None)
  end.

Definition module_script (reg : Registration) (cacheBust : string) : string :=
  "<script async type=" +:+ dquote +:+ "module" +:+ dquote +:+ " src=" +:+ dquote +:+ reg_Path reg
  +:+ "/script.mjs" +:+ "?cacheBust=" +:+ cacheBust +:+ dquote +:+ "></script>".

Section js.
  Context `{Jose} (st : State) {Y : Type} (unmarshal : Y → Parameters → result Parameters).
  (** The module of a path, compiled by wazero, or why there is none; the body of a
      request; the execution of [script.mjs] (text/template). *)
  Context (load : string → string → bool → result Module) (ReadAll : Request → result string)
    (scriptTemplate : TplInput → result string).

Definition IssueChallenge (reg : Registration) (key : Key) (expiry : Time) : M VerifyResult :=
  ChallengePage st (ss_ChallengeResponseCode (st_settings st)) (Some reg)
    {[ "EndTags" := THtmls [module_script reg (st_cacheBust st)] ]};;
  ret VerifyResultNone.

(** The handler of the make URL. *)
Definition make_challenge (module : Module) (params : Parameters) (reg : Registration) : M unit :=
  d <- get_data;; r <- get_req;;
  let key := GetChallengeKeyForRequest st reg (Expiration d (reg_Duration reg)) d r in
  match mod_Make module (data <-? ReadAll r; Ok (mkMakeInput key (Settings params) (rq_Header r) data))%go with
  | Err err => ErrorPage st 500 err ""
  | Ok out =>
      upd_w (upd_w_Header (λ h, default ∅ (mo_Headers out) ∪ h));;
      w_Set "Content-Length" (FormatUint (N.of_nat (String.length (mo_Data out))));;
      w_Set "Cache-Control" "no-cache, no-store, must-revalidate";;
      ResponseHeaders st;;
      w_WriteHeader (mo_Code out);;
      w_Write (mo_Data out)
  end.

(** [ServeChallengeScript]; a template error panics. *)
Definition ServeChallengeScript (reg : Registration) (params : gomap string string) (script : string) : M unit :=
  d <- get_data;;
  w_Set "Cache-Control" "no-cache, no-store, must-revalidate";;
  w_Set "Content-Type" "text/javascript; charset=utf-8";;
  ResponseHeaders st;;
  w_WriteHeader 200;;
  match scriptTemplate (list_to_map
      [("Id", TStr (RequestId_String (rd_Id d))); ("Path", TStr (reg_Path reg));
       ("Parameters", TStr (json_settings params)); ("Random", TStr (st_cacheBust st));
       ("Challenge", TStr (reg_Name reg)); ("ChallengeScript", TStr script);
       ("Strings", TStrings (opt_Strings (st_opt st)))]) with
  | Err err => panic err
  | Ok body => w_Write body
  end.

Definition routes (module : Module) (params : Parameters) (reg : Registration) : list (string * M unit) :=
  [("GET " +:+ reg_Path reg +:+ "/static/", mod_static module);
   (reg_Path reg +:+ MakeChallengeUrlSuffix, make_challenge module params reg);
   (reg_Path reg +:+ VerifyChallengeUrlSuffix, VerifyHandlerFunc st reg None None);
   ("GET " +:+ reg_Path reg +:+ "/script.mjs",
    ServeChallengeScript reg (Settings params) (path_Join [reg_Path reg; "static"; Loader params]))].

Definition FillJavaScriptRegistration : @Register.FillRegistration Y := λ reg parameters,
  (params <-?? read_parameters unmarshal DefaultParameters parameters;
   let reg := set_LegacyKeyHeaders MinimalKeyHeaders
     (set_KeyHeaders StableBrowserKeyHeaders (set_Class ClassBlocking reg)) in
   let path := if bool_decide (Path params = "") then reg_Name reg else Path params in
   let reg := set_VerifyProbability (clampProbability float_0_10 (VerifyProbability params)) reg in
   module <-?? load path (Runtime params) (NativeCompiler params);
   let reg := set_Verify (wasm_verify module params) (set_IssueChallenge (IssueChallenge reg) reg) in
   mux ← handle_all [] (routes module params reg);
   Some (Ok (set_Handler (serve_mux mux) reg)))%go.

End js.
