(* ===== verification/Runner.v ===== *)
(** [lib/challenge/wasm/runner.go]: compiled modules and the instances challenges are
    called on; and [cmd/test-wasm-runtime/main.go], which checks a module against
    expected outputs.

    wazero, the WebAssembly runtime, is a library: [Wazero] has what the runner calls,
    [WazeroLaws] what its documentation says of names: they are unique among the
    modules instantiated in a runtime, until they are closed. *)

From S2P Require Import Prelude GoStrings GoCrypto GoTime NetAddr GoURL Mime UtilsHttp.
From S2P Require Import Types Register State GoPath Embed Wasm JsRuntime.
From stdpp Require Import options.

Local Open Scope go_scope.

(** * The library *)

Inductive ValueType := ValueTypeI32 | ValueTypeI64 | ValueTypeF32 | ValueTypeF64 | ValueTypeExternref.

#[export] Instance ValueType_eq_dec : EqDecision ValueType.
Proof. solve_decision. Defined.

Record FunctionDef := mkFunctionDef { ParamTypes : list ValueType; ResultTypes : list ValueType }.

(** An instance has a memory and the functions it exports. *)
Class Wazero := {
  WzRuntime : Type; WzCompiled : Type; WzInstance : Type;
  wz_Compile : string → result WzCompiled;
  wz_Exports : WzCompiled → gmap string FunctionDef;
  wz_Instantiate : WzRuntime → WzCompiled → string → result WzInstance * WzRuntime;
  wz_Close : WzInstance → WzRuntime → WzRuntime;
  wz_Memory : WzInstance → Memory;
  wz_malloc : WzInstance → Exported;
  wz_free : WzInstance → Memory → N → Memory;
  wz_MakeChallenge : WzInstance → Exported;
  wz_VerifyChallenge : WzInstance → Exported }.

Class WazeroLaws `{Wazero} := {
  wz_open : WzRuntime → WzInstance → Prop;
  wz_name : WzInstance → string;
  law_taken rt m i : wz_open rt i → wz_name i ≠ "" → ∃ e, wz_Instantiate rt m (wz_name i) = (Err e, rt);
  law_instantiated rt m name i rt' : wz_Instantiate rt m name = (Ok i, rt') →
    wz_name i = name ∧ ¬ wz_open rt i ∧ ∀ j, wz_open rt' j ↔ j = i ∨ wz_open rt j;
  law_refused rt m name e rt' : wz_Instantiate rt m name = (Err e, rt') → ∀ j, wz_open rt' j ↔ wz_open rt j;
  law_close rt i j : wz_open (wz_Close i rt) j ↔ wz_open rt j ∧ j ≠ i }.

(** * Compiling *)

Section runner.
  Context `{Wazero}.

(** The functions a challenge must export, in the order they are looked for. *)
Definition interface : list (string * FunctionDef) :=
  [("MakeChallenge", mkFunctionDef [ValueTypeI64] [ValueTypeI64]);
   ("VerifyChallenge", mkFunctionDef [ValueTypeI64] [ValueTypeI64]);
   ("malloc", mkFunctionDef [ValueTypeI32] [ValueTypeI32]);
   ("free", mkFunctionDef [ValueTypeI32] [])].

(** The first function that is wrong, and whether the compiled module is closed then. *)
Fixpoint check_interface (functions : gmap string FunctionDef) (expected : list (string * FunctionDef)) :
    option (goerr * bool) :=
  match expected with
  | [] => None
  | (name, d) :: expected =>
      match functions !! name with
      | None => Some (ENew ("no " +:+ name +:+ " exported"), true)
      | Some f =>
          if negb (bool_decide (ParamTypes f = ParamTypes d))
          then Some (ENew (name +:+ " does not follow parameter interface"), false)
          else if negb (bool_decide (ResultTypes f = ResultTypes d))
          then Some (ENew (name +:+ " does not follow result interface"), false)
          else check_interface functions expected
      end
  end.

Definition Compile (modules : gmap string WzCompiled) (key binary : string) : result (gmap string WzCompiled) :=
  module <-? wz_Compile binary;
  match check_interface (wz_Exports module) interface with
  | Some (err, _) => Err err
  | None => Ok (<[key := module]> modules)
  end.

(** [NewRunner]: a runtime with the WASI functions, and no modules. *)
Definition NewRunner (new : bool → WzRuntime) (useNativeCompiler : bool) : WzRuntime * gmap string WzCompiled :=
  (new useNativeCompiler, ∅).

(** [Close]: the modules in the order the map is walked, up to the first error; then the
    runtime. *)
Fixpoint Close_Runner (close : WzCompiled → option goerr) (closeRuntime : option goerr) (modules : list (string * WzCompiled)) :
    option goerr :=
  match modules with
  | [] => closeRuntime
  | (_, module) :: modules =>
      match close module with Some err => Some err | None => Close_Runner close closeRuntime modules end
  end.

(** * Instances *)

Definition ErrModuleNotFound : goerr := ENamed "module not found".

(** One call of [Instantiate] that nothing else interleaves with. *)
Definition Instantiate {A} (modules : gmap string WzCompiled) (rt : WzRuntime) (key : string) (f : WzInstance → result A) :
    result A * WzRuntime :=
  match modules !! key with
  | None => (Err ErrModuleNotFound, rt)
  | Some compiledModule =>
      match wz_Instantiate rt compiledModule key with
      | (Err err, rt) => (Err err, rt)
      | (Ok mod_, rt) => (f mod_, wz_Close mod_ rt)
      end
  end.

(** ** Interleaved calls

    The atomic parts of a call: taking the name, running on the instance, which no
    other call has, and closing it. *)
Inductive Call (A : Type) :=
  | Ready (key : string) (f : WzInstance → result A)
  | Running (i : WzInstance) (f : WzInstance → result A)
  | Closing (i : WzInstance) (res : result A)
  | Done (res : result A).
Arguments Ready {_} _ _.
Arguments Running {_} _ _.
Arguments Closing {_} _ _.
Arguments Done {_} _.

Definition step {A} (modules : gmap string WzCompiled) (s : WzRuntime * list (Call A)) (t : nat) :
    WzRuntime * list (Call A) :=
  let '(rt, calls) := s in
  match calls !! t with
  | Some (Ready key f) =>
      match modules !! key with
      | None => (rt, <[t := Done (Err ErrModuleNotFound)]> calls)
      | Some m =>
          match wz_Instantiate rt m key with
          | (Err e, rt) => (rt, <[t := Done (Err e)]> calls)
          | (Ok i, rt) => (rt, <[t := Running i f]> calls)
          end
      end
  | Some (Running i f) => (rt, <[t := Closing i (f i)]> calls)
  | Some (Closing i res) => (wz_Close i rt, <[t := Done res]> calls)
  | _ => s
  end.

Definition run {A} (modules : gmap string WzCompiled) (s : WzRuntime * list (Call A)) (schedule : list nat) :
    WzRuntime * list (Call A) := foldl (step modules) s schedule.

(** The instance a call has. *)
Definition held {A} (c : Call A) : option WzInstance :=
  match c with Running i _ | Closing i _ => Some i | _ => None end.

(** * The module of a challenge

    [FillJavaScriptRegistration] compiles the binary as "runtime"; its closures call it
    on an instance each. *)
Definition runner_module `{MessageJSON} (modules : gmap string WzCompiled) (rt : WzRuntime) (static : M unit) : Module :=
  mkModule
    (λ input, (Instantiate modules rt "runtime" (λ i, input <-? input; (MakeChallengeCall (wz_malloc i) (wz_free i) (wz_MakeChallenge i) (wz_Memory i) input).1)).1)
    (λ input, (Instantiate modules rt "runtime" (λ i, (VerifyChallengeCall (wz_malloc i) (wz_free i) (wz_VerifyChallenge i) (wz_Memory i) input).1)).1)
    static.

(** What [FillJavaScriptRegistration] loads: the files of the challenge, the binary among
    them, and the static files, which are served as they are. *)
Definition load_module `{MessageJSON} (isDir : string → bool) (ChallengeFs : FS) (FileServer : FS → M unit)
    (path runtime : string) (rt : WzRuntime) : result Module :=
  assetsFs <-? GetFallbackFS isDir ChallengeFs path;
  match fs_ReadFile assetsFs (path_Join ["runtime"; runtime]) with
  | Err err => Err (EWrap "could not load runtime: " err)
  | Ok wasmData =>
      match Compile ∅ "runtime" wasmData with
      | Err err => Err (EWrap "compiling runtime: " err)
      | Ok modules =>
          match Sub assetsFs "static" with
          | Err err => Err (EWrap "no static assets: " err)
          | Ok staticFs => Ok (runner_module modules rt (FileServer staticFs))
          end
      end
  end.

End runner.

Arguments Ready {_ _} _ _.
Arguments Running {_ _} _ _.
Arguments Closing {_ _} _ _.
Arguments Done {_ _} _.

(** * Facts *)

(** The parts of a call one after the other are the call. *)
Lemma run_alone `{Wazero} {A : Type} modules rt (calls : list (Call A)) t key f :
  calls !! t = Some (Ready key f) →
  run modules (rt, calls) [t; t; t] =
    (let '(res, rt) := Instantiate modules rt key f in (rt, <[t := Done res]> calls)).
Proof.
  intros Hc. assert (Hlt : t < length calls) by (by eapply lookup_lt_Some).
  unfold run, Instantiate. cbn [foldl step]. rewrite Hc. destruct (modules !! key) as [m|].
  - destruct (wz_Instantiate rt m key) as [[i|e] rt']; cbn [step].
    + rewrite list_lookup_insert_eq by done. cbn [step]. rewrite list_insert_insert_eq, list_lookup_insert_eq by done.
      by rewrite list_insert_insert_eq.
    + rewrite list_lookup_insert_eq by done. cbn [step]. by rewrite list_lookup_insert_eq by done.
  - cbn [step]. rewrite list_lookup_insert_eq by done. cbn [step]. by rewrite list_lookup_insert_eq by done.
Qed.

(** Loading a challenge reads its binary only, and what it loads has the four functions. *)
Lemma load_module_compiled `{Wazero, MessageJSON} isDir fs serve path runtime rt m :
  load_module isDir fs serve path runtime rt = Ok m →
  ∃ assetsFs wasmData module, GetFallbackFS isDir fs path = Ok assetsFs ∧
    fs_ReadFile assetsFs (path_Join ["runtime"; runtime]) = Ok wasmData ∧ wz_Compile wasmData = Ok module ∧
    Forall (λ x, wz_Exports module !! x.1 = Some x.2) interface.
Proof.
  unfold load_module, Compile. destruct (GetFallbackFS isDir fs path) as [a|]; [|done]. cbn [result_bind].
  destruct (fs_ReadFile a _) as [w|] eqn:Hw; [|done]. destruct (wz_Compile w) as [c|] eqn:Hc; [|done]. cbn [result_bind].
  destruct (check_interface _ _) as [[]|] eqn:Hi; [done|]. intros _. exists a, w, c. repeat split; try done.
  revert Hi. generalize interface. intros l. induction l as [|[name d] l IH]; [done|]. cbn [check_interface].
  destruct (wz_Exports c !! name) as [f|] eqn:Hf; [|done]. case_bool_decide as Hp; [|done]. case_bool_decide as Hr; [|done].
  intros Hi. constructor; [|by apply IH]. cbn. rewrite Hf. f_equal. destruct f, d; cbn in *; by subst.
Qed.

Section facts.
  Context `{WazeroLaws} {A : Type} (modules : gmap string WzCompiled).
  Context (named : modules !! "" = None).
  Set Default Proof Using "Type*".

(** What a call of [Instantiate key f] may be in the course of. *)
Definition origin (key : string) (f : WzInstance → result A) (c : Call A) : Prop :=
  match c with
  | Ready key' f' => key' = key ∧ f' = f
  | Running i f' => wz_name i = key ∧ f' = f
  | Closing i res => wz_name i = key ∧ res = f i
  | Done res => (∃ e, res = Err e) ∨ ∃ i, wz_name i = key ∧ res = f i
  end.

Record ok (started : list (string * (WzInstance → result A))) (s : WzRuntime * list (Call A)) : Prop := {
  ok_origin t x c : started !! t = Some x → s.2 !! t = Some c → origin x.1 x.2 c;
  ok_open t c i : s.2 !! t = Some c → held c = Some i → wz_open s.1 i ∧ wz_name i ≠ "";
  ok_unique t1 t2 c1 c2 i1 i2 : s.2 !! t1 = Some c1 → s.2 !! t2 = Some c2 → held c1 = Some i1 → held c2 = Some i2 →
    t1 ≠ t2 → wz_name i1 ≠ wz_name i2 }.

Lemma ok_start rt started : ok started (rt, (λ x, Ready x.1 x.2) <$> started).
Proof.
  assert (Hheld : ∀ t c i, ((λ x, Ready x.1 x.2) <$> started) !! t = Some c → @held _ A c = Some i → False).
  { intros t c i Hc. apply list_lookup_fmap_Some in Hc as (x & -> & _). done. }
  split; cbn.
  - intros t x c Hx Hc. apply list_lookup_fmap_Some in Hc as (y & -> & Hy). assert (y = x) as -> by congruence. done.
  - intros t c i Hc Hi. by destruct (Hheld t c i Hc Hi).
  - intros t1 t2 c1 c2 i1 i2 Hc _ Hi. by destruct (Hheld t1 c1 i1 Hc Hi).
Qed.

(** Replacing a call by one that goes on with its instance, if it still has one. *)
Lemma ok_continue started rt rt' calls t c c' :
  ok started (rt, calls) → calls !! t = Some c → (∀ key f, origin key f c → origin key f c') →
  (∀ i, held c' = Some i → held c = Some i) →
  (∀ t' c0 j, <[t := c']> calls !! t' = Some c0 → held c0 = Some j → wz_open rt j → wz_open rt' j) →
  ok started (rt', <[t := c']> calls).
Proof.
  intros [Ho Hopen Hu] Hc Horigin Hsame Hstill. cbn in *.
  assert (Hlt : t < length calls) by (by eapply lookup_lt_Some).
  assert (Hback : ∀ t' c0 j, <[t := c']> calls !! t' = Some c0 → held c0 = Some j →
    ∃ c1, calls !! t' = Some c1 ∧ held c1 = Some j).
  { intros t' c0 j [(-> & -> & _)|(_ & Hl)]%list_lookup_insert_Some Hj; eauto. }
  split; cbn.
  - intros t' x c0 Hx [(-> & -> & _)|(_ & Hl)]%list_lookup_insert_Some; eauto.
  - intros t' c0 j Hl Hj. destruct (Hback t' c0 j Hl Hj) as (c1 & Hc1 & Hj1).
    destruct (Hopen t' c1 j Hc1 Hj1) as [Hj2 Hne]. eauto.
  - intros t1 t2 c1 c2 i1 i2 H1 H2 Hi1 Hi2 Hne. destruct (Hback t1 c1 i1 H1 Hi1) as (d1 & Hd1 & Hj1).
    destruct (Hback t2 c2 i2 H2 Hi2) as (d2 & Hd2 & Hj2). eauto.
Qed.

(** A call that got an instance: nobody else has its name. *)
Lemma ok_acquire started rt rt' calls t key f m i :
  ok started (rt, calls) → calls !! t = Some (Ready key f) → modules !! key = Some m →
  wz_Instantiate rt m key = (Ok i, rt') → ok started (rt', <[t := Running i f]> calls).
Proof.
  intros [Ho Hopen Hu] Hc Hm Hi. cbn in *. destruct (law_instantiated rt m key i rt' Hi) as (Hname & Hfresh & Hopen').
  assert (Hlt : t < length calls) by (by eapply lookup_lt_Some).
  assert (Hkey : key ≠ "") by congruence.
  assert (Hother : ∀ t' c j, calls !! t' = Some c → held c = Some j → wz_name j ≠ key).
  { intros t' c j Hl Hj Hn. destruct (Hopen t' c j Hl Hj) as [Hj2 Hne].
    destruct (law_taken rt m j Hj2 Hne) as [e He]. congruence. }
  split; cbn.
  - intros t' x c Hx [(-> & <- & _)|(_ & Hl)]%list_lookup_insert_Some; [|eauto].
    specialize (Ho t' x _ Hx Hc) as [-> ->]. done.
  - intros t' c j [(-> & <- & _)|(_ & Hl)]%list_lookup_insert_Some Hj.
    + injection Hj as <-. rewrite Hopen', Hname. eauto.
    + rewrite Hopen'. destruct (Hopen t' c j Hl Hj). eauto.
  - intros t1 t2 c1 c2 i1 i2 [(-> & <- & _)|(_ & H1)]%list_lookup_insert_Some
      [(-> & <- & _)|(_ & H2)]%list_lookup_insert_Some Hi1 Hi2 Hne; [done|..].
    + injection Hi1 as <-. rewrite Hname. apply not_eq_sym. eauto.
    + injection Hi2 as <-. rewrite Hname. eauto.
    + eauto.
Qed.

Lemma ok_step started s t : ok started s → ok started (step modules s t).
Proof.
  intros Hok. destruct s as [rt calls]. unfold step. destruct (calls !! t) as [[key f|i f|i res|res]|] eqn:Hc; try done.
  - destruct (modules !! key) as [m|] eqn:Hm.
    + destruct (wz_Instantiate rt m key) as [[i|e] rt'] eqn:Hi; [by eapply ok_acquire|].
      eapply ok_continue; [done|done| |done|].
      * intros key' f' _. left. eauto.
      * intros t' c0 j _ _ Hj. by apply (law_refused rt m key e rt' Hi).
    + eapply ok_continue; [done|done| |done|done]. intros key' f' _. left. eauto.
  - eapply ok_continue; [done|done| |done|done]. intros key' f' [Hn ->]. done.
  - eapply ok_continue; [done|done| |done|].
    + intros key' f' [Hn ->]. right. eauto.
    + intros t' c0 j [(-> & <- & _)|(Hne & Hl)]%list_lookup_insert_Some Hj Hopen; [done|].
      apply law_close. split; [done|]. intros ->. destruct Hok as [_ _ Hu].
      by apply (Hu t' t c0 (Closing i res) i i Hl Hc Hj eq_refl).
Qed.

Lemma ok_run started s schedule : ok started s → ok started (run modules s schedule).
Proof. revert s. induction schedule as [|t schedule IH]; intros s Hs; [done|]. cbn. by apply IH, ok_step. Qed.

(** ** Progress *)

Definition rank (c : Call A) : nat := match c with Ready _ _ => 3 | Running _ _ => 2 | Closing _ _ => 1 | Done _ => 0 end.

Lemma step_rank s t t' c :
  s.2 !! t' = Some c →
  ∃ c', (step modules s t).2 !! t' = Some c' ∧ rank c' ≤ rank c - (if decide (t = t') then 1 else 0).
Proof using Type.
  destruct s as [rt calls]. cbn [snd]. intros Hc. assert (Hlt : t' < length calls) by (by eapply lookup_lt_Some).
  unfold step. case_decide as Ht.
  - subst t. rewrite Hc. destruct c as [key f|i f|i res|res]; cbn.
    + destruct (modules !! key) as [m|]; [destruct (wz_Instantiate rt m key) as [[i|e] rt']|]; cbn;
        rewrite list_lookup_insert_eq by done; eexists; (split; [done|cbn; lia]).
    + rewrite list_lookup_insert_eq by done. eexists. split; [done|cbn; lia].
    + rewrite list_lookup_insert_eq by done. eexists. split; [done|cbn; lia].
    + rewrite Hc. eexists. split; [done|cbn; lia].
  - assert (Hins : ∀ c0 : Call A, <[t := c0]> calls !! t' = Some c) by (intros; by rewrite list_lookup_insert_ne).
    exists c. split; [|lia]. destruct (calls !! t) as [[key f|i f|i res|res]|]; cbn; auto.
    destruct (modules !! key) as [m|]; [destruct (wz_Instantiate rt m key) as [[i|e] rt']|]; cbn; auto.
Qed.

Lemma run_rank schedule s t c :
  s.2 !! t = Some c →
  ∃ c', (run modules s schedule).2 !! t = Some c' ∧ rank c' ≤ rank c - length (filter (λ t', t' = t) schedule).
Proof using Type.
  revert s c. induction schedule as [|t' schedule IH]; intros s c Hc; cbn [run foldl].
  { exists c. split; [done|cbn; lia]. }
  destruct (step_rank s t' t c Hc) as (c1 & Hc1 & Hr1). destruct (IH _ c1 Hc1) as (c2 & Hc2 & Hr2).
  exists c2. split; [exact Hc2|]. rewrite filter_cons. case_decide as Ht; cbn [length]; lia.
Qed.

End facts.

(** * Properties *)

(** C28: Calls of a module under every interleaving: two calls on instances at the same
    time use different names, and every call that was scheduled to its end is done,
    with an error or the result of its function on an instance of its module. Since
    all calls of a challenge use one name, a verification that overlaps with another
    call of its module fails for every token, whether it is valid or not. *)
Theorem concurrent_calls `{WazeroLaws, MessageJSON} {A : Type} (modules : gmap string WzCompiled) (rt : WzRuntime)
    (started : list (string * (WzInstance → result A))) (schedule : list nat) (Hnamed : modules !! "" = None) :
  let s := run modules (rt, (λ x, Ready x.1 x.2) <$> started) schedule in
  (∀ t1 t2 c1 c2 i1 i2, s.2 !! t1 = Some c1 → s.2 !! t2 = Some c2 → held c1 = Some i1 → held c2 = Some i2 →
    t1 ≠ t2 → wz_name i1 ≠ wz_name i2) ∧
  (∀ t key f, started !! t = Some (key, f) → 3 ≤ length (filter (λ t', t' = t) schedule) →
    ∃ res, s.2 !! t = Some (Done res) ∧ ((∃ e, res = Err e) ∨ ∃ i, wz_name i = key ∧ res = f i)) ∧
  (∀ t c i, s.2 !! t = Some c → held c = Some i → wz_name i = "runtime" →
    ∃ e, ∀ static params key token r, wasm_verify (runner_module modules s.1 static) params key token r = (VerifyResultFail, Some e)).
Proof.
  intros s. assert (Hok : ok started s) by (apply (ok_run modules Hnamed), (ok_start modules Hnamed)). destruct (Hok) as [Ho Hopen Hu]. split; [done|].
  split.
  - intros t key f Hx Hcount. assert (Hready : ((λ x, Ready x.1 x.2) <$> started) !! t = Some (Ready key f)).
    { apply list_lookup_fmap_Some. eexists. split; [|exact Hx]. done. }
    destruct (run_rank modules schedule (rt, (λ x, Ready x.1 x.2) <$> started) t (Ready key f) Hready) as (c & Hc & Hr).
    cbn in Hr. destruct c as [| | |res]; cbn in Hr; try lia. exists res. split; [exact Hc|].
    exact (Ho t (key, f) (Done res) Hx Hc).
  - intros t c i Hc Hi Hn. destruct (Hopen t c i Hc Hi) as [Hi2 Hne]. unfold wasm_verify, runner_module. cbn [mod_Verify].
    unfold Instantiate. destruct (modules !! "runtime") as [m|].
    + destruct (law_taken s.1 m i Hi2 Hne) as [e He]. rewrite Hn in He. exists e. intros. by rewrite He.
    + by eexists.
Qed.

(** A runtime that keeps the names in use. *)
#[export] Instance demo_wazero : Wazero := {
  WzRuntime := list string; WzCompiled := string; WzInstance := string;
  wz_Compile binary := Ok binary;
  wz_Exports _ := list_to_map interface;
  wz_Instantiate rt m name := if bool_decide (name ∈ rt) then (Err (ENew "module has already been instantiated"), rt)
                              else (Ok name, name :: rt);
  wz_Close i rt := filter (λ j, j ≠ i) rt;
  wz_Memory _ := []; wz_malloc _ := demo_malloc; wz_free _ := demo_free;
  wz_MakeChallenge _ m _ := (Ok 0%N, m); wz_VerifyChallenge _ m _ := (Ok VerifyChallengeOutputOK, m) }.
#[export] Instance demo_wazero_laws : WazeroLaws.
Proof.
  refine {| wz_open := λ rt i, i ∈ rt; wz_name := λ i, i |}; cbn.
  - intros rt m i Hi _. rewrite bool_decide_true by done. eauto.
  - intros rt m name i rt'. case_bool_decide; [done|]. intros [= <- <-]. split; [done|]. split; [done|]. set_solver.
  - intros rt m name e rt'. case_bool_decide; [|done]. by intros [= <- <-].
  - intros rt i j. etransitivity; [apply list_elem_of_filter|]. split; naive_solver.
Defined.

Definition demo_modules : gmap string string :=
  match Compile ∅ "runtime" "binary" with Ok modules => modules | Err _ => ∅ end.

Example Compile1 : demo_modules = {["runtime" := "binary"]}.
Proof. vm_compute. reflexivity. Qed.

(** A module without functions is refused and closed, one with wrong types is refused
    and stays open. *)
Example check_interface1 :
  check_interface ∅ interface = Some (ENew "no MakeChallenge exported", true) ∧
  check_interface {["MakeChallenge" := mkFunctionDef [ValueTypeI64; ValueTypeI32] [ValueTypeI64]]} interface =
    Some (ENew "MakeChallenge does not follow parameter interface", false).
Proof. vm_compute. done. Qed.

(** Two calls, the second starts while the first runs. *)
Definition demo_calls : list (string * (string → result N)) :=
  [("runtime", λ _, Ok VerifyChallengeOutputOK); ("runtime", λ _, Ok VerifyChallengeOutputOK)].

Lemma concurrent_calls_witness :
  ∃ res, (run demo_modules ([], (λ x, Ready x.1 x.2) <$> demo_calls) [0; 1; 0; 0; 1; 1]).2 !! 1 = Some (Done res) ∧
    ((∃ e, res = Err e) ∨ ∃ i, i = "runtime" ∧ res = Ok VerifyChallengeOutputOK).
Proof.
  refine (proj1 (proj2 (concurrent_calls (H:=demo_wazero) (H1:=demo_json) demo_modules [] demo_calls [0; 1; 0; 0; 1; 1] _)) 1 "runtime"
    (λ _, Ok VerifyChallengeOutputOK) _ _).
  - vm_compute. reflexivity.
  - reflexivity.
  - apply Nat.leb_le. vm_compute. reflexivity.
Defined.

Example overlap :
  omap (λ c, match c with Done res => Some res | _ => None end)
    (run demo_modules ([], (λ x, Ready x.1 x.2) <$> demo_calls) [0; 1; 0; 0]).2 =
  [Ok VerifyChallengeOutputOK; Err (ENew "module has already been instantiated")].
Proof. vm_compute. reflexivity. Qed.
