(* ===== verification/TestRuntime.v ===== *)
(** [cmd/test-wasm-runtime/main.go]: the tool that runs a challenge module once and compares
    its outputs with expected ones. *)

From S2P Require Import Prelude GoStrings GoFlag GoCrypto GoTime NetAddr GoURL Mime UtilsHttp.
From S2P Require Import Types Register State Wasm JsRuntime Runner.
From stdpp Require Import options.

Local Open Scope go_scope.

(** The flags. *)
Definition test_flags : FlagSet := list_to_map [
  ("wasm", VString ""); ("make-challenge", VString ""); ("make-challenge-out", VString "");
  ("verify-challenge", VString ""); ("verify-challenge-out", VUint64 VerifyChallengeOutputOK)].

Definition test_file (fs : FlagSet) (name : string) : string :=
  match fs !! name with Some (VString s) => s | _ => "" end.
Definition test_number (fs : FlagSet) (name : string) : N :=
  match fs !! name with Some (VUint64 n) => n | _ => 0%N end.

(** How the tool ends: by the flags, with its usage, by a panic, or well. *)
Inductive TestOutcome := TestFlags (e : FlagError) | TestUsage | TestPanic (e : goerr) | TestPassed.

Definition TestOutcome_status (o : TestOutcome) : Z :=
  match o with TestFlags e => exit_status e | TestUsage => 1 | TestPanic _ => 2 | TestPassed => 0 end.

Section test.
  Context `{Wazero, MessageJSON}.
  (** [reflect.DeepEqual]: in Go it tells nil slices and maps from empty ones. *)
  Context (DeepEqual : MakeChallengeOutput → MakeChallengeOutput → bool).

(** What is read of the module and of the four other files. *)
Record TestCase := mkTestCase {
  tc_modules : gmap string WzCompiled; tc_makeIn : MakeChallengeInput; tc_makeOut : MakeChallengeOutput;
  tc_verifyIn : VerifyChallengeInput }.

Definition read_case (ReadFile : string → result string) (fs : FlagSet) : result TestCase :=
  wasmData <-? ReadFile (test_file fs "wasm");
  modules <-? Compile ∅ "test" wasmData;
  makeData <-? ReadFile (test_file fs "make-challenge");
  makeIn <-? unmarshal_make_in makeData;
  makeOutData <-? ReadFile (test_file fs "make-challenge-out");
  makeOut <-? unmarshal_make_out makeOutData;
  verifyData <-? ReadFile (test_file fs "verify-challenge");
  verifyIn <-? unmarshal_verify_in verifyData;
  if negb (bool_decide (mi_Key makeIn = vi_Key verifyIn)) then Err (ENew "challenge keys do not match")
  else Ok (mkTestCase modules makeIn makeOut verifyIn).

(** The functions run on an instance each. *)
Definition test_make (c : TestCase) (i : WzInstance) : result unit :=
  out <-? (MakeChallengeCall (wz_malloc i) (wz_free i) (wz_MakeChallenge i) (wz_Memory i) (tc_makeIn c)).1;
  if DeepEqual out (tc_makeOut c) then Ok () else Err (ENew "challenge output did not match expected output").

Definition test_verify (c : TestCase) (expected : VerifyChallengeOutput) (i : WzInstance) : result unit :=
  out <-? (VerifyChallengeCall (wz_malloc i) (wz_free i) (wz_VerifyChallenge i) (wz_Memory i) (tc_verifyIn c)).1;
  if negb (bool_decide (out = expected)) then Err (ENew "verify output did not match expected output") else Ok ().

Definition run_case (rt : WzRuntime) (expected : VerifyChallengeOutput) (c : TestCase) : result unit :=
  match Instantiate (tc_modules c) rt "test" (test_make c) with
  | (Err e, _) => Err e
  | (Ok _, rt) => (Instantiate (tc_modules c) rt "test" (test_verify c expected)).1
  end.

Definition test_main (ReadFile : string → result string) (new : bool → WzRuntime) (args : list string) : TestOutcome :=
  match GoFlag.Parse test_flags args with
  | Failed e => TestFlags e
  | Args fs _ =>
      if existsb (λ name, bool_decide (test_file fs name = "")) ["wasm"; "make-challenge"; "make-challenge-out"; "verify-challenge"]
      then TestUsage
      else
        match (c <-? read_case ReadFile fs; run_case (new true) (test_number fs "verify-challenge-out") c) with
        | Err e => TestPanic e
        | Ok _ => TestPassed
        end
  end.

(** * Facts *)

Lemma result_bind_Ok {A B} (m : result A) (f : A → result B) b : result_bind m f = Ok b → ∃ a, m = Ok a ∧ f a = Ok b.
Proof. destruct m as [a|]; [|done]. by exists a. Qed.

Lemma read_case_keys ReadFile fs c : read_case ReadFile fs = Ok c → mi_Key (tc_makeIn c) = vi_Key (tc_verifyIn c).
Proof.
  unfold read_case. intros Hc. do 8 (apply result_bind_Ok in Hc as (? & _ & Hc)). revert Hc.
  case_bool_decide as Hk; [|done]. cbn. by intros [= <-].
Qed.

(** A module passes only if it exports the four functions and, for inputs with the same key,
    both calls gave what was expected. *)
Lemma test_main_passed ReadFile new args :
  test_main ReadFile new args = TestPassed →
  ∃ fs rest c i1 i2 out, GoFlag.Parse test_flags args = Args fs rest ∧ read_case ReadFile fs = Ok c ∧
    mi_Key (tc_makeIn c) = vi_Key (tc_verifyIn c) ∧
    (MakeChallengeCall (wz_malloc i1) (wz_free i1) (wz_MakeChallenge i1) (wz_Memory i1) (tc_makeIn c)).1 = Ok out ∧
    DeepEqual out (tc_makeOut c) = true ∧
    (VerifyChallengeCall (wz_malloc i2) (wz_free i2) (wz_VerifyChallenge i2) (wz_Memory i2) (tc_verifyIn c)).1 =
      Ok (test_number fs "verify-challenge-out").
Proof.
  unfold test_main. destruct (GoFlag.Parse test_flags args) as [fs rest|]; [|done]. destruct (existsb _ _); [done|].
  destruct (_ <-? _; _) as [[]|] eqn:Hrun; [|done]. intros _. apply result_bind_Ok in Hrun as (c & Hc & Hrun).
  exists fs, rest, c. revert Hrun. unfold run_case, Instantiate.
  destruct (tc_modules c !! "test") as [m|]; [|done]. destruct (wz_Instantiate (new true) m "test") as [[i1|] rt1]; [|done].
  destruct (test_make c i1) as [[]|] eqn:Hmake; [|done]. destruct (wz_Instantiate _ m "test") as [[i2|] rt2]; [|done]. cbn [fst].
  intros Hverify. apply result_bind_Ok in Hmake as (out & Hout & Heq). apply result_bind_Ok in Hverify as (out' & Hout' & Hv).
  exists i1, i2, out. split; [done|]. split; [done|]. split; [|split; [done|split]].
  - by eapply read_case_keys.
  - by destruct (DeepEqual out (tc_makeOut c)).
  - rewrite Hout'. revert Hv. case_bool_decide as Hk; [by subst|done].
Qed.

End test.

(** Without its files the tool shows its usage; a flag it does not have ends it. *)
Example test_main1 `{Wazero, MessageJSON} eq read new :
  test_main eq read new ["-wasm=m.wasm"; "-verify-challenge-out"; "0x1"] = TestUsage ∧
  test_main eq read new ["-wasm"] = TestFlags (NeedsArgument "wasm") ∧
  test_main eq read new ["-verify-challenge-out=-1"] = TestFlags (InvalidValue "verify-challenge-out" "-1" errParse).
Proof. vm_compute. done. Qed.
