(* ===== verification/Effects.v ===== *)
(** What operations leave alone. [served] lists the requests the backends got in a
    world. A relation between worlds is a [Frame] when it does not look at what
    pages, reports and redirects change: the response, the tag cache, the clock,
    events that are not calls to backends. [moves R m] says that a run of [m] ends,
    returning or panicking, in a world related to its start. [steady] operations
    serve no backend and keep the request; [quiet] ones serve no backend;
    [proofless] ones keep the challenges' tokens and results. *)

From S2P Require Import Prelude GoStrings GoTime NetAddr GoURL Mime DecayMap Types Register.
From S2P Require Import State Key Data ResponsePolicy Pages.
From stdpp Require Import options.

Local Open Scope handler_scope.

Definition served_event (e : Event) : option (string * Request) :=
  match e with EvServe b r => Some (b, r) | _ => None end.
Definition served (w : World) : list (string * Request) := omap served_event (wd_Trace w).

(** The world after a reading of the clock, of the random source. *)
Definition ticked (w : World) : World := world_of (now w).
Definition drawn (w : World) : World := world_of (float64 w).

Class Frame (R : World → World → Prop) := {
  frame_po :: PreOrder R;
  frame_w : ∀ rw w, R w (with_w rw w);
  frame_tags_get : ∀ t k w, R w (with_tags (DecayMap.Get t (wd_Tags w) k).2 w);
  frame_tags_set : ∀ t k nodes ttl w, R w (with_tags (Set_ t (wd_Tags w) k (omap tag_entry nodes) ttl) w);
  frame_dnsbl : ∀ m w, R w (with_dnsbl m w);
  frame_now : ∀ w, R w (ticked w);
  frame_float64 : ∀ w, R w (drawn w);
  frame_event : ∀ e w, served_event e = None → R w (with_event e w);
  frame_vary : ∀ w, R w (with_data (set_broadVary true (wd_Data w)) w) }.

Definition moves (R : World → World → Prop) {A} (m : M A) : Prop := ∀ w, R w (world_of (m w)).

Create HintDb steady discriminated.
#[export] Hint Extern 0 (Frame _) => typeclasses eauto : steady.

Section moves.
  Context (R : World → World → Prop) `{!Frame R}.
  Set Default Proof Using "Type*".

Lemma moves_bind {A B} (m : M A) (f : A → M B) : moves R m → (∀ a, moves R (f a)) → moves R (bind m f).
Proof.
  intros Hm Hf w. unfold bind. specialize (Hm w). destruct (m w) as [a w'|e w']; simpl in *; [|done].
  etrans; [exact Hm|apply Hf].
Qed.

Lemma moves_ret {A} (a : A) : moves R (ret a).
Proof. intros w. cbn. reflexivity. Qed.
Lemma moves_panic {A} e : moves R (@panic A e).
Proof. intros w. cbn. reflexivity. Qed.
Lemma moves_get_data : moves R get_data.
Proof. intros w. cbn. reflexivity. Qed.
Lemma moves_get_req : moves R get_req.
Proof. intros w. cbn. reflexivity. Qed.
Lemma moves_get_trace : moves R get_trace.
Proof. intros w. cbn. reflexivity. Qed.
Lemma moves_get_w : moves R get_w.
Proof. intros w. cbn. reflexivity. Qed.
Lemma moves_upd_w f : moves R (upd_w f).
Proof. intros w. apply frame_w. Qed.
Lemma moves_now : moves R now.
Proof. intros w. apply frame_now. Qed.
Lemma moves_float64 : moves R float64.
Proof. intros w. apply frame_float64. Qed.
Lemma moves_emit e : served_event e = None → moves R (emit e).
Proof. intros He w. by apply frame_event. Qed.
Lemma moves_set_broadVary : moves R (upd_data (set_broadVary true)).
Proof. intros w. apply frame_vary. Qed.
Lemma moves_tags_Get k : moves R (tags_Get k).
Proof.
  intros w. unfold tags_Get. destruct (wd_Tags w !! k); [|cbn; reflexivity].
  pose proof (frame_now w) as Hn. unfold bind. cbn in *. etrans; [exact Hn|].
  match goal with |- R ?w1 (world_of (let '_ := DecayMap.Get ?t _ _ in _)) => pose proof (frame_tags_get t k w1) as Hg end.
  cbn in Hg. by destruct (DecayMap.Get _ _ k) as [v m].
Qed.
Lemma moves_tags_Set k nodes t : moves R (tags_Set k (omap tag_entry nodes) t).
Proof.
  intros w. unfold tags_Set, bind. pose proof (frame_now w) as Hn. cbn in *. etrans; [exact Hn|].
  match goal with |- R ?w1 (with_tags (Set_ ?t _ _ _ ?ttl) _) => exact (frame_tags_set t k nodes ttl w1) end.
Qed.

End moves.

#[export] Hint Resolve moves_ret moves_panic moves_get_data moves_get_req moves_get_w moves_get_trace
  moves_upd_w moves_now moves_float64 moves_tags_Get moves_tags_Set moves_set_broadVary : steady.
#[export] Hint Extern 5 (moves _ (emit _)) => apply moves_emit; [|reflexivity] : steady.

(** Prove that an operation moves within a frame from its parts. *)
Ltac steady :=
  repeat first
    [ match goal with |- ∀ _, _ => intro end
    | solve [auto with steady]
    | apply moves_bind; [solve [typeclasses eauto]| |]
    | apply moves_emit; [typeclasses eauto|reflexivity]
    | match goal with |- moves _ (match ?x with _ => _ end) => destruct x end
    | match goal with |- moves _ (let '_ := ?x in _) => destruct x end ].

Section pages.
  Context (R : World → World → Prop) `{!Frame R}.
  Set Default Proof Using "Type*".

Lemma moves_w_Set k v : moves R (w_Set k v).
Proof. unfold w_Set. steady. Qed.
Lemma moves_w_Add k v : moves R (w_Add k v).
Proof. unfold w_Add. steady. Qed.
Lemma moves_w_Del k : moves R (w_Del k).
Proof. unfold w_Del. steady. Qed.
Hint Resolve moves_w_Set moves_w_Add moves_w_Del : steady.

Lemma moves_base_WriteHeader s : moves R (base_WriteHeader s).
Proof. unfold base_WriteHeader. steady. Qed.
Hint Resolve moves_base_WriteHeader : steady.
Lemma moves_policy_WriteHeader s : moves R (policy_WriteHeader s).
Proof. unfold policy_WriteHeader. steady. Qed.
Lemma moves_base_Write s : moves R (base_Write s).
Proof. unfold base_Write. steady. Qed.
Hint Resolve moves_policy_WriteHeader moves_base_Write : steady.
Lemma moves_w_WriteHeader s : moves R (w_WriteHeader s).
Proof. unfold w_WriteHeader. steady. Qed.
Lemma moves_w_Write s : moves R (w_Write s).
Proof. unfold w_Write, policy_Write. steady. Qed.
Hint Resolve moves_w_WriteHeader moves_w_Write : steady.
Lemma moves_w_FlushError : moves R w_FlushError.
Proof. unfold w_FlushError, policy_FlushError, base_FlushError. steady. Qed.
Hint Resolve moves_w_FlushError : steady.
Lemma moves_w_ops ops : moves R (w_ops ops).
Proof. induction ops as [|[] ops IH]; simpl; unfold w_op; steady. Qed.
Lemma moves_http_Error e c : moves R (http_Error e c).
Proof. unfold http_Error. steady. Qed.
Lemma moves_http_Redirect u c : moves R (http_Redirect u c).
Proof. unfold http_Redirect. steady. Qed.
Hint Resolve moves_w_ops moves_http_Error moves_http_Redirect : steady.

End pages.

#[export] Hint Resolve moves_w_Set moves_w_Add moves_w_Del moves_base_WriteHeader moves_policy_WriteHeader
  moves_base_Write moves_w_WriteHeader moves_w_Write moves_w_ops moves_http_Error
  moves_http_Redirect : steady.

Section effects.
  Context (R : World → World → Prop) `{!Frame R} `{Jose} (st : State).
  Set Default Proof Using "Type*".

Lemma moves_audit ev s o reg e red : moves R (audit ev s o reg e red).
Proof. unfold audit, challengeDiagnostics. steady. Qed.
Hint Resolve moves_audit : steady.
Lemma moves_ChallengeFailed reg e red : moves R (ChallengeFailed reg e red).
Proof. unfold ChallengeFailed. steady. Qed.
Lemma moves_ChallengePassed reg red : moves R (ChallengePassed reg red).
Proof. unfold ChallengePassed. steady. Qed.
Lemma moves_ChallengeIssued reg red : moves R (ChallengeIssued reg red).
Proof. unfold ChallengeIssued. steady. Qed.
Lemma moves_ChallengeChecked reg red : moves R (ChallengeChecked reg red).
Proof. unfold ChallengeChecked. steady. Qed.
Lemma moves_RuleHit n : moves R (RuleHit n).
Proof. unfold RuleHit. steady. Qed.
Lemma moves_RuleMiss n : moves R (RuleMiss n).
Proof. unfold RuleMiss. steady. Qed.
Lemma moves_ActionHit n : moves R (ActionHit n).
Proof. unfold ActionHit. steady. Qed.

Lemma moves_issueChallengeState u : moves R (issueChallengeState st u).
Proof. unfold issueChallengeState. steady. Qed.
Hint Resolve moves_issueChallengeState : steady.
Lemma moves_applyBroadVary : moves R applyBroadVary.
Proof. unfold applyBroadVary. steady. Qed.
Hint Resolve moves_applyBroadVary : steady.
Lemma moves_ResponseHeaders : moves R (ResponseHeaders st).
Proof. unfold ResponseHeaders. steady. Qed.
Hint Resolve moves_ResponseHeaders : steady.
Lemma moves_ClearChallengeState : moves R ClearChallengeState.
Proof. unfold ClearChallengeState. steady. Qed.

Lemma moves_fetchTags h b m l : moves R (fetchTags st h b m l).
Proof. unfold fetchTags. steady. Qed.
Hint Resolve moves_fetchTags : steady.
Lemma moves_addCachedTags i : moves R (addCachedTags st i).
Proof. unfold addCachedTags. steady. Qed.
Hint Resolve moves_addCachedTags : steady.
Lemma moves_page_headers : moves R page_headers.
Proof. unfold page_headers. steady. Qed.
Lemma moves_template_exec i : moves R (template_exec st i).
Proof. unfold template_exec. steady. Qed.
Lemma moves_send_page s b : moves R (send_page st s b).
Proof. unfold send_page. steady. Qed.
Hint Resolve moves_page_headers moves_template_exec moves_send_page : steady.
Lemma moves_ErrorPage s e r : moves R (ErrorPage st s e r).
Proof. unfold ErrorPage. steady. Qed.
Hint Resolve moves_ErrorPage : steady.
Lemma moves_ChallengePage s reg p : moves R (ChallengePage st s reg p).
Proof. unfold ChallengePage. steady. Qed.

End effects.

#[export] Hint Resolve moves_audit moves_ChallengeFailed moves_ChallengePassed moves_ChallengeIssued
  moves_ChallengeChecked moves_RuleHit moves_RuleMiss moves_ActionHit
  moves_issueChallengeState moves_applyBroadVary moves_ResponseHeaders moves_ClearChallengeState
  moves_fetchTags moves_addCachedTags moves_page_headers moves_template_exec
  moves_send_page moves_ErrorPage moves_ChallengePage : steady.

(** * Frames *)

(** The tag cache holds safe tags only, and goes on to. *)
Definition tags_safe (w : World) : Prop := ∀ k e, wd_Tags w !! k = Some e → Forall safe_tag (Value e).
Definition keeps_rel (w w' : World) : Prop := tags_safe w → tags_safe w'.

#[export] Instance keeps_frame : Frame keeps_rel.
Proof.
  split; try (unfold keeps_rel; by intros).
  - split; [by intros w Hw|]. intros w1 w2 w3 H1 H2 Hw. by apply H2, H1.
  - intros t k w Hw k' e. cbn. unfold DecayMap.Get, get_read. destruct (wd_Tags w !! k) as [v|]; [|apply Hw].
    destruct (expired t v); cbn; [|apply Hw]. unfold get_expire. case_bool_decide; [|apply Hw].
    intros [_ He]%lookup_delete_Some. by eapply Hw.
  - intros t k nodes ttl w Hw k' e. cbn. unfold Set_. intros [[_ <-]|[_ He]]%lookup_insert_Some; [apply kept_safe_tags|by eapply Hw].
Qed.

(** What is known of a request and its client from when it arrived on. *)
Definition data_facts (d : RequestData) : Time * AddrPort * string * Values * gmap string string :=
  (rd_Time d, rd_RemoteAddress d, rd_cookieName d, rd_query d, rd_fp d).

(** [w'] is a later world of the request that [w] serves: the past only grows. *)
Record grows (w w' : World) : Prop := {
  gr_data : data_facts (wd_Data w') = data_facts (wd_Data w);
  gr_clock : wd_clock w' = wd_clock w;
  gr_trace : wd_Trace w `prefix_of` wd_Trace w' }.

#[export] Instance grows_preorder : PreOrder grows.
Proof.
  split; [by intros w; split|]. intros w1 w2 w3 [H1 H2 H3] [H4 H5 H6]. split; [congruence|congruence|by etrans].
Qed.

#[export] Instance grows_frame : Frame grows.
Proof.
  split; try by (intros; split). - apply _. - intros e w _. split; [done|done|]. by eexists.
  - intros w. split; [|done|done]. by destruct w as [[] ? ? ? ? ? ? ? ? ?].
Qed.

(** No backend is called, the request and what is known of it stay, and so does the tag
    cache safe. *)
Definition steady_rel (w w' : World) : Prop :=
  served w' = served w ∧ wd_Req w' = wd_Req w ∧ keeps_rel w w' ∧ grows w w'.

#[export] Instance steady_frame : Frame steady_rel.
Proof.
  assert (Hr : ∀ w w', served w' = served w → wd_Req w' = wd_Req w → keeps_rel w w' → grows w w' → steady_rel w w')
    by (by split).
  split; try (intros; apply Hr; [done|done| |]; typeclasses eauto || apply frame_w || apply frame_dnsbl || apply frame_now ||
    apply frame_float64 || apply frame_vary || apply frame_tags_get || apply frame_tags_set; fail).
  - split; [intros w; by apply Hr|]. intros w1 w2 w3 (H1 & H2 & H3 & H3') (H4 & H5 & H6 & H6').
    apply Hr; [congruence|congruence|by etrans|by etrans].
  - intros e w He. apply Hr; [|done|by intros Hw|by apply frame_event]. unfold served. cbn. rewrite omap_app. cbn. by rewrite He, app_nil_r.
Qed.

Abbreviation steady := (moves steady_rel).
Abbreviation growing := (moves grows).

Lemma steady_same w w' :
  served w' = served w → wd_Req w' = wd_Req w → wd_Tags w' = wd_Tags w → grows w w' → steady_rel w w'.
Proof. intros ?? Ht ?. split; [done|]. split; [done|]. split; [|done]. intros Hw. unfold tags_safe. by rewrite Ht. Qed.

Lemma growing_upd_data f : (∀ d, data_facts (f d) = data_facts d) → growing (upd_data f).
Proof. intros Hf w. split; [apply Hf|done|done]. Qed.
Lemma steady_upd_data f : (∀ d, data_facts (f d) = data_facts d) → steady (upd_data f).
Proof. intros Hf w. split; [done|]. split; [done|]. split; [by intros Hw|]. by apply growing_upd_data. Qed.
#[export] Hint Extern 3 (moves steady_rel (upd_data _)) => apply steady_upd_data; intros []; reflexivity : steady.
#[export] Hint Extern 3 (moves grows (upd_data _)) => apply growing_upd_data; intros []; reflexivity : steady.
Lemma steady_IssueChallengeToken reg k r u o : steady (IssueChallengeToken reg k r u o).
Proof. unfold IssueChallengeToken. steady. Qed.
Lemma steady_SetOpt n v : steady (SetOpt n v).
Proof. unfold SetOpt. steady. Qed.
#[export] Hint Resolve steady_IssueChallengeToken steady_SetOpt : steady.

Lemma steady_growing {A} (m : M A) : steady m → growing m.
Proof. intros Hm w. apply Hm. Qed.

(** The challenges' tokens and results, and what was served, stay; the request too. *)
Definition proofs_of (w : World) : TokenChallengeMap * gmap Id VerifyResult * gmap Id VerifyState :=
  (rd_ChallengeMap (wd_Data w), rd_ChallengeVerify (wd_Data w), rd_ChallengeState (wd_Data w)).
Definition proofless_rel (w w' : World) : Prop := proofs_of w' = proofs_of w ∧ wd_Req w' = wd_Req w.

#[export] Instance proofless_frame : Frame proofless_rel.
Proof.
  split; try by intros.
  - split; [by intros w|]. intros w1 w2 w3 [H1 H2] [H3 H4]. split; congruence.
  - intros w. unfold proofless_rel, proofs_of. by destruct w as [[] ? ? ? ? ? ? ? ? ?].
Qed.

Abbreviation proofless := (moves proofless_rel).

Lemma proofless_upd_data f :
  (∀ d, rd_ChallengeMap (f d) = rd_ChallengeMap d) → (∀ d, rd_ChallengeVerify (f d) = rd_ChallengeVerify d) →
  (∀ d, rd_ChallengeState (f d) = rd_ChallengeState d) → proofless (upd_data f).
Proof. intros H1 H2 H3 w. split; [|done]. unfold proofs_of, upd_data. cbn. congruence. Qed.

(** Handing the request to a backend serves it once, with the request as it is. *)
Lemma serve_served b w : served (world_of (serve b w)) = served w ++ [(b_Name b, wd_Req w)].
Proof.
  unfold serve, bind, get_req, emit. rewrite (proj1 (moves_w_ops steady_rel (b_ServeHTTP b (wd_Req w)) _)).
  unfold served. cbn. by rewrite omap_app.
Qed.

(** What serves a request or changes it is part of its past, too. *)
Lemma growing_emit e : growing (emit e).
Proof. intros w. split; [done|done|]. by eexists. Qed.
Lemma growing_upd_req f : growing (upd_req f).
Proof. intros w. by split. Qed.
Lemma growing_r_Set k v : growing (r_Set k v).
Proof. apply growing_upd_req. Qed.
#[export] Hint Resolve growing_emit growing_upd_req growing_r_Set : steady.
Lemma growing_serve b : growing (serve b).
Proof. unfold serve. steady. Qed.
#[export] Hint Resolve growing_serve : steady.
#[export] Hint Extern 4 (moves grows _) => apply steady_growing; solve [auto with steady] : steady.

(** Operations that serve nothing but may change the request. *)
Definition quiet {A} (m : M A) : Prop := ∀ w, served (world_of (m w)) = served w.

Lemma steady_quiet {A} (m : M A) : steady m → quiet m.
Proof. intros Hm w. apply Hm. Qed.

Lemma quiet_bind {A B} (m : M A) (f : A → M B) : quiet m → (∀ a, quiet (f a)) → quiet (bind m f).
Proof.
  intros Hm Hf w. unfold bind. specialize (Hm w). destruct (m w) as [a w'|e w']; simpl in *; [|done].
  by rewrite Hf.
Qed.
Lemma quiet_upd_req f : quiet (upd_req f).
Proof. by intros w. Qed.
Lemma quiet_r_Set k v : quiet (r_Set k v).
Proof. by intros w. Qed.

Create HintDb quiet discriminated.
Lemma quiet_upd_data f : quiet (upd_data f).
Proof. by intros w. Qed.
#[export] Hint Resolve quiet_upd_req quiet_upd_data quiet_r_Set : quiet.
#[export] Hint Extern 3 (quiet _) => apply steady_quiet; solve [auto with steady] : quiet.

(** Prove an operation quiet from the quietness of its parts. *)
Ltac quiet :=
  repeat first
    [ match goal with |- ∀ _, _ => intro end
    | solve [auto with quiet]
    | apply quiet_bind
    | match goal with |- quiet (match ?x with _ => _ end) => destruct x end
    | match goal with |- quiet (let '_ := ?x in _) => destruct x end ].
