(* ===== verification/Action.v ===== *)
(** [lib/action]: the handlers a rule can have. *)

From S2P Require Import Prelude GoStrings GoTime NetAddr GoURL Mime DecayMap Types Register.
From S2P Require Import State Key Data ResponsePolicy Pages Effects.
From stdpp Require Import options.

Local Open Scope handler_scope.

(** [ContextSettings]; the maps are the lists of their entries in iteration order. *)
Record ContextSettings := mkContextSettings {
  cs_ContextSet : list (string * string);
  cs_ResponseHeaders : list (string * list string);
  cs_RequestHeaders : list (string * list string) }.

(** The handlers of the package. [Proxy] holds the compiled [Match]'s
    [ReplaceAllString] ([regexp]), if there is one. *)
Inductive Handler :=
  | None_
  | Pass
  | Deny (Code : Z) (RuleHash : string)
  | Block (Code : Z) (RuleHash : string)
  | Code (status : Z)
  | Drop
  | Context_ (opts : ContextSettings)
  | Proxy (Match : option (string → string → string)) (Rewrite Backend : string)
  | Challenge_ (RuleHash : string) (Code : Z) (Continue : bool) (Challenges : list Registration)
      (PassAction : RuleAction) (PassActionHandler : Handler)
      (FailAction : RuleAction) (FailActionHandler : Handler).

(** The [done] callback sets the headers and returns the backend; [None] is the
    empty handler it returns when the backend is gone. *)
Definition Done : Type := M (option Backend).

Definition serve_done (b : option Backend) : M unit :=
  match b with Some b => serve b | None => ret () end.

(** [next] and the error of [Handle]. *)
Definition Next : Type := bool * option goerr.

Definition no_store_headers : M unit :=
  w_Set "Cache-Control" "no-cache, no-store, must-revalidate".

Definition hdr_Nil (k : string) (h : MIMEHeader) : MIMEHeader := <[CanonicalMIMEHeaderKey k := []]> h.

(** [header[Canonical(k)] = nil] and then an [Add] per value. *)
Definition replace_header (kv : string * list string) (h : MIMEHeader) : MIMEHeader :=
  foldl (λ h v, hdr_Add h kv.1 v) (hdr_Nil kv.1 h) kv.2.
Definition replace_headers (l : list (string * list string)) (h : MIMEHeader) : MIMEHeader :=
  foldl (λ h kv, replace_header kv h) h l.

Fixpoint set_opts (l : list (string * string)) : M unit :=
  match l with [] => ret () | (k, v) :: l => SetOpt k v;; set_opts l end.

Section actions.
  Context `{Jose} (st : State).

Definition Block_Handle (code : Z) (hash : string) : M Next :=
  d <- get_data;;
  w_Set "Content-Type" "text/plain";;
  no_store_headers;;
  w_Set "Connection" "close";;
  ResponseHeaders st;;
  w_WriteHeader code;;
  w_Write ("access blocked: blocked by administrative rule " +:+ RequestId_String (rd_Id d) +:+ "/" +:+ hash);;
  ret (false, None).

Definition Deny_Handle (code : Z) (hash : string) : M Next :=
  d <- get_data;;
  ErrorPage st code
    (ENew ("access denied: denied by administrative rule " +:+ RequestId_String (rd_Id d) +:+ "/" +:+ hash)) "";;
  ret (false, None).

Definition Code_Handle (code : Z) : M Next :=
  no_store_headers;; ResponseHeaders st;; w_WriteHeader code;; ret (false, None).

(** The connection is hijacked and closed when the writer at hand is a hijacker. *)
Definition Drop_Handle : M Next :=
  w <- get_w;;
  if w_Hijacker w && w_HijackOk w then upd_w set_w_Hijacked;; ret (false, None)
  else
    w_Set "Content-Type" "text/plain";;
    w_Set "Content-Length" "0";;
    w_Set "Connection" "close";;
    no_store_headers;;
    w_WriteHeader 403;;
    ret (false, None).

Definition Context_Handle (opts : ContextSettings) : M Next :=
  set_opts (cs_ContextSet opts);;
  upd_w (upd_w_Header (replace_headers (cs_ResponseHeaders opts)));;
  upd_req (upd_rq_Header (replace_headers (cs_RequestHeaders opts)));;
  ret (true, None).

Definition Pass_Handle (done : Done) : M Next :=
  b <- done;; serve_done b;; ret (false, None).

Definition Proxy_Handle (Match : option (string → string → string)) (Rewrite backend : string)
    (done : Done) : M Next :=
  match GetBackend st backend with
  | None => ret (false, Some (ENew ("backend for " +:+ backend +:+ " not found")))
  | Some b =>
      (match Match with
       | Some replaceAll => upd_req (upd_rq_URL (λ u, set_Path u (replaceAll (Path u) Rewrite)))
       | None => ret ()
       end);;
      done;;
      serve b;;
      ret (false, None)
  end.

(** ** The challenge action *)

(** What the loop over the challenges does with one registration that is due:
    issue it, record and report the result. *)
Definition issue_one (reg : Registration) : M VerifyResult :=
  d <- get_data;; r <- get_req;;
  let expiry := Expiration d (reg_Duration reg) in
  let key := GetChallengeKeyForRequest st reg expiry d r in
  result <- reg_IssueChallenge reg key expiry;;
  r <- get_req;;
  (if bool_decide (result ≠ VerifyResultSkip)
   then ChallengeIssued reg (URL_String (rq_URL r)) else ret ());;
  upd_data (upd_Verify (λ m, <[reg_id reg := result]> m));;
  upd_data (upd_State (λ m, <[reg_id reg := VerifyStatePass]> m));;
  ret result.

Definition issuance_error (reg : Registration) : goerr :=
  ENew ("challenge " +:+ reg_Name reg +:+ " failed on issuance").

(** Skipped: passed already, skipped by its condition, or issued in this request. *)
Definition not_due (d : RequestData) (reg : Registration) : bool :=
  VerifyResult_Ok (rd_verify d (reg_id reg)) ||
  bool_decide (rd_verify d (reg_id reg) = VerifyResultSkip) ||
  bool_decide (rd_state d (reg_id reg) = VerifyStatePass).

(** The second loop of [Challenge.Handle]: [pass] and [fail] are the two ways on. *)
Fixpoint issue_loop (cont : bool) (pass fail : M Next) (regs : list Registration) : M Next :=
  match regs with
  | [] => fail
  | reg :: regs =>
      d <- get_data;;
      if not_due d reg then issue_loop cont pass fail regs
      else
        result <- issue_one reg;;
        r <- get_req;;
        match result with
        | VerifyResultOK =>
            ChallengePassed reg (URL_String (rq_URL r));;
            if cont then ret (true, None) else pass
        | VerifyResultNotOK | VerifyResultSkip => issue_loop cont pass fail regs
        | VerifyResultFail =>
            ChallengeFailed reg (Some (issuance_error reg)) (URL_String (rq_URL r));;
            if bool_decide (reg_Class reg = ClassTransparent) then issue_loop cont pass fail regs
            else fail
        | VerifyResultNone =>
            if bool_decide (reg_Class reg = ClassTransparent) then issue_loop cont pass fail regs
            else ret (false, None)
        end
  end.

(** [Challenge.Handle]: the first loop looks for a challenge passed already. *)
Definition Challenge_Handle (cont : bool) (regs : list Registration) (pass fail : M Next) : M Next :=
  d <- get_data;; r <- get_req;;
  match list_find (λ reg, HasValidChallenge d (reg_id reg) = true) regs with
  | Some (_, reg) =>
      ChallengeChecked reg (URL_String (rq_URL r));;
      if cont then ret (true, None) else pass
  | None => issue_loop cont pass fail regs
  end.

Fixpoint Handle (h : Handler) (done : Done) : M Next :=
  match h with
  | None_ => ret (true, None)
  | Pass => Pass_Handle done
  | Deny code hash => Deny_Handle code hash
  | Block code hash => Block_Handle code hash
  | Code status => Code_Handle status
  | Drop => Drop_Handle
  | Context_ opts => Context_Handle opts
  | Proxy m rewrite backend => Proxy_Handle m rewrite backend done
  | Challenge_ _ _ cont regs passAction passHandler failAction failHandler =>
      Challenge_Handle cont regs
        (ActionHit passAction;; Handle passHandler done)
        (ActionHit failAction;; Handle failHandler done)
  end.

End actions.
