(* ===== verification/ActionNew.v ===== *)
(** [lib/action]: [action.Register], the constructors that make a rule's handler from
    its settings. *)

From S2P Require Import Prelude GoStrings GoTime NetAddr GoURL Mime DecayMap Types Parameters Register.
From S2P Require Import State Key Data ResponsePolicy Pages Effects Action.
From stdpp Require Import options.

(** * Settings *)

Record CodeSettings := mkCodeSettings { code_Code : Z }.

(** [Y] is the type of YAML nodes. *)
Record ChallengeSettings (Y : Type) := mkChallengeSettings {
  chal_Code : Z; chal_Challenges : list string;
  chal_PassAction : string; chal_PassSettings : option Y;
  chal_FailAction : string; chal_FailSettings : option Y }.
Arguments mkChallengeSettings {_} _ _ _ _ _ _.
Arguments chal_Code {_} _.
Arguments chal_Challenges {_} _.
Arguments chal_PassAction {_} _.
Arguments chal_PassSettings {_} _.
Arguments chal_FailAction {_} _.
Arguments chal_FailSettings {_} _.

Record ProxySettings := mkProxySettings { px_Match : string; px_Rewrite : string; px_Backend : string }.

Definition CodeDefaultSettings : CodeSettings := mkCodeSettings 0.
Definition ChallengeDefaultSettings {Y} : ChallengeSettings Y := mkChallengeSettings 0 [] "PASS" None "DENY" None.
Definition ContextDefaultSettings : ContextSettings := mkContextSettings [] [] [].
Definition ProxyDefaultSettings : ProxySettings := mkProxySettings "" "" "".

(** The libraries the constructors use: YAML decoding into each record, and regular
    expressions, by their [ReplaceAllString]. *)
Class ActionLibs (Y : Type) := {
  yaml_code : Y → CodeSettings → result CodeSettings;
  yaml_challenge : Y → ChallengeSettings Y → result (ChallengeSettings Y);
  yaml_context : Y → ContextSettings → result ContextSettings;
  yaml_proxy : Y → ProxySettings → result ProxySettings;
  regexp_Compile : string → result (string → string → string) }.

(** A YAML document is a finite tree: what a node holds is below it. *)
Class ActionLibsLaws (Y : Type) `{ActionLibs Y} := {
  yaml_depth : Y → nat;
  law_pass : ∀ y def s y', yaml_challenge y def = Ok s → chal_PassSettings s = Some y' →
    chal_PassSettings def = None → yaml_depth y' < yaml_depth y;
  law_fail : ∀ y def s y', yaml_challenge y def = Ok s → chal_FailSettings s = Some y' →
    chal_FailSettings def = None → yaml_depth y' < yaml_depth y }.

(** [NewFunc]: from rule name, rule hash and settings. *)
Definition NewFunc (Y : Type) : Type := string → string → option Y → result Handler.

(** * Constructors *)

Section new.
  Context (st : State) {Y : Type} `{ActionLibs Y}.

Definition new_none : NewFunc Y := λ _ _ _, Ok None_.
Definition new_pass : NewFunc Y := λ _ _ _, Ok Pass.
Definition new_deny : NewFunc Y := λ _ ruleHash _, Ok (Deny 403 ruleHash).
Definition new_block : NewFunc Y := λ _ ruleHash _, Ok (Block 403 ruleHash).
Definition new_drop : NewFunc Y := λ _ _ _, Ok Drop.

Definition new_code : NewFunc Y := λ _ _ settings,
  (params <-? read_parameters yaml_code CodeDefaultSettings settings;
   if (code_Code params =? 0)%Z then Err (ENew "http-code not set") else Ok (Code (code_Code params)))%go.

Definition new_context : NewFunc Y := λ _ _ settings,
  (params <-? read_parameters yaml_context ContextDefaultSettings settings;
   Ok (Context_ params))%go.

Definition new_proxy : NewFunc Y := λ _ _ settings,
  (params <-? read_parameters yaml_proxy ProxyDefaultSettings settings;
   if negb (bool_decide (px_Match params = "")) then
     expr <-? regexp_Compile (px_Match params);
     Ok (Proxy (Some expr) (px_Rewrite params) (px_Backend params))
   else Ok (Proxy None "" (px_Backend params)))%go.

(** The registrations of names, in order. *)
Fixpoint find_challenges (names : list string) : result (list Registration) :=
  match names with
  | [] => Ok []
  | name :: names =>
      match GetChallengeByName st name with
      | None => Err (ENew ("challenge " +:+ name +:+ " not found"))
      | Some reg => (regs <-? find_challenges names; Ok (reg :: regs))%go
      end
  end.

(** The closure [i] of [challenge.go], over the table of constructors. *)
Definition new_challenge (table : gmap RuleAction (NewFunc Y)) (cont : bool) : NewFunc Y :=
  λ ruleName ruleHash settings,
  (params <-? read_parameters yaml_challenge ChallengeDefaultSettings settings;
   let code := if (chal_Code params =? 0)%Z then ss_ChallengeResponseCode (st_settings st) else chal_Code params in
   regs <-? find_challenges (chal_Challenges params);
   if (length regs =? 0)%nat
   then Err (ENew ("no registered challenges found in rule " +:+ ruleName))
   else
     let passAction := ToUpper (chal_PassAction params) in
     match table !! passAction with
     | None => Err (ENew ("unknown pass action " +:+ chal_PassAction params))
     | Some passHandler =>
         passActionHandler <-? passHandler ruleName ruleHash (chal_PassSettings params);
         let failAction := ToUpper (chal_FailAction params) in
         match table !! failAction with
         | None => Err (ENew ("unknown pass action " +:+ chal_FailAction params))
         | Some failHandler =>
             failActionHandler <-? failHandler ruleName ruleHash (chal_FailSettings params);
             Ok (Challenge_ ruleHash code cont regs passAction passActionHandler failAction failActionHandler)
         end
     end)%go.

(** [action.Register]. The constructors of CHALLENGE and CHECK use the table again,
    for the actions within their settings: [fuel] bounds how often. *)
Fixpoint Register_ (fuel : nat) : gmap RuleAction (NewFunc Y) :=
  match fuel with
  | O => ∅
  | S fuel =>
      list_to_map
        [("NONE", new_none); ("PASS", new_pass); ("DENY", new_deny); ("BLOCK", new_block); ("CODE", new_code);
         ("DROP", new_drop); ("CONTEXT", new_context); ("PROXY", new_proxy);
         ("CHALLENGE", new_challenge (Register_ fuel) false); ("CHECK", new_challenge (Register_ fuel) true)]
  end.

End new.

(** * Facts *)

(** The actions there are, whatever the fuel. *)
Definition actions : gset RuleAction :=
  {["NONE"; "PASS"; "DENY"; "BLOCK"; "CODE"; "DROP"; "CONTEXT"; "PROXY"; "CHALLENGE"; "CHECK"]}.

Section facts.
  Context (st : State) {Y : Type} `{ActionLibs Y}.

(** The constructors of the table, by cases. *)
Lemma Register_cases n a (f : NewFunc Y) :
  Register_ st (S n) !! a = Some f →
  (∀ m, Register_ st (S m) !! a = Some f) ∨
  ∃ cont, f = new_challenge st (Register_ st n) cont ∧
    ∀ m, Register_ st (S m) !! a = Some (new_challenge st (Register_ st m) cont).
Proof.
  intros Hf. cbn [Register_ list_to_map foldr fst snd] in *.
  repeat (apply lookup_insert_Some in Hf as [[<- <-]|[? Hf]];
    [first [by left; intros m; repeat (rewrite lookup_insert_ne by done); rewrite lookup_insert_eq
           |right; eexists; split; [reflexivity|];
            intros m; repeat (rewrite lookup_insert_ne by done); by rewrite lookup_insert_eq]|]).
  by rewrite lookup_empty in Hf.
Qed.

Lemma Register_None n m a :
  Register_ (Y:=Y) st (S n) !! a = None → Register_ (Y:=Y) st (S m) !! a = None.
Proof.
  intros Hn. cbn [Register_ list_to_map foldr fst snd] in *.
  repeat (apply lookup_insert_None in Hn as [Hn ?]; rewrite lookup_insert_ne by done). done.
Qed.

(** ** Fuel *)

Context `{!ActionLibsLaws Y}.
Set Default Proof Using "Type*".

Definition settings_depth (settings : option Y) : nat :=
  match settings with Some y => S (yaml_depth y) | None => 0 end.

(** What a constructor does, if there is one. *)
Definition construct (n : nat) (a : RuleAction) (ruleName ruleHash : string) (settings : option Y) :
    option (result Handler) :=
  (λ f : NewFunc Y, f ruleName ruleHash settings) <$> Register_ st n !! a.

Lemma params_depth settings params :
  read_parameters yaml_challenge ChallengeDefaultSettings settings = Ok params →
  (settings_depth (chal_PassSettings params) < S (settings_depth settings) ∧
   settings_depth (chal_FailSettings params) < S (settings_depth settings)) ∧
  (settings = None → chal_Challenges params = []) ∧
  (is_Some settings → settings_depth (chal_PassSettings params) < settings_depth settings ∧
   settings_depth (chal_FailSettings params) < settings_depth settings).
Proof.
  destruct settings as [y|]; cbn; [|intros [= <-]; cbn; split; [lia|split; [done|by intros []]]].
  intros Hp.
  assert (settings_depth (chal_PassSettings params) < S (yaml_depth y) ∧
          settings_depth (chal_FailSettings params) < S (yaml_depth y)) as [? ?].
  { split.
    - destruct (chal_PassSettings params) as [y'|] eqn:Hs; cbn; [|lia].
      pose proof (law_pass _ _ _ _ Hp Hs eq_refl). lia.
    - destruct (chal_FailSettings params) as [y'|] eqn:Hs; cbn; [|lia].
      pose proof (law_fail _ _ _ _ Hp Hs eq_refl). lia. }
  split; [lia|]. split; [done|]. intros _. lia.
Qed.

(** Two tables that do the same with the settings within make the same challenge. *)
Lemma new_challenge_ext (t t' : gmap RuleAction (NewFunc Y)) cont ruleName ruleHash settings :
  (∀ a s, is_Some settings → settings_depth s < settings_depth settings →
     (λ f : NewFunc Y, f ruleName ruleHash s) <$> t !! a = (λ f : NewFunc Y, f ruleName ruleHash s) <$> t' !! a) →
  new_challenge st t cont ruleName ruleHash settings = new_challenge st t' cont ruleName ruleHash settings.
Proof.
  intros Ht. unfold new_challenge. destruct (read_parameters _ _ settings) as [params|] eqn:Hp; [|done]. cbn.
  apply params_depth in Hp as (_ & Hnone & Hd).
  destruct settings as [y|]; [|by rewrite Hnone].
  destruct (Hd ltac:(done)) as [Hpass Hfail]. destruct (find_challenges _ _) as [regs|]; [|done]. cbn.
  destruct (length regs =? 0); [done|].
  pose proof (Ht (ToUpper (chal_PassAction params)) _ ltac:(done) Hpass) as H1.
  pose proof (Ht (ToUpper (chal_FailAction params)) _ ltac:(done) Hfail) as H2.
  destruct (t !! ToUpper (chal_PassAction params)) as [f|], (t' !! ToUpper (chal_PassAction params)) as [f'|];
    try done. cbn in H1. injection H1 as ->.
  destruct (f' ruleName ruleHash _); [|done]. cbn.
  destruct (t !! ToUpper (chal_FailAction params)) as [g|], (t' !! ToUpper (chal_FailAction params)) as [g'|];
    try done. cbn in H2. by injection H2 as ->.
Qed.

Lemma construct_enough n m a ruleName ruleHash settings :
  settings_depth settings < n → settings_depth settings < m →
  construct n a ruleName ruleHash settings = construct m a ruleName ruleHash settings.
Proof.
  revert m a settings. induction n as [|n IH]; intros [|m] a settings Hn Hm; try lia. unfold construct in *.
  destruct (Register_ st (S n) !! a) as [f|] eqn:Hf; [|by rewrite (Register_None n m a Hf)].
  apply Register_cases in Hf as [Hf|(cont & -> & Hf)]; rewrite (Hf m); [done|]. cbn. f_equal.
  apply new_challenge_ext. intros a' s _ Hs. apply IH; lia.
Qed.

End facts.

(** * Properties *)

(** C24: Making a handler terminates: nested challenge settings get smaller, so that
    with more fuel than the settings are deep the table answers as it does with
    any more fuel, without running out of it: an action is unknown only if it is
    none of the program's. *)
Theorem Register_terminates (st : State) {Y : Type} `{ActionLibsLaws Y} (n m : nat) (a : RuleAction)
    (ruleName ruleHash : string) (settings : option Y)
    (Hn : settings_depth settings < n) (Hm : n ≤ m) :
  construct st m a ruleName ruleHash settings = construct st n a ruleName ruleHash settings ∧
  (construct st n a ruleName ruleHash settings = None ↔ a ∉ actions).
Proof.
  split; [apply (construct_enough st); lia|]. destruct n as [|n]; [lia|]. unfold construct.
  rewrite fmap_None. cbn [Register_ list_to_map foldr fst snd].
  rewrite !lookup_insert_None, lookup_empty. unfold actions. set_solver.
Qed.

(** Settings whose pass action is a challenge within. *)
Inductive demo_yaml := DLeaf (name : string) | DNode (name : string) (pass : demo_yaml).

Fixpoint demo_depth (y : demo_yaml) : nat := match y with DLeaf _ => 0 | DNode _ p => S (demo_depth p) end.

#[export] Instance demo_action_libs : ActionLibs demo_yaml := {
  yaml_code _ d := Ok d; yaml_context _ d := Ok d; yaml_proxy _ d := Ok d;
  regexp_Compile _ := Err (ENew "no regexp");
  yaml_challenge y d :=
    Ok (match y with
        | DLeaf name => mkChallengeSettings 0 [name] "pass" None "deny" None
        | DNode name p => mkChallengeSettings 0 [name] "check" (Some p) "drop" None
        end) }.

#[export] Instance demo_action_laws : ActionLibsLaws demo_yaml.
Proof.
  refine {| yaml_depth := demo_depth |}; intros [name|name p] d s y' [= <-]; cbn; intros [= <-] _; lia.
Defined.

Definition demo_challenges : State :=
  mkState (mkStateSettings ∅ "" "" "" "" 418) (mkSettings ∅ [] "anubis" ∅)
    "key" "key" "fingerprint" "/base" demo_register ∅ (λ _, None) (λ _, "") "bust".

Lemma Register_terminates_witness :
  construct demo_challenges 9 "CHALLENGE" "rule" "hash" (Some (DNode "a" (DNode "b" (DLeaf "a")))) =
  construct demo_challenges 4 "CHALLENGE" "rule" "hash" (Some (DNode "a" (DNode "b" (DLeaf "a")))).
Proof.
  refine (proj1 (Register_terminates demo_challenges 4 9 "CHALLENGE" "rule" "hash"
    (Some (DNode "a" (DNode "b" (DLeaf "a")))) _ _)); cbn; lia.
Defined.
