(* ===== verification/Rule.v ===== *)
(** [lib/rule.go]: rules, their construction from the policy and their evaluation. *)

From S2P Require Import Prelude GoStrings GoCrypto GoTime NetAddr GoURL Mime Hex DecayMap.
From S2P Require Import Types Cookie Register State Key Data ResponsePolicy Pages Effects.
From S2P Require Import Action.
From stdpp Require Import options.

#[local] Set Warnings "-register-all".

Local Open Scope handler_scope.

(** * Rules *)

Inductive RuleState := mkRuleState {
  rs_Name : string;
  rs_Hash : string;
  rs_Condition : option Program;
  rs_Action : RuleAction;
  rs_Handler : Handler;
  rs_Children : list RuleState }.

(** [policy.Rule]; [Y] is the type of YAML nodes. *)
Inductive PolicyRule (Y : Type) := mkPolicyRule {
  pr_Name : string;
  pr_Conditions : list string;
  pr_Action : string;
  pr_Settings : option Y;
  pr_Children : list (PolicyRule Y) }.
Arguments mkPolicyRule {_} _ _ _ _ _.

Section new_rule.
  Context {Y : Type}.
  (** [action.Register]: constructors by action name, from rule name, hash and settings. *)
  Context (Register_ : gmap RuleAction (string → string → option Y → result Handler)).
  Context (RegisterCondition : list string → result Program).
  Context (replace : string → string).
  Context (fingerprint : string).

(** The hash of a rule: the first ten bytes over parent name, name and server key. *)
Definition rule_hash (parent : option string) (name : string) : string :=
  let sum := sha256
    (match parent with Some p => p +:+ nul | None => "" end +:+ name +:+ nul +:+ fingerprint) in
  EncodeToString (substring_to 10 sum).

Definition rule_name (parent : option string) (name : string) : string :=
  match parent with Some p => p +:+ "/" +:+ name | None => name end.

(** [NewRuleState]; [parent] is the name of the parent rule. *)
Fixpoint NewRuleState (parent : option string) (r : PolicyRule Y) : result RuleState :=
  match r with
  | mkPolicyRule name0 conds action settings children =>
      let name := rule_name parent name0 in
      let hash := rule_hash parent name in
      let action' := ToUpper action in
      match Register_ !! action' with
      | None => Err (ENew ("unknown action " +:+ action))
      | Some newHandler =>
          (handler <-? newHandler name hash settings;
           condition <-? match replace <$> conds with
                         | [] => Ok None
                         | conds => match RegisterCondition conds with
                                    | Ok p => Ok (Some p)
                                    | Err e => Err (EWrap "error compiling condition: " e)
                                    end
                         end;
           kids <-? (fix go (cs : list (PolicyRule Y)) : result (list RuleState) :=
              match cs with
              | [] => Ok []
              | c :: cs =>
                  match NewRuleState (Some name) c with
                  | Err e => Err (EWrap ("child " +:+ pr_Name _ c +:+ ": ") e)
                  | Ok k => ks <-? go cs; Ok (k :: ks)
                  end
              end) children;
           Ok (mkRuleState name hash condition action' handler kids))%go
      end
  end.

End new_rule.

(** * Evaluation *)

Section evaluate.
  Context `{Jose} (st : State).

(** The condition of a rule: no condition is true. [Some b] is a boolean, [None]
    Go's nil value. *)
Definition rule_condition (rule : RuleState) (d : RequestData) (r : Request) : option CelVal * option goerr :=
  match rs_Condition rule with
  | Some prog => prog (ResolveName d r)
  | None => (Some (CelBool true), None)
  end.

Definition rule_path (d : RequestData) (hash : string) : string :=
  RequestId_String (rd_Id d) +:+ "/" +:+ hash +:+ ": ".
Definition evaluating_error (d : RequestData) (hash : string) (e : goerr) : goerr :=
  EWrap ("error: evaluating administrative rule " +:+ rule_path d hash) e.
Definition executing_error (d : RequestData) (hash : string) (e : goerr) : goerr :=
  EWrap ("error: executing administrative rule " +:+ rule_path d hash) e.

(** The headers the rule's [done] adds before the caller's. *)
Definition rule_done (rule : RuleState) (done : Done) : Done :=
  r_Set "X-Away-Rule" (rs_Name rule);;
  r_Set "X-Away-Hash" (rs_Hash rule);;
  r_Set "X-Away-Action" (rs_Action rule);;
  done.

(** [RuleState.Evaluate]: the handler, then the children in order until one stops. *)
Fixpoint Evaluate (rule : RuleState) (done : Done) : M Next :=
  match rule with
  | mkRuleState name hash _ action handler children =>
      d <- get_data;; r <- get_req;;
      match rule_condition rule d r with
      | (_, Some e) => ret (false, Some (evaluating_error d hash e))
      | (None, None) => ret (true, None)
      | (Some (CelOther t), None) =>
          ret (false, Some (evaluating_error d hash (ENew ("return type not Bool, got " +:+ t))))
      | (Some (CelBool false), None) => RuleMiss name;; ret (true, None)
      | (Some (CelBool true), None) =>
          RuleHit name;;
          ActionHit action;;
          res <- Handle st handler (rule_done rule done);;
          match res with
          | (_, Some e) => ret (false, Some (executing_error d hash e))
          | (false, None) => ret (false, None)
          | (true, None) =>
              (fix go (cs : list RuleState) : M Next :=
                 match cs with
                 | [] => ret (true, None)
                 | c :: cs =>
                     res <- Evaluate c done;;
                     match res with
                     | (_, Some e) => ret (false, Some (executing_error d hash e))
                     | (false, None) => ret (false, None)
                     | (true, None) => go cs
                     end
                 end) children
          end
      end
  end.

(** The children loop by itself. *)
Definition evaluate_children (d : RequestData) (hash : string) (done : Done) : list RuleState → M Next :=
  fix go (cs : list RuleState) : M Next :=
    match cs with
    | [] => ret (true, None)
    | c :: cs =>
        res <- Evaluate c done;;
        match res with
        | (_, Some e) => ret (false, Some (executing_error d hash e))
        | (false, None) => ret (false, None)
        | (true, None) => go cs
        end
    end.

End evaluate.
