(* ===== verification/Policy.v ===== *)
(** [lib/policy/policy.go]: reading the policy and its snippets. *)

From S2P Require Import Prelude GoStrings GoTime NetAddr GoURL Mime Types GoPath Register.
From S2P Require Import Networks.
From S2P Require Rule.
From stdpp Require Import options.

(** [Policy]; [Y] is the type of YAML nodes. *)
Record Policy (Y : Type) := mkPolicy {
  p_Networks : gomap string (list Network);
  p_Conditions : gomap string (list string);
  p_Challenges : gomap string (Challenge Y);
  p_Rules : list (Rule.PolicyRule Y) }.
Arguments mkPolicy {_} _ _ _ _.
Arguments p_Networks {_} _.
Arguments p_Conditions {_} _.
Arguments p_Challenges {_} _.
Arguments p_Rules {_} _.

(** Files and the YAML library: directories in the order of [os.ReadDir], with whether an
    entry is a directory; files; and the decoding of a text over a policy, with the
    anchors of reference files. *)
Record PolicyLibs (Y : Type) := mkPolicyLibs {
  lib_ReadDir : string → result (list (string * bool));
  lib_ReadFile : string → result string;
  lib_Decode : list string → string → Policy Y → result (Policy Y) }.
Arguments mkPolicyLibs {_} _ _ _.
Arguments lib_ReadDir {_} _ _.
Arguments lib_ReadFile {_} _ _.
Arguments lib_Decode {_} _ _ _ _.

(** * Merging

    One of the loops over the entries of a map, in the order they come in: a key that
    is there already stays. [None] is the panic of writing to a nil map. *)
Definition merge_entry {V} (dst : gomap string V) (kv : string * V) : option (gomap string V) :=
  match dst with
  | Some m => Some (Some (match m !! kv.1 with Some _ => m | None => <[kv.1 := kv.2]> m end))
  | None => None
  end.

Fixpoint merge_range {V} (dst : gomap string V) (entries : list (string * V)) : option (gomap string V) :=
  match entries with
  | [] => Some dst
  | kv :: entries => dst ← merge_entry dst kv; merge_range dst entries
  end.

Definition merge_map {V} (dst src : gomap string V) : option (gomap string V) :=
  merge_range dst (map_to_list (default ∅ src)).

Section policy.
  Context {Y : Type} (lib : PolicyLibs Y).

(** The files of the directories, empty names skipped. *)
Fixpoint snippet_files (dirs : list string) : result (list string) :=
  match dirs with
  | [] => Ok []
  | dir :: dirs =>
      if bool_decide (dir = "") then snippet_files dirs
      else
        (files <-? lib_ReadDir lib dir;
         rest <-? snippet_files dirs;
         Ok (((λ f, path_Join [dir; f.1]) <$> filter (λ f, f.2 = false) files) ++ rest))%go
  end.

Definition zero_policy : Policy Y := mkPolicy None None None [].

(** The snippets added to [p] in order; [None] is a panic. *)
Definition merge_policy (p entry : Policy Y) : option (Policy Y) :=
  networks ← merge_map (p_Networks p) (p_Networks entry);
  conditions ← merge_map (p_Conditions p) (p_Conditions entry);
  challenges ← merge_map (p_Challenges p) (p_Challenges entry);
  Some (mkPolicy networks conditions challenges (p_Rules p)).

Fixpoint add_snippets (entries files : list string) (p : Policy Y) : option (result (Policy Y)) :=
  match files with
  | [] => Some (Ok p)
  | file :: files =>
      match lib_ReadFile lib file with
      | Err e => Some (Err e)
      | Ok data =>
          match lib_Decode lib entries data zero_policy with
          | Err e => Some (Err e)
          | Ok entryPolicy => p ← merge_policy p entryPolicy; add_snippets entries files p
          end
      end
  end.

(** [NewPolicy]; [r] is the text of the policy. *)
Definition NewPolicy (r : string) (snippetsDirectories : list string) : option (result (Policy Y)) :=
  let p := mkPolicy (Some ∅) (Some ∅) (Some ∅) [] in
  if (length snippetsDirectories =? 0)%nat then Some (lib_Decode lib [] r p)
  else
    match snippet_files snippetsDirectories with
    | Err e => Some (Err e)
    | Ok entries =>
        match lib_Decode lib entries r p with
        | Err e => Some (Err e)
        | Ok p => add_snippets entries entries p
        end
    end.

End policy.

(** * Facts *)

Lemma merge_range_union {V} (m : gmap string V) entries :
  merge_range (Some m) entries = Some (Some (m ∪ list_to_map entries)).
Proof.
  revert m. induction entries as [|[k v] entries IH]; intros m; cbn; [by rewrite map_union_empty|].
  destruct (m !! k) as [w|] eqn:Hk; rewrite IH; do 2 f_equal; apply map_eq; intros j; rewrite !lookup_union;
    destruct (decide (j = k)) as [->|Hj]; rewrite ?lookup_insert_eq, ?lookup_insert_ne, ?Hk by done; try done.
  - by destruct (list_to_map entries !! k).
  - by destruct (list_to_map entries !! k).
Qed.

(** The loop computes the left-biased union, whatever order the map comes in. *)
Lemma merge_range_order {V} (m n : gmap string V) entries :
  entries ≡ₚ map_to_list n → merge_range (Some m) entries = Some (Some (m ∪ n)).
Proof.
  intros He. rewrite merge_range_union. do 3 f_equal. rewrite (list_to_map_proper entries (map_to_list n)); [|..].
  - apply list_to_map_to_list.
  - rewrite He. apply NoDup_fst_map_to_list.
  - done.
Qed.

Lemma merge_map_union {V} (m : gmap string V) src : merge_map (Some m) src = Some (Some (m ∪ default ∅ src)).
Proof. by apply merge_range_order. Qed.

(** What a key means in a list of maps: its first definition. *)
Definition first_definition {V} (maps : list (gmap string V)) : gmap string V := foldr (∪) ∅ maps.

Lemma first_definition_lookup {V} (maps : list (gmap string V)) k :
  first_definition maps !! k = head (omap (λ m : gmap string V, m !! k) maps).
Proof.
  unfold first_definition. induction maps as [|m maps IH]; cbn; [apply lookup_empty|]. rewrite lookup_union, IH.
  destruct (m !! k); cbn; [by destruct (head _)|by destruct (head _)].
Qed.

Section merge.
  Context {Y : Type} (lib : PolicyLibs Y).

(** The decoded snippets. *)
Definition decoded (entries : list string) (file : string) (q : Policy Y) : Prop :=
  ∃ data, lib_ReadFile lib file = Ok data ∧ lib_Decode lib entries data zero_policy = Ok q.

Lemma add_snippets_spec entries files qs networks conditions challenges rules :
  Forall2 (decoded entries) files qs →
  add_snippets lib entries files (mkPolicy (Some networks) (Some conditions) (Some challenges) rules) =
    Some (Ok (mkPolicy
      (Some (first_definition (networks :: (default ∅ ∘ p_Networks <$> qs))))
      (Some (first_definition (conditions :: (default ∅ ∘ p_Conditions <$> qs))))
      (Some (first_definition (challenges :: (default ∅ ∘ p_Challenges <$> qs)))) rules)).
Proof.
  intros Hq. revert networks conditions challenges. induction Hq as [|file q files qs (data & Hd & Hq) _ IH];
    intros networks conditions challenges; cbn [add_snippets].
  - cbn. by rewrite !map_union_empty.
  - rewrite Hd, Hq. unfold merge_policy. cbn [p_Networks p_Conditions p_Challenges p_Rules].
    rewrite !merge_map_union. cbn [option_bind mbind]. rewrite IH. cbn. by rewrite !(assoc_L (∪)).
Qed.

End merge.

(** * Properties *)

(** C19: A policy with snippets is the policy itself with every network, condition and
    challenge it does not define taken from the first snippet that does, in the
    order of the directories given and of the file names within them; the rules are
    those of the policy alone. *)
Theorem NewPolicy_merge {Y : Type} (lib : PolicyLibs Y) (r : string) (dirs entries : list string) (base : Policy Y)
    (qs : list (Policy Y)) (networks : gmap string (list Network)) (conditions : gmap string (list string))
    (challenges : gmap string (Challenge Y))
    (Hdirs : dirs ≠ []) (Hfiles : snippet_files lib dirs = Ok entries)
    (Hbase : lib_Decode lib entries r (mkPolicy (Some ∅) (Some ∅) (Some ∅) []) = Ok base)
    (Hnetworks : p_Networks base = Some networks) (Hconditions : p_Conditions base = Some conditions)
    (Hchallenges : p_Challenges base = Some challenges)
    (Hsnippets : Forall2 (decoded lib entries) entries qs) :
  ∃ p, NewPolicy lib r dirs = Some (Ok p) ∧ p_Rules p = p_Rules base ∧
    (∀ k, default ∅ (p_Networks p) !! k = head (omap (λ m, m !! k) (networks :: (default ∅ ∘ p_Networks <$> qs)))) ∧
    (∀ k, default ∅ (p_Conditions p) !! k = head (omap (λ m, m !! k) (conditions :: (default ∅ ∘ p_Conditions <$> qs)))) ∧
    (∀ k, default ∅ (p_Challenges p) !! k = head (omap (λ m, m !! k) (challenges :: (default ∅ ∘ p_Challenges <$> qs)))).
Proof.
  exists (mkPolicy (Some (first_definition (networks :: (default ∅ ∘ p_Networks <$> qs))))
    (Some (first_definition (conditions :: (default ∅ ∘ p_Conditions <$> qs))))
    (Some (first_definition (challenges :: (default ∅ ∘ p_Challenges <$> qs)))) (p_Rules base)). split.
  - unfold NewPolicy. rewrite (proj2 (Nat.eqb_neq _ _)); [|by destruct dirs]. rewrite Hfiles, Hbase.
    destruct base as [n c ch rs]. cbn in Hnetworks, Hconditions, Hchallenges. subst. by apply add_snippets_spec.
  - split; [done|]. repeat split; intros k; apply first_definition_lookup.
Qed.

Definition demo_policy (k : string) (conds : list string) : Policy unit := mkPolicy (Some ∅) (Some {[k := conds]}) (Some ∅) [].

(** Two snippets define the same condition, and the policy another one. *)
Definition demo_policy_libs : PolicyLibs unit := mkPolicyLibs
  (λ _, Ok [("1.yml", false); ("2.yml", false); ("old", true)])
  (λ file, Ok file)
  (λ _ text p, Ok (if bool_decide (text = "/s/1.yml") then demo_policy "bots" ["one"]
                   else if bool_decide (text = "/s/2.yml") then demo_policy "bots" ["two"]
                   else demo_policy "humans" ["none"])).

Lemma NewPolicy_merge_witness :
  ∃ p, NewPolicy demo_policy_libs "policy" ["/s"] = Some (Ok p) ∧
    default ∅ (p_Conditions p) !! "bots" = Some ["one"].
Proof.
  destruct (NewPolicy_merge demo_policy_libs "policy" ["/s"] ["/s/1.yml"; "/s/2.yml"] (demo_policy "humans" ["none"])
    [demo_policy "bots" ["one"]; demo_policy "bots" ["two"]] ∅ {["humans" := ["none"]]} ∅)
    as (p & Hp & _ & _ & Hc & _).
  - done.
  - reflexivity.
  - reflexivity.
  - reflexivity.
  - reflexivity.
  - reflexivity.
  - constructor; [|constructor; [|constructor]].
    + by exists "/s/1.yml".
    + by exists "/s/2.yml".
  - exists p. split; [exact Hp|]. by rewrite Hc.
Defined.

(** A policy text that sets a map to null leaves it nil: a snippet that defines
    something there ends the process. *)
Example NewPolicy_panics :
  NewPolicy (mkPolicyLibs (lib_ReadDir demo_policy_libs) (lib_ReadFile demo_policy_libs)
    (λ es text p, if bool_decide (text = "conditions: null") then Ok (mkPolicy (Some ∅) None (Some ∅) [])
                  else lib_Decode demo_policy_libs es text p)) "conditions: null" ["/s"] = None.
Proof. vm_compute. reflexivity. Qed.
