(* ===== verification/Conditions.v ===== *)
(** [lib/conditions.go]: conditions in CEL, their functions on networks, and the
    networks loaded ahead of the first request. *)

From S2P Require Import Prelude GoStrings GoTime NetAddr GoURL Mime Types GoNetip GoNet Cache Register Networks.
From stdpp Require Import options.

#[local] Set Warnings "-register-all".

(** * Expressions

    The expressions of [cel-go/common/ast], by their kinds. A call that is no member
    call has no target, which is visited as an expression of unspecified kind. *)
Inductive Lit := LString (s : string) | LOther (typeName : string).

Inductive Expr :=
  | EUnspecified
  | ELiteral (l : Lit)
  | EIdent (name : string)
  | ECall (fn : string) (target : option Expr) (args : list Expr)
  | EComprehension (result iterRange accuInit loopCondition loopStep : Expr)
  | EList (elements : list Expr)
  | EMap (entries : list Entry)
  | ESelect (operand : Expr) (field : string)
  | EStruct (typeName : string) (fields : list Entry)
with Entry :=
  | MapEntry (key value : Expr)
  | StructField (field : string) (value : Expr).

(** [walkExpr], over the state [fn] updates. *)
Section walk.
  Context {S : Type} (fn : Expr → S → S).

Fixpoint walkExpr (e : Expr) (s : S) : S :=
  let s := fn e s in
  let entry x s := match x with
                   | MapEntry key value => walkExpr value (walkExpr key s)
                   | StructField _ value => walkExpr value s
                   end in
  match e with
  | ECall _ target args =>
      let s := match target with Some t => walkExpr t s | None => fn EUnspecified s end in
      foldl (λ s a, walkExpr a s) s args
  | EComprehension result iterRange accuInit loopCondition loopStep =>
      walkExpr loopStep (walkExpr loopCondition (walkExpr accuInit (walkExpr iterRange (walkExpr result s))))
  | EList elements => foldl (λ s x, walkExpr x s) s elements
  | EMap entries => foldl (λ s x, entry x s) s entries
  | ESelect operand _ => walkExpr operand s
  | EStruct _ fields => foldl (λ s x, entry x s) s fields
  | _ => s
  end.

End walk.

(** * Preloading

    The networks a condition names: the state of the walk are the names whose
    function was called, in order; a function loads its network once. *)
Section preload.
  Context (networks : gset string).

Definition call_network (name : string) (called : list string) : list string :=
  if bool_decide (name ∈ networks) then called ++ [name] else called.

(** The visitor of [RegisterCondition]. *)
Definition preload (e : Expr) (called : list string) : list string :=
  match e with
  | ECall fn target args =>
      if bool_decide (fn = "inNetwork") then
        match target, args with
        | None, [_; ELiteral (LString name)] => call_network name called
        | _, _ => called
        end
      else if bool_decide (fn = "network") then
        match target, args with
        | Some _, [ELiteral (LString name)] => call_network name called
        | _, _ => called
        end
      else called
  | _ => called
  end.

(** Networks loaded by a list of calls: each once, at its first call. *)
Fixpoint once (called : list string) (loaded : list string) : list string :=
  match called with
  | [] => loaded
  | k :: called => once called (if bool_decide (k ∈ loaded) then loaded else loaded ++ [k])
  end.

End preload.

(** * The functions of conditions *)

(** Values the functions are given: byte strings ([None] for nil), addresses, texts. *)
Inductive RefVal := RBytes (b : option string) | RString (s : string) | ROther (typeName : string).

Section functions.
  Context `{Cidranger}.
  (** What the function of each network returns. *)
  Context (networks : gmap string Ranger).

(** The common part of [network] and [inNetwork]; an error is a panic, which the
    evaluation of the condition reports. *)
Definition in_network (ip name : RefVal) : result bool :=
  match ip with
  | RBytes (Some ip) =>
      match name with
      | RString val =>
          match networks !! val with
          | None =>
              match ParseCIDR val with
              | Err _ => Err (ENew "network not found")
              | Ok ipNet => Ok (match IP_of_bytes ip with Some a => Contains ipNet a | None => false end)
              end
          | Some ranger =>
              match IP_of_bytes ip with
              | Some a => Ranger_Contains ranger a
              | None => Err (ENew "invalid network number input")
              end
          end
      | _ => Err (ENew "invalid network value")
      end
  | _ => Err (ENew "invalid ip")
  end.

Definition fn_network (lhs rhs : RefVal) : result bool := in_network lhs rhs.
Definition fn_inNetwork (lhs rhs : RefVal) : result bool := in_network rhs lhs.
Definition fn_inDNSBL (val : RefVal) : result bool := Ok false.

End functions.

(** ** Registering a condition

    The CEL library: compiling a list of conditions joined by an operator, the type
    of the result, the expression, its text, and programs over the functions. *)
Inductive OutType := OutBool | OutOther (typeName : string).

Class CelLibs := {
  Ast : Type;
  cel_NewAst : string → list string → result Ast;
  cel_OutputType : Ast → option OutType;
  cel_Expr : Ast → Expr;
  cel_AstToString : Ast → result string;
  cel_ProgramAst : Ast → (RefVal → RefVal → result bool) → (RefVal → RefVal → result bool) →
    (RefVal → result bool) → result Program }.

Definition OperatorOr : string := "||".

Section register.
  Context `{CelLibs, Cidranger} (networks : gmap string Ranger).

(** A compiled condition of boolean type. *)
Definition compile_bool (operator : string) (conditions : list string) : result Ast :=
  (ast <-? cel_NewAst operator conditions;
   match cel_OutputType ast with
   | None => Err (ENew "no output")
   | Some OutBool => Ok ast
   | Some (OutOther _) => Err (ENew "output type is not bool")
   end)%go.

(** [RegisterCondition]: the program, and the networks loaded so far after those
    already [loaded]. *)
Definition RegisterCondition (operator : string) (conditions : list string) (loaded : list string) :
    result Program * list string :=
  match compile_bool operator conditions with
  | Err e => (Err e, loaded)
  | Ok compiledAst =>
      (cel_ProgramAst compiledAst (fn_network networks) (fn_inNetwork networks) fn_inDNSBL,
       once (walkExpr (preload (dom networks)) (cel_Expr compiledAst) []) loaded)
  end.

End register.

(** * Facts *)

(** The expressions directly below another. *)
Definition entry_children (x : Entry) : list Expr :=
  match x with MapEntry k v => [k; v] | StructField _ v => [v] end.
Definition children (e : Expr) : list Expr :=
  match e with
  | ECall _ target args => default EUnspecified target :: args
  | EComprehension r i a c s => [r; i; a; c; s]
  | EList l => l
  | EMap l | EStruct _ l => l ≫= entry_children
  | ESelect o _ => [o]
  | _ => []
  end.

(** Being a part of an expression. *)
Inductive part : Expr → Expr → Prop :=
  | part_refl e : part e e
  | part_child e c p : c ∈ children e → part p c → part p e.

Ltac nil_case H := exact (False_ind _ (proj1 (elem_of_nil _) H)).

(** Induction over the parts. *)
Section expr_ind.
  Context (P : Expr → Prop) (step : ∀ e, (∀ c, c ∈ children e → P c) → P e).
  Set Default Proof Using "Type*".

Lemma Expr_step : ∀ e, P e.
Proof.
  assert (Hun : P EUnspecified) by (apply step; cbn; intros c ?%elem_of_nil; done).
  fix IH 1. intros e. apply step. destruct e as [|l|name|fn target args|r i a c s|els|entries|o f|tn fields]; cbn.
  - intros c Hc. nil_case Hc.
  - intros c Hc. nil_case Hc.
  - intros c Hc. nil_case Hc.
  - intros c [->|Hc]%elem_of_cons; [destruct target; [apply IH|exact Hun]|].
    revert c Hc. induction args as [|a args IHa]; intros c Hc; [nil_case Hc|].
    apply elem_of_cons in Hc as [->|Hc]; [apply IH|exact (IHa _ Hc)].
  - intros x Hx. repeat (apply elem_of_cons in Hx as [->|Hx]; [apply IH|]). nil_case Hx.
  - induction els as [|a els IHa]; intros c Hc; [nil_case Hc|].
    apply elem_of_cons in Hc as [->|Hc]; [apply IH|exact (IHa _ Hc)].
  - induction entries as [|[k v|f v] entries IHa]; intros c Hc; cbn in Hc; [nil_case Hc|..];
      repeat (apply elem_of_cons in Hc as [->|Hc]; [apply IH|]); exact (IHa _ Hc).
  - intros c Hc. apply elem_of_cons in Hc as [->|Hc]; [apply IH|nil_case Hc].
  - induction fields as [|[k v|g v] fields IHa]; intros c Hc; cbn in Hc; [nil_case Hc|..];
      repeat (apply elem_of_cons in Hc as [->|Hc]; [apply IH|]); exact (IHa _ Hc).
Qed.

End expr_ind.

(** A walk is a visit of the expression and then walks of what is below it, in order. *)
Lemma walkExpr_children {S} (fn : Expr → S → S) e s :
  walkExpr fn e s = foldl (λ s c, walkExpr fn c s) (fn e s) (children e).
Proof.
  assert (He : ∀ entries s, foldl (λ s x, match x with
      | MapEntry key value => walkExpr fn value (walkExpr fn key s)
      | StructField _ value => walkExpr fn value s end) s entries =
    foldl (λ s c, walkExpr fn c s) s (entries ≫= entry_children)).
  { induction entries as [|[k v|f v] entries IH]; intros s'; [done|apply IH|apply IH]. }
  destruct e as [|l|name|f [t|] args| | | | |]; cbn; try done; apply He.
Qed.

(** The expressions a walk visits, in order. *)
Definition visits (e : Expr) : list Expr := walkExpr (λ x l, l ++ [x]) e [].

Lemma foldl_visits (l : list Expr) (acc : list Expr) :
  Forall (λ c, ∀ acc, walkExpr (λ x l, l ++ [x]) c acc = acc ++ visits c) l →
  foldl (λ s c, walkExpr (λ x l, l ++ [x]) c s) acc l = acc ++ (l ≫= visits).
Proof.
  intros Hl. revert acc. induction Hl as [|c l Hc _ IH]; intros acc; cbn; [by rewrite app_nil_r|].
  by rewrite Hc, IH, (assoc_L (++)).
Qed.

Lemma walk_visits e acc : walkExpr (λ x l, l ++ [x]) e acc = acc ++ visits e.
Proof.
  revert acc. induction e as [e IH] using Expr_step. intros acc. unfold visits. rewrite !walkExpr_children.
  apply Forall_forall in IH. rewrite !foldl_visits by done. by rewrite (assoc_L (++)).
Qed.

Lemma visits_children e : visits e = e :: (children e ≫= visits).
Proof.
  unfold visits at 1. rewrite walkExpr_children, foldl_visits; [done|].
  apply Forall_forall. intros c _. apply walk_visits.
Qed.

(** A walk does what visiting its expressions in order does. *)
Lemma walkExpr_visits {S} (fn : Expr → S → S) e s : walkExpr fn e s = foldl (λ s x, fn x s) s (visits e).
Proof.
  revert s. induction e as [e IH] using Expr_step. intros s. rewrite walkExpr_children, visits_children. cbn [foldl].
  generalize (fn e s). clear s. apply Forall_forall in IH. induction IH as [|c l Hc _ IHl]; intros s; [done|].
  cbn [foldl]. by rewrite bind_cons, foldl_app, <-Hc, IHl.
Qed.

Lemma elem_of_visits p e : p ∈ visits e ↔ part p e.
Proof.
  split.
  - revert p. induction e as [e IH] using Expr_step. intros p. rewrite visits_children.
    intros [->|Hp]%elem_of_cons; [constructor|]. apply list_elem_of_bind in Hp as (c & Hp & Hc).
    eapply part_child; [done|by apply IH].
  - induction 1 as [e|e c p Hc _ IH]; rewrite visits_children; [by left|]. right.
    apply list_elem_of_bind. eauto.
Qed.

(** The network an expression makes [RegisterCondition] load. *)
Definition named (p : Expr) : option string :=
  match p with
  | ECall fn (Some _) [ELiteral (LString name)] => if bool_decide (fn = "network") then Some name else None
  | ECall fn None [_; ELiteral (LString name)] => if bool_decide (fn = "inNetwork") then Some name else None
  | _ => None
  end.

Lemma preload_named networks p called :
  preload networks p called =
    match named p with Some name => call_network networks name called | None => called end.
Proof.
  destruct p as [| | |fn target args| | | | |]; try done. unfold preload, named.
  destruct target as [t|].
  - case_bool_decide as Hin; [subst|].
    + by destruct args as [|[|[]| | | | | | |] []].
    + by case_bool_decide; destruct args as [|[|[]| | | | | | |] []].
  - case_bool_decide as Hin; [subst|].
    + by destruct args as [|a [|[|[]| | | | | | |] []]].
    + by case_bool_decide; destruct args as [|a [|[|[]| | | | | | |] []]].
Qed.

Lemma elem_of_preloaded networks e k :
  k ∈ walkExpr (preload networks) e [] ↔ k ∈ networks ∧ ∃ p, part p e ∧ named p = Some k.
Proof.
  rewrite walkExpr_visits.
  assert (Hgen : ∀ l acc, k ∈ foldl (λ s x, preload networks x s) acc l ↔
    k ∈ acc ∨ k ∈ networks ∧ ∃ p, p ∈ l ∧ named p = Some k).
  { induction l as [|p l IH]; intros acc; cbn [foldl].
    - split; [by left|]. intros [?|(_ & p & Hp & _)]; [done|]. by apply elem_of_nil in Hp.
    - rewrite IH, preload_named. unfold call_network.
      destruct (named p) as [name|] eqn:Hn; [case_bool_decide|];
        setoid_rewrite elem_of_cons; try rewrite elem_of_app, list_elem_of_singleton; naive_solver. }
  rewrite Hgen. setoid_rewrite elem_of_visits. split; [|by right]. intros [Hk|?]; [by apply elem_of_nil in Hk|done].
Qed.

Lemma once_spec called loaded :
  NoDup loaded → NoDup (once called loaded) ∧ (∀ k, k ∈ once called loaded ↔ k ∈ loaded ∨ k ∈ called) ∧
    loaded `prefix_of` once called loaded.
Proof.
  revert loaded. induction called as [|c called IH]; intros loaded Hnd; cbn [once].
  { split; [done|]. split; [|done]. intros k. split; [by left|]. intros [?|Hk]; [done|]. by apply elem_of_nil in Hk. }
  case_bool_decide.
  - destruct (IH _ Hnd) as (H1 & H2 & H3). split; [done|]. split; [|done]. intros k. rewrite H2, elem_of_cons. naive_solver.
  - destruct (IH (loaded ++ [c])) as (H1 & H2 & H3).
    { apply NoDup_app. split; [done|]. split; [|apply NoDup_singleton]. intros x Hx ->%list_elem_of_singleton. done. }
    split; [done|]. split.
    + intros k. rewrite H2, elem_of_app, list_elem_of_singleton, elem_of_cons. naive_solver.
    + by etransitivity; [apply prefix_app_r|].
Qed.

(** * Properties *)

(** C16: A condition on a network asks for the client's address: the member function
    [network], applied to what [remoteAddress] resolves to, is true exactly when a
    prefix of a list of the network that could be loaded contains the address the
    request came from; for an address the proxy could not make out it fails instead. *)
Theorem network_condition `{CidrangerLaws} (lib : NetLibs) (os : OS) (networkCache : option Cache) (k : string)
    (network : list Network) (disk : Disk) (networks : gmap string Ranger) (d : RequestData) (r : Request)
    (Hk : networks !! k = Some (load_network lib os networkCache k network disk).1)
    (Hreg : Forall regular (loaded lib os networkCache k 0 network disk))
    (Hok : addr_ok (ap_Addr (rd_RemoteAddress d))) :
  ∃ b, ResolveName d r "remoteAddress" = Some (ABytes b) ∧
    match ap_Addr (rd_RemoteAddress d) with
    | AddrZero => is_ok (fn_network networks (RBytes (Some b)) (RString k)) = false
    | a => fn_network networks (RBytes (Some b)) (RString k) =
             Ok (existsb (λ n, Contains n a) (loaded lib os networkCache k 0 network disk))
    end.
Proof.
  exists (Addr_AsSlice (ap_Addr (rd_RemoteAddress d))). split; [reflexivity|].
  unfold fn_network, in_network. rewrite Hk.
  destruct (decide (ap_Addr (rd_RemoteAddress d) = AddrZero)) as [->|Hz]; [reflexivity|].
  rewrite IP_of_bytes_AsSlice by done.
  destruct (ap_Addr (rd_RemoteAddress d)) as [|v|v z]; [done|..]; rewrite load_network_holds by done; [done|].
  by rewrite (Contains_zone_all _ v z).
Qed.

Definition demo_ranger : gmap string (@Ranger list_ranger) :=
  {["n" := (load_network demo_libs (demo_os 0%Z) None "n" demo_network ∅).1]}.

Lemma network_condition_witness :
  fn_network demo_ranger (RBytes (Some (Addr_AsSlice (Addr4 0xc0000207)))) (RString "n") = Ok true.
Proof.
  destruct (network_condition demo_libs (demo_os 0%Z) None "n" demo_network ∅ demo_ranger
    (demo_data 0%Z (Addr4 0xc0000207)) (demo_request ∅)) as (b & Hb & Hn).
  - reflexivity.
  - repeat constructor; vm_compute; done.
  - reflexivity.
  - injection Hb as <-. etransitivity; [exact Hn|]. vm_compute. reflexivity.
Defined.

(** The walk over an expression visits all of its parts and nothing else, whatever
    the kinds they are of: what it computes is what visiting them one by one
    computes. *)
Theorem walkExpr_complete {S : Type} (fn : Expr → S → S) (e : Expr) (s : S) :
  ∃ l, walkExpr fn e s = foldl (λ s x, fn x s) s l ∧ (∀ p, p ∈ l ↔ part p e).
Proof. exists (visits e). split; [apply walkExpr_visits|]. intros p. apply elem_of_visits. Qed.

(** C33: When a condition is registered, every configured network it names as the
    constant argument of the member function [network] has been loaded, anywhere in
    the expression; beyond what was loaded before, nothing else is, except for a
    name in the second place of a call of [inNetwork], where its address is: the
    network such a call names is loaded by the first request. *)
Theorem RegisterCondition_preloads `{CelLibs, Cidranger} (networks : gmap string Ranger) (operator : string)
    (conditions loaded : list string) (prog : Program) (loaded' : list string)
    (Hnd : NoDup loaded) (Hreg : RegisterCondition networks operator conditions loaded = (Ok prog, loaded')) :
  ∃ ast, cel_NewAst operator conditions = Ok ast ∧ cel_OutputType ast = Some OutBool ∧ NoDup loaded' ∧
    ∀ k, k ∈ loaded' ↔ k ∈ loaded ∨ is_Some (networks !! k) ∧ ∃ p, part p (cel_Expr ast) ∧
      ((∃ t, p = ECall "network" (Some t) [ELiteral (LString k)]) ∨
       (∃ ip, p = ECall "inNetwork" None [ip; ELiteral (LString k)])).
Proof.
  unfold RegisterCondition, compile_bool in Hreg. destruct (cel_NewAst operator conditions) as [ast|] eqn:Ha; [|done].
  cbn in Hreg. destruct (cel_OutputType ast) as [[]|] eqn:Ho; [|done..]. injection Hreg as _ <-.
  exists ast. do 2 (split; [done|]).
  destruct (once_spec (walkExpr (preload (dom networks)) (cel_Expr ast) []) loaded Hnd) as (H1 & H2 & _).
  split; [done|]. intros k. rewrite H2, elem_of_preloaded, elem_of_dom.
  assert (Hn : ∀ p, named p = Some k ↔ (∃ t, p = ECall "network" (Some t) [ELiteral (LString k)]) ∨
    (∃ ip, p = ECall "inNetwork" None [ip; ELiteral (LString k)])).
  { intros p. split; [|by intros [[t ->]|[ip ->]]]. unfold named. repeat first [case_bool_decide|case_match]; try done; intros [= ->]; subst; first [discriminate|eauto]. }
  by setoid_rewrite Hn.
Qed.

(** Constants, and conditions on a network. *)
#[export] Instance demo_cel : CelLibs := {
  Ast := Expr; cel_NewAst _ conds :=
    Ok (match conds with
        | [name] => ECall "||" None [ELiteral (LOther "bool");
                      ECall "network" (Some (EIdent "remoteAddress")) [ELiteral (LString name)]]
        | [name; _] => ECall "inNetwork" None [ELiteral (LString name); EIdent "remoteAddress"]
        | _ => ELiteral (LOther "bool")
        end);
  cel_OutputType _ := Some OutBool; cel_Expr e := e; cel_AstToString _ := Ok "true";
  cel_ProgramAst _ _ _ _ := Ok (λ _, (Some (CelBool true), None)) }.

Definition demo_networks : gmap string (@Ranger list_ranger) := {["n" := []]}.
Definition demo_program : Program := λ _, (Some (CelBool true), None).

Lemma demo_registered : RegisterCondition demo_networks "||" ["n"] [] = (Ok demo_program, ["n"]).
Proof. vm_compute. reflexivity. Qed.

Lemma RegisterCondition_preloads_witness : "n" ∈ (RegisterCondition demo_networks "||" ["n"] []).2.
Proof.
  destruct (RegisterCondition_preloads demo_networks "||" ["n"] [] demo_program ["n"] (NoDup_nil_2) demo_registered)
    as (ast & Hast & _ & _ & Hk).
  rewrite demo_registered. apply (proj2 (Hk "n")). right. split; [by eexists|]. injection Hast as <-.
  exists (ECall "network" (Some (EIdent "remoteAddress")) [ELiteral (LString "n")]). split; [|left; by eexists].
  eapply part_child; [right; right; left|constructor].
Defined.

(** The deprecated function does not preload its network. *)
Example inNetwork_not_preloaded : (RegisterCondition demo_networks "||" ["n"; "x"] []).2 = [].
Proof. vm_compute. reflexivity. Qed.
