(* ===== verification/Server.v ===== *)
(** [lib/http.go]: what the proxy does with a request. *)

From S2P Require Import Prelude GoStrings GoCrypto GoTime NetAddr GoURL Mime Hex UtilsHttp.
From S2P Require Import GoNetip DecayMap Types Cookie Register State Key Data ResponsePolicy.
From S2P Require Import Pages Effects Action Rule.
From stdpp Require Import options.

Local Open Scope handler_scope.

(** * Audit helpers *)

(** [requestIPSubnet]: the /24 or /48 of the client, in CIDR notation. *)
Definition requestIPSubnet (address : Addr) : string :=
  let address := Addr_Unmap address in
  let bits := if Addr_Is4 address then 24%N else 48%N in
  if negb (Addr_IsValid address) then ""
  else Addr_String (Addr_PrefixAddr address bits) +:+ "/" +:+ FormatUint bits.

(** [base64.RawURLEncoding]. *)
Definition b64_char (n : N) : ascii :=
  nth (N.to_nat n) (bytes "ABCDEFGHIJKLMNOPQRSTUVWXYZabcdefghijklmnopqrstuvwxyz0123456789-_") "A"%char.
Fixpoint b64_raw (l : list ascii) : list ascii :=
  match l with
  | a :: b :: c :: l =>
      let '(a, b, c) := (byte_val a, byte_val b, byte_val c) in
      b64_char (N.shiftr a 2) ::
      b64_char (N.lor (N.shiftl (N.land a 3) 4) (N.shiftr b 4)) ::
      b64_char (N.lor (N.shiftl (N.land b 15) 2) (N.shiftr c 6)) ::
      b64_char (N.land c 63) :: b64_raw l
  | [a; b] =>
      let '(a, b) := (byte_val a, byte_val b) in
      [b64_char (N.shiftr a 2); b64_char (N.lor (N.shiftl (N.land a 3) 4) (N.shiftr b 4));
       b64_char (N.shiftl (N.land b 15) 2)]
  | [a] => [b64_char (N.shiftr (byte_val a) 2); b64_char (N.shiftl (N.land (byte_val a) 3) 4)]
  | [] => []
  end.

Definition browser_cookie : string := "__Host-eirinchan_browser".

(** The part of a browser cookie that identifies the browser: the token of a signed
    [v1.issued.token.signature], or the whole value. *)
Definition browser_value (name value : string) : string :=
  if bool_decide (name = browser_cookie) then
    match Split value "." with
    | [v; _; token; _] =>
        if bool_decide (v = "v1") && (String.length token =? 32) then token else value
    | _ => value
    end
  else value.

Fixpoint browser_loop (r : Request) (names : list string) : string * bool :=
  match names with
  | [] => ("", false)
  | name :: names =>
      match Request_Cookie r name with
      | None => browser_loop r names
      | Some cookie =>
          if bool_decide (ck_Value cookie = "") then browser_loop r names
          else ("browser-log:v1:" +:+
                of_bytes (b64_raw (bytes (sha256 (browser_value name (ck_Value cookie))))), true)
      end
  end.

Definition browserAuditID (r : Request) : string * bool := browser_loop r [browser_cookie; "browser_token"].

(** * Requests to the backend *)

(** [cleanupProxyRequest]: the referer saved by the proxy is put back, and the
    query loses the proxy's arguments. *)
Definition cleanupProxyRequest (r : Request) : Request :=
  let ref := values_Get (URL_Query (rq_URL r)) QueryArgReferer in
  let r := if negb (bool_decide (ref = "")) then upd_rq_Header (λ h, hdr_Set h "Referer" ref) r else r in
  upd_rq_URL (λ u, set_RawQuery u (publicRawQuery (RawQuery u))) r.

(** The cookies of the proxy are not forwarded. *)
Definition strip_cookies (r : Request) : Request :=
  set_rq_Cookies (filter (λ c, HasPrefix (ck_Name c) DefaultCookiePrefix = false) (rq_Cookies r)) r.

Section server.
  Context `{Jose} (st : State).

Definition service_unavailable : M unit := http_Error (StatusText 503) 503.

(** The closure [cleanupRequest] of [handleRequest]. *)
Definition cleanupRequest (ruleName : string) (ruleAction : RuleAction) : M unit :=
  upd_req cleanupProxyRequest;;
  upd_data (upd_Extra (λ h, hdr_Set h "X-Away-Rule" ruleName));;
  upd_data (upd_Extra (λ h, hdr_Set h "X-Away-Action" ruleAction));;
  upd_req strip_cookies;;
  ResponseHeaders st.

(** The closure [getBackend]: the option names another host, and the backend of
    [host] is looked up again. *)
Definition getBackend (host : string) (backend : Backend) : M (option Backend) :=
  d <- get_data;;
  let opt := GetOpt d RequestOptBackendHost "" in
  if negb (bool_decide (opt = "")) && negb (bool_decide (opt = host)) then
    match GetBackend st host with
    | None => service_unavailable;; ret None
    | Some b => ret (Some b)
    end
  else ret (Some backend).

Definition rule_callback (host : string) (backend : Backend) (name : string) (action : RuleAction) : Done :=
  cleanupRequest name action;; getBackend host backend.

(** The loop over the rules; a rule error is shown and then panics. [true] means
    no rule ended the request. *)
Fixpoint rule_loop (host : string) (backend : Backend) (rules : list RuleState) : M bool :=
  match rules with
  | [] => ret true
  | rule :: rules =>
      res <- Evaluate st rule (rule_callback host backend (rs_Name rule) (rs_Action rule));;
      match res with
      | (_, Some err) => ErrorPage st 500 err "";; panic err
      | (false, None) => ret false
      | (true, None) => rule_loop host backend rules
      end
  end.

Definition RuleActionPASS : RuleAction := "PASS".

Definition handleRequest (rules : list RuleState) : M unit :=
  r <- get_req;;
  let host := rq_Host r in
  match GetBackend st host with
  | None => service_unavailable
  | Some backend =>
      cont <- rule_loop host backend rules;;
      if cont then
        RuleHit "DEFAULT";;
        ActionHit RuleActionPASS;;
        Pass_Handle (rule_callback host backend "DEFAULT" RuleActionPASS);;
        ret ()
      else ret ()
  end.

(** [allowChallengeStateClear]. *)
Definition allowChallengeStateClear (r : Request) : bool :=
  if negb (EqualFold (hdr_Get (rq_Header r) "X-Requested-With") "XMLHttpRequest") then false
  else
    let site := hdr_Get (rq_Header r) "Sec-Fetch-Site" in
    bool_decide (site = "") || bool_decide (site = "same-origin").

Definition clearChallengeState : M unit :=
  r <- get_req;;
  if negb (allowChallengeStateClear r) then http_Error (StatusText 403) 403
  else
    ClearChallengeState;;
    w_Set "Cache-Control" "no-store";;
    w_WriteHeader 204.

(** [ServeHTTP]: [mux] is the routing of [setupRoutes] ([http.ServeMux]), [regs] the
    registrations in iteration order; the id, the time and the fingerprints are
    those of [CreateRequestData]. *)
Definition ServeHTTP (mux : M unit) (regs : list Registration) (rid : string)
    (ja3n ja4 : option string) : M unit :=
  t <- now;; r <- get_req;;
  upd_data (λ _, CreateRequestData st rid t ja3n ja4 r);;
  EvaluateChallenges st regs;;
  upd_w NewResponsePolicyWriter;;
  mux.

End server.
