(* ===== verification/Observe.v ===== *)
(** What the proxy tells of requests: the values a request carries in its context
    ([lib/challenge/data.go], [utils/http.go], [utils/fingerprint.go]), the logger made of
    them ([GetLoggerForRequest] of [lib/http.go]) with the handler of backend errors
    that uses it ([lib/state.go]), and the counters of [lib/metrics.go]. *)

From S2P Require Import Prelude GoStrings GoCrypto GoTime NetAddr GoURL Mime Hex UtilsHttp.
From S2P Require Import GoNetip DecayMap Types Cookie Register State Key Data ResponsePolicy Fingerprint.
From S2P Require Import Pages Effects Action Rule Server.
From stdpp Require Import options.

Local Open Scope handler_scope.

(** * The context of a request

    A context is a list of values under keys of their own types, the inner one first. *)
Inductive CtxVal :=
  | CtxFingerprint (fp : TLSFingerprint)
  | CtxRequestData (d : RequestData)
  | CtxRemoteAddress (a : AddrPort).
Definition Ctx : Type := list CtxVal.

Definition ctx_find {A} (f : CtxVal → option A) (ctx : Ctx) : option A := head (omap f ctx).

Definition RequestDataFromContext : Ctx → option RequestData :=
  ctx_find (λ v, match v with CtxRequestData d => Some d | _ => None end).
Definition GetRemoteAddress : Ctx → option AddrPort :=
  ctx_find (λ v, match v with CtxRemoteAddress a => Some a | _ => None end).
Definition GetTLSFingerprint : Ctx → option TLSFingerprint :=
  ctx_find (λ v, match v with CtxFingerprint fp => Some fp | _ => None end).
Definition SetRemoteAddress (ctx : Ctx) (addrPort : AddrPort) : Ctx := CtxRemoteAddress addrPort :: ctx.

(** The context of a connection; what [CreateRequestData] adds to it; and the one of a
    request the proxy makes itself to fetch tags. *)
Definition connection_context (fp : option TLSFingerprint) : Ctx := match fp with Some fp => [CtxFingerprint fp] | None => [] end.
Definition request_context (ctx : Ctx) (d : RequestData) : Ctx := SetRemoteAddress (CtxRequestData d :: ctx) (rd_RemoteAddress d).
Definition fetch_context : Ctx := [].

(** The fingerprints [CreateRequestData] finds in a context. *)
Definition context_ja3n (ctx : Ctx) : option string :=
  fp ← GetTLSFingerprint ctx; JA3N_String <$> fp_ja3n fp.
Definition context_ja4 (ctx : Ctx) : option string :=
  fp ← GetTLSFingerprint ctx; JA4_String <$> fp_ja4 fp.

(** A request that was given its data has them, its address and its fingerprints. *)
Lemma request_context_values ctx d :
  RequestDataFromContext (request_context ctx d) = Some d ∧
  GetRemoteAddress (request_context ctx d) = Some (rd_RemoteAddress d) ∧
  GetTLSFingerprint (request_context ctx d) = GetTLSFingerprint ctx.
Proof. done. Qed.

(** * Logging *)

Inductive LogVal := LogStr (s : string) | LogBool (b : bool) | LogNil.

(** [GetLoggerForRequest]: the attributes of the logger; [None] is the panic of a request
    without data. *)
Definition GetLoggerForRequest (ctx : Ctx) (r : Request) : option (list (string * LogVal)) :=
  data ← RequestDataFromContext ctx;
  let '(browserID, browserPresent) := browserAuditID r in
  let browserValue := if browserPresent then LogStr browserID else LogNil in
  let addr := ap_Addr (rd_RemoteAddress data) in
  Some (
    [("request_id", LogStr (RequestId_String (rd_Id data)));
     ("remote_address", LogStr (Addr_String addr));
     ("ip_subnet", LogStr (requestIPSubnet addr));
     ("browser_id", browserValue);
     ("browser_present", LogBool browserPresent);
     ("method", LogStr (rq_Method r));
     ("user_agent", LogStr (hdr_Get (rq_Header r) "User-Agent"));
     ("host", LogStr (rq_Host r));
     ("path", LogStr (Path (rq_URL r)));
     ("query", LogStr (publicRawQuery (RawQuery (rq_URL r))))] ++
    (match context_ja3n ctx with Some s => [("ja3n", LogStr s)] | None => [] end) ++
    (match context_ja4 ctx with Some s => [("ja4", LogStr s)] | None => [] end)).

(** The error handler a state gives to reverse proxies without one. *)
Definition BackendError `{Jose} (st : State) (ctx : Ctx) (r : Request) (err : goerr) : M unit :=
  match GetLoggerForRequest ctx r with
  | None => panic (ENew "invalid memory address or nil pointer dereference")
  | Some _ => ErrorPage st 502 err ""
  end.

(** For a request of a client the handler shows an error page. For one the proxy makes
    itself there are no data to log with: a backend that cannot be reached while its
    tags are fetched ends the client's request with a panic instead. *)
Lemma BackendError_client `{Jose} st ctx d r err : BackendError st (request_context ctx d) r err = ErrorPage st 502 err "".
Proof. unfold BackendError, GetLoggerForRequest. cbn [RequestDataFromContext]. by destruct (browserAuditID r). Qed.

Lemma BackendError_fetch `{Jose} st r err w :
  BackendError st fetch_context r err w = Panic (ENew "invalid memory address or nil pointer dereference") w.
Proof. done. Qed.

(** ** What the log reveals

    Of the cookies the log depends on the browser's token alone, and on that through its
    hash; of the query only on the arguments that are not the proxy's. *)
Definition logged_query (r : Request) : Values := delete_prefix QueryArgPrefix (ParseRawQuery (RawQuery (rq_URL r))).1.

Lemma GetLoggerForRequest_public ctx r r' :
  rq_Method r = rq_Method r' → rq_Host r = rq_Host r' → Path (rq_URL r) = Path (rq_URL r') →
  hdr_Get (rq_Header r) "User-Agent" = hdr_Get (rq_Header r') "User-Agent" →
  logged_query r = logged_query r' → browserAuditID r = browserAuditID r' →
  GetLoggerForRequest ctx r = GetLoggerForRequest ctx r'.
Proof.
  unfold GetLoggerForRequest, logged_query, publicRawQuery. intros -> -> -> -> -> ->. done.
Qed.

(** * Counters

    Every counter is a number per label; [newMetrics] has none yet, as after [Reset]. *)
Record stateMetrics := mkMetrics {
  mt_rules : gmap (string * string) N; mt_actions : gmap string N; mt_challenges : gmap (string * string) N }.

Definition newMetrics : stateMetrics := mkMetrics ∅ ∅ ∅.
Definition Reset (m : stateMetrics) : stateMetrics := mkMetrics ∅ ∅ ∅.

Definition Inc {K} `{Countable K} (labels : K) (counter : gmap K N) : gmap K N :=
  partial_alter (λ n, Some (default 0 n + 1)%N) labels counter.

Definition Metrics_Rule (name result : string) (m : stateMetrics) : stateMetrics :=
  mkMetrics (Inc (name, result) (mt_rules m)) (mt_actions m) (mt_challenges m).
Definition Metrics_Action (action : RuleAction) (m : stateMetrics) : stateMetrics :=
  mkMetrics (mt_rules m) (Inc action (mt_actions m)) (mt_challenges m).
Definition Metrics_Challenge (name result : string) (m : stateMetrics) : stateMetrics :=
  mkMetrics (mt_rules m) (mt_actions m) (Inc (name, result) (mt_challenges m)).

(** The counters after the events of a request. *)
Definition count_event (m : stateMetrics) (e : Event) : stateMetrics :=
  match e with
  | EvRule name result => Metrics_Rule name result m
  | EvAction action => Metrics_Action action m
  | EvChallenge name result => Metrics_Challenge name result m
  | _ => m
  end.
Definition count_events (m : stateMetrics) (evs : list Event) : stateMetrics := foldl count_event m evs.

Lemma Inc_lookup {K} `{Countable K} (k j : K) c :
  default 0%N (Inc k c !! j) = (default 0 (c !! j) + if decide (k = j) then 1 else 0)%N.
Proof.
  unfold Inc. case_decide as Hk; [subst; rewrite lookup_partial_alter_eq; cbn; lia|].
  rewrite lookup_partial_alter_ne by done. lia.
Qed.

(** The label an event counts under. *)
Definition event_label (e : Event) : option (string * string) :=
  match e with
  | EvRule name result => Some (name, result)
  | _ => None
  end.

(** A rule's counter is the number of its events since the reset. *)
Lemma count_rules evs name result m :
  default 0%N (mt_rules (count_events m evs) !! (name, result)) =
    (default 0 (mt_rules m !! (name, result)) +
     N.of_nat (length (filter (λ l, l = (name, result)) (omap event_label evs))))%N.
Proof.
  revert m. induction evs as [|e evs IH]; intros m; cbn [count_events foldl omap list_omap]; [cbn; lia|].
  fold (count_events (count_event m e) evs). rewrite IH. destruct e; cbn [event_label count_event]; try done.
  cbn [Metrics_Rule mt_rules]. rewrite Inc_lookup, filter_cons. repeat case_decide; cbn [length]; try done; lia.
Qed.

(** * Cache busting

    [rand] is the random source: [n] bytes. The program draws one text when it starts. *)
Definition RandomCacheBust (rand : nat → string) (n : nat) : string := of_bytes (b64_raw (bytes (rand n))).
Definition staticCacheBust (rand : nat → string) : string := RandomCacheBust rand 16.

Example RandomCacheBust1 : RandomCacheBust (λ n, substring_to n "0123456789abcdef") 16 = "MDEyMzQ1Njc4OWFiY2RlZg".
Proof. vm_compute. reflexivity. Qed.
