(* ===== verification/JoseDemo.v ===== *)
(** A concrete [Jose] whose laws hold, for evaluating the development on concrete
    inputs: it serializes keys and claims in the clear, and opens a token with the
    keys it was made with. The development's theorems never use it. *)

From S2P Require Import Prelude GoStrings GoCrypto GoTime NetAddr GoURL Mime Types Cookie.
From S2P Require Import Register State Key Data.
From stdpp Require Import options.

#[export] Instance TokenChallenge_countable : Countable TokenChallenge.
Proof.
  refine (inj_countable' (λ t, (tc_Key t, tc_Result t, tc_Ok t, tc_Expiry t, tc_NotBefore t, tc_IssuedAt t))
    (λ '(a, b, c, d, e, f), mkTokenChallenge a b c d e f) _).
  by intros [].
Defined.

#[export] Instance Token_countable : Countable Token.
Proof.
  refine (inj_countable' (λ t, (tok_State t, tok_Expiry t, tok_NotBefore t, tok_IssuedAt t))
    (λ '(a, b, c, d), mkToken a b c d) _).
  by intros [].
Defined.

Lemma pos_string_text p : string_forallb (λ c, is_alnum c || one_of "-_." c) (pos_string p) = true.
Proof. induction p as [p IH|p IH|]; cbn [pos_string]; rewrite ?string_forallb_cons, ?IH; done. Qed.

(** A sealed token: the signing key, the encryption key, the claims. *)
Definition sealed : Type := string * string * Token.

#[export] Instance demo_jose : Jose := {
  EncToken := sealed;
  SignedToken := string * Token;
  jose_Time := Unix;
  jose_NewSigner _ := None;
  jose_NewEncrypter k := if bool_decide (String.length k = 32) then None else Some (ENew "invalid key size");
  jose_Serialize priv k t := Ok (pos_string (encode (priv, k, t)));
  jose_Parse s :=
    match decode (string_pos s) with Some x => Ok x | None => Err (ENew "compact JWE format") end;
  jose_Decrypt e k := if bool_decide (e.1.2 = k) then Ok (e.1.1, e.2) else Err (ENew "error in cryptographic primitive");
  jose_Claims sg pub := if bool_decide (sg.1 = pub) then Ok sg.2 else Err (ENew "verification error") }.

#[export] Instance demo_jose_laws key : JoseLaws key key.
Proof.
  split.
  - done.
  - done.
  - intros k Hk. simpl. by rewrite bool_decide_true.
  - done.
  - intros k t s _ _ [= <-]. exists (key, k, t), (key, t). cbn.
    rewrite string_pos_pos, decode_encode. by rewrite !bool_decide_true.
  - intros k t s [= <-]. by rewrite pos_string_text.
  - intros k k' t s e [= <-] Hp Hne. cbn in *. rewrite string_pos_pos, decode_encode in Hp.
    simplify_eq/=. by rewrite bool_decide_false.
Qed.

(** A server without backends, whose two keys are the same text. *)
Definition demo_state (regs : Register) : State :=
  mkState (mkStateSettings ∅ "" "" "" "" 200) (mkSettings ∅ [] "anubis" ∅)
    "key" "key" "fingerprint" "/.well-known/go-away" regs ∅ (λ _, None) (λ _, "text/plain; charset=utf-8") "bust".

(** A server with one backend for every host. *)
Definition demo_backend : Backend :=
  mkBackend "site" (λ _, [OpHeader (λ h, hdr_Set h "Content-Type" "text/html"); OpWrite "page"]).

Definition demo_server : State :=
  mkState (mkStateSettings {["*" := demo_backend]} "" "" "" "" 200) (mkSettings ∅ [] "anubis" ∅)
    "key" "key" "fingerprint" "/.well-known/go-away" ∅ {["anubis" := λ _, Ok "<html>"]} (λ _, None)
    (λ _, "text/plain; charset=utf-8") "bust".

(** A transparent challenge every client passes. *)
Definition open_registration (id : Id) (name : string) : Registration :=
  mkReg id name ClassTransparent None ("/c/" +:+ name) DefaultDuration None None (S754_zero false)
    DefaultKeyHeaders [] (λ _ _, ret VerifyResultOK).
