(* ===== verification/Runtimes.v ===== *)
(** The challenge runtimes together: the table [challenge.Runtimes] the packages of
    [lib/challenge] fill, and what its entries have in common. *)

From S2P Require Import Prelude GoStrings GoCrypto GoTime NetAddr GoURL Mime UtilsHttp GoPath.
From S2P Require Import DecayMap Types Parameters Cookie Register State Key Data ResponsePolicy Pages Helper Mux Wasm Dnsbl.
From S2P Require CookieRuntime HttpRuntime Refresh ResourceLoad PreloadLink DnsblRuntime JsRuntime.
From S2P Require Import Effects JoseDemo.
From stdpp Require Import options.

Local Open Scope handler_scope.

(** What the runtimes use of the outside: the YAML library on each parameter record,
    the HTTP client, the DNS resolver, waiting, the WebAssembly runtime, request
    bodies and the script template. *)
Class Outside (Y : Type) := {
  out_http : Y → HttpRuntime.Parameters → result HttpRuntime.Parameters;
  out_refresh : Y → Refresh.Parameters → result Refresh.Parameters;
  out_preload : Y → PreloadLink.Parameters → result PreloadLink.Parameters;
  out_dnsbl : Y → DnsblRuntime.Parameters → result DnsblRuntime.Parameters;
  out_js : Y → JsRuntime.Parameters → result JsRuntime.Parameters;
  out_Do : list Event → string → string → MIMEHeader → list Cookie → result Z;
  out_LookupIP : list Event → string → Duration → result (list string);
  out_Await : list Event → string → Duration → VerifyResult;
  out_load : string → string → bool → result JsRuntime.Module;
  out_ReadAll : Request → result string;
  out_script : TplInput → result string }.

Section runtimes.
  Context `{Jose} (st : State) {Y : Type} `{Outside Y}.

Definition Runtimes : gmap string (@FillRegistration Y) := list_to_map
  [("cookie", CookieRuntime.FillRegistration st);
   ("http", HttpRuntime.FillRegistration st out_http out_Do);
   ("refresh", Refresh.FillRegistration st out_refresh);
   ("resource-load", ResourceLoad.FillRegistrationHeader st);
   ("preload-link", PreloadLink.FillRegistration st out_preload out_Await);
   ("dnsbl", DnsblRuntime.FillRegistration out_dnsbl out_LookupIP);
   ("js", JsRuntime.FillJavaScriptRegistration st out_js out_load out_ReadAll out_script)].

End runtimes.

(** * What every runtime does *)

Section effects.
  Context `{Jose} (st : State).

Lemma steady_VerifyUrl reg t : steady (VerifyUrl reg t).
Proof. unfold VerifyUrl. steady. Qed.
Hint Resolve steady_VerifyUrl : steady.

Lemma steady_cookie reg k e : steady (CookieRuntime.IssueChallenge st reg k e).
Proof. unfold CookieRuntime.IssueChallenge. steady. Qed.

Lemma steady_http cl p reg k e : steady (HttpRuntime.IssueChallenge st cl p reg k e).
Proof. unfold HttpRuntime.IssueChallenge. steady. Qed.

Lemma steady_refresh p reg k e : steady (Refresh.IssueChallenge st p reg k e).
Proof. unfold Refresh.IssueChallenge, Refresh.challenge_page. steady. Qed.

Lemma steady_resource_load reg k e : steady (ResourceLoad.IssueChallenge st reg k e).
Proof. unfold ResourceLoad.IssueChallenge. steady. Qed.

Lemma steady_preload aw p reg k e : steady (PreloadLink.IssueChallenge aw p reg k e).
Proof. unfold PreloadLink.IssueChallenge. steady. Qed.

Lemma steady_cache_Get id k : steady (DnsblRuntime.cache_Get id k).
Proof.
  intros w. unfold DnsblRuntime.cache_Get. destruct (DnsblRuntime.cache_of id w !! k); [|by apply steady_same].
  unfold bind, now. cbn. destruct (DecayMap.Get _ _ k). by apply steady_same.
Qed.
Lemma steady_cache_Set id k v t : steady (DnsblRuntime.cache_Set id k v t).
Proof. intros w. by apply steady_same. Qed.
Hint Resolve steady_cache_Get steady_cache_Set : steady.

Lemma steady_lookup rs p id ip : steady (DnsblRuntime.lookup rs p id ip).
Proof. unfold DnsblRuntime.lookup. steady. Qed.
Hint Resolve steady_lookup : steady.

Lemma steady_dnsbl rs p reg k e : steady (DnsblRuntime.IssueChallenge rs p reg k e).
Proof. unfold DnsblRuntime.IssueChallenge. steady. Qed.

Lemma steady_js reg k e : steady (JsRuntime.IssueChallenge st reg k e).
Proof. unfold JsRuntime.IssueChallenge. steady. Qed.

End effects.

(** ** Handlers *)

Section handlers.
  Context `{Jose} (st : State).

Lemma steady_VerifyHandlerChallengeResponseFunc v e r : steady (VerifyHandlerChallengeResponseFunc st v e r).
Proof. unfold VerifyHandlerChallengeResponseFunc. steady. Qed.

(** The verify handler is steady when its response function is. *)
Lemma steady_VerifyHandlerFunc reg v f :
  (∀ g, f = Some g → ∀ v e r, steady (g v e r)) → steady (VerifyHandlerFunc st reg v f).
Proof.
  intros Hf. assert (Hr : ∀ v e r, steady (default (VerifyHandlerChallengeResponseFunc st) f v e r)).
  { destruct f as [g|]; [by apply Hf|apply steady_VerifyHandlerChallengeResponseFunc]. }
  unfold VerifyHandlerFunc, verify_and_issue. cbv zeta. steady.
Qed.

Lemma steady_css_headers : steady ResourceLoad.css_headers.
Proof. unfold ResourceLoad.css_headers. steady. Qed.
Hint Resolve steady_css_headers : steady.

Lemma steady_responseFunc v e r : steady (ResourceLoad.responseFunc st v e r).
Proof. unfold ResourceLoad.responseFunc. steady. Qed.

Lemma steady_verify_handler reg : steady (PreloadLink.verify_handler st reg).
Proof. unfold PreloadLink.verify_handler. cbv zeta. steady. Qed.

Lemma steady_make_challenge ra m p reg : steady (JsRuntime.make_challenge st ra m p reg).
Proof. unfold JsRuntime.make_challenge. cbv zeta. steady. Qed.

Lemma steady_ServeChallengeScript f reg p s : steady (JsRuntime.ServeChallengeScript st f reg p s).
Proof. unfold JsRuntime.ServeChallengeScript. steady. Qed.

Lemma steady_serve_mux routes : (∀ p h, (p, h) ∈ routes → steady h) → steady (serve_mux routes).
Proof.
  intros Hr. unfold serve_mux. apply moves_bind; [typeclasses eauto|steady|]. intros r.
  case_bool_decide; [steady|]. destruct (findHandler routes r) as [h|u| |] eqn:Hf; [|steady..].
  apply findHandler_in in Hf as [p Hp]. by eapply Hr.
Qed.

Lemma steady_handle_all patterns routes :
  handle_all [] patterns = Some routes → (∀ p h, (p, h) ∈ patterns → steady h) → steady (serve_mux routes).
Proof.
  intros Hall Hs. apply steady_serve_mux. intros p h Hin.
  destruct (handle_all_in _ _ _ _ _ Hall Hin) as [[]%elem_of_nil|[pattern Hp]]. by eapply Hs.
Qed.

End handlers.

(** ** The table *)

(** Static files next to a module are served by the proxy itself. *)
Class OutsideLaws `{Outside Y} := {
  law_static : ∀ p r n m, out_load p r n = Ok m → steady (JsRuntime.mod_static m) }.

(** A registration completed by a runtime keeps what [Create] gave it; issuing it
    and its handler serve no backend and keep the request. *)
Record completed (reg reg' : Registration) : Prop := {
  cp_id : reg_id reg' = reg_id reg;
  cp_Name : reg_Name reg' = reg_Name reg;
  cp_Condition : reg_Condition reg' = reg_Condition reg;
  cp_Path : reg_Path reg' = reg_Path reg;
  cp_Duration : reg_Duration reg' = reg_Duration reg;
  cp_issue : ∀ k e, steady (reg_IssueChallenge reg' k e);
  cp_handler : ∀ h, reg_Handler reg' = Some h → reg_Handler reg = Some h ∨ steady h }.

Section table.
  Context `{Jose} (st : State) {Y : Type} `{OutsideLaws Y}.
  Set Default Proof Using "Type*".

Lemma completed_cookie reg y reg' : CookieRuntime.FillRegistration (Y:=Y) st reg y = Some (Ok reg') → completed reg reg'.
Proof. intros [= <-]. destruct reg. split; cbn; try done; [intros *; apply steady_cookie|auto]. Qed.

Lemma completed_http reg y reg' :
  HttpRuntime.FillRegistration st out_http out_Do reg y = Some (Ok reg') → completed reg reg'.
Proof.
  unfold HttpRuntime.FillRegistration. destruct (read_parameters _ _ y) as [p|]; [|done]. cbn.
  case_bool_decide; [done|]. intros [= <-]. destruct reg.
  case_bool_decide; (split; cbn; try done; [intros *; apply steady_http|auto]).
Qed.

Lemma completed_refresh reg y reg' :
  Refresh.FillRegistration st out_refresh reg y = Some (Ok reg') → completed reg reg'.
Proof.
  unfold Refresh.FillRegistration. destruct (read_parameters _ _ y) as [p|]; [|done]. cbn. intros [= <-].
  destruct reg. split; cbn; try done; [intros *; apply steady_refresh|auto].
Qed.

Lemma completed_resource_load reg y reg' :
  ResourceLoad.FillRegistrationHeader (Y:=Y) st reg y = Some (Ok reg') → completed reg reg'.
Proof.
  unfold ResourceLoad.FillRegistrationHeader. destruct (handle_all (H:=M unit) _ _) as [mux|] eqn:Hmux; [|done]. cbn. intros [= <-].
  destruct reg. split; cbn; try done; [intros *; apply steady_resource_load|].
  intros h [= <-]. right. eapply steady_handle_all; [exact Hmux|]. intros p h [= -> ->]%list_elem_of_singleton.
  apply steady_VerifyHandlerFunc. intros g [= <-]. apply steady_responseFunc.
Qed.

Lemma completed_preload reg y reg' :
  PreloadLink.FillRegistration st out_preload out_Await reg y = Some (Ok reg') → completed reg reg'.
Proof.
  unfold PreloadLink.FillRegistration. destruct (read_parameters _ _ y) as [p|]; [|done]. cbn [result_or].
  cbv zeta. destruct (handle_all (H:=M unit) _ _) as [mux|] eqn:Hmux; [|done]. cbn. intros [= <-].
  destruct reg. split; cbn; try done; [intros *; apply steady_preload|].
  intros h [= <-]. right. eapply steady_handle_all; [exact Hmux|]. intros q h [= -> ->]%list_elem_of_singleton.
  apply steady_verify_handler.
Qed.

Lemma completed_dnsbl reg y reg' :
  DnsblRuntime.FillRegistration out_dnsbl out_LookupIP reg y = Some (Ok reg') → completed reg reg'.
Proof.
  unfold DnsblRuntime.FillRegistration. destruct (read_parameters _ _ y) as [p|]; [|done]. cbn.
  case_bool_decide; [done|]. intros [= <-]. destruct reg. split; cbn; try done; [intros *; apply steady_dnsbl|auto].
Qed.

Lemma completed_js reg y reg' :
  JsRuntime.FillJavaScriptRegistration st out_js out_load out_ReadAll out_script reg y = Some (Ok reg') → completed reg reg'.
Proof.
  unfold JsRuntime.FillJavaScriptRegistration. destruct (read_parameters _ _ y) as [p|]; [|done]. cbn [result_or]. cbv zeta.
  destruct (out_load _ _ _) as [m|] eqn:Hm; [|done]. cbn [result_or]. cbv zeta.
  destruct (handle_all (H:=M unit) _ _) as [mux|] eqn:Hmux; [|done]. cbn. intros [= <-].
  destruct reg. split; cbn; try done; [intros *; apply steady_js|].
  intros h [= <-]. right. eapply steady_handle_all; [exact Hmux|]. intros q h.
  unfold JsRuntime.routes. rewrite !elem_of_cons.
  intros [[= -> ->]|[[= -> ->]|[[= -> ->]|[[= -> ->]|[]%elem_of_nil]]]].
  - by eapply law_static.
  - apply steady_make_challenge.
  - by apply steady_VerifyHandlerFunc.
  - apply steady_ServeChallengeScript.
Qed.

Lemma Runtimes_completed name f reg y reg' :
  Runtimes st !! name = Some f → f reg y = Some (Ok reg') → completed reg reg'.
Proof.
  intros Hf. apply elem_of_list_to_map_2 in Hf. rewrite !elem_of_cons in Hf.
  destruct Hf as [[= -> ->]|[[= -> ->]|[[= -> ->]|[[= -> ->]|[[= -> ->]|[[= -> ->]|[[= -> ->]|[]%elem_of_nil]]]]]]];
    eauto using completed_cookie, completed_http, completed_refresh, completed_resource_load,
      completed_preload, completed_dnsbl, completed_js.
Qed.

Lemma Runtimes_keep_identity : map_Forall (λ _, keeps_identity) (Runtimes st).
Proof.
  intros name f Hf reg y reg' Hreg. pose proof (Runtimes_completed _ _ _ _ _ Hf Hreg) as Hc.
  split; [apply Hc|apply Hc].
Qed.

End table.

(** * Registers *)

(** The registers that calls of [Create] with the program's runtimes lead to, failed
    calls included. The runtimes' closures hold the state [st]; the counter
    of identifiers may have been used for other registers before. *)
Section built.
  Context `{Jose} (st : State) {Y : Type} `{Outside Y}.
  Context (RegisterCondition : list string → result Program) (urlPath : string).

Inductive built : Register → Id → Prop :=
  | built_empty n : (0 ≤ n)%Z → built ∅ n
  | built_Create r n name pol replacer res r' n' :
      built r n → Create (Runtimes st) RegisterCondition urlPath r n name pol replacer = Some (res, r', n') →
      built r' n'.

(** What a server may rely on of a registration. *)
Record well_behaved (reg : Registration) : Prop := {
  wb_Path : reg_Path reg = path_Join [urlPath; "challenge"; reg_Name reg];
  wb_Duration : reg_Duration reg ≠ 0%Z;
  wb_issue : ∀ k e, steady (reg_IssueChallenge reg k e);
  wb_handler : ∀ h, reg_Handler reg = Some h → steady h }.

End built.

Lemma Create_well_behaved `{Jose} (st : State) {Y : Type} `{OutsideLaws Y} RC urlPath r n name pol
    replacer (reg : Registration) r' n' :
  Create (Runtimes st) RC urlPath r n name pol replacer = Some (Ok reg, r', n') → well_behaved urlPath reg.
Proof.
  unfold Create. destruct (Runtimes st !! _) as [f|] eqn:Hf; [|done].
  destruct (match default id replacer <$> pc_Conditions pol with [] => _ | _ => _ end) as [cond|]; [|done].
  destruct (match GetByName r name with Some _ => _ | None => _ end) as [i n1].
  destruct (f _ _) as [[reg'|]|] eqn:Hreg; [|done..]. intros [= <- _ _].
  destruct (Runtimes_completed _ _ _ _ _ _ Hf Hreg) as [Hid Hn _ Hp Hd Hi Hh]. cbn in *. split.
  - by rewrite Hp, Hn.
  - rewrite Hd. case_bool_decide; [|done]. by vm_compute.
  - done.
  - intros h Hh'. by destruct (Hh h Hh').
Qed.

Lemma built_spec `{Jose} (st : State) {Y : Type} `{OutsideLaws Y} RC urlPath r n :
  built (Y:=Y) st RC urlPath r n →
  register_wf r n ∧ (0 ≤ n)%Z ∧ map_Forall (λ _, well_behaved urlPath) r.
Proof.
  induction 1 as [n Hn|r n name pol replacer res r' n' _ (Hwf & Hn & Hall) Hc].
  { split; [by eapply register_wf_mono; [apply register_wf_empty|]|]. split; [done|]. apply map_Forall_empty. }
  destruct (Create_spec _ _ _ _ _ _ _ _ _ _ _ Hwf Hn (Runtimes_keep_identity st) Hc) as (Hwf' & Hle & Hres).
  split; [done|]. split; [lia|]. destruct res as [reg|e]; [|by subst].
  destruct Hres as (_ & -> & _). apply map_Forall_insert_2; [by eapply Create_well_behaved|done].
Qed.

(** C23: Registers stay well-formed however challenges are created, created again and
    fail to be created: names are unique, identifiers were handed out and are their
    keys, and every registration, whatever its runtime and parameters, has the path
    of its name and a duration, hands the client's request to no backend and keeps it
    as it is, both when it is issued and when its handler answers. (To fetch the tags
    for a page the proxy asks the backend itself, without the client's request.) *)
Theorem built_invariant `{Jose} (st : State) {Y : Type} `{OutsideLaws Y} RC urlPath r n
    (Hb : built (Y:=Y) st RC urlPath r n) :
  register_wf r n ∧ map_Forall (λ _, well_behaved urlPath) r.
Proof. destruct (built_spec st RC urlPath r n Hb) as (? & _ & ?). done. Qed.

(** ** The state the runtimes hold

    The closures of a runtime hold a state only for when they run: whether and under
    which name and identifier a challenge is registered does not depend on it. *)
Definition same_outcome (x y : option (result Registration)) : Prop :=
  match x, y with
  | None, None => True
  | Some (Err e), Some (Err e') => e = e'
  | Some (Ok reg), Some (Ok reg') => reg_id reg = reg_id reg' ∧ reg_Name reg = reg_Name reg'
  | _, _ => False
  end.

(** Creating challenges panics, fails and succeeds alike; the names are the same. *)
Definition reg_names (r : Register) : gmap Id string := reg_Name <$> r.
Definition same_created (x y : option (result Registration * Register * Id)) : Prop :=
  match x, y with
  | None, None => True
  | Some (res, r, n), Some (res', r', n') =>
      same_outcome (Some res) (Some res') ∧ reg_names r = reg_names r' ∧ n = n'
  | _, _ => False
  end.

Lemma same_outcome_mux {H H'} (ps : list (string * H)) (ps' : list (string * H')) k k' :
  ps.*1 = ps'.*1 → (∀ m m', same_outcome (k m) (k' m')) →
  same_outcome (m ← handle_all [] ps; k m) (m ← handle_all [] ps'; k' m).
Proof.
  intros Heq Hk. pose proof (handle_all_accepts ps ps' Heq) as H1. pose proof (handle_all_accepts ps' ps (eq_sym Heq)) as H2.
  destruct (handle_all [] ps), (handle_all [] ps'); cbn [mbind option_bind]; [apply Hk|..|done].
  - by destruct (H1 ltac:(by eexists)).
  - by destruct (H2 ltac:(by eexists)).
Qed.

Section outcome.
  Context `{Jose} (st st' : State) {Y : Type} `{Outside Y}.

Lemma Runtimes_outcome name :
  match Runtimes st !! name, Runtimes st' !! name with
  | Some f, Some f' => ∀ reg y, same_outcome (f reg y) (f' reg y)
  | None, None => True
  | _, _ => False
  end.
Proof.
  unfold Runtimes. cbn [list_to_map foldr uncurry].
  repeat match goal with |- context [<[?k := _]> _ !! name] =>
    destruct (decide (k = name)) as [<-|?]; [rewrite !lookup_insert_eq|rewrite !(lookup_insert_ne _ k name) by done]
  end; [..|done].
  - by intros [] y.
  - intros reg y. unfold HttpRuntime.FillRegistration. cbn [fst snd]. destruct (read_parameters out_http HttpRuntime.DefaultParameters y) as [params|]; cbn [result_or]; [|done].
    case_bool_decide; [done|]. destruct reg. by case_bool_decide.
  - intros reg y. unfold Refresh.FillRegistration. cbn [fst snd]. destruct (read_parameters out_refresh Refresh.DefaultParameters y) as [params|]; cbn [result_or]; [|done]. by destruct reg.
  - intros reg y. unfold ResourceLoad.FillRegistrationHeader. cbn [fst snd]. apply same_outcome_mux; [done|]. by destruct reg.
  - intros reg y. unfold PreloadLink.FillRegistration. cbn [fst snd]. destruct (read_parameters out_preload PreloadLink.DefaultParameters y) as [params|]; cbn [result_or]; [|done].
    apply same_outcome_mux; [done|]. by destruct reg.
  - intros reg y. unfold DnsblRuntime.FillRegistration. cbn [fst snd]. destruct (read_parameters out_dnsbl DnsblRuntime.DefaultParameters y) as [params|]; cbn [result_or]; [|done].
    case_bool_decide; [done|]. by destruct reg.
  - intros reg y. unfold JsRuntime.FillJavaScriptRegistration. cbn [fst snd]. destruct (read_parameters out_js JsRuntime.DefaultParameters y) as [params|]; cbn [result_or]; [|done].
    destruct (out_load _ _ _) as [m|]; cbn [result_or]; [|done]. apply same_outcome_mux; [by destruct reg|]. by destruct reg.
Qed.

Lemma GetByName_names r r' n name :
  register_wf r n → register_wf r' n → reg_names r = reg_names r' → snd <$> GetByName r name = snd <$> GetByName r' name.
Proof.
  intros Hr Hr' Heq. destruct (GetByName r name) as [[c id]|] eqn:Hg.
  - apply GetByName_Some in Hg as [Hc Hn]. apply (f_equal (λ m : gmap Id string, m !! id)) in Heq as Hid. unfold reg_names in Hid.
    rewrite !lookup_fmap, Hc in Hid. destruct (r' !! id) as [c'|] eqn:Hc'; [|done]. injection Hid as Hid.
    destruct (GetByName r' name) as [[c2 id2]|] eqn:Hg'.
    + apply GetByName_Some in Hg' as [Hc2 Hn2]. cbn. f_equal. apply (rwf_name _ _ Hr' id id2 c' c2); congruence.
    + exfalso. apply (GetByName_None _ _ _ _ Hg' Hc'). congruence.
  - destruct (GetByName r' name) as [[c2 id2]|] eqn:Hg'; [|done]. exfalso. apply GetByName_Some in Hg' as [Hc2 Hn2].
    apply (f_equal (λ m : gmap Id string, m !! id2)) in Heq as Hid. unfold reg_names in Hid.
    rewrite !lookup_fmap, Hc2 in Hid. destruct (r !! id2) as [c|] eqn:Hc; [|done]. injection Hid as Hid.
    apply (GetByName_None _ _ _ _ Hg Hc). congruence.
Qed.

Lemma Create_outcome RC urlPath r r' n name pol replacer :
  register_wf r n → register_wf r' n → reg_names r = reg_names r' →
  same_created (Create (Runtimes st) RC urlPath r n name pol replacer) (Create (Runtimes st') RC urlPath r' n name pol replacer).
Proof.
  intros Hr Hr' Heq. pose proof (GetByName_names r r' n name Hr Hr' Heq) as Hg. unfold Create.
  pose proof (Runtimes_outcome (pc_Runtime pol)) as Hf.
  destruct (Runtimes st !! _) as [f|], (Runtimes st' !! _) as [f'|]; try done.
  destruct (match default id replacer <$> pc_Conditions pol with [] => _ | _ => _ end) as [cond|]; [|by cbn; auto].
  assert (Hi : (match GetByName r name with Some (_, oldId) => (oldId, n) | None => (n + 1, n + 1)%Z end) =
               (match GetByName r' name with Some (_, oldId) => (oldId, n) | None => (n + 1, n + 1)%Z end)).
  { destruct (GetByName r name) as [[]|], (GetByName r' name) as [[]|]; cbn in Hg; by simplify_eq. }
  rewrite Hi. destruct (match GetByName r' name with Some _ => _ | None => _ end) as [id n1].
  set (reg := mkReg _ _ _ _ _ _ _ _ _ _ _ _). specialize (Hf reg (pc_Parameters pol)).
  destruct (f reg _) as [[a|e]|], (f' reg _) as [[a'|e']|]; cbn [same_outcome] in Hf; try done; cbn [same_created].
  - destruct Hf as [Hid Hn]. split; [done|]. split; [|done]. unfold reg_names in *. by rewrite !fmap_insert, Heq, Hn.
  - by subst e'.
Qed.

End outcome.

(** ** Concrete runtimes

    No parameters, a service that answers 200, no listed address, no waiting
    request answered, no module. *)
#[export] Instance demo_outside : Outside unit := {
  out_http _ p := Ok p; out_refresh _ p := Ok p; out_preload _ p := Ok p; out_dnsbl _ p := Ok p; out_js _ p := Ok p;
  out_Do _ _ _ _ _ := Ok 200%Z; out_LookupIP _ _ _ := Ok []; out_Await _ _ _ := VerifyResultNone;
  out_load _ _ _ := Err (ENew "no module"); out_ReadAll _ := Ok ""; out_script _ := Ok "" }.

#[export] Instance demo_outside_laws : OutsideLaws.
Proof. split. by intros. Qed.

(** A block list and a cookie challenge. *)
Definition demo_create (r : Register) (n : Id) (name runtime : string) : Register :=
  from_option (λ created, created.1.2) ∅
    (Create (Y:=unit) (Runtimes demo_server) (λ _, Err (ENew "")) "/base" r n name (mkChallenge [] runtime 0%Z None) None).

Definition demo_lists : Register := demo_create ∅ 0%Z "lists" "dnsbl".
Definition demo_both : Register := demo_create demo_lists 1%Z "cookies" "cookie".

Lemma demo_create_built r n name runtime n' :
  built (Y:=unit) demo_server (λ _, Err (ENew "")) "/base" r n →
  snd <$> Create (Y:=unit) (Runtimes demo_server) (λ _, Err (ENew "")) "/base" r n name (mkChallenge [] runtime 0%Z None) None =
    Some n' →
  built (Y:=unit) demo_server (λ _, Err (ENew "")) "/base" (demo_create r n name runtime) n'.
Proof.
  intros Hb Hn. unfold demo_create. destruct (Create _ _ _ _ _ _ _ _) as [[[res r'] n1]|] eqn:Hc; [|done].
  injection Hn as <-. by apply (built_Create _ _ _ r n name (mkChallenge [] runtime 0%Z None) None res).
Qed.

Lemma demo_lists_built : built (Y:=unit) demo_server (λ _, Err (ENew "")) "/base" demo_lists 1%Z.
Proof. apply demo_create_built; [by apply built_empty|]. vm_compute. reflexivity. Qed.

Lemma built_invariant_witness : reg_Path <$> demo_both !! 2%Z = Some "/base/challenge/cookies".
Proof.
  destruct (built_invariant (Y:=unit) demo_server (λ _, Err (ENew "")) "/base" demo_both 2%Z) as [_ Hall].
  - apply demo_create_built; [apply demo_lists_built|]. vm_compute. reflexivity.
  - assert (Hn : reg_Name <$> demo_both !! 2%Z = Some "cookies") by (vm_compute; reflexivity).
    destruct (demo_both !! 2%Z) as [reg|] eqn:Hreg; [|discriminate Hn]. cbn in *.
    rewrite (wb_Path _ _ (Hall _ _ Hreg)). injection Hn as ->. vm_compute. reflexivity.
Defined.
