(* ===== verification/HelperProps.v ===== *)
(** Properties of [Helper.v]: verify URLs are read back as they were made, key
    verifiers accept their own keys only, and the verify handler records a proof
    only for an accepted token. *)

From S2P Require Import Prelude GoStrings GoCrypto GoTime NetAddr GoURL Mime Hex UtilsHttp.
From S2P Require Import Types Register State Key Data ResponsePolicy Pages Effects Helper JoseDemo.
From stdpp Require Import options.

Local Open Scope handler_scope.

(** * Escaping round trips *)

Lemma unescape_plain c s :
  shouldEscape c encodeQueryComponent = false → c ≠ "+"%char →
  unescape (String c s) encodeQueryComponent =
    match unescape s encodeQueryComponent with Ok t => Ok (String c t) | Err e => Err e end.
Proof. destruct c as [[] [] [] [] [] [] [] []]; intros H1 H2; try done; vm_compute in H1; done. Qed.

Lemma upper_digits : ∀ c,
  hex_val (upper_digit (byte_val c / 16)) = Some (byte_val c / 16)%N ∧
  hex_val (upper_digit (byte_val c mod 16)) = Some (byte_val c mod 16)%N ∧
  byte_of (16 * (byte_val c / 16) + byte_val c mod 16) = c.
Proof. by_all_bytes. Qed.

Lemma escape_plus : ∀ c, shouldEscape c encodeQueryComponent = false → c ≠ "+"%char.
Proof. by_all_bytes. Qed.

Lemma QueryUnescape_QueryEscape s : QueryUnescape (QueryEscape s) = Ok s.
Proof.
  unfold QueryUnescape, QueryEscape. induction s as [|c s IH]; [done|]. cbn [escape].
  rewrite (bool_decide_eq_true_2 (encodeQueryComponent = encodeQueryComponent)), andb_true_r by done.
  case_bool_decide as Hsp.
  - subst. cbn -[escape]. by rewrite IH.
  - destruct (shouldEscape c encodeQueryComponent) eqn:He.
    + destruct (upper_digits c) as (Ha & Hb & Hc). cbn -[escape upper_digit hex_val N.div N.modulo].
      rewrite Ha, Hb. cbn -[escape N.div N.modulo N.mul N.add]. by rewrite IH, Hc.
    + rewrite unescape_plain, IH by auto using escape_plus. done.
Qed.

Lemma escaped_byte : ∀ c d, shouldEscape c encodeQueryComponent = false →
  d ∈ ["&"%char; ";"%char; "="%char] → bool_decide (c = d) = false.
Proof. by_all_bytes. Qed.

Lemma upper_digit_plain : ∀ c d, d ∈ ["&"%char; ";"%char; "="%char] →
  bool_decide (upper_digit (byte_val c / 16) = d) = false ∧
  bool_decide (upper_digit (byte_val c mod 16) = d) = false.
Proof. by_all_bytes. Qed.

Lemma QueryEscape_clean s d : d ∈ ["&"%char; ";"%char; "="%char] → ContainsByte (QueryEscape s) d = false.
Proof.
  intros Hd. unfold QueryEscape. induction s as [|c s IH]; [done|]. cbn [escape].
  rewrite (bool_decide_eq_true_2 (encodeQueryComponent = encodeQueryComponent)), andb_true_r by done.
  case_bool_decide as Hsp; [|destruct (shouldEscape c encodeQueryComponent) eqn:He];
    rewrite !ContainsByte_cons, IH.
  - set_unfold in Hd. by destruct_or! Hd; subst.
  - destruct (upper_digit_plain c d Hd) as [-> ->]. set_unfold in Hd. by destruct_or! Hd; subst.
  - by rewrite escaped_byte.
Qed.

Lemma QueryEscape_value_ok s : value_ok (QueryEscape s).
Proof. split; apply QueryEscape_clean; set_solver. Qed.

(** * Reading an encoded raw query *)

(** What [ParseQuery] does with a pair of a raw query. *)
Definition decode_pair (m : Values) (kx : string * string) : Values :=
  if bool_decide (kx = ("", "")) then m
  else match QueryUnescape kx.1, QueryUnescape kx.2 with
       | Ok k, Ok x => values_Append m k x
       | _, _ => m
       end.

Lemma query_component_comp m k x :
  key_ok k → value_ok x → query_component m (raw_comp k x) = decode_pair m (k, x).
Proof.
  intros (_ & Hk & Hk') (_ & Hx). unfold query_component, decode_pair, raw_comp. simpl.
  destruct (decide (x = "")) as [->|Hne].
  - rewrite bool_decide_eq_true_2, Hk by done.
    destruct (decide (k = "")) as [->|Hke]; [done|].
    rewrite !bool_decide_eq_false_2 by congruence. by rewrite Cut_absent.
  - rewrite (bool_decide_eq_false_2 (x = "")) by done.
    rewrite !ContainsByte_app, Hk, Hx. simpl.
    change ("=" +:+ x) with (String "=" x).
    rewrite !bool_decide_eq_false_2; [by rewrite Cut_app| congruence |].
    by destruct k.
Qed.

Definition query_from (m : Values) (s : string) : Values := foldl query_component m (Split s "&").

Lemma query_written buf l :
  Forall (λ kx : string * string, key_ok kx.1 ∧ value_ok kx.2) l →
  ∀ m, query_from ∅ buf = m →
  query_from ∅ (foldl (λ buf kx, raw_write buf kx.1 kx.2) buf l) = foldl decode_pair m l.
Proof.
  intros Hl. revert buf. induction Hl as [|[k x] l [Hk Hx] _ IH]; intros buf m Hm; simpl in *; [done|].
  apply IH. rewrite raw_write_comp. unfold query_from in *. case_bool_decide as Hb.
  - subst. rewrite Split_absent by (by apply raw_comp_amp). by apply query_component_comp.
  - rewrite Split_app_gen, foldl_app, Hm, (Split_absent (raw_comp k x)) by (by apply raw_comp_amp).
    by apply query_component_comp.
Qed.

Lemma ParseQuery_EncodeRawQuery v :
  raw_wf v → ParseQuery (EncodeRawQuery v) = foldl decode_pair ∅ (raw_pairs v).
Proof.
  intros Hwf. rewrite EncodeRawQuery_pairs. apply (query_written "" _ (raw_pairs_ok v Hwf) ∅). done.
Qed.

(** The decoded value of a pair whose key decodes to [K]. *)
Definition value_of_key (K : string) (kx : string * string) : option string :=
  match QueryUnescape kx.1, QueryUnescape kx.2 with
  | Ok k, Ok x => if bool_decide (k = K) then Some x else None
  | _, _ => None
  end.

Lemma decode_pairs_lookup K l m :
  K ≠ "" →
  default [] (foldl decode_pair m l !! K) = default [] (m !! K) ++ omap (value_of_key K) l.
Proof.
  intros HK. revert m. induction l as [|[k x] l IH]; intros m; [by rewrite app_nil_r|].
  cbn [foldl omap list_omap]. rewrite IH. unfold decode_pair, value_of_key. simpl.
  case_bool_decide as He; simplify_eq/=.
  - by rewrite bool_decide_eq_false_2 by done.
  - destruct (QueryUnescape k) as [k'|]; [|done]. destruct (QueryUnescape x) as [x'|]; [|done].
    unfold values_Append. case_bool_decide; simplify_eq.
    + rewrite lookup_insert_eq. simpl. by rewrite <-app_assoc.
    + by rewrite lookup_insert_ne.
Qed.

Lemma omap_mbind {A B C} (f : A → list B) (g : B → option C) (l : list A) :
  omap g (l ≫= f) = l ≫= λ a, omap g (f a).
Proof. induction l as [|a l IH]; [done|]. csimpl. by rewrite omap_app, IH. Qed.

Lemma mbind_nil {A B} (f : A → list B) l : (∀ b, b ∈ l → f b = []) → l ≫= f = [].
Proof.
  induction l as [|c l IH]; intros Hf; csimpl; [done|]. rewrite Hf, IH; [done| |by left].
  intros b Hb. apply Hf. by right.
Qed.

Lemma mbind_one {A B} (f : A → list B) (a : A) l :
  NoDup l → a ∈ l → (∀ b, b ∈ l → b ≠ a → f b = []) → l ≫= f = f a.
Proof.
  induction 1 as [|b l Hb Hnd IH]; intros Ha Hf; csimpl; [by apply elem_of_nil in Ha|].
  apply elem_of_cons in Ha as [->|Ha].
  - rewrite mbind_nil, app_nil_r; [done|]. intros c Hc. apply Hf; [by right|]. by intros ->.
  - rewrite (Hf b), IH; [done|done| |by left|by intros ->].
    intros c Hc. apply Hf. by right.
Qed.

(** A query in which only the key [K] decodes to [K]. *)
Definition plain_key (v : Values) (K : string) : Prop :=
  ∀ k, is_Some (v !! k) → QueryUnescape k = Ok K → k = K.

Lemma query_get_plain v K x :
  raw_wf v → K ≠ "" → QueryUnescape K = Ok K → plain_key v K → v !! K = Some [QueryEscape x] →
  values_Get (ParseQuery (EncodeRawQuery v)) K = x.
Proof.
  intros Hwf HK HKu Hplain Hv. unfold values_Get.
  rewrite ParseQuery_EncodeRawQuery, decode_pairs_lookup, lookup_empty by done. simpl.
  assert (omap (value_of_key K) (raw_pairs v) = [x]) as ->; [|done].
  unfold raw_pairs. rewrite omap_mbind, (mbind_one _ K).
  - rewrite Hv. cbn. unfold value_of_key. simpl. rewrite HKu, QueryUnescape_QueryEscape.
    by rewrite bool_decide_eq_true_2.
  - apply sorted_keys_NoDup.
  - apply elem_of_sorted_keys. eauto.
  - intros k Hk%elem_of_sorted_keys Hne. induction (default [] (v !! k)) as [|y ys IH]; [done|].
    csimpl. rewrite IH. unfold value_of_key. simpl. destruct (QueryUnescape k) as [k'|] eqn:Hu; [|done].
    destruct (QueryUnescape y); [|done]. rewrite bool_decide_eq_false_2; [done|].
    intros ->. apply Hne. by apply Hplain.
Qed.

(** * The verify URL *)

Definition verify_args : list string :=
  [QueryArgReferer; QueryArgRedirect; QueryArgRequestId; QueryArgChallenge; QueryArgToken; QueryArgBust].

Lemma verify_args_ok : Forall (λ K, key_ok K ∧ K ≠ "" ∧ QueryUnescape K = Ok K) verify_args.
Proof. repeat constructor; vm_compute; congruence. Qed.

Lemma verify_arg_ok K : K ∈ verify_args → key_ok K ∧ K ≠ "" ∧ QueryUnescape K = Ok K.
Proof. pose proof verify_args_ok as Hall. rewrite Forall_forall in Hall. apply Hall. Qed.

(** A query whose raw keys spell the arguments of the proxy without escapes. *)
Definition plain_args (rawQuery : string) : Prop :=
  ∀ K, K ∈ verify_args → plain_key (ParseRawQuery rawQuery).1 K.

Lemma raw_wf_set K x v : K ∈ verify_args → raw_wf v → raw_wf (set_escaped K x v).
Proof.
  intros (HK & _)%verify_arg_ok Hwf k xs. unfold set_escaped, values_Set. rewrite lookup_insert.
  case_decide; [intros [= <-]; subst|apply Hwf].
  split; [done|]. split; [done|]. constructor; [apply QueryEscape_value_ok|constructor].
Qed.

Lemma plain_key_set K' x v K :
  K' ∈ verify_args → plain_key v K → plain_key (set_escaped K' x v) K.
Proof.
  intros (_ & _ & HK)%verify_arg_ok Hp k. unfold set_escaped, values_Set. rewrite lookup_insert.
  case_decide; [intros _ Hk; subst; congruence|apply Hp].
Qed.

Lemma set_escaped_eq K x v : set_escaped K x v !! K = Some [QueryEscape x].
Proof. apply lookup_insert_eq. Qed.
Lemma set_escaped_ne K K' x v : K ≠ K' → set_escaped K x v !! K' = v !! K'.
Proof. apply lookup_insert_ne. Qed.

Lemma verify_values_spec d r reg redirect token t :
  let v := verify_values d r reg redirect token t in
  raw_wf v ∧
  (∀ K, plain_key (ParseRawQuery (RawQuery (rq_URL r))).1 K → plain_key v K) ∧
  v !! QueryArgChallenge = Some [QueryEscape (reg_Name reg)] ∧
  v !! QueryArgRequestId = Some [QueryEscape (RequestId_String (rd_Id d))] ∧
  v !! QueryArgRedirect = Some [QueryEscape redirect] ∧
  v !! QueryArgToken = Some [QueryEscape token].
Proof.
  assert (Hargs : ∀ K, bool_decide (K ∈ verify_args) = true → K ∈ verify_args)
    by (intros K HK; by apply bool_decide_eq_true in HK).
  cbn zeta. unfold verify_values. split; [|split; [|split; [|split; [|split]]]].
  - repeat (apply raw_wf_set; [by apply Hargs|]). apply ParseRawQuery_wf.
  - intros K HK. repeat (apply plain_key_set; [by apply Hargs|]). done.
  - rewrite set_escaped_ne by done. apply set_escaped_eq.
  - rewrite !set_escaped_ne by done. apply set_escaped_eq.
  - do 3 rewrite set_escaped_ne by done. apply set_escaped_eq.
  - do 2 rewrite set_escaped_ne by done. apply set_escaped_eq.
Qed.

Lemma decode_request_id_encode id :
  String.length id = RequestIdSize → decode_request_id (EncodeToString id) = Ok id.
Proof.
  intros Hid. unfold decode_request_id, EncodeToString.
  rewrite bytes_of_bytes, length_of_bytes, length_hex_enc, length_bytes, Hid.
  change (negb (RequestIdSize =? DecodedLen (EncodedLen RequestIdSize))) with false. cbn iota.
  pose proof (decode_loop_spec _ (hex_enc (bytes id)) [] (repeat (byte_of 0) RequestIdSize) 0
    (Nat.le_refl _) eq_refl) as Hdec.
  rewrite hex_dec_enc in Hdec. cbn [app] in Hdec. unfold Decode. rewrite Hdec.
  - rewrite length_bytes, Hid. change (drop RequestIdSize (repeat (byte_of 0) RequestIdSize)) with (@nil ascii).
    rewrite app_nil_r, of_bytes_bytes. done.
  - by rewrite length_hex_enc, length_bytes, Hid.
Qed.

Lemma VerifyUrl_read (reg : Registration) (token : string) (w w' : World) (u : URL) (r' : Request)
    (Hid : String.length (rd_Id (wd_Data w)) = RequestIdSize)
    (Hplain : plain_args (RawQuery (rq_URL (wd_Req w))))
    (Hu : VerifyUrl reg token w = Ret (Ok u) w')
    (Hr : RawQuery (rq_URL r') = RawQuery u) :
  Path u = reg_Path reg +:+ "/verify-challenge" ∧
  ∃ redirectUrl, RedirectUrl (wd_Data w) (wd_Req w) reg = Ok redirectUrl ∧
    GetVerifyInformation r' reg =
      match EnsureNoOpenRedirect (URL_String redirectUrl) with
      | Ok redirect => Ok (rd_Id (wd_Data w), redirect, token)
      | Err e => Err e
      end.
Proof.
  unfold VerifyUrl, bind, get_data, get_req in Hu. cbv beta iota in Hu.
  destruct (RedirectUrl _ _ _) as [red|] eqn:Hred; [|done].
  unfold now, ret in Hu. cbv beta iota in Hu.
  set (d := wd_Data w) in *. set (r := wd_Req w) in *. set (t := wd_clock w _) in *.
  assert (u = set_RawQuery (set_Path emptyURL (reg_Path reg +:+ VerifyChallengeUrlSuffix))
    (EncodeRawQuery (verify_values d r reg (URL_String red) token t))) as -> by congruence.
  split; [done|]. exists red. split; [done|].
  destruct (verify_values_spec d r reg (URL_String red) token t) as (Hwf & Hpl & Hc & Hi & Hrd & Htk).
  assert (Hget : ∀ K x, bool_decide (K ∈ verify_args) = true →
    verify_values d r reg (URL_String red) token t !! K = Some [QueryEscape x] →
    values_Get (URL_Query (rq_URL r')) K = x).
  { intros K x HK%bool_decide_eq_true Hx. unfold URL_Query. rewrite Hr. simpl.
    destruct (verify_arg_ok K HK) as (_ & HK1 & HK2).
    apply query_get_plain; [done|done|done|apply Hpl, Hplain, HK|done]. }
  unfold GetVerifyInformation. rewrite (Hget QueryArgChallenge _ eq_refl Hc),
    (Hget QueryArgRequestId _ eq_refl Hi), (Hget QueryArgRedirect _ eq_refl Hrd),
    (Hget QueryArgToken _ eq_refl Htk).
  rewrite bool_decide_eq_true_2 by done. cbn [negb].
  unfold RequestId_String. rewrite decode_request_id_encode by done. simpl.
  by destruct (EnsureNoOpenRedirect _).
Qed.

(** C37: A verify URL gives its handler what it was made with: when the client's own
    query spells no argument of the proxy with escapes, the handler of the URL
    reads back the request id, the token, and the redirect target as the redirect
    check leaves it; the path is the challenge's. *)
Theorem VerifyUrl_roundtrip (reg : Registration) (token : string) (w w' : World) (u : URL) (r' : Request)
    (Hid : String.length (rd_Id (wd_Data w)) = RequestIdSize)
    (Hplain : plain_args (RawQuery (rq_URL (wd_Req w))))
    (Hu : VerifyUrl reg token w = Ret (Ok u) w')
    (Hr : RawQuery (rq_URL r') = RawQuery u) :
  Path u = reg_Path reg +:+ "/verify-challenge" ∧
  ∃ redirectUrl, RedirectUrl (wd_Data w) (wd_Req w) reg = Ok redirectUrl ∧
    GetVerifyInformation r' reg =
      match EnsureNoOpenRedirect (URL_String redirectUrl) with
      | Ok redirect => Ok (rd_Id (wd_Data w), redirect, token)
      | Err e => Err e
      end.
Proof. by apply (VerifyUrl_read reg token w w' u r'). Qed.

Definition demo_visit (rawQuery : string) : World :=
  demo_world (set_Id "0123456789abcdef" (demo_data (Unix 1700000000) AddrZero))
    (upd_rq_URL (λ u, set_RawQuery u rawQuery) (demo_request ∅)) (Unix 1700000000) (S754_zero false).

(** Where the verify URL is. *)
Lemma VerifyUrl_path reg token w u w' : VerifyUrl reg token w = Ret (Ok u) w' →
  Path u = reg_Path reg +:+ VerifyChallengeUrlSuffix ∧ RawPath u = "".
Proof.
  unfold VerifyUrl, bind, get_data, get_req. cbv beta iota. destruct (RedirectUrl _ _ _) as [red|]; [|done].
  unfold now, ret. cbv beta iota. by intros [= <- _].
Qed.

(** The request of a client that follows the verify URL made in [w]. *)
Definition followed (reg : Registration) (token : string) (w : World) : Request :=
  match VerifyUrl reg token w with
  | Ret (Ok u) _ => upd_rq_URL (λ _, u) (wd_Req w)
  | _ => wd_Req w
  end.

Lemma VerifyUrl_roundtrip_witness :
  let reg := demo_registration 1%Z "gate" in
  GetVerifyInformation (followed reg "aa" (demo_visit "p=1&p=2")) reg =
    Ok ("0123456789abcdef",
        "/page?__goaway_challenge=gate&__goaway_id=30313233343536373839616263646566&p=1&p=2", "aa").
Proof.
  destruct (VerifyUrl (demo_registration 1%Z "gate") "aa" (demo_visit "p=1&p=2")) as [[u|] w'|] eqn:Hu;
    [|by vm_compute in Hu..].
  destruct (VerifyUrl_roundtrip (demo_registration 1%Z "gate") "aa" (demo_visit "p=1&p=2") w' u
    (followed (demo_registration 1%Z "gate") "aa" (demo_visit "p=1&p=2"))) as (_ & red & Hred & Hg).
  - reflexivity.
  - intros K _ k [xs Hxs] Hk.
    assert ((ParseRawQuery (RawQuery (rq_URL (wd_Req (demo_visit "p=1&p=2"))))).1 = {["p" := ["1"; "2"]]})
      as Hm by (vm_compute; reflexivity).
    rewrite Hm in Hxs. apply lookup_singleton_Some in Hxs as [<- _]. vm_compute in Hk. congruence.
  - exact Hu.
  - unfold followed. by rewrite Hu.
  - cbv zeta. etransitivity; [exact Hg|].
    assert (red = match RedirectUrl (wd_Data (demo_visit "p=1&p=2")) (wd_Req (demo_visit "p=1&p=2"))
      (demo_registration 1%Z "gate") with Ok x => x | Err _ => red end) as -> by by rewrite Hred.
    vm_compute. reflexivity.
Defined.

(** The verify URL can be made to redirect to another host: a client whose query
    spells the redirect argument with an escape gets a verify URL whose handler
    reads the client's target instead of the proxy's, and the redirect check lets
    a target through that browsers resolve to another host. *)
Example verify_redirect_injection :
  let query := "%5f_goaway_redirect=https:%2F%2Fa%2F%2Fevil.example%2F" in
  let reg := demo_registration 1%Z "gate" in
  let token := key_issue (sha256 "key") in
  GetVerifyInformation (followed reg token (demo_visit query)) reg =
    Ok ("0123456789abcdef", "//evil.example/", token) ∧
  redirect_location "/c/gate/verify-challenge" "//evil.example/" = "//evil.example/".
Proof. split; vm_compute; reflexivity. Qed.

(** * Key verifiers *)

Lemma key_verify_ok key token r :
  String.length key = KeySize → key_verify key token r = (VerifyResultOK, None) ↔ DecodeString token = Ok key.
Proof.
  intros Hlen. unfold key_verify. destruct (DecodeString token) as [k|]; [|done].
  destruct (String.length k =? KeySize) eqn:Hk; cbn [negb].
  - case_bool_decide; [by subst|]. split; [by case_match|congruence].
  - split; [done|]. intros [= ->]. apply Nat.eqb_neq in Hk. congruence.
Qed.

(** The key verifier accepts a token without an error exactly when it is a
    hexadecimal spelling of the request's key, in particular the one the issuer
    writes. Its other acceptance carries the error that makes the handler retry,
    for a token made over IPv4 in a request over IPv6; everything else fails. *)
Theorem key_verify_spec (key : Key) (token : string) (r : Request) (Hlen : String.length key = KeySize) :
  (key_verify key token r = (VerifyResultOK, None) ↔ DecodeString token = Ok key) ∧
  key_verify key (key_issue key) r = (VerifyResultOK, None) ∧
  ((key_verify key token r).1 = VerifyResultOK → (key_verify key token r).2 ≠ None →
     (key_verify key token r).2 = Some ErrMismatchedTokenHappyEyeballs ∧
     ∃ key', DecodeString token = Ok key' ∧ Key_Get key KeyFlagIsIPv4 = 0%N ∧
       Key_Get key' KeyFlagIsIPv4 ≠ 0%N).
Proof.
  split; [by apply key_verify_ok|].
  split; [apply key_verify_ok; [done|apply DecodeString_EncodeToString]|].
  unfold key_verify. destruct (DecodeString token) as [k|]; [|done].
  destruct (String.length k =? KeySize); [|done]. cbn [negb].
  case_bool_decide; [done|]. destruct (_ && _) eqn:Hf; [|done]. intros _ _.
  apply andb_true_iff in Hf as [H1%N.eqb_eq H2%N.ltb_lt]. split; [done|]. exists k. split; [done|].
  split; [done|lia].
Qed.

Lemma key_verify_spec_witness :
  key_verify (sha256 "key") (key_issue (sha256 "key")) (demo_request ∅) = (VerifyResultOK, None).
Proof. apply (key_verify_spec (sha256 "key") "" (demo_request ∅)). apply length_sha256. Defined.

(** * The verify handler *)

Lemma challenge_key_id st reg t x d r :
  GetChallengeKeyForRequest st reg t (set_Id x d) r = GetChallengeKeyForRequest st reg t d r.
Proof. by destruct d. Qed.

Lemma GetVerifyInformation_Ok r reg id redirect token :
  GetVerifyInformation r reg = Ok (id, redirect, token) →
  values_Get (URL_Query (rq_URL r)) QueryArgChallenge = reg_Name reg ∧
  token = values_Get (URL_Query (rq_URL r)) QueryArgToken.
Proof.
  unfold GetVerifyInformation. case_bool_decide; [|done]. cbn [negb].
  destruct (decode_request_id _); [|done]. simpl. destruct (EnsureNoOpenRedirect _); [|done].
  simpl. by intros [= <- <- <-].
Qed.

(** Issuing a token: a panic on a nil map, and otherwise one more token. *)
Lemma issue_token_run reg key token until w :
  match rd_ChallengeMap (wd_Data w) with
  | None => proofs_of (world_of (IssueChallengeToken reg key token until true w)) = proofs_of w ∧
      value_of (IssueChallengeToken reg key token until true w) = None
  | Some m => ∃ w' iat, IssueChallengeToken reg key token until true w = Ret () w' ∧
      wd_Req w' = wd_Req w ∧ wd_W w' = wd_W w ∧ wd_clock w' = wd_clock w ∧
      wd_Data w' = set_MapModified true (set_ChallengeMap
        (Some (<[reg_Name reg := mkTokenChallenge key token true (Time_Unix until) 0 iat]> m)) (wd_Data w))
  end.
Proof.
  destruct w as [[] ? ? ? ? ? ? ? ? ?]; cbn. unfold IssueChallengeToken. simpl negb. cbn iota.
  destruct rd_ChallengeMap; cbn; [|done]. by do 2 eexists.
Qed.

Section verify.
  Context `{Jose} (st : State).

Lemma proofless_response v e redirect : proofless (VerifyHandlerChallengeResponseFunc st v e redirect).
Proof. unfold VerifyHandlerChallengeResponseFunc. steady. Qed.

Lemma proofless_set_Id x : proofless (upd_data (set_Id x)).
Proof. by apply proofless_upd_data; intros []. Qed.

(** The inner function of the handler: its proofs, and when it gives an error. *)
Lemma verify_and_issue_run reg verify (resp : ResponseFunc) redirect token w :
  (∀ v e redirect, proofless (resp v e redirect)) →
  let d := wd_Data w in
  let expiration := Expiration d (reg_Duration reg) in
  let key := GetChallengeKeyForRequest st reg expiration d (wd_Req w) in
  let w' := world_of (verify_and_issue st reg verify resp redirect token w) in
  wd_Req w' = wd_Req w ∧
  (proofs_of w' = proofs_of w ∨
   verify key token (wd_Req w) = (VerifyResultOK, None) ∧
   (∀ e, value_of (verify_and_issue st reg verify resp redirect token w) ≠ Some (Some e)) ∧
   ∃ m iat, rd_ChallengeMap d = Some m ∧
     proofs_of w' = (Some (<[reg_Name reg := mkTokenChallenge key token true (Time_Unix expiration) 0 iat]> m),
                     <[reg_id reg := VerifyResultOK]> (rd_ChallengeVerify d), rd_ChallengeState d)).
Proof.
  intros Hresp d expiration key w'.
  assert (Ht : ∀ v, proofless (resp v None redirect;; @ret (option goerr) None)) by (steady; apply Hresp).
  subst w'. unfold verify_and_issue. rewrite bind_run. cbn [get_data]. rewrite bind_run. cbn [get_req].
  fold d expiration key. destruct (verify key token (wd_Req w)) as [v [err|]]; [by split; [|left]|].
  destruct (VerifyResult_Ok v) eqn:Hok; cbn [negb].
  2:{ assert (Hp : proofless (ChallengeFailed reg None redirect;; resp v None redirect;; @ret (option goerr) None)).
      { steady. }
      destruct (Hp w) as [? ?]. split; [done|by left]. }
  apply VerifyResult_Ok_iff in Hok as ->. rewrite bind_run.
  pose proof (issue_token_run reg key token expiration w) as Hi. fold d in Hi.
  destruct (rd_ChallengeMap d) as [m|].
  - destruct Hi as (w1 & iat & -> & Hreq & _ & _ & Hp1). rewrite bind_run. cbn [upd_data].
    set (w2 := with_data _ w1).
    assert (Hp : proofless (ChallengePassed reg redirect;; resp VerifyResultOK None redirect;; @ret (option goerr) None)).
    { steady. }
    destruct (Hp w2) as [Hp2 Hr2]. split; [by rewrite Hr2|]. right. split; [done|]. split.
    + intros e. rewrite bind_run. destruct (ChallengePassed _ _ _); [|done]. rewrite bind_run.
      by destruct (resp _ _ _ _).
    + exists m, iat. split; [done|]. rewrite Hp2. subst w2 d. unfold proofs_of.
      cbn [wd_Data with_data]. rewrite Hp1. by destruct (wd_Data w).
  - destruct (IssueChallengeToken _ _ _ _ _ w) as [|e w1] eqn:Hw; simpl in *; [by destruct Hi|].
    destruct Hi as [Hp _]. split; [|by left].
    pose proof (steady_IssueChallengeToken reg key token expiration true w) as (_ & Hs & _). by rewrite Hw in Hs.
Qed.

End verify.

(** C10: The verify handler records a proof only for a token its verifier accepts:
    whatever the request, if the run changes the tokens or the results of the
    challenges, the request names this challenge, the verifier accepted the
    request's token for the request's key without an error (so, for a key
    verifier, the token spells the key), and what is recorded is exactly that
    token, bound to that key until its expiry, and the result. *)
Theorem verify_handler_sound `{Jose} (st : State) (reg : Registration) (verify : VerifyFunc)
    (responseFunc : ResponseFunc) (w : World)
    (Hresp : ∀ v e redirect, proofless (responseFunc v e redirect))
    (Hnew : proofs_of (world_of (VerifyHandlerFunc st reg (Some verify) (Some responseFunc) w)) ≠ proofs_of w) :
  let d := wd_Data w in let r := wd_Req w in
  let expiration := Expiration d (reg_Duration reg) in
  let key := GetChallengeKeyForRequest st reg expiration d r in
  let token := values_Get (URL_Query (rq_URL r)) QueryArgToken in
  values_Get (URL_Query (rq_URL r)) QueryArgChallenge = reg_Name reg ∧
  verify key token r = (VerifyResultOK, None) ∧
  ∃ m iat, rd_ChallengeMap d = Some m ∧
    proofs_of (world_of (VerifyHandlerFunc st reg (Some verify) (Some responseFunc) w)) =
      (Some (<[reg_Name reg := mkTokenChallenge key token true (Time_Unix expiration) 0 iat]> m),
       <[reg_id reg := VerifyResultOK]> (rd_ChallengeVerify d), rd_ChallengeState d).
Proof.
  cbv zeta. revert Hnew. unfold VerifyHandlerFunc. cbn [from_option id]. rewrite bind_run. cbn [get_req].
  destruct (GetVerifyInformation _ reg) as [[[id redirect] token]|e] eqn:Hg.
  2:{ assert (Hp : proofless (ChallengeFailed reg (Some e) "";;
        responseFunc VerifyResultFail (Some (EWrap "internal error: " e)) "")) by (steady; apply Hresp).
      destruct (Hp w) as [-> _]. done. }
  apply GetVerifyInformation_Ok in Hg as [Hname ->].
  rewrite bind_run. cbn [upd_data]. set (w1 := with_data _ w). rewrite bind_run.
  set (token := values_Get _ _).
  pose proof (verify_and_issue_run st reg verify responseFunc redirect token w1 Hresp) as [_ Hrun].
  assert (Hw1 : proofs_of w1 = proofs_of w ∧ wd_Req w1 = wd_Req w) by apply (proofless_set_Id id w).
  assert (Hd : ∀ t, GetChallengeKeyForRequest st reg t (wd_Data w1) (wd_Req w1) =
    GetChallengeKeyForRequest st reg t (wd_Data w) (wd_Req w)).
  { intros t. subst w1. apply challenge_key_id. }
  assert (Hx : ∀ dur, Expiration (wd_Data w1) dur = Expiration (wd_Data w) dur)
    by (intros dur; subst w1; cbn; by destruct (wd_Data w)).
  assert (Hm : rd_ChallengeMap (wd_Data w1) = rd_ChallengeMap (wd_Data w) ∧
    rd_ChallengeVerify (wd_Data w1) = rd_ChallengeVerify (wd_Data w) ∧
    rd_ChallengeState (wd_Data w1) = rd_ChallengeState (wd_Data w)).
  { destruct Hw1 as [Hw1 _]. unfold proofs_of in Hw1. by simplify_eq. }
  destruct Hm as (Hm1 & Hm2 & Hm3). rewrite Hx, Hd, Hm1, Hm2, Hm3 in Hrun. destruct Hw1 as [Hw1 Hreq].
  rewrite Hreq in Hrun.
  destruct (verify_and_issue _ _ _ _ _ _ w1) as [[err|] w2|]; cbn [world_of value_of ret] in *.
  - assert (Hp : proofless (ChallengeFailed reg (Some err) redirect;; responseFunc VerifyResultFail
      (Some (EWrap ("access denied: error in challenge " +:+ reg_Name reg +:+ ": ") err)) redirect))
      by (steady; apply Hresp).
    destruct (Hp w2) as [-> _]. destruct Hrun as [->|(_ & Hne & _)]; [by rewrite Hw1|by edestruct Hne].
  - intros Hnew. destruct Hrun as [He|(Hv & _ & m & iat & Hm & Hp)]; [by rewrite He, Hw1 in Hnew|].
    split; [done|]. split; [done|]. by exists m, iat.
  - intros Hnew. destruct Hrun as [He|(Hv & _ & m & iat & Hm & Hp)]; [by rewrite He, Hw1 in Hnew|].
    split; [done|]. split; [done|]. by exists m, iat.
Qed.

Definition demo_gate : Registration := demo_registration 1%Z "gate".

Definition demo_gate_key : Key :=
  GetChallengeKeyForRequest demo_server demo_gate
    (Expiration (wd_Data (demo_visit "")) DefaultDuration) (wd_Data (demo_visit "")) (wd_Req (demo_visit "")).

(** The client of [demo_visit] comes back with the token of its key. *)
Definition demo_return : World :=
  with_req (followed demo_gate (key_issue demo_gate_key) (demo_visit "")) (demo_visit "").

Lemma verify_handler_sound_witness :
  values_Get (URL_Query (rq_URL (wd_Req demo_return))) QueryArgChallenge = "gate".
Proof.
  apply (verify_handler_sound demo_server demo_gate key_verify
    (VerifyHandlerChallengeResponseFunc demo_server) demo_return).
  - intros v e redirect. apply proofless_response.
  - intros Heq. apply (f_equal (λ p, p.1.2 !! 1%Z)) in Heq. vm_compute in Heq. discriminate Heq.
Defined.
