(* ===== verification/DataProps.v ===== *)
(** Properties of [Data.v]: soundness and completeness of challenge verification,
    independence of the iteration order, expiry bounds, header safety. *)

From S2P Require Import Prelude GoStrings GoCrypto GoTime NetAddr GoURL Mime Hex UtilsHttp.
From S2P Require Import GoNetip Types Cookie Register State Key Data JoseDemo Effects.
From stdpp Require Import options.

Local Open Scope handler_scope.

(** * Frames *)

(** [w] after more readings of the clock and the random source. *)
Definition advance (w : World) (n k : nat) : World :=
  mkWorld (wd_Data w) (wd_Req w) (wd_W w) (wd_Trace w) (wd_Tags w) (wd_Dnsbl w) (wd_clock w) n (wd_rand w) k.

(** What evaluating challenges leaves alone: everything but the readings, the
    verification maps, the cookie status, and the token map, which only shrinks. *)
Record stable (w w' : World) : Prop := {
  sb_req : wd_Req w' = wd_Req w;
  sb_w : wd_W w' = wd_W w;
  sb_trace : wd_Trace w' = wd_Trace w;
  sb_clock : wd_clock w' = wd_clock w;
  sb_rand : wd_rand w' = wd_rand w;
  sb_time : rd_Time (wd_Data w') = rd_Time (wd_Data w);
  sb_addr : rd_RemoteAddress (wd_Data w') = rd_RemoteAddress (wd_Data w);
  sb_name : rd_cookieName (wd_Data w') = rd_cookieName (wd_Data w);
  sb_issued : rd_issuedChallenge (wd_Data w') = rd_issuedChallenge (wd_Data w);
  sb_query : rd_query (wd_Data w') = rd_query (wd_Data w);
  sb_fp : rd_fp (wd_Data w') = rd_fp (wd_Data w);
  sb_map : default ∅ (rd_ChallengeMap (wd_Data w')) ⊆ default ∅ (rd_ChallengeMap (wd_Data w)) }.

(** The tokens of the other challenges stay. *)
Definition keeps_other (reg : Registration) (w w' : World) : Prop :=
  ∀ name, name ≠ reg_Name reg →
    default ∅ (rd_ChallengeMap (wd_Data w')) !! name = default ∅ (rd_ChallengeMap (wd_Data w)) !! name.

Lemma keeps_other_trans reg w1 w2 w3 :
  keeps_other reg w1 w2 → keeps_other reg w2 w3 → keeps_other reg w1 w3.
Proof. intros H12 H23 name Hne. by rewrite H23, H12. Qed.

Lemma keeps_other_eq reg w w' :
  rd_ChallengeMap (wd_Data w') = rd_ChallengeMap (wd_Data w) → keeps_other reg w w'.
Proof. intros Heq name _. by rewrite Heq. Qed.

#[export] Instance stable_preorder : PreOrder stable.
Proof.
  split; [by intros w; split|].
  intros w1 w2 w3 [] []. split; try congruence. by etrans.
Qed.

(** The readings of the clock and random source of a world. *)
Definition reading (w : World) (t : Time) : Prop := ∃ n, wd_clock w n = t.

Lemma stable_reading w w' t : stable w w' → reading w' t → reading w t.
Proof. intros Hs [n <-]. exists n. by rewrite (sb_clock _ _ Hs). Qed.

Lemma stable_key fp reg hs w w' :
  stable w w' →
  getChallengeKeyForRequest fp reg hs (Expiration (wd_Data w') (reg_Duration reg)) (wd_Data w') (wd_Req w') =
  getChallengeKeyForRequest fp reg hs (Expiration (wd_Data w) (reg_Duration reg)) (wd_Data w) (wd_Req w).
Proof.
  intros []. unfold getChallengeKeyForRequest, key_preimage, NetworkPrefix, Expiration.
  by rewrite sb_req0, sb_addr0, sb_time0.
Qed.

Section props.
  Context `{Jose} (st : State).

(** ** Acceptance of a token *)

(** The token is acceptable for the key [key] to a request seen in [w]: not
    expired and not too early at some readings of the clock, bound to the key, and
    either marked passed or verified anew. *)
Definition token_ok (w : World) (reg : Registration) (token : TokenChallenge) (key : Key) : Prop :=
  (∃ t, reading w t ∧ (t ≤ jose_Time (tc_Expiry token))%Z) ∧
  (∃ t, reading w t ∧ (jose_Time (tc_NotBefore token) ≤ t)%Z) ∧
  tc_Key token = key ∧
  (tc_Ok token = true ∨
   ∃ verify, reg_Verify reg = Some verify ∧ verify key (tc_Result token) (wd_Req w) = (VerifyResultOK, None)).

(** The key of the request for a challenge, or the one under its legacy headers. *)
Definition request_key (w : World) (reg : Registration) (key : Key) : Prop :=
  key = GetChallengeKeyForRequest st reg (Expiration (wd_Data w) (reg_Duration reg)) (wd_Data w) (wd_Req w) ∨
  reg_LegacyKeyHeaders reg ≠ [] ∧
  key = getChallengeKeyForRequest (st_privateKeyFingerprint st) reg (reg_LegacyKeyHeaders reg)
          (Expiration (wd_Data w) (reg_Duration reg)) (wd_Data w) (wd_Req w).

Lemma stable_token_ok w w' reg token key :
  stable w w' → token_ok w' reg token key ↔ token_ok w reg token key.
Proof.
  intros Hs. unfold token_ok, reading. by rewrite (sb_req _ _ Hs), (sb_clock _ _ Hs).
Qed.

Lemma stable_request_key w w' reg key : stable w w' → request_key w' reg key → request_key w reg key.
Proof.
  intros Hs. unfold request_key, GetChallengeKeyForRequest. by rewrite !(stable_key _ _ _ _ _ Hs).
Qed.

(** What a verification outcome promises. *)
Definition outcome_ok (w : World) (reg : Registration) (token : TokenChallenge) (key : Key)
    (res : VerifyResult * VerifyState * option goerr) : Prop :=
  (VerifyResult_Ok res.1.1 = true →
    res.2 = None ∧ res.1.2 ≠ VerifyStateNone ∧ token_ok w reg token key).

Lemma outcome_ok_bad w reg token key res :
  VerifyResult_Ok res.1.1 = false → outcome_ok w reg token key res.
Proof. unfold outcome_ok. by intros ->. Qed.

Lemma VerifyChallengeToken_run reg token key w :
  ∃ res n k, VerifyChallengeToken reg token key w = Ret res (advance w n k) ∧
    outcome_ok w reg token key res.
Proof.
  destruct w as [d r rw tr tg db c tick ra draw].
  set (w := mkWorld d r rw tr tg db c tick ra draw).
  unfold VerifyChallengeToken, bind, now, ret, float64, get_req. cbn.
  destruct (Z.ltb_spec (Time_Compare (jose_Time (tc_Expiry token)) (c tick)) 0) as [|He].
  { eexists _, _, _. split; [reflexivity|by apply outcome_ok_bad]. }
  cbn. destruct (Z.ltb_spec 0 (Time_Compare (jose_Time (tc_NotBefore token)) (c (S tick)))) as [|Hn].
  { eexists _, _, _. split; [reflexivity|by apply outcome_ok_bad]. }
  case_bool_decide as Hk; [|by eexists _, _, _; split; [reflexivity|apply outcome_ok_bad]].
  cbn [negb].
  assert (Hok : ∀ P, P → (∃ t, reading w t ∧ (t ≤ jose_Time (tc_Expiry token))%Z) ∧
    (∃ t, reading w t ∧ (jose_Time (tc_NotBefore token) ≤ t)%Z) ∧ tc_Key token = key ∧ P).
  { intros P HP. split; [|split; [|done]]; eexists; (split; [eexists; reflexivity|]).
    - cbn. destruct (Z.le_gt_cases (c tick) (jose_Time (tc_Expiry token))) as [Hle|Hlt]; [exact Hle|].
      apply Time_Compare_lt in Hlt. lia.
    - cbn. destruct (Z.le_gt_cases (jose_Time (tc_NotBefore token)) (c (S tick))) as [Hle|Hlt]; [exact Hle|].
      apply Time_Compare_gt in Hlt. lia. }
  assert (Hbrief : outcome_ok w reg token key
    (if tc_Ok token then (VerifyResultOK, VerifyStateBrief, None)
     else (VerifyResultNotOK, VerifyStateBrief, None))).
  { destruct (tc_Ok token) eqn:Ht; [|done]. intros _. split; [done|]. split; [done|].
    apply Hok. by left. }
  destruct (reg_Verify reg) as [verify|] eqn:Hv; [|by eexists _, _, _; split; [reflexivity|]].
  cbn. destruct (SFltb _ _); [|by eexists _, _, _; split; [reflexivity|]]. cbn.
  eexists _, _, _. split; [reflexivity|].
  cbn. destruct (verify key (tc_Result token) r) as [ok [e|]] eqn:Hver; [done|].
  case_bool_decide; [done|]. destruct (VerifyResult_Ok ok) eqn:Ho; simpl.
  - intros _. split; [done|]. split; [done|]. apply Hok. right. exists verify. split; [done|].
    apply VerifyResult_Ok_iff in Ho as ->. done.
  - unfold outcome_ok. simpl. by rewrite Ho.
Qed.

Lemma advance_stable w n k : stable w (advance w n k).
Proof. by split. Qed.

Lemma verify_legacy_run reg token res w key :
  request_key w reg key → outcome_ok w reg token key res →
  ∃ res' n k key', verify_legacy st reg token res w = Ret res' (advance w n k) ∧
    request_key w reg key' ∧ outcome_ok w reg token key' res'.
Proof.
  intros Hkey Hres. unfold verify_legacy. destruct (err_is _ _ && _) eqn:Hl.
  - apply andb_true_iff in Hl as [_ Hl%Nat.ltb_lt]. unfold bind, get_data, get_req. cbn.
    set (k' := getChallengeKeyForRequest _ _ _ _ _ _).
    destruct (VerifyChallengeToken_run reg token k' w) as (res' & n & k & Heq & Hok).
    exists res', n, k, k'. split; [done|]. split; [|done]. right. split; [|done].
    intros Hnil. rewrite Hnil in Hl. simpl in Hl. lia.
  - exists res, (wd_tick w), (wd_draw w), key. split; [by destruct w|]. by split.
Qed.

(** [ClearChallengeToken] and [verify_issued] change nothing else. *)
Lemma ClearChallengeToken_run reg w :
  ∃ w', ClearChallengeToken reg w = Ret () w' ∧ stable w w' ∧
    rd_ChallengeVerify (wd_Data w') = rd_ChallengeVerify (wd_Data w) ∧
    rd_ChallengeState (wd_Data w') = rd_ChallengeState (wd_Data w) ∧
    keeps_other reg w w'.
Proof.
  eexists. split; [reflexivity|]. destruct w as [[] r rw tr tg db c t ra dr]. simpl.
  split; [|do 2 (split; [done|])].
  - split; try done. simpl.
    match goal with |- default ∅ (_ <$> ?m) ⊆ _ => destruct m; simpl; [apply delete_subseteq|done] end.
  - intros name Hne. simpl.
    match goal with |- default ∅ (_ <$> ?m) !! _ = _ => destruct m; simpl; [|done] end.
    by rewrite lookup_delete_ne.
Qed.

Lemma verify_issued_run reg res w key token :
  outcome_ok w reg token key res →
  ∃ res', verify_issued reg res w = Ret res' w ∧ outcome_ok w reg token key res'.
Proof.
  intros Hres. unfold verify_issued, bind, get_data, ret. cbn.
  destruct (negb _ && _); eexists; (split; [reflexivity|]); [|done]. done.
Qed.

(** What running a verification guarantees. *)
Lemma verifyChallenge_run reg w :
  let key := GetChallengeKeyForRequest st reg (Expiration (wd_Data w) (reg_Duration reg))
               (wd_Data w) (wd_Req w) in
  ∃ res w', verifyChallenge st reg key w = Ret res w' ∧ stable w w' ∧ keeps_other reg w w' ∧
    rd_ChallengeVerify (wd_Data w') = rd_ChallengeVerify (wd_Data w) ∧
    rd_ChallengeState (wd_Data w') = rd_ChallengeState (wd_Data w) ∧
    (VerifyResult_Ok res.1.1 = true → res.2 = None ∧ res.1.2 ≠ VerifyStateNone ∧
      ∃ token key', default ∅ (rd_ChallengeMap (wd_Data w)) !! reg_Name reg = Some token ∧
        request_key w reg key' ∧ token_ok w reg token key').
Proof.
  intros key. unfold verifyChallenge. unfold bind at 1. cbn [get_data].
  destruct (default ∅ (rd_ChallengeMap (wd_Data w)) !! reg_Name reg) as [token|] eqn:Ht.
  2:{ unfold verify_issued, bind, get_data, ret. cbn.
      destruct (bool_decide _); eexists _, _; (split; [reflexivity|]); (split; [done|]); by repeat split. }
  destruct (VerifyChallengeToken_run reg token key w) as (res1 & n1 & k1 & Hr1 & Ho1).
  unfold bind at 1. rewrite Hr1.
  destruct (verify_legacy_run reg token res1 (advance w n1 k1) key) as (res2 & n2 & k2 & key2 & Hr2 & Hk2 & Ho2);
    [by left|done|].
  unfold bind at 1. rewrite Hr2. cbn [fst snd].
  set (w2 := advance (advance w n1 k1) n2 k2) in *.
  assert (∃ w3, (if bool_decide (res2.2 ≠ None) && negb (err_is res2.2 ErrNoCookie)
     then ClearChallengeToken reg else ret ()) w2 = Ret () w3 ∧ stable w w3 ∧ keeps_other reg w w3 ∧
     rd_ChallengeVerify (wd_Data w3) = rd_ChallengeVerify (wd_Data w) ∧
     rd_ChallengeState (wd_Data w3) = rd_ChallengeState (wd_Data w)) as (w3 & Hr3 & Hs3 & Hko3 & Hv3 & Hst3).
  { destruct (bool_decide _ && _).
    - destruct (ClearChallengeToken_run reg w2) as (w3 & ? & Hs & ? & ? & ?). exists w3.
      split; [done|]. split; [|done]. etrans; [|exact Hs]. by split.
    - exists w2. split; [done|]. split; [by split|done]. }
  unfold bind at 1. rewrite Hr3. unfold bind at 1 2. cbn [get_data get_req].
  destruct (negb _ && _).
  { eexists _, _. split; [reflexivity|]. done. }
  destruct (verify_issued_run reg res2 w3 key2 token) as (res' & Hr' & Ho').
  { unfold outcome_ok. by rewrite (stable_token_ok _ _ _ _ _ Hs3). }
  exists res', w3. split; [done|]. do 4 (split; [done|]). intros Hok.
  destruct (Ho' Hok) as (? & ? & Htok). split; [done|]. split; [done|].
  exists token, key2. split; [done|]. split; [exact Hk2|]. by rewrite <-(stable_token_ok _ _ _ _ _ Hs3).
Qed.

(** A registration is accepted by the token map of a world. *)
Definition accepted (w : World) (reg : Registration) : Prop :=
  ∃ token key, default ∅ (rd_ChallengeMap (wd_Data w)) !! reg_Name reg = Some token ∧
    request_key w reg key ∧ token_ok w reg token key.

Lemma stable_accepted w w' reg : stable w w' → accepted w' reg → accepted w reg.
Proof.
  intros Hs (token & key & Ht & Hk & Hok). exists token, key.
  split; [by eapply lookup_weaken, sb_map|]. split; [by eapply stable_request_key|].
  by apply (stable_token_ok _ _ _ _ _ Hs).
Qed.

Lemma if_clear_run reg w (b : bool) :
  ∃ w', (if b then ClearChallengeToken reg else ret ()) w = Ret () w' ∧ stable w w' ∧ keeps_other reg w w' ∧
    rd_ChallengeVerify (wd_Data w') = rd_ChallengeVerify (wd_Data w) ∧
    rd_ChallengeState (wd_Data w') = rd_ChallengeState (wd_Data w).
Proof.
  destruct b; [|by exists w].
  destruct (ClearChallengeToken_run reg w) as (w' & ? & ? & ? & ? & ?). by exists w'.
Qed.

Lemma evaluate_one_run reg w :
  ∃ w' v s, evaluate_one st reg w = Ret () w' ∧ stable w w' ∧ keeps_other reg w w' ∧
    rd_ChallengeVerify (wd_Data w') = <[reg_id reg := v]> (rd_ChallengeVerify (wd_Data w)) ∧
    rd_ChallengeState (wd_Data w') = <[reg_id reg := s]> (rd_ChallengeState (wd_Data w)) ∧
    (VerifyResult_Ok v = true → s ≠ VerifyStateNone ∧ accepted w reg).
Proof.
  unfold evaluate_one. unfold bind at 1 2. cbn [get_data get_req].
  destruct (verifyChallenge_run reg w) as (res & w1 & Hr & Hs1 & Hko1 & Hv1 & Hst1 & Hok).
  unfold bind at 1. rewrite Hr. clear Hr. unfold bind at 1. unfold upd_data at 1.
  set (w2 := with_data _ w1).
  assert (stable w w2 ∧ keeps_other reg w w2 ∧
    rd_ChallengeVerify (wd_Data w2) = rd_ChallengeVerify (wd_Data w) ∧
    rd_ChallengeState (wd_Data w2) = rd_ChallengeState (wd_Data w)) as (Hs2 & Hko2 & Hv2 & Hst2).
  { rewrite <-Hv1, <-Hst1. subst w2. destruct w1 as [[] ? ? ? ? ? ? ? ? ?]. simpl in *.
    split; [|done]. etrans; [exact Hs1|]. by split. }
  destruct (if_clear_run reg w2 (bool_decide (res.2 ≠ None))) as (w3 & Hr3 & Hs3 & Hko3 & Hv3 & Hst3).
  unfold bind at 1. rewrite Hr3. exists (with_data (upd_State (λ m, <[reg_id reg := res.1.2]> m)
    (upd_Verify (λ m, <[reg_id reg := res.1.1]> m) (wd_Data w3))) w3), res.1.1, res.1.2.
  rewrite Hv2 in Hv3. rewrite Hst2 in Hst3. rewrite <-Hv3, <-Hst3.
  assert (stable w w3) as Hs by (by etrans). pose proof (keeps_other_trans _ _ _ _ Hko2 Hko3) as Hko.
  clear -Hs Hok Hko.
  destruct w3 as [[] ? ? ? ? ? ? ? ? ?]. simpl in *. split; [reflexivity|].
  split; [etrans; [exact Hs|]; by split|]. do 3 (split; [done|]).
  intros Ho. destruct (Hok Ho) as (_ & ? & ?). done.
Qed.

Lemma evaluate_all_run regs w :
  NoDup (reg_id <$> regs) →
  ∃ w', evaluate_all st regs w = Ret () w' ∧ stable w w' ∧
    (∀ reg, reg ∈ regs → HasValidChallenge (wd_Data w') (reg_id reg) = true →
      rd_state (wd_Data w') (reg_id reg) ≠ VerifyStateNone ∧ accepted w reg) ∧
    (∀ id, id ∉ reg_id <$> regs →
      rd_ChallengeVerify (wd_Data w') !! id = rd_ChallengeVerify (wd_Data w) !! id ∧
      rd_ChallengeState (wd_Data w') !! id = rd_ChallengeState (wd_Data w) !! id).
Proof.
  revert w. induction regs as [|reg regs IH]; intros w Hnd.
  { exists w. split; [done|]. split; [done|]. split; [by intros ? ?%elem_of_nil|done]. }
  apply NoDup_cons in Hnd as [Hid Hnd]. simpl.
  destruct (evaluate_one_run reg w) as (w1 & v & s & Hr1 & Hs1 & _ & Hv1 & Hst1 & Hok1).
  destruct (IH w1 Hnd) as (w2 & Hr2 & Hs2 & Hok2 & Hother).
  exists w2. unfold bind. rewrite Hr1, Hr2. split; [done|]. split; [by etrans|]. split.
  - intros reg' [->|Hin]%elem_of_cons Hval.
    + unfold HasValidChallenge, rd_verify, rd_state in *.
      destruct (Hother _ Hid) as [Hv2 Hst2]. rewrite Hv2, Hv1, lookup_insert_eq in Hval.
      rewrite Hst2, Hst1, lookup_insert_eq. simpl in *. auto.
    + destruct (Hok2 _ Hin Hval) as [? ?]. split; [done|]. by eapply stable_accepted.
  - intros id Hnin. apply not_elem_of_cons in Hnin as [Hne Hnin].
    destruct (Hother _ Hnin) as [-> ->]. by rewrite Hv1, Hst1, !lookup_insert_ne.
Qed.

(** ** The state cookie *)

(** Token map [m] comes from an authentic state cookie of the request: one of the
    state's name that decrypts under the key of host and network, verifies under
    the server's key, and is valid at readings of the clock. *)
Definition authentic (w : World) (m : TokenChallengeMap) : Prop :=
  ∃ cookie e sg t, cookie ∈ rq_Cookies (wd_Req w) ∧ ck_Name cookie = rd_cookieName (wd_Data w) ∧
    jose_Parse (ck_Value cookie) = Ok e ∧
    jose_Decrypt e (cookieKey st (rq_Host (wd_Req w)) (wd_Data w)) = Ok sg ∧
    jose_Claims sg (st_publicKey st) = Ok t ∧ tok_State t = m ∧
    (∃ u, reading w u ∧ (u ≤ jose_Time (tok_Expiry t))%Z) ∧
    (∃ u, reading w u ∧ (jose_Time (tok_NotBefore t) ≤ u)%Z).

Lemma compare_ge a b : ¬ (Time_Compare a b < 0)%Z → (b ≤ a)%Z.
Proof. rewrite Time_Compare_lt. lia. Qed.
Lemma compare_le a b : ¬ (0 < Time_Compare a b)%Z → (a ≤ b)%Z.
Proof. intros Hc. pose proof (Time_Compare_gt a b). lia. Qed.

Lemma verifyChallengeStateCookie_run cookie w :
  cookie ∈ rq_Cookies (wd_Req w) → ck_Name cookie = rd_cookieName (wd_Data w) →
  ∃ res n, verifyChallengeStateCookie st (Some cookie) w = Ret res (advance w n (wd_draw w)) ∧
    ∀ m, res = Ok m → authentic w m.
Proof.
  intros Hin Hname. destruct w as [d r rw tr tg db c tick ra draw]. cbn in *.
  unfold bind, get_data, get_req, now, ret. cbn.
  destruct (jose_Parse _) as [e|] eqn:Hp; cbn; [|by eexists _, tick].
  destruct (jose_Decrypt _ _) as [sg|] eqn:Hd; cbn; [|by eexists _, tick].
  destruct (jose_Claims _ _) as [i|] eqn:Hc; cbn; [|by eexists _, tick].
  destruct (Z.ltb_spec (Time_Compare (jose_Time (tok_Expiry i)) (c tick)) 0) as [|He];
    [by eexists _, (S tick)|]. cbn.
  destruct (Z.ltb_spec 0 (Time_Compare (jose_Time (tok_NotBefore i)) (c (S tick)))) as [|Hn];
    [by eexists _, (S (S tick))|].
  eexists _, (S (S tick)). split; [reflexivity|]. intros m Hm. simplify_eq.
  exists cookie, e, sg, i. cbn. do 6 (split; [done|]).
  split.
  - exists (c tick). split; [by exists tick|]. apply compare_ge. lia.
  - exists (c (S tick)). split; [by exists (S tick)|]. apply compare_le. lia.
Qed.

Lemma state_loop_run cookies last w :
  (∀ c, c ∈ cookies → c ∈ rq_Cookies (wd_Req w) ∧ ck_Name c = rd_cookieName (wd_Data w)) →
  (∀ m, last = Ok m → authentic w m) →
  ∃ res n, state_loop st cookies last w = Ret res (advance w n (wd_draw w)) ∧
    ∀ m, res = Ok m → authentic w m.
Proof.
  revert last w. induction cookies as [|c cookies IH]; intros last w Hc Hl; cbn [state_loop].
  { exists last, (wd_tick w). split; [by destruct w|done]. }
  destruct (Hc c ltac:(by left)) as [Hin Hname].
  destruct (verifyChallengeStateCookie_run c w Hin Hname) as (res & n & Hr & Hok).
  destruct res as [m|e].
  - exists (Ok m), n. split; [|done]. unfold bind. by rewrite Hr.
  - destruct (IH (Err e) (advance w n (wd_draw w))) as (res & n' & Hr' & Hok'); [|done|].
    + intros c' Hc'. apply (Hc c'). by right.
    + exists res, n'. split; [|exact Hok']. unfold bind. by rewrite Hr.
Qed.

Lemma verifyChallengeState_run w :
  ∃ res n, verifyChallengeState st w = Ret res (advance w n (wd_draw w)) ∧
    ∀ m, res = Ok m → authentic w m.
Proof.
  unfold verifyChallengeState, bind, get_data, get_req. cbn. apply state_loop_run; [|done].
  intros c Hc. apply list_elem_of_filter in Hc as [? ?]. done.
Qed.

(** ** [EvaluateChallenges] *)

(** A challenge is proven to the proxy in [w]: an authentic state cookie holds a
    token for it that is acceptable for the key of the request. *)
Definition proven (w : World) (reg : Registration) : Prop :=
  ∃ m token key, authentic w m ∧ default ∅ m !! reg_Name reg = Some token ∧
    request_key w reg key ∧ token_ok w reg token key.

(** The fields of a world its token map and verification maps have no part in. *)
Record same_request (w w' : World) : Prop := {
  sr_req : wd_Req w' = wd_Req w;
  sr_w : wd_W w' = wd_W w;
  sr_trace : wd_Trace w' = wd_Trace w;
  sr_clock : wd_clock w' = wd_clock w;
  sr_time : rd_Time (wd_Data w') = rd_Time (wd_Data w);
  sr_addr : rd_RemoteAddress (wd_Data w') = rd_RemoteAddress (wd_Data w);
  sr_facts : data_facts (wd_Data w') = data_facts (wd_Data w) }.

Lemma load_state_run (res : result TokenChallengeMap) w :
  ∃ w', (match res with
         | Err e => upd_data (set_cookieStatus (challengeStateErrorCategory e));;
                    upd_data (set_ChallengeMap (Some ∅))
         | Ok m => upd_data (set_cookieStatus "valid");; upd_data (set_ChallengeMap m)
         end) w = Ret () w' ∧ same_request w w' ∧
    rd_ChallengeVerify (wd_Data w') = rd_ChallengeVerify (wd_Data w) ∧
    rd_ChallengeState (wd_Data w') = rd_ChallengeState (wd_Data w) ∧
    rd_ChallengeMap (wd_Data w') = match res with Ok m => m | Err _ => Some ∅ end.
Proof. destruct w as [[] ? ? ? ? ? ? ? ? ?], res; eexists; split; try reflexivity; by repeat split. Qed.

Lemma same_request_stable w w1 w2 : same_request w w1 → stable w1 w2 → same_request w w2.
Proof. intros [] []. unfold data_facts in *. split; try congruence. unfold data_facts. congruence. Qed.

Lemma same_request_key w w' reg key :
  same_request w w' → request_key w' reg key → request_key w reg key.
Proof.
  intros []. unfold request_key, GetChallengeKeyForRequest, getChallengeKeyForRequest, key_preimage,
    NetworkPrefix, Expiration. by rewrite sr_req0, sr_time0, sr_addr0.
Qed.

Lemma same_request_token w w' reg token key :
  same_request w w' → token_ok w' reg token key → token_ok w reg token key.
Proof. intros []. unfold token_ok, reading. by rewrite sr_req0, sr_clock0. Qed.

Lemma EvaluateChallenges_run regs w :
  NoDup (reg_id <$> regs) → rd_ChallengeVerify (wd_Data w) = ∅ →
  ∃ w', EvaluateChallenges st regs w = Ret () w' ∧ same_request w w' ∧
    (∀ reg, reg ∈ regs → HasValidChallenge (wd_Data w') (reg_id reg) = true →
      rd_state (wd_Data w') (reg_id reg) ≠ VerifyStateNone ∧ proven w reg) ∧
    (∀ id, HasValidChallenge (wd_Data w') id = true → id ∈ reg_id <$> regs).
Proof.
  intros Hnd He. destruct (verifyChallengeState_run w) as (res & n & Hr & Hauth).
  set (w1 := advance w n (wd_draw w)) in *.
  destruct (load_state_run res w1) as (w2 & Hr2 & Hs2 & Hv2 & Hst2 & Hm2).
  destruct (evaluate_all_run regs w2 Hnd) as (w3 & Hr3 & Hs3 & Hok3 & Hother).
  assert (same_request w w2) as Hs by (destruct Hs2; split; done).
  exists w3. split; [unfold EvaluateChallenges, bind in *; by rewrite Hr, Hr2|].
  split; [by eapply same_request_stable|]. split.
  - intros reg Hin Hval. destruct (Hok3 _ Hin Hval) as [? (token & key & Ht & Hk & Hok)].
    split; [done|]. rewrite Hm2 in Ht. destruct res as [m|e]; [|by (simpl in Ht; rewrite lookup_empty in Ht)].
    exists m, token, key. split; [by apply Hauth|]. split; [done|].
    split; [by eapply same_request_key|by eapply same_request_token].
  - intros id Hval. destruct (decide (id ∈ reg_id <$> regs)) as [|Hnin]; [done|].
    destruct (Hother id Hnin) as [Hv _]. unfold HasValidChallenge, rd_verify in Hval.
    rewrite Hv, Hv2 in Hval. simpl in Hval. by rewrite He, lookup_empty in Hval.
Qed.

Lemma HasAnyValidChallenge_iff d :
  HasAnyValidChallenge d = true ↔ ∃ id, HasValidChallenge d id = true.
Proof.
  unfold HasAnyValidChallenge, HasValidChallenge, rd_verify. rewrite existsb_exists. split.
  - intros ([id v] & Hin%list_elem_of_In%elem_of_map_to_list & Hv). exists id. by rewrite Hin.
  - intros [id Hv]. destruct (rd_ChallengeVerify d !! id) as [v|] eqn:Hid; [|done].
    exists (id, v). split; [|done]. by apply list_elem_of_In, elem_of_map_to_list.
Qed.

(** ** Completeness *)

(** A token that every reading of the clock finds valid, bound to the key of the
    request, marked passed, and accepted by the verifier if there is one. *)
Record good_token (w : World) (reg : Registration) (token : TokenChallenge) : Prop := {
  gt_time : ∀ t, reading w t → (jose_Time (tc_NotBefore token) ≤ t ≤ jose_Time (tc_Expiry token))%Z;
  gt_key : tc_Key token =
    GetChallengeKeyForRequest st reg (Expiration (wd_Data w) (reg_Duration reg)) (wd_Data w) (wd_Req w);
  gt_ok : tc_Ok token = true;
  gt_verify : ∀ verify, reg_Verify reg = Some verify →
    verify (tc_Key token) (tc_Result token) (wd_Req w) = (VerifyResultOK, None) }.

Lemma stable_good_token w w' reg token :
  stable w w' → good_token w reg token → good_token w' reg token.
Proof.
  intros Hs []. split; [|unfold GetChallengeKeyForRequest; by rewrite (stable_key _ _ _ _ _ Hs)|done|].
  - intros t Ht. eauto using stable_reading.
  - by rewrite (sb_req _ _ Hs).
Qed.

Lemma not_before_after w reg token n :
  good_token w reg token →
  (Time_Compare (jose_Time (tc_Expiry token)) (wd_clock w n) <? 0)%Z = false ∧
  (0 <? Time_Compare (jose_Time (tc_NotBefore token)) (wd_clock w n))%Z = false.
Proof.
  intros Hg. destruct (gt_time _ _ _ Hg (wd_clock w n)) as [Hn He]; [by exists n|].
  split; apply Z.ltb_ge.
  - destruct (Z.lt_ge_cases (Time_Compare (jose_Time (tc_Expiry token)) (wd_clock w n)) 0) as [Hc|]; [|done].
    apply (proj1 (Time_Compare_lt _ _)) in Hc. lia.
  - destruct (Z.lt_ge_cases 0 (Time_Compare (jose_Time (tc_NotBefore token)) (wd_clock w n))) as [Hc|]; [|done].
    apply Z.lt_gt, (proj1 (Time_Compare_gt _ _)) in Hc. lia.
Qed.

Lemma VerifyChallengeToken_accepts reg token w :
  good_token w reg token →
  ∃ s n k, VerifyChallengeToken reg token (tc_Key token) w =
    Ret (VerifyResultOK, s, None) (advance w n k).
Proof.
  intros Hg. pose proof (not_before_after w reg token (wd_tick w) Hg) as [He _].
  pose proof (not_before_after w reg token (S (wd_tick w)) Hg) as [_ Hn].
  destruct Hg as [_ _ Hok Hv]. destruct w as [d r rw tr tg db c tick ra draw]. cbn in *.
  unfold VerifyChallengeToken, bind, now, ret, float64, get_req. cbn. rewrite He. cbn.
  rewrite Hn. rewrite bool_decide_true by done. cbn. rewrite Hok.
  destruct (reg_Verify reg) as [verify|] eqn:Hver; [|by eexists _, _, _]. cbn.
  destruct (SFltb _ _); [|by eexists _, _, _]. cbn.
  rewrite (Hv verify) by done. by eexists _, _, _.
Qed.

Lemma verifyChallenge_accepts reg token w :
  default ∅ (rd_ChallengeMap (wd_Data w)) !! reg_Name reg = Some token → good_token w reg token →
  ∃ s n k, verifyChallenge st reg (tc_Key token) w = Ret (VerifyResultOK, s, None) (advance w n k).
Proof.
  intros Ht Hg. destruct (VerifyChallengeToken_accepts reg token w Hg) as (s & n & k & Hr).
  exists s, n, k. unfold verifyChallenge. unfold bind at 1. cbn [get_data]. rewrite Ht.
  unfold bind at 1. by rewrite Hr.
Qed.

Lemma evaluate_one_accepts reg token w :
  default ∅ (rd_ChallengeMap (wd_Data w)) !! reg_Name reg = Some token → good_token w reg token →
  ∃ w', evaluate_one st reg w = Ret () w' ∧
    rd_ChallengeVerify (wd_Data w') !! reg_id reg = Some VerifyResultOK.
Proof.
  intros Ht Hg. destruct (verifyChallenge_accepts reg token w Ht Hg) as (s & n & k & Hr).
  unfold evaluate_one. unfold bind at 1 2. cbn [get_data get_req].
  rewrite <-(gt_key _ _ _ Hg). unfold bind at 1. rewrite Hr.
  eexists. split; [reflexivity|]. destruct w as [[] ? ? ? ? ? ? ? ? ?]. cbn. apply lookup_insert_eq.
Qed.

Lemma evaluate_all_accepts regs reg token w :
  NoDup (reg_id <$> regs) → NoDup (reg_Name <$> regs) → reg ∈ regs →
  default ∅ (rd_ChallengeMap (wd_Data w)) !! reg_Name reg = Some token → good_token w reg token →
  ∃ w', evaluate_all st regs w = Ret () w' ∧ HasValidChallenge (wd_Data w') (reg_id reg) = true.
Proof.
  revert w. induction regs as [|reg' regs IH]; intros w Hid Hname Hin Ht Hg;
    [by apply elem_of_nil in Hin|].
  apply NoDup_cons in Hid as [Hid1 Hid2], Hname as [Hn1 Hn2]. cbn [evaluate_all].
  apply elem_of_cons in Hin as [->|Hin].
  - destruct (evaluate_one_accepts reg' token w Ht Hg) as (w1 & Hr1 & Hv1).
    destruct (evaluate_all_run regs w1 Hid2) as (w2 & Hr2 & _ & _ & Hother).
    exists w2. split; [unfold bind; by rewrite Hr1|].
    destruct (Hother _ Hid1) as [Hv2 _]. unfold HasValidChallenge, rd_verify. by rewrite Hv2, Hv1.
  - destruct (evaluate_one_run reg' w) as (w1 & v & s & Hr1 & Hs1 & Hko & _).
    destruct (IH w1 Hid2 Hn2 Hin) as (w2 & Hr2 & Hval).
    + rewrite Hko; [done|]. intros Heq. apply Hn1. rewrite <-Heq. by apply list_elem_of_fmap_2.
    + by eapply stable_good_token.
    + exists w2. split; [unfold bind; by rewrite Hr1|done].
Qed.

(** *** Opening the state cookie *)

(** A cookie the state loop passes over: it does not open, under the key of the
    request and of the server, to a claim set. *)
Definition unopened (w : World) (c : Cookie) : Prop :=
  is_ok (e <-? jose_Parse (ck_Value c);
         sg <-? jose_Decrypt e (cookieKey st (rq_Host (wd_Req w)) (wd_Data w));
         jose_Claims sg (st_publicKey st))%go = false.

Lemma state_loop_skips pre cookies last w :
  Forall (unopened w) pre → pre ≠ [] →
  ∃ e, state_loop st (pre ++ cookies) last w = state_loop st cookies (Err e) w.
Proof.
  revert last. induction pre as [|c pre IH]; intros last Hpre Hne; [done|].
  apply Forall_cons in Hpre as [Hc Hpre]. unfold unopened in Hc.
  assert (∃ e, verifyChallengeStateCookie st (Some c) w = Ret (Err e) w) as [e He].
  { unfold verifyChallengeStateCookie, bind, get_data, get_req, ret.
    destruct (jose_Parse _) as [e|e]; cbn in *; [|by exists e].
    destruct (jose_Decrypt _ _) as [sg|e']; cbn in *; [|by exists e'].
    destruct (jose_Claims _ _) as [i|e']; cbn in *; [done|by exists e']. }
  cbn [app state_loop]. unfold bind at 1. rewrite He.
  destruct pre as [|c' pre]; [by exists e|]. by apply IH.
Qed.

Lemma verifyChallengeStateCookie_opens c w e sg t :
  jose_Parse (ck_Value c) = Ok e →
  jose_Decrypt e (cookieKey st (rq_Host (wd_Req w)) (wd_Data w)) = Ok sg →
  jose_Claims sg (st_publicKey st) = Ok t →
  (∀ u, reading w u → (jose_Time (tok_NotBefore t) ≤ u ≤ jose_Time (tok_Expiry t))%Z) →
  ∃ n, verifyChallengeStateCookie st (Some c) w = Ret (Ok (tok_State t)) (advance w n (wd_draw w)).
Proof.
  intros Hp Hd Hc Ht. destruct w as [d r rw tr tg db clk tick ra draw]. cbn in *.
  unfold bind, get_data, get_req, now, ret. cbn. rewrite Hp. cbn. rewrite Hd. cbn. rewrite Hc. cbn.
  assert (∀ n, (jose_Time (tok_NotBefore t) ≤ clk n ≤ jose_Time (tok_Expiry t))%Z) as Hclk
    by (intros n; apply Ht; by exists n).
  destruct (Z.ltb_spec (Time_Compare (jose_Time (tok_Expiry t)) (clk tick)) 0) as [Hlt|_].
  { apply (proj1 (Time_Compare_lt _ _)) in Hlt. specialize (Hclk tick). lia. }
  cbn. destruct (Z.ltb_spec 0 (Time_Compare (jose_Time (tok_NotBefore t)) (clk (S tick)))) as [Hlt|_].
  { apply Z.lt_gt, (proj1 (Time_Compare_gt _ _)) in Hlt. specialize (Hclk (S tick)). lia. }
  by eexists.
Qed.

Lemma verifyChallengeState_opens w pre c post e sg t :
  filter (λ c, ck_Name c = rd_cookieName (wd_Data w)) (rq_Cookies (wd_Req w)) = pre ++ c :: post →
  Forall (unopened w) pre →
  jose_Parse (ck_Value c) = Ok e →
  jose_Decrypt e (cookieKey st (rq_Host (wd_Req w)) (wd_Data w)) = Ok sg →
  jose_Claims sg (st_publicKey st) = Ok t →
  (∀ u, reading w u → (jose_Time (tok_NotBefore t) ≤ u ≤ jose_Time (tok_Expiry t))%Z) →
  ∃ n, verifyChallengeState st w = Ret (Ok (tok_State t)) (advance w n (wd_draw w)).
Proof.
  intros Hf Hpre Hp Hd Hc Ht.
  destruct (verifyChallengeStateCookie_opens c w e sg t Hp Hd Hc Ht) as [n Hr].
  assert (∀ last, state_loop st (c :: post) last w = Ret (Ok (tok_State t)) (advance w n (wd_draw w))) as Hl.
  { intros last. cbn [state_loop]. unfold bind. by rewrite Hr. }
  exists n. unfold verifyChallengeState, bind, get_data, get_req. rewrite Hf.
  destruct pre as [|c0 pre]; [apply Hl|].
  destruct (state_loop_skips (c0 :: pre) (c :: post) (Err ErrNoCookie) w) as [e' ->]; auto.
Qed.

Lemma EvaluateChallenges_accepts regs reg w pre c post e sg t token :
  NoDup (reg_id <$> regs) → NoDup (reg_Name <$> regs) → reg ∈ regs →
  filter (λ c, ck_Name c = rd_cookieName (wd_Data w)) (rq_Cookies (wd_Req w)) = pre ++ c :: post →
  Forall (unopened w) pre →
  jose_Parse (ck_Value c) = Ok e →
  jose_Decrypt e (cookieKey st (rq_Host (wd_Req w)) (wd_Data w)) = Ok sg →
  jose_Claims sg (st_publicKey st) = Ok t →
  (∀ u, reading w u → (jose_Time (tok_NotBefore t) ≤ u ≤ jose_Time (tok_Expiry t))%Z) →
  default ∅ (tok_State t) !! reg_Name reg = Some token → good_token w reg token →
  ∃ w', EvaluateChallenges st regs w = Ret () w' ∧ HasValidChallenge (wd_Data w') (reg_id reg) = true.
Proof.
  intros Hid Hname Hin Hf Hpre Hp Hd Hc Ht Htok Hg.
  destruct (verifyChallengeState_opens w pre c post e sg t) as [n Hr]; [done..|].
  destruct (load_state_run (Ok (tok_State t)) (advance w n (wd_draw w))) as (w2 & Hr2 & Hs2 & Hv2 & Hst2 & Hm2).
  destruct (evaluate_all_accepts regs reg token w2) as (w3 & Hr3 & Hval); [done..| | |].
  - by rewrite Hm2.
  - destruct Hg as [Hgt Hgk Hgo Hgv], Hs2. split; [|unfold GetChallengeKeyForRequest,
      getChallengeKeyForRequest, key_preimage, NetworkPrefix, Expiration in *|done|].
    + unfold reading. rewrite sr_clock0. exact Hgt.
    + by rewrite sr_req0, sr_addr0, sr_time0.
    + by rewrite sr_req0.
  - exists w3. split; [|done]. unfold EvaluateChallenges, bind in *. by rewrite Hr, Hr2.
Qed.

End props.

(** * Properties *)

(** C4: Soundness of challenge evaluation: it always returns, and afterwards a
    challenge counts as passed only if the request carries a state cookie of the
    client that decrypts under the key of host and network, verifies under the
    server's public key and is in its validity period, and that holds a token for
    this challenge which is unexpired, bound to the request's key (or the one
    under the legacy headers), and either marked passed or verified anew. *)
Theorem EvaluateChallenges_sound `{Jose} (st : State) (regs : list Registration) (w : World)
    (Hnd : NoDup (reg_id <$> regs)) (He : rd_ChallengeVerify (wd_Data w) = ∅) :
  ∃ w', EvaluateChallenges st regs w = Ret () w' ∧
    (∀ reg, reg ∈ regs → HasValidChallenge (wd_Data w') (reg_id reg) = true → proven st w reg) ∧
    (HasAnyValidChallenge (wd_Data w') = true → ∃ reg, reg ∈ regs ∧ proven st w reg).
Proof.
  destruct (EvaluateChallenges_run st regs w Hnd He) as (w' & Hr & _ & Hok & Hids).
  exists w'. split; [done|]. split; [intros reg Hin Hval; by apply (Hok reg)|].
  intros [id Hval]%HasAnyValidChallenge_iff.
  apply Hids in Hval as Hin. apply list_elem_of_fmap in Hin as (reg & -> & Hin).
  exists reg. split; [done|]. by apply (Hok reg).
Qed.

Definition demo_time : Time := Unix 1700000000.
Definition demo_reg : Registration := demo_registration 1%Z "pow".
Definition demo_start : World :=
  demo_world (demo_data demo_time (Addr4 0xC0000207)) (demo_request (demo_h "en")) demo_time (S754_zero false).

Lemma EvaluateChallenges_sound_witness :
  ∃ w', EvaluateChallenges (demo_state ∅) [demo_reg] demo_start = Ret () w' ∧
    HasAnyValidChallenge (wd_Data w') = false.
Proof.
  destruct (EvaluateChallenges_sound (demo_state ∅) [demo_reg] demo_start) as (w' & Hr & _).
  - by apply NoDup_singleton.
  - reflexivity.
  - exists w'. split; [exact Hr|]. vm_compute in Hr. injection Hr as <-. reflexivity.
Defined.

(** A later request of the client that was given the state cookie [s] for a token
    with key [key] and result [res], issued at [issued] for the request of data [d]
    to [host]: it sends the cookie after at most cookies that do not open, comes from
    the same network to the same host, has the same key for the challenge (which
    holds within the expiry bucket), every reading of its clock is between the issue
    and the expiry (to the second) of token and cookie, and the verifier of the
    challenge accepts the result. *)
Record returning `{Jose} (st : State) (reg : Registration) (d : RequestData) (host : string)
    (issued : Time) (w2 : World) (key : Key) (res s : string) : Prop := {
  ret_cookies : ∃ pre post, filter (λ c, ck_Name c = rd_cookieName (wd_Data w2)) (rq_Cookies (wd_Req w2)) =
    pre ++ mkCookie (rd_cookieName (wd_Data w2)) s :: post ∧ Forall (unopened st w2) pre;
  ret_host : rq_Host (wd_Req w2) = host;
  ret_network : NetworkPrefix (wd_Data w2) = NetworkPrefix d;
  ret_key : GetChallengeKeyForRequest st reg (Expiration (wd_Data w2) (reg_Duration reg))
              (wd_Data w2) (wd_Req w2) = key;
  ret_clock : ∀ u, reading w2 u →
    (Unix 0 ≤ u ∧ issued ≤ u ∧
     u ≤ Unix (Time_Unix (Expiration d (reg_Duration reg))) ∧
     u ≤ Unix (Time_Unix (Expiration d DefaultDuration)))%Z;
  ret_verify : ∀ verify, reg_Verify reg = Some verify →
    verify key res (wd_Req w2) = (VerifyResultOK, None) }.

Lemma cookieKey_network st host d d' :
  NetworkPrefix d = NetworkPrefix d' → cookieKey st host d = cookieKey st host d'.
Proof. unfold cookieKey. by intros ->. Qed.

Lemma cookieKey_length st host d : String.length (cookieKey st host d) = 32.
Proof. apply length_sha256. Qed.

(** Issuing a token and the state cookie, evaluated. *)
Lemma issue_run `{JoseLaws priv pub} (st : State) reg key res w m :
  st_privateKey st = priv → rd_ChallengeMap (wd_Data w) = Some m →
  let d := wd_Data w in
  let tok := mkTokenChallenge key res true (Time_Unix (Expiration d (reg_Duration reg))) 0
    (Time_Unix (wd_clock w (wd_tick w))) in
  ∃ s w1, (IssueChallengeToken reg key res (Expiration d (reg_Duration reg)) true;;
           issueChallengeState st (Expiration d DefaultDuration)) w = Ret (Ok s) w1 ∧
    jose_Serialize priv (cookieKey st (rq_Host (wd_Req w)) d)
      (mkToken (Some (<[reg_Name reg := tok]> m)) (Time_Unix (Expiration d DefaultDuration))
        (Time_Unix (Time_AddDays (wd_clock w (S (wd_tick w))) (-1)))
        (Time_Unix (wd_clock w (S (S (wd_tick w)))))) = Ok s.
Proof.
  intros Hpriv Hm d tok. subst d tok. destruct w as [d r rw tr tg db c tick ra draw]. cbn in *.
  unfold bind, now, get_data, ret. cbn. rewrite Hm. unfold issueChallengeState.
  rewrite Hpriv, law_signer. unfold bind, now, get_data, get_req, upd_data, with_data, ret. cbn.
  destruct d. cbn in *. subst.
  rewrite law_encrypter by apply cookieKey_length. cbn.
  match goal with |- context [jose_Serialize _ ?k ?t] =>
    pose proof (law_serialize k t (cookieKey_length _ _ _)) as Hs end.
  destruct (jose_Serialize _ _ _) as [s|] eqn:Hser; [|done].
  eexists s, _. split; [reflexivity|].
  rewrite <-Hser. f_equal.
Qed.

(** The names of the challenges with tokens are ASCII: the claims are JSON. *)
Definition ascii_names (m : gmap string TokenChallenge) : Prop :=
  map_Forall (λ name _, string_forallb (λ c, (byte_val c <? 128)%N) name = true) m.

(** A cookie with a token of a challenge passes it in every later request. *)
Lemma serialized_accepted `{JoseLaws priv pub} (st : State) (regs : list Registration) (reg : Registration)
    (d : RequestData) (host : string) (m : gmap string TokenChallenge) (issued : Time) key res s iat iat' w2 :
  st_publicKey st = pub → NoDup (reg_id <$> regs) → NoDup (reg_Name <$> regs) → reg ∈ regs → ascii_names m →
  m !! reg_Name reg =
    Some (mkTokenChallenge key res true (Time_Unix (Expiration d (reg_Duration reg))) 0 iat) →
  jose_Serialize priv (cookieKey st host d)
    (mkToken (Some m) (Time_Unix (Expiration d DefaultDuration)) (Time_Unix (Time_AddDays issued (-1))) iat') = Ok s →
  returning st reg d host issued w2 key res s →
  ∃ w3, EvaluateChallenges st regs w2 = Ret () w3 ∧ HasValidChallenge (wd_Data w3) (reg_id reg) = true.
Proof.
  intros Hpub Hid Hname Hin Hascii Hm Hser [(pre & post & Hc & Hpre) Hhost Hnet Hkey Hclk Hver].
  edestruct law_open as (e & sg & Hp & Hd & Hcl); [apply cookieKey_length| |exact Hser|].
  { exact Hascii. }
  rewrite <-Hhost, <-(cookieKey_network st _ _ _ Hnet) in Hd. rewrite <-Hpub in Hcl.
  eapply EvaluateChallenges_accepts; try eassumption.
  - intros u Hu. destruct (Hclk u Hu) as (Hu0 & Hu1 & Hu2 & Hu3). cbn. rewrite !law_Time.
    split; [|done]. etrans; [apply Unix_Time_Unix|]. unfold Time_AddDays, Hour, Second. lia.
  - split; cbn; [|done|done|exact Hver].
    intros u Hu. destruct (Hclk u Hu) as (Hu0 & Hu1 & Hu2 & Hu3). rewrite !law_Time. done.
Qed.

(** C12: A proof survives the round trip through the client: issuing the token and
    the state cookie always succeeds, and a later request of the client that
    returns the cookie in time, from the same network and with the same key for
    the challenge, has the challenge marked as passed. *)
Theorem proof_roundtrip `{JoseLaws priv pub} (st : State) (regs : list Registration) (reg : Registration)
    (w : World) (m : gmap string TokenChallenge) (key : Key) (res : string)
    (Hpriv : st_privateKey st = priv) (Hpub : st_publicKey st = pub)
    (Hid : NoDup (reg_id <$> regs)) (Hname : NoDup (reg_Name <$> regs)) (Hin : reg ∈ regs)
    (Hm : rd_ChallengeMap (wd_Data w) = Some m)
    (Hascii : ∀ name, name = reg_Name reg ∨ is_Some (m !! name) →
      string_forallb (λ c, (byte_val c <? 128)%N) name = true) :
  ∃ s w1,
    (IssueChallengeToken reg key res (Expiration (wd_Data w) (reg_Duration reg)) true;;
     issueChallengeState st (Expiration (wd_Data w) DefaultDuration)) w = Ret (Ok s) w1 ∧
    ∀ w2, returning st reg (wd_Data w) (rq_Host (wd_Req w)) (wd_clock w (S (wd_tick w))) w2 key res s →
      ∃ w3, EvaluateChallenges st regs w2 = Ret () w3 ∧
        HasValidChallenge (wd_Data w3) (reg_id reg) = true.
Proof.
  destruct (issue_run st reg key res w m Hpriv Hm) as (s & w1 & Hrun & Hser).
  exists s, w1. split; [done|]. intros w2 Hret.
  eapply serialized_accepted; try eassumption; [|apply lookup_insert_eq].
  intros name x Hx. apply Hascii. apply lookup_insert_Some in Hx as [[-> _]|[_ Hx]]; eauto.
Qed.

(** The client comes back at once with the cookie it got. *)
Lemma proof_roundtrip_witness :
  ∃ s w3, EvaluateChallenges (demo_state ∅) [demo_reg]
      (with_req (set_rq_Cookies [mkCookie "other" "x"; mkCookie "cookie" s] (wd_Req demo_start)) demo_start) =
      Ret () w3 ∧ HasValidChallenge (wd_Data w3) 1%Z = true.
Proof.
  destruct (proof_roundtrip (priv := "key") (pub := "key") (demo_state ∅) [demo_reg] demo_reg demo_start ∅
    (GetChallengeKeyForRequest (demo_state ∅) demo_reg (Expiration (wd_Data demo_start) DefaultDuration)
       (wd_Data demo_start) (wd_Req demo_start)) "") as (s & w1 & _ & Hret).
  - reflexivity.
  - reflexivity.
  - by apply NoDup_singleton.
  - by apply NoDup_singleton.
  - by left.
  - reflexivity.
  - intros name [->|[x Hx]]; [reflexivity|by rewrite lookup_empty in Hx].
  - exists s. apply Hret. split; try reflexivity; [|intros u [n <-]|done].
    + exists [], []. split; [reflexivity|constructor].
    + cbn. repeat split; vm_compute; discriminate.
Defined.

(** C31: The expiry a key is bound to: it lies strictly more than half a duration and
    at most one and a half durations after the request, on a multiple of the
    duration, and later requests never get an earlier one. *)
Theorem Expiration_bounds (d d' : RequestData) (dur : Duration) (Hdur : (0 < dur)%Z)
    (Hle : (rd_Time d ≤ rd_Time d')%Z) :
  (dur < 2 * (Expiration d dur - rd_Time d) ≤ 3 * dur)%Z ∧
  (Expiration d dur mod dur = 0)%Z ∧ (Expiration d dur ≤ Expiration d' dur)%Z.
Proof.
  unfold Expiration, Time_Add. split; [|split].
  - pose proof (Time_Round_bounds (rd_Time d + dur) dur Hdur). lia.
  - by apply Time_Round_multiple.
  - apply Time_Round_mono. lia.
Qed.

Lemma Expiration_bounds_witness :
  (Expiration (demo_data demo_time AddrZero) DefaultDuration ≤
   Expiration (demo_data (demo_time + Second)%Z AddrZero) DefaultDuration)%Z.
Proof.
  apply (Expiration_bounds (demo_data demo_time AddrZero) (demo_data (demo_time + Second)%Z AddrZero));
    [reflexivity|vm_compute; discriminate].
Defined.
