(* ===== verification/Safety.v ===== *)
(** What a request can do to the backends: properties of [Action.v], [Rule.v] and
    [Server.v]. *)

From S2P Require Import Prelude GoStrings GoCrypto GoTime NetAddr GoURL Mime UtilsHttp.
From S2P Require Import DecayMap Types Cookie Register State Key Data ResponsePolicy Pages.
From S2P Require Import Effects Action Rule Server JoseDemo DataProps.
From stdpp Require Import options.

Local Open Scope handler_scope.

(** * Requests that may reach a backend *)

(** No cookie and no raw query key of the proxy. *)
Definition clean (r : Request) : Prop :=
  Forall (λ c, HasPrefix (ck_Name c) DefaultCookiePrefix = false) (rq_Cookies r) ∧
  ∀ k, HasPrefix k QueryArgPrefix = true → (ParseRawQuery (RawQuery (rq_URL r))).1 !! k = None.

Lemma cleanup_clean r : clean (strip_cookies (cleanupProxyRequest r)).
Proof.
  unfold strip_cookies, cleanupProxyRequest. destruct r as [me ho pr pm u h ck ra tls]. split.
  - apply Forall_forall. intros c. case_match; simpl; by intros [? _]%list_elem_of_filter.
  - intros k Hk. destruct u; case_match; simpl; rewrite publicRawQuery_lookup, Hk; done.
Qed.

(** * Serving at most once *)

(** [m] hands at most one request to a backend, a clean one, and none if it asks
    to go on or fails. *)
Definition once (m : M Next) : Prop := ∀ w,
  ∃ l, served (world_of (m w)) = served w ++ l ∧ length l ≤ 1 ∧ Forall (λ br, clean br.2) l ∧
    match m w with
    | Ret (true, _) _ | Ret (_, Some _) _ => l = []
    | _ => True
    end.

Lemma once_quiet m : quiet m → once m.
Proof.
  intros Hm w. exists []. rewrite app_nil_r. split; [apply Hm|].
  split; [simpl; lia|]. split; [done|]. by repeat case_match.
Qed.

Lemma once_bind {A} (m : M A) (f : A → M Next) : quiet m → (∀ a, once (f a)) → once (bind m f).
Proof.
  intros Hm Hf w. unfold bind. specialize (Hm w). destruct (m w) as [a w'|e w']; simpl in *.
  - destruct (Hf a w') as (l & Hl & ?). exists l. by rewrite Hl, Hm.
  - exists []. rewrite app_nil_r. split; [done|]. split; [simpl; lia|]. done.
Qed.

(** A handler, then a continuation if it asks to go on. *)
Lemma once_then (m : M Next) (f : Next → M Next) :
  once m → (∀ e, quiet (f (false, e))) → (∀ e, quiet (f (true, Some e))) → once (f (true, None)) →
  (∀ e w, match f (false, e) w with Ret (true, _) _ | Ret (_, Some _) _ => e ≠ None | _ => True end) →
  once (bind m f).
Proof.
  intros Hm Hf Ht Hn Hfe w. destruct (Hm w) as (l & Hl & Hlen & Hcl & Hm'). unfold bind.
  destruct (m w) as [[[] [e|]] w'|e w']; simpl in *.
  - subst l. rewrite app_nil_r in Hl. destruct (once_quiet _ (Ht e) w') as (l & Hl' & ?).
    exists l. by rewrite Hl', Hl.
  - subst l. rewrite app_nil_r in Hl. destruct (Hn w') as (l & Hl' & ?).
    exists l. by rewrite Hl', Hl.
  - subst l. rewrite app_nil_r in Hl. destruct (once_quiet _ (Hf (Some e)) w') as (l & Hl' & ?).
    exists l. by rewrite Hl', Hl.
  - exists l. rewrite (Hf None w'), Hl. split; [done|]. split; [done|]. split; [done|].
    specialize (Hfe None w'). repeat case_match; done.
  - exists l. done.
Qed.

(** ** Callbacks *)

(** A callback serves nothing itself and leaves a clean request. *)
Definition done_ok (done : Done) : Prop :=
  quiet done ∧ ∀ w b w', done w = Ret b w' → clean (wd_Req w').

Definition serve_stop (b : Backend) : M Next := serve b;; ret (false, None).

Lemma serve_once b (w : World) : clean (wd_Req w) →
  ∃ l, served (world_of (serve_stop b w)) = served w ++ l ∧ length l ≤ 1 ∧
    Forall (λ br : string * Request, clean br.2) l ∧
    match serve_stop b w with
    | Ret (true, _) _ | Ret (_, Some _) _ => l = [] | _ => True end.
Proof.
  intros Hc. exists [(b_Name b, wd_Req w)]. pose proof (serve_served b w) as Hs.
  unfold serve_stop, bind in *. destruct (serve b w) as [a w'|e' w']; simpl in *;
    (split; [done|]; split; [simpl; lia|]; split; [by apply Forall_singleton|done]).
Qed.

Section safety.
  Context `{Jose} (st : State).

Lemma once_Pass done : done_ok done → once (Pass_Handle done).
Proof.
  intros [Hq Hc] w. unfold Pass_Handle. unfold bind at 1 3. specialize (Hq w).
  destruct (done w) as [b w'|e w'] eqn:Hd; simpl in Hq.
  - rewrite <-Hq. destruct b as [b|]; simpl; [apply serve_once; by eapply Hc|].
    exists []. rewrite app_nil_r. simpl. split; [done|]. split; [simpl; lia|]. done.
  - exists []. rewrite app_nil_r. split; [done|]. split; [simpl; lia|]. done.
Qed.

Lemma once_Proxy m rw be done : done_ok done → once (Proxy_Handle st m rw be done).
Proof.
  intros [Hq Hc]. unfold Proxy_Handle. destruct (GetBackend st be) as [b|]; [|apply once_quiet; quiet].
  apply once_bind; [destruct m; quiet|]. intros _ w. unfold bind at 1 3. specialize (Hq w).
  destruct (done w) as [b' w'|e w'] eqn:Hd; simpl in Hq.
  - rewrite <-Hq. apply serve_once; by eapply Hc.
  - exists []. rewrite app_nil_r. split; [done|]. split; [simpl; lia|]. done.
Qed.

(** *** Challenges *)

Definition issues_steadily (reg : Registration) : Prop := ∀ k e, steady (reg_IssueChallenge reg k e).

Lemma steady_issue_one reg : issues_steadily reg → steady (issue_one st reg).
Proof. intros Hr. unfold issue_one. steady. Qed.
Lemma quiet_issue_one reg : issues_steadily reg → quiet (issue_one st reg).
Proof. intros Hr. by apply steady_quiet, steady_issue_one. Qed.

Lemma once_issue_loop cont pass fail regs :
  once pass → once fail → Forall issues_steadily regs → once (issue_loop st cont pass fail regs).
Proof.
  intros Hp Hf Hregs. induction Hregs as [|reg regs Hr Hregs IH]; simpl; [done|].
  apply once_bind; [quiet|]. intros d. destruct (not_due d reg); [done|].
  apply once_bind; [by apply quiet_issue_one|]. intros result.
  apply once_bind; [quiet|]. intros r. destruct result; try done.
  - case_bool_decide; [done|]. apply once_quiet; quiet.
  - apply once_bind; [quiet|]. intros _. by case_bool_decide.
  - apply once_bind; [quiet|]. intros _. destruct cont; [apply once_quiet; quiet|done].
Qed.

Lemma once_Challenge cont regs pass fail :
  once pass → once fail → Forall issues_steadily regs → once (Challenge_Handle st cont regs pass fail).
Proof.
  intros Hp Hf Hregs. unfold Challenge_Handle. apply once_bind; [quiet|]. intros d.
  apply once_bind; [quiet|]. intros r. destruct (list_find _ _) as [[i reg]|].
  - apply once_bind; [quiet|]. intros _. destruct cont; [apply once_quiet; quiet|done].
  - by apply once_issue_loop.
Qed.

Lemma quiet_set_opts l : quiet (set_opts l).
Proof. induction l as [|[k v] l IH]; simpl; quiet. Qed.

Lemma steady_no_store : steady no_store_headers.
Proof. unfold no_store_headers. steady. Qed.

(** The registrations a handler can issue. *)
Fixpoint handler_regs (h : Handler) : list Registration :=
  match h with
  | Challenge_ _ _ _ regs _ p _ f => regs ++ handler_regs p ++ handler_regs f
  | _ => []
  end.

Lemma once_Handle h done :
  done_ok done → Forall issues_steadily (handler_regs h) → once (Handle st h done).
Proof.
  intros Hd. pose proof steady_no_store as Hns.
  induction h as [| |code hash|code hash|status| |opts|m rw be|hash code cont regs pa p IHp fa f IHf];
    simpl; intros Hregs.
  - apply once_quiet; quiet.
  - by apply once_Pass.
  - apply once_quiet. unfold Deny_Handle. quiet.
  - apply once_quiet. unfold Block_Handle. quiet.
  - apply once_quiet. unfold Code_Handle. quiet.
  - apply once_quiet. unfold Drop_Handle. quiet.
  - apply once_quiet. unfold Context_Handle. quiet. apply quiet_set_opts.
  - by apply once_Proxy.
  - apply Forall_app in Hregs as [Hr [Hrp Hrf]%Forall_app].
    apply once_Challenge; [..|done]; (apply once_bind; [quiet|auto]).
Qed.

(** ** Rules *)

Lemma RuleState_ind' (P : RuleState → Prop) :
  (∀ n h c a hd cs, Forall P cs → P (mkRuleState n h c a hd cs)) → ∀ r, P r.
Proof.
  intros Hs. fix IH 1. intros [n h c a hd cs]. apply Hs.
  induction cs as [|x cs IHcs]; constructor; [apply IH|exact IHcs].
Qed.

(** The registrations of a rule and its descendants. *)
Fixpoint rule_regs (r : RuleState) : list Registration :=
  match r with
  | mkRuleState _ _ _ _ h cs => handler_regs h ++ flat_map rule_regs cs
  end.

Lemma rule_done_ok rule done : done_ok done → done_ok (rule_done rule done).
Proof.
  intros [Hq Hc]. split; [unfold rule_done; by quiet|].
  intros w b w'. unfold rule_done, bind, r_Set, upd_req. cbn. apply Hc.
Qed.

(** [Evaluate], with the loop over the children by name. *)
Lemma Evaluate_eq rule done :
  Evaluate st rule done =
  (d <- get_data;; r <- get_req;;
   match rule_condition rule d r with
   | (_, Some e) => ret (false, Some (evaluating_error d (rs_Hash rule) e))
   | (None, None) => ret (true, None)
   | (Some (CelOther t), None) =>
       ret (false, Some (evaluating_error d (rs_Hash rule) (ENew ("return type not Bool, got " +:+ t))))
   | (Some (CelBool false), None) => RuleMiss (rs_Name rule);; ret (true, None)
   | (Some (CelBool true), None) =>
       RuleHit (rs_Name rule);;
       ActionHit (rs_Action rule);;
       res <- Handle st (rs_Handler rule) (rule_done rule done);;
       match res with
       | (_, Some e) => ret (false, Some (executing_error d (rs_Hash rule) e))
       | (false, None) => ret (false, None)
       | (true, None) => evaluate_children st d (rs_Hash rule) done (rs_Children rule)
       end
   end).
Proof.
  destruct rule as [n h c a hd cs]. reflexivity.
Qed.

Lemma once_children d hash cs done :
  Forall (λ c, once (Evaluate st c done)) cs → once (evaluate_children st d hash done cs).
Proof.
  induction 1 as [|c cs Hc Hcs IH]; simpl; [apply once_quiet; quiet|].
  apply once_then.
  - exact Hc.
  - intros [e|]; quiet.
  - intros e; quiet.
  - exact IH.
  - intros [e|] w; [done|]. by cbn.
Qed.

Lemma once_Evaluate rule done :
  done_ok done → Forall issues_steadily (rule_regs rule) → once (Evaluate st rule done).
Proof.
  intros Hd. induction rule as [n h c a hd cs IH] using RuleState_ind'. intros Hregs.
  rewrite Evaluate_eq. apply Forall_app in Hregs as [Hh Hcs].
  apply once_bind; [quiet|]. intros d. apply once_bind; [quiet|]. intros r.
  destruct (rule_condition _ d r) as [[[[]|t]|] [e|]]; try solve [apply once_quiet; quiet].
  do 2 (apply once_bind; [quiet|]; intros _). apply once_then.
  - apply once_Handle; [by apply rule_done_ok|done].
  - intros [e|]; quiet.
  - intros e; quiet.
  - apply once_children. simpl in *. clear -IH Hcs. induction IH as [|c cs Hc _ IHcs]; constructor.
    + apply Hc. simpl in Hcs. by apply Forall_app in Hcs as [? _].
    + apply IHcs. simpl in Hcs. by apply Forall_app in Hcs as [_ ?].
  - intros [e|] w; [done|]. by cbn.
Qed.

(** ** The server *)

Lemma steady_getBackend host b : steady (getBackend st host b).
Proof. unfold getBackend, service_unavailable. steady. Qed.
#[local] Hint Resolve steady_getBackend : steady.

Lemma rule_callback_ok host b name action : done_ok (rule_callback st host b name action).
Proof.
  assert (Hrest : steady (ResponseHeaders st;; getBackend st host b))
    by (apply moves_bind; [typeclasses eauto| |]; [auto with steady|intros; apply steady_getBackend]).
  split.
  - unfold rule_callback, cleanupRequest. quiet.
  - intros w x w'. unfold rule_callback, cleanupRequest.
    intros Hrun.
    assert (∃ w1, wd_Req w1 = strip_cookies (cleanupProxyRequest (wd_Req w)) ∧
      (ResponseHeaders st;; getBackend st host b) w1 = Ret x w') as (w1 & Hr & Hrun').
    { eexists. split; [|exact Hrun]. reflexivity. }
    destruct (Hrest w1) as (_ & Hreq & _). rewrite Hrun' in Hreq. simpl in Hreq.
    rewrite Hreq, Hr. apply cleanup_clean.
Qed.

(** At most one clean request is served by a run from [w]. *)
Definition serves_one {A} (m : M A) : Prop := ∀ w,
  ∃ l, served (world_of (m w)) = served w ++ l ∧ length l ≤ 1 ∧ Forall (λ br, clean br.2) l.

Lemma serves_one_once m (f : Next → M unit) : once m → (∀ n, quiet (f n)) → serves_one (bind m f).
Proof.
  intros Hm Hf w. destruct (Hm w) as (l & Hl & Hlen & Hc & _). exists l. unfold bind.
  destruct (m w) as [n w'|]; simpl in *; [rewrite Hf|]; by rewrite Hl.
Qed.

Lemma once_rule_loop host b rules :
  Forall (λ rule, Forall issues_steadily (rule_regs rule)) rules →
  ∀ w, ∃ l, served (world_of (rule_loop st host b rules w)) = served w ++ l ∧ length l ≤ 1 ∧
    Forall (λ br, clean br.2) l ∧
    match rule_loop st host b rules w with Ret true _ => l = [] | _ => True end.
Proof.
  induction 1 as [|rule rules Hr Hrules IH]; intros w.
  { exists []. rewrite app_nil_r. simpl. split; [done|]. split; [simpl; lia|]. done. }
  cbn [rule_loop]. rewrite bind_run.
  destruct (once_Evaluate rule _ (rule_callback_ok host b (rs_Name rule) (rs_Action rule)) Hr w)
    as (l & Hl & Hlen & Hc & Hm).
  destruct (Evaluate st rule _ w) as [[[] [e|]] w'|e w']; simpl in Hl, Hm.
  - subst l. exists []. rewrite <-Hl.
    assert (Hq : quiet (ErrorPage st 500 e "";; @panic bool e)) by quiet.
    rewrite (Hq w'). split; [done|]. split; [simpl; lia|]. split; [done|].
    rewrite bind_run. by destruct (ErrorPage st 500 e "" w').
  - subst l. rewrite app_nil_r in Hl. rewrite <-Hl. apply IH.
  - subst l. exists []. rewrite <-Hl.
    assert (Hq : quiet (ErrorPage st 500 e "";; @panic bool e)) by quiet.
    rewrite (Hq w'). split; [done|]. split; [simpl; lia|]. split; [done|].
    rewrite bind_run. by destruct (ErrorPage st 500 e "" w').
  - exists l. done.
  - exists l. done.
Qed.

Lemma serves_one_handleRequest rules :
  Forall (λ rule, Forall issues_steadily (rule_regs rule)) rules → serves_one (handleRequest st rules).
Proof.
  intros Hrules w. unfold handleRequest. unfold bind at 1. cbn [get_req].
  destruct (GetBackend st _) as [b|].
  2:{ exists []. rewrite app_nil_r. assert (Hq : quiet service_unavailable) by (unfold service_unavailable; quiet).
      rewrite (Hq w). simpl. split; [done|]. split; [simpl; lia|]. done. }
  destruct (once_rule_loop (rq_Host (wd_Req w)) b rules Hrules w) as (l & Hl & Hlen & Hc & Hm).
  unfold bind at 1. destruct (rule_loop st _ b rules w) as [[] w'|e w']; simpl in Hl; [|by exists l|by exists l].
  subst l. rewrite app_nil_r in Hl. rewrite <-Hl.
  assert (once (RuleHit "DEFAULT";; ActionHit RuleActionPASS;;
    Pass_Handle (rule_callback st (rq_Host (wd_Req w)) b "DEFAULT" RuleActionPASS))) as Ho.
  { do 2 (apply once_bind; [quiet|]; intros _). apply once_Pass, rule_callback_ok. }
  destruct (serves_one_once _ (λ _, ret ()) Ho ltac:(intros; quiet) w') as (l & Hl' & ? & ?).
  exists l. split; [|done]. by rewrite <-Hl'.
Qed.

(** ** The gate *)

(** [reg] passes on issuance the client whose request is that of [w], in a run that ended
    in [w']: in between it was issued for the key and the expiry of that request, and
    found the client in order. *)
Definition passed_now (w : World) (reg : Registration) (w' : World) : Prop :=
  ∃ w1 w2, grows w w1 ∧ wd_Req w1 = wd_Req w ∧ grows w2 w' ∧
    let expiry := Expiration (wd_Data w) (reg_Duration reg) in
    reg_IssueChallenge reg (GetChallengeKeyForRequest st reg expiry (wd_Data w) (wd_Req w)) expiry w1 =
      Ret VerifyResultOK w2.

(** The key and the expiry are known from when the request arrived. *)
Lemma issuance_of w0 w reg :
  grows w0 w → wd_Req w = wd_Req w0 →
  let expiry w := Expiration (wd_Data w) (reg_Duration reg) in
  let key w := GetChallengeKeyForRequest st reg (expiry w) (wd_Data w) (wd_Req w) in
  expiry w = expiry w0 ∧ key w = key w0.
Proof.
  intros [Hd _ _] Hr. unfold data_facts in Hd. injection Hd as Ht Ha _ _ _. cbv zeta. unfold Expiration. rewrite Ht.
  split; [done|]. unfold GetChallengeKeyForRequest, getChallengeKeyForRequest, key_preimage, NetworkPrefix.
  by rewrite Hr, Ha.
Qed.

Lemma passed_now_weaken w0 w reg w1 w' :
  grows w0 w → wd_Req w = wd_Req w0 → passed_now w reg w1 → grows w1 w' → passed_now w0 reg w'.
Proof.
  intros Hg Hr (w2 & w3 & H2 & Hr2 & H3 & Hi) Hg'. destruct (issuance_of w0 w reg Hg Hr) as [He Hk]. cbv zeta in *.
  exists w2, w3. split; [by etrans|]. split; [congruence|]. split; [by etrans|]. cbv zeta. by rewrite <-Hk, <-He.
Qed.

(** A run from [w] serves nothing unless [P] holds of where it ends. *)
Definition gated {A} (P : World → Prop) (m : M A) (w : World) : Prop :=
  served (world_of (m w)) = served w ∨ P (world_of (m w)).

(** [m] never asks to go on. *)
Definition stops (m : M Next) : Prop := ∀ w, match m w with Ret (n, _) _ => n = false | _ => True end.

Lemma gated_quiet {A} P (m : M A) w : quiet m → gated P m w.
Proof. intros Hm. left. apply Hm. Qed.

Lemma gated_impl {A} (P Q : World → Prop) (m : M A) w : (∀ w', P w' → Q w') → gated P m w → gated Q m w.
Proof. intros HP [Hs|Hp]; [by left|right; auto]. Qed.

Lemma gated_bind {A B} P (m : M A) (f : A → M B) w :
  steady m → (∀ a w', grows w w' → wd_Req w' = wd_Req w → m w = Ret a w' → gated P (f a) w') → gated P (bind m f) w.
Proof.
  intros Hm Hf. unfold gated. rewrite bind_run. destruct (Hm w) as (Hs & Hr & _ & Hg).
  destruct (m w) as [a w'|e w'] eqn:Hrun; simpl in *; [|by left].
  rewrite <-Hs. by apply Hf.
Qed.

(** What comes after keeps the gate, if it serves nothing and [P] stays. *)
Lemma gated_then {A B} (P : World → Prop) (m : M A) (f : A → M B) w :
  gated P m w → (∀ a, quiet (f a)) → (∀ a, growing (f a)) → (∀ w w', grows w w' → P w → P w') → gated P (bind m f) w.
Proof.
  intros Hm Hq Hg HP. unfold gated in *. rewrite bind_run. destruct (m w) as [a w1|]; [|done]. cbn [world_of] in Hm.
  destruct Hm as [Hs|Hp]; [left|right].
  - by rewrite (Hq a w1).
  - by eapply HP; [apply Hg|].
Qed.

Lemma stops_bind {A} (m : M A) (f : A → M Next) : (∀ a, stops (f a)) → stops (bind m f).
Proof. intros Hf w. rewrite bind_run. destruct (m w) as [a w'|]; [apply Hf|done]. Qed.

Lemma stops_ret e : stops (ret (false, e)).
Proof. by intros w. Qed.

Lemma issue_one_OK reg w w' : issue_one st reg w = Ret VerifyResultOK w' → passed_now w reg w'.
Proof.
  unfold issue_one. do 2 (rewrite bind_run; cbn [get_data get_req]). rewrite bind_run.
  destruct (reg_IssueChallenge reg _ _ w) as [v w1|] eqn:Hi; [|done]. intros Hrun.
  assert (Hv : v = VerifyResultOK ∧ grows w1 w').
  { match type of Hrun with ?m w1 = _ => assert (Hg : growing m) by steady end.
    split; [|specialize (Hg w1); by rewrite Hrun in Hg]. clear Hg. revert Hrun. rewrite bind_run. cbn [get_req].
    rewrite bind_run. case_match; [|done]. do 2 (rewrite bind_run; cbn [upd_data]). by intros [= -> _]. }
  destruct Hv as [-> Hg']. exists w, w1. by split.
Qed.

(** The gate's condition: one of the registrations passed before, or passes now. *)
Definition passes (w : World) (regs : list Registration) (w' : World) : Prop :=
  ∃ reg, reg ∈ regs ∧ (HasValidChallenge (wd_Data w) (reg_id reg) = true ∨ passed_now w reg w').

Lemma passes_later w regs w1 w2 : grows w1 w2 → passes w regs w1 → passes w regs w2.
Proof.
  intros Hg (reg & Hin & [Hv|Hp]); exists reg; (split; [done|]); [by left|right].
  by eapply passed_now_weaken.
Qed.

Lemma passes_from w0 w regs w' :
  grows w0 w → wd_Req w = wd_Req w0 → wd_Data w = wd_Data w0 → passes w regs w' → passes w0 regs w'.
Proof.
  intros Hg Hr Hd (reg & Hin & Hp). exists reg. split; [done|]. rewrite Hd in Hp. destruct Hp as [Hp|Hp]; [by left|right].
  by eapply passed_now_weaken.
Qed.

Lemma gated_issue_loop w0 (regs0 : list Registration) pass fail regs w :
  quiet fail → growing pass → Forall issues_steadily regs → (∀ reg, reg ∈ regs → reg ∈ regs0) →
  grows w0 w → wd_Req w = wd_Req w0 →
  gated (λ w', ∃ reg, reg ∈ regs0 ∧ passed_now w0 reg w') (issue_loop st false pass fail regs) w.
Proof.
  intros Hf Hp Hregs. revert w. induction Hregs as [|reg regs Hr Hregs IH]; intros w Hin Hg Hrq; simpl.
  { by apply gated_quiet. }
  assert (∀ w', grows w w' → wd_Req w' = wd_Req w →
    gated (λ w', ∃ reg, reg ∈ regs0 ∧ passed_now w0 reg w') (issue_loop st false pass fail regs) w') as IH'.
  { intros w' Hg' Hr'. apply IH; [intros r ?; apply Hin; by right|by etrans|congruence]. }
  apply gated_bind; [steady|]. intros d w1 Hg1 Hr1 _. destruct (not_due d reg); [by apply IH'|].
  apply gated_bind; [by apply steady_issue_one|]. intros v w2 Hg2 Hr2 Hv.
  assert (Hg02 : grows w w2) by (by etrans). assert (Hr02 : wd_Req w2 = wd_Req w) by congruence.
  apply gated_bind; [steady|]. intros r w3 Hg3 Hr3 Hrun3.
  assert (Hg03 : grows w w3) by (by etrans). assert (Hr03 : wd_Req w3 = wd_Req w) by congruence.
  destruct v; try (by apply IH').
  - case_bool_decide; [by apply IH'|]. apply gated_quiet; quiet.
  - apply gated_bind; [steady|]. intros _ w4 Hg4 Hr4 _. case_bool_decide; [|by apply gated_quiet].
    apply IH'; [by etrans|congruence].
  - right. exists reg. split; [apply Hin; by left|]. apply issue_one_OK in Hv.
    eapply passed_now_weaken; [exact (transitivity Hg Hg1)|congruence|exact Hv|]. etrans; [exact Hg3|].
    assert (Hrest : growing (ChallengePassed reg (URL_String (rq_URL r));; pass)) by steady. apply Hrest.
Qed.

Lemma gated_Challenge (regs : list Registration) pass fail w :
  quiet fail → growing pass → Forall issues_steadily regs →
  gated (passes w regs) (Challenge_Handle st false regs pass fail) w.
Proof.
  intros Hf Hp Hregs. unfold Challenge_Handle. unfold gated. do 2 (rewrite bind_run; cbn [get_data get_req]).
  destruct (list_find _ _) as [[i reg]|] eqn:Hl.
  - right. apply list_find_Some in Hl as (Hl & Hv & _). exists reg.
    split; [by eapply list_elem_of_lookup_2|by left].
  - destruct (gated_issue_loop w regs pass fail regs w) as [Hs|(reg & ? & ?)]; [done|done|done|auto|done|done|by left|].
    right. exists reg. auto.
Qed.

Lemma stops_issue_loop pass fail regs : stops pass → stops fail → stops (issue_loop st false pass fail regs).
Proof.
  intros Hp Hf. induction regs as [|reg regs IH]; simpl; [done|].
  apply stops_bind. intros d. destruct (not_due d reg); [done|].
  do 2 (apply stops_bind; intros ?). destruct a; try done.
  - case_bool_decide; [done|apply stops_ret].
  - apply stops_bind. intros _. by case_bool_decide.
  - apply stops_bind. intros _. done.
Qed.

Lemma stops_Challenge regs pass fail : stops pass → stops fail → stops (Challenge_Handle st false regs pass fail).
Proof.
  intros Hp Hf. unfold Challenge_Handle. do 2 (apply stops_bind; intros ?).
  destruct (list_find _ _) as [[i reg]|]; [apply stops_bind; done|by apply stops_issue_loop].
Qed.

(** Handlers that answer the request themselves. *)
Definition closing (h : Handler) : bool :=
  match h with Deny _ _ | Block _ _ | Code _ | Drop => true | _ => false end.

Lemma closing_quiet h done : closing h = true → quiet (Handle st h done) ∧ stops (Handle st h done).
Proof.
  pose proof steady_no_store as Hns. destruct h; try done; intros _; simpl; split.
  - unfold Deny_Handle. quiet.
  - unfold Deny_Handle. do 2 (apply stops_bind; intros ?). apply stops_ret.
  - unfold Block_Handle. quiet.
  - unfold Block_Handle. do 7 (apply stops_bind; intros ?). apply stops_ret.
  - unfold Code_Handle. quiet.
  - unfold Code_Handle. do 3 (apply stops_bind; intros ?). apply stops_ret.
  - unfold Drop_Handle. quiet.
  - unfold Drop_Handle. apply stops_bind. intros w. case_match.
    + apply stops_bind. intros ?. apply stops_ret.
    + do 5 (apply stops_bind; intros ?). apply stops_ret.
Qed.

Lemma stops_Pass done : stops (Pass_Handle done).
Proof. unfold Pass_Handle. do 2 (apply stops_bind; intros ?). apply stops_ret. Qed.

(** ** Growth

    Whatever handles a request, its past only grows. *)
Lemma growing_set_opts l : growing (set_opts l).
Proof. induction l as [|[k v] l IH]; simpl; steady. Qed.
Hint Resolve growing_set_opts : steady.

Lemma growing_Pass done : growing done → growing (Pass_Handle done).
Proof. intros Hd. unfold Pass_Handle, serve_done. steady. Qed.

Lemma growing_issue_loop cont pass fail regs :
  growing pass → growing fail → Forall issues_steadily regs → growing (issue_loop st cont pass fail regs).
Proof.
  intros Hp Hf Hregs. induction Hregs as [|reg regs Hr Hregs IH]; simpl; [done|].
  pose proof (steady_growing _ (steady_issue_one reg Hr)) as Hi. steady.
Qed.

Lemma growing_Handle h done :
  growing done → Forall issues_steadily (handler_regs h) → growing (Handle st h done).
Proof.
  intros Hd. pose proof (steady_growing _ steady_no_store) as Hns.
  induction h as [| |code hash|code hash|status| |opts|m rw be|hash code cont regs pa p IHp fa f IHf]; intros Hregs.
  1-8: cbn [Handle]; unfold Pass_Handle, Deny_Handle, Block_Handle, Code_Handle, Drop_Handle, Context_Handle, Proxy_Handle,
    serve_done; steady.
  cbn [Handle]. apply Forall_app in Hregs as [Hr [Hrp Hrf]%Forall_app]. unfold Challenge_Handle.
  assert (Hp : growing (ActionHit pa;; Handle st p done)) by (specialize (IHp Hrp); steady).
  assert (Hf : growing (ActionHit fa;; Handle st f done)) by (specialize (IHf Hrf); steady).
  pose proof (growing_issue_loop cont _ _ regs Hp Hf Hr) as Hl. generalize dependent (ActionHit pa;; Handle st p done).
  generalize dependent (ActionHit fa;; Handle st f done). intros. steady.
Qed.

Lemma growing_rule_done rule done : growing done → growing (rule_done rule done).
Proof. intros Hd. unfold rule_done. steady. Qed.

Lemma growing_rule_callback host b name action : growing (rule_callback st host b name action).
Proof.
  pose proof (steady_growing _ (steady_getBackend host b)) as Hg. unfold rule_callback, cleanupRequest. steady.
Qed.

(** An unconditional rule that challenges, passes on success and closes otherwise. *)
Definition gate_rule (name hash : string) (regs : list Registration) (fail : Handler) : RuleState :=
  mkRuleState name hash None "CHALLENGE" (Challenge_ hash 0 false regs "PASS" Pass "DENY" fail) [].

Lemma gated_gate_rule name hash (regs : list Registration) fail done w :
  closing fail = true → growing done → Forall issues_steadily regs →
  gated (passes w regs) (Evaluate st (gate_rule name hash regs fail) done) w ∧
  stops (Evaluate st (gate_rule name hash regs fail) done).
Proof.
  intros Hc Hdone Hregs. rewrite Evaluate_eq. simpl.
  set (m := Challenge_Handle st false regs _ _).
  assert (stops m) as Hs.
  { apply stops_Challenge; (apply stops_bind; intros ?); [apply stops_Pass|by apply closing_quiet]. }
  assert (∀ w1, gated (passes w1 regs) m w1) as Hg.
  { intros w1. apply gated_Challenge; [|apply moves_bind; [typeclasses eauto|steady|]|done].
    - apply quiet_bind; [quiet|]. intros _. by apply closing_quiet.
    - intros _. by apply growing_Pass, growing_rule_done. }
  split.
  - do 2 (apply gated_bind; [steady|]; intros ? ? _ _ [= <- <-]).
    apply gated_bind; [steady|]; intros [] w1 Hg1 Hr1 [= Hw1]. apply gated_bind; [steady|]; intros [] w2 Hg2 Hr2 [= Hw2].
    apply gated_then.
    + eapply gated_impl; [|apply Hg]. intros w'' Hw''. apply (passes_from w w2); [by etrans|by etrans| |exact Hw''].
      by rewrite <-Hw2, <-Hw1.
    + intros [[] [e|]]; quiet.
    + intros [[] [e|]]; steady.
    + intros ? ? ?. by apply passes_later.
  - do 4 (apply stops_bind; intros ?). intros w1. rewrite bind_run. specialize (Hs w1).
    by destruct (m w1) as [[[] [e|]] w2|].
Qed.

Lemma gated_handleRequest name hash (regs : list Registration) fail rules w :
  closing fail = true → Forall issues_steadily regs →
  gated (passes w regs) (handleRequest st (gate_rule name hash regs fail :: rules)) w.
Proof.
  intros Hc Hregs. unfold handleRequest. apply gated_bind; [steady|]. intros r w0 _ _ [= <- <-].
  destruct (GetBackend st _) as [b|].
  2:{ apply gated_quiet. unfold service_unavailable. quiet. }
  unfold gated. rewrite bind_run. cbn [rule_loop]. rewrite bind_run.
  set (done := rule_callback _ _ _ _ _).
  destruct (gated_gate_rule name hash regs fail done w Hc (growing_rule_callback _ _ _ _) Hregs) as [Hg Hs].
  specialize (Hs w). unfold gated in Hg. destruct (Evaluate st _ done w) as [[[] [e|]] w1|]; simpl in *; try done.
  assert (Hp : quiet (ErrorPage st 500 e "";; @panic bool e)) by quiet. specialize (Hp w1).
  assert (Hgr : growing (ErrorPage st 500 e "";; @panic bool e)) by steady. specialize (Hgr w1).
  revert Hp Hgr. rewrite bind_run. destruct (ErrorPage st 500 e "" w1) as [x w2|x w2]; simpl; intros Hp Hgr;
    (destruct Hg as [Hg|Hg]; [left; congruence|right; by eapply passes_later]).
Qed.

End safety.

(** * Concrete rules *)

Definition demo_rules : list RuleState :=
  [mkRuleState "all" "hash" None "NONE" None_
     [gate_rule "all/gate" "hash2" [open_registration 1%Z "open"] (Deny 403 "hash2")]].
