(* ===== verification/Decision.v ===== *)
(** The decision a rule tree stands for: its first path whose conditions all hold. What
    [RuleState.Evaluate] and [handleRequest] ([lib/rule.go], [lib/http.go]) do step by
    step is compared with that, for policies without actions that change the request and
    go on. *)

From S2P Require Import Prelude GoStrings GoCrypto GoTime NetAddr GoURL Mime UtilsHttp.
From S2P Require Import DecayMap Types Cookie Register State Key Data ResponsePolicy Pages.
From S2P Require Import Effects Action Rule Server JoseDemo DataProps Safety.
From stdpp Require Import options.

Local Open Scope handler_scope.

(** * The abstract decision *)

(** Handlers that answer the request, whatever they find. *)
Fixpoint final (h : Handler) : bool :=
  match h with
  | None_ | Context_ _ => false
  | Challenge_ _ _ cont _ _ pass _ fail => negb cont && final pass && final fail
  | _ => true
  end.

Definition is_none (h : Handler) : bool := match h with None_ => true | _ => false end.

(** Policies in which a rule answers the request or only groups its children. *)
Fixpoint static (rule : RuleState) : bool :=
  match rule with
  | mkRuleState _ _ _ _ h children => (is_none h || final h) && forallb static children
  end.

(** The ways from the root to a rule that answers, in the order of the policy. *)
Fixpoint paths (rule : RuleState) : list (list RuleState) :=
  match rule with
  | mkRuleState _ _ _ _ h children =>
      if is_none h then cons rule <$> flat_map paths children else [[rule]]
  end.

Definition first_path (holds : RuleState → bool) (rules : list RuleState) : option (list RuleState) :=
  snd <$> list_find (λ path, forallb holds path = true) (flat_map paths rules).

(** The rules that are looked at before the decision, in order, with what was found. *)
Fixpoint visits (holds : RuleState → bool) (rule : RuleState) : list (RuleState * bool) :=
  match rule with
  | mkRuleState _ _ _ _ h children =>
      if holds rule then
        (rule, true) ::
        (if is_none h then
           (fix go (cs : list RuleState) : list (RuleState * bool) :=
              match cs with
              | [] => []
              | c :: cs => visits holds c ++ (if bool_decide (first_path holds [c] = None) then go cs else [])
              end) children
         else [])
      else [(rule, false)]
  end.
Fixpoint visit_list (holds : RuleState → bool) (rules : list RuleState) : list (RuleState * bool) :=
  match rules with
  | [] => []
  | c :: cs => visits holds c ++ (if bool_decide (first_path holds [c] = None) then visit_list holds cs else [])
  end.

(** ** Facts *)

Lemma list_find_none {A} (P : A → Prop) `{∀ x, Decision (P x)} l : (∀ x, x ∈ l → ¬ P x) → list_find P l = None.
Proof. intros Hl. apply list_find_None. by apply Forall_forall. Qed.

Section facts.
  Context (holds : RuleState → bool).

Lemma first_path_app rules rules' :
  first_path holds (rules ++ rules') =
    match first_path holds rules with Some p => Some p | None => first_path holds rules' end.
Proof.
  unfold first_path. rewrite flat_map_app. destruct (list_find _ (flat_map paths rules)) as [[i p]|] eqn:Hf.
  - by rewrite (list_find_app_l _ _ _ _ _ Hf).
  - rewrite list_find_app_r by done. by destruct (list_find _ (flat_map paths rules')) as [[]|].
Qed.

Lemma first_path_cons c cs :
  first_path holds (c :: cs) = match first_path holds [c] with Some p => Some p | None => first_path holds cs end.
Proof. apply (first_path_app [c]). Qed.

Lemma first_path_rule rule :
  first_path holds [rule] =
    if holds rule then
      if is_none (rs_Handler rule) then cons rule <$> first_path holds (rs_Children rule) else Some [rule]
    else None.
Proof.
  unfold first_path. cbn [flat_map]. rewrite app_nil_r. destruct rule as [n hash c a h cs]. cbn [paths rs_Handler rs_Children].
  set (rule := mkRuleState n hash c a h cs). destruct (is_none h).
  - rewrite list_find_fmap. destruct (holds rule) eqn:Hr.
    + rewrite (list_find_ext _ (λ path, forallb holds path = true)).
      * by destruct (list_find _ _) as [[]|].
      * intros p. cbn. by rewrite Hr.
    + rewrite list_find_none; [done|]. intros p _. cbn. by rewrite Hr.
  - cbn [list_find forallb]. destruct (holds rule); [by rewrite decide_True|by rewrite decide_False].
Qed.

Lemma visits_rule rule :
  visits holds rule =
    if holds rule then (rule, true) :: (if is_none (rs_Handler rule) then visit_list holds (rs_Children rule) else [])
    else [(rule, false)].
Proof.
  destruct rule as [n hash c a h cs]. cbn [visits rs_Handler rs_Children]. destruct (holds _); [|done]. f_equal.
  destruct (is_none h); [|done]. induction cs as [|x cs IH]; [done|]. cbn [visit_list]. by rewrite <-IH.
Qed.

(** A path that is found is one of the policy: its conditions hold, its rules but the last
    only group, and the last answers; and every path before it has a condition that
    does not hold. *)
Lemma first_path_spec rules path :
  first_path holds rules = Some path ↔
  ∃ before after, flat_map paths rules = before ++ path :: after ∧ forallb holds path = true ∧
    Forall (λ p, forallb holds p = false) before.
Proof.
  unfold first_path. split.
  - destruct (list_find _ _) as [[i p]|] eqn:Hf; [|done]. intros [= ->]. apply list_find_Some in Hf as (Hi & Hp & Hb).
    exists (take i (flat_map paths rules)), (drop (S i) (flat_map paths rules)). split; [by rewrite take_drop_middle|].
    split; [done|]. apply Forall_forall. intros q [j [Hj Hlt]]%elem_of_take. apply not_true_is_false. eauto.
  - intros (before & after & -> & Hp & Hb). rewrite list_find_app_r.
    + cbn. by rewrite decide_True.
    + apply list_find_none. intros q Hq. rewrite Forall_forall in Hb. by rewrite (Hb q Hq).
Qed.

End facts.

(** * What the server does

    The reference: the rules visited are counted, and the handler of the path's last rule
    answers, under the name of its first rule. *)
Section reference.
  Context `{Jose} (st : State).

Definition visit_events (v : RuleState * bool) : list Event :=
  let '(rule, hit) := v in
  if hit then [EvRule (rs_Name rule) "hit"; EvAction (rs_Action rule)] else [EvRule (rs_Name rule) "miss"].

Fixpoint emit_all (evs : list Event) : M unit :=
  match evs with [] => ret () | e :: evs => emit e;; emit_all evs end.

Definition holds (d : RequestData) (r : Request) (rule : RuleState) : bool :=
  match rule_condition rule d r with (Some (CelBool b), None) => b | _ => false end.

(** An error goes up the path. *)
Definition path_error (d : RequestData) (path : list RuleState) (e : goerr) : goerr :=
  foldr (λ rule e, executing_error d (rs_Hash rule) e) e path.

(** What the last rule of a path answers. *)
Definition answer (d : RequestData) (path : list RuleState) (done : Done) : M (option goerr) :=
  match last path with
  | None => ret None
  | Some leaf => res <- Handle st (rs_Handler leaf) (rule_done leaf done);; ret (path_error d path <$> res.2)
  end.

Definition decide_request (rules : list RuleState) : M unit :=
  d <- get_data;; r <- get_req;;
  let host := rq_Host r in
  match GetBackend st host with
  | None => service_unavailable
  | Some backend =>
      emit_all (visit_list (holds d r) rules ≫= visit_events);;
      match first_path (holds d r) rules with
      | Some path =>
          let name := default "" (rs_Name <$> head path) in
          let action := default "" (rs_Action <$> head path) in
          err <- answer d path (rule_callback st host backend name action);;
          match err with
          | Some err => ErrorPage st 500 err "";; panic err
          | None => ret ()
          end
      | None =>
          RuleHit "DEFAULT";; ActionHit RuleActionPASS;;
          Pass_Handle (rule_callback st host backend "DEFAULT" RuleActionPASS);; ret ()
      end
  end.

(** ** Evaluation follows the decision *)

Lemma stops_Handle h done : final h = true → stops (Handle st h done).
Proof.
  induction h as [| |code hash|code hash|status| |opts|m rw be|hash code cont regs pa p IHp fa f IHf]; intros Hf; try done;
    try (by apply (closing_quiet st)).
  - apply stops_Pass.
  - cbn. unfold Proxy_Handle. destruct (GetBackend st be); [|apply stops_ret].
    do 3 (apply stops_bind; intros ?). apply stops_ret.
  - cbn in Hf. apply andb_true_iff in Hf as [[Hc Hp]%andb_true_iff Hf]. destruct cont; [done|].
    apply stops_Challenge; (apply stops_bind; intros _; auto).
Qed.

(** The conditions of a tree are boolean for a request. *)
Definition boolean (d : RequestData) (r : Request) (rule : RuleState) : Prop :=
  ∃ b, rule_condition rule d r = (Some (CelBool b), None).
Inductive subrule : RuleState → RuleState → Prop :=
  | sub_self rule : subrule rule rule
  | sub_child rule c s : c ∈ rs_Children rule → subrule s c → subrule s rule.

Definition with_events (evs : list Event) (w : World) : World := foldl (λ w e, with_event e w) w evs.

Lemma emit_all_run evs w : emit_all evs w = Ret () (with_events evs w).
Proof. revert w. induction evs as [|e evs IH]; intros w; [done|]. cbn. apply IH. Qed.

Lemma with_events_app evs evs' w : with_events (evs ++ evs') w = with_events evs' (with_events evs w).
Proof. apply foldl_app. Qed.

Lemma with_events_data evs w : wd_Data (with_events evs w) = wd_Data w ∧ wd_Req (with_events evs w) = wd_Req w.
Proof. revert w. induction evs as [|e evs IH]; intros w; [done|]. exact (IH (with_event e w)). Qed.

(** The result of a rule or of a list of rules: go on, or the answer of the path. *)
Definition conclude (d : RequestData) (done : Done) (path : option (list RuleState)) : M Next :=
  match path with
  | None => ret (true, None)
  | Some path => err <- answer d path done;; ret (false, err)
  end.

(** The loop over a list of rules that [Evaluate] makes for its children, with the errors
    of each child wrapped by [wrap]. *)
Lemma answer_cons d rule path done w :
  path ≠ [] →
  answer d (rule :: path) done w = bind (answer d path done) (λ err, ret (executing_error d (rs_Hash rule) <$> err)) w.
Proof.
  intros Hp. unfold answer. destruct path as [|x path]; [done|]. change (last (rule :: x :: path)) with (last (x :: path)).
  destruct (last (x :: path)) as [leaf|] eqn:Hl; [|by apply last_None in Hl].
  rewrite !bind_run. destruct (Handle st _ _ w) as [[b e] w1|]; [|done]. cbn. by destruct e.
Qed.

Lemma answer_one d rule done w :
  answer d [rule] done w =
    bind (Handle st (rs_Handler rule) (rule_done rule done)) (λ res, ret (executing_error d (rs_Hash rule) <$> res.2)) w.
Proof. unfold answer. cbn [last]. rewrite !bind_run. by destruct (Handle st _ _ w) as [[b [e|]] w1|]. Qed.

Lemma first_path_nonempty (hs : RuleState → bool) rules path : first_path hs rules = Some path → path ≠ [].
Proof.
  intros (b & a & Hp & _)%first_path_spec. assert (Hin : path ∈ flat_map paths rules) by (rewrite Hp; set_solver).
  apply list_elem_of_In, in_flat_map in Hin as (rule & _ & Hin%list_elem_of_In). destruct rule as [n hash c act h cs].
  cbn [paths] in Hin. destruct (is_none h); [|by apply list_elem_of_singleton in Hin as ->].
  by apply list_elem_of_fmap in Hin as (p & -> & _).
Qed.

(** What is proved of one rule. *)
Definition follows (d : RequestData) (r : Request) (rule : RuleState) : Prop := ∀ done w,
  wd_Data w = d → wd_Req w = r →
  Evaluate st rule done w =
    conclude d done (first_path (holds d r) [rule]) (with_events (visits (holds d r) rule ≫= visit_events) w).

Lemma follows_children d r cs hash done w :
  Forall (follows d r) cs → wd_Data w = d → wd_Req w = r →
  evaluate_children st d hash done cs w =
    bind (conclude d done (first_path (holds d r) cs))
      (λ res, ret (res.1, executing_error d hash <$> res.2)) (with_events (visit_list (holds d r) cs ≫= visit_events) w).
Proof.
  intros Hcs. revert w. induction Hcs as [|c cs Hc _ IH]; intros w Hd Hr; [done|].
  cbn [evaluate_children visit_list]. rewrite bind_run, Hc by done. rewrite bind_app, (first_path_cons _ c cs).
  destruct (first_path (holds d r) [c]) as [path|] eqn:Hp.
  - rewrite bool_decide_false by done. cbn [mbind list_bind]. rewrite app_nil_r. cbn [conclude].
    set (w1 := with_events _ w). rewrite !bind_run. by destruct (answer d path done w1) as [[e|] w2|].
  - rewrite bool_decide_true by done. rewrite with_events_app. set (w1 := with_events (visits _ c ≫= _) w).
    cbn [conclude]. cbn [ret]. destruct (with_events_data (visits (holds d r) c ≫= visit_events) w) as [Hd1 Hr1].
    apply IH; [exact (eq_trans Hd1 Hd)|exact (eq_trans Hr1 Hr)].
Qed.

Lemma Evaluate_follows d r rule :
  static rule = true → (∀ s, subrule s rule → boolean d r s) → follows d r rule.
Proof.
  induction rule as [n hash c a h cs IH] using RuleState_ind'. intros Hs Hb done w Hd Hr.
  set (rule := mkRuleState n hash c a h cs) in *. rewrite Evaluate_eq, visits_rule, first_path_rule.
  rewrite bind_run. cbn [get_data]. rewrite bind_run. cbn [get_req]. rewrite Hd, Hr.
  destruct (Hb rule (sub_self rule)) as [b Hc]. assert (Hh : holds d r rule = b) by (unfold holds; by rewrite Hc).
  rewrite !Hh, Hc. destruct b; [|by rewrite bind_run; cbn [RuleMiss emit]]. clear Hh.
  cbn [rs_Handler rs_Children rs_Name rs_Action rule]. cbn [static] in Hs. apply andb_true_iff in Hs as [Hh Hcs].
  do 2 (rewrite bind_run; cbn [RuleHit ActionHit emit]). rewrite bind_run. set (w1 := with_event (EvAction a) _).
  destruct (is_none h) eqn:Hn.
  - destruct h; try done. cbn [Handle ret]. rewrite (follows_children d r); [|clear -IH Hcs Hb|done..].
    + change (((rule, true) :: visit_list (holds d r) cs) ≫= visit_events) with
        ([EvRule n "hit"; EvAction a] ++ (visit_list (holds d r) cs ≫= visit_events)).
      rewrite with_events_app. fold w1. set (w2 := with_events _ w1).
      change (with_events [EvRule n "hit"; EvAction a] w) with w1. fold w2.
      destruct (first_path (holds d r) cs) as [path|] eqn:Hp; [|done]. cbn [fmap option_fmap option_map conclude].
      rewrite !bind_run, answer_cons by (by eapply first_path_nonempty). rewrite !bind_run.
      by destruct (answer d path done w2) as [[e|] w3|].
    + rewrite forallb_forall in Hcs. apply Forall_forall. intros x Hx. rewrite Forall_forall in IH. apply IH; [done| |].
      * by apply Hcs, list_elem_of_In.
      * intros s Hsx. apply Hb. by eapply sub_child.
  - cbn [orb] in Hh. change (with_events ([(rule, true)] ≫= visit_events) w) with w1. cbn [conclude].
    rewrite bind_run, answer_one, bind_run. change (rs_Handler rule) with h. pose proof (stops_Handle h (rule_done rule done) Hh w1) as Hst.
    by destruct (Handle st h (rule_done rule done) w1) as [[[] [e|]] w2|].
Qed.

Lemma rule_loop_follows d r host backend rules w :
  Forall (λ rule, static rule = true ∧ ∀ s, subrule s rule → boolean d r s) rules → wd_Data w = d → wd_Req w = r →
  rule_loop st host backend rules w =
    (let w := with_events (visit_list (holds d r) rules ≫= visit_events) w in
     match first_path (holds d r) rules with
     | None => Ret true w
     | Some path =>
         bind (answer d path (rule_callback st host backend (default "" (rs_Name <$> head path)) (default "" (rs_Action <$> head path))))
           (λ err, match err with Some err => ErrorPage st 500 err "";; panic err | None => ret false end) w
     end).
Proof.
  intros Hrules. revert w. induction Hrules as [|rule rules [Hs Hb] _ IH]; intros w Hd Hr; [done|].
  cbn [rule_loop visit_list]. rewrite bind_run, (Evaluate_follows d r) by done. rewrite bind_app, (first_path_cons _ rule rules).
  destruct (first_path (holds d r) [rule]) as [path|] eqn:Hp.
  - rewrite bool_decide_false by done. cbn [mbind list_bind]. rewrite app_nil_r. cbn [conclude].
    assert (Hhead : head path = Some rule).
    { rewrite first_path_rule in Hp. destruct (holds d r rule); [|done]. destruct (is_none _); [|by injection Hp as <-].
      destruct (first_path _ (rs_Children rule)); [|done]. by injection Hp as <-. }
    rewrite Hhead. cbn [fmap option_fmap option_map default]. set (w1 := with_events _ w). rewrite !bind_run.
    by destruct (answer d path _ w1) as [[e|] w2|].
  - rewrite bool_decide_true by done. rewrite with_events_app. cbn [conclude ret].
    destruct (with_events_data (visits (holds d r) rule ≫= visit_events) w) as [Hd1 Hr1].
    apply IH; [exact (eq_trans Hd1 Hd)|exact (eq_trans Hr1 Hr)].
Qed.

Lemma handleRequest_follows rules w :
  Forall (λ rule, static rule = true ∧ ∀ s, subrule s rule → boolean (wd_Data w) (wd_Req w) s) rules →
  handleRequest st rules w = decide_request rules w.
Proof.
  intros Hrules. unfold handleRequest, decide_request. rewrite bind_run. cbn [get_req].
  rewrite bind_run. cbn [get_data]. rewrite bind_run. cbn [get_req].
  destruct (GetBackend st _) as [backend|]; [|done]. rewrite !bind_run.
  rewrite (rule_loop_follows (wd_Data w) (wd_Req w)) by done. rewrite emit_all_run. cbv zeta.
  set (w1 := with_events _ w). destruct (first_path _ rules) as [path|]; [|done].
  rewrite !bind_run. set (m := answer _ _ _). destruct (m w1) as [[err|] w2|]; [|done..].
  rewrite !bind_run. by destruct (ErrorPage st 500 err "" w2).
Qed.

(** ** Who is served *)

(** A handler that may hand the request to a backend. *)
Fixpoint can_pass (h : Handler) : bool :=
  match h with
  | Pass | Proxy _ _ _ => true
  | Challenge_ _ _ _ _ _ pass _ fail => can_pass pass || can_pass fail
  | _ => false
  end.

(** When a handler may hand over the request of a client that has or gets the
    challenges of [valid]. *)
Definition admits (valid : Registration → Prop) (h : Handler) : Prop :=
  match h with
  | Challenge_ _ _ _ regs _ pass _ fail =>
      can_pass pass = true ∧ (∃ reg, reg ∈ regs ∧ valid reg) ∨ can_pass fail = true
  | _ => can_pass h = true
  end.

(** Challenges that count for the request of [w], in a run that ends in [w'], issuance
    included. *)
Definition counts (w w' : World) (reg : Registration) : Prop :=
  HasValidChallenge (wd_Data w) (reg_id reg) = true ∨ passed_now st w reg w'.

Lemma counts_later w w1 w2 reg : grows w1 w2 → counts w w1 reg → counts w w2 reg.
Proof. intros Hg [Hv|Hp]; [by left|right]. by eapply passed_now_weaken. Qed.

Lemma counts_from w0 w w' reg :
  grows w0 w → wd_Req w = wd_Req w0 → wd_Data w = wd_Data w0 → counts w w' reg → counts w0 w' reg.
Proof. intros Hg Hr Hd [Hv|Hp]; [left; congruence|right]. by eapply passed_now_weaken. Qed.

Lemma admits_mono (valid valid' : Registration → Prop) h :
  (∀ reg, valid reg → valid' reg) → admits valid h → admits valid' h.
Proof.
  intros Hv. destruct h; try done. intros [[Hc (reg & Hin & Hr)]|Hc]; [left|by right]. split; [done|]. exists reg. auto.
Qed.

Lemma quiet_issue_loop cont pass fail regs :
  quiet pass → quiet fail → Forall issues_steadily regs → quiet (issue_loop st cont pass fail regs).
Proof.
  intros Hp Hf Hregs. induction Hregs as [|reg regs Hr Hregs IH]; cbn [issue_loop]; [done|].
  apply quiet_bind; [quiet|]. intros d. destruct (not_due d reg); [done|].
  apply quiet_bind; [by apply quiet_issue_one|]. intros result. apply quiet_bind; [quiet|]. intros r.
  destruct result; try done.
  - case_bool_decide; [done|quiet].
  - apply quiet_bind; [quiet|]. intros _. by case_bool_decide.
  - apply quiet_bind; [quiet|]. intros _. destruct cont; [quiet|done].
Qed.

Lemma quiet_Challenge cont pass fail regs :
  quiet pass → quiet fail → Forall issues_steadily regs → quiet (Challenge_Handle st cont regs pass fail).
Proof.
  intros Hp Hf Hregs. unfold Challenge_Handle. do 2 (apply quiet_bind; [quiet|]; intros ?).
  destruct (list_find _ _) as [[i reg]|]; [|by apply quiet_issue_loop].
  apply quiet_bind; [quiet|]. intros _. destruct cont; [quiet|done].
Qed.

Lemma quiet_Handle h done :
  final h = true → can_pass h = false → Forall issues_steadily (handler_regs h) → quiet (Handle st h done).
Proof.
  induction h as [| |code hash|code hash|status| |opts|m rw be|hash code cont regs pa p IHp fa f IHf]; intros Hf Hc Hregs;
    try done; try (by apply (closing_quiet st)).
  cbn in Hf, Hc, Hregs |- *. apply andb_true_iff in Hf as [[_ Hp]%andb_true_iff Hf]. apply orb_false_iff in Hc as [Hcp Hcf].
  rewrite !Forall_app in Hregs. destruct Hregs as (Hregs & ? & ?).
  apply quiet_Challenge; [..|done]; (apply quiet_bind; [quiet|auto]).
Qed.

Lemma gated_Handle h done w :
  final h = true → growing done → Forall issues_steadily (handler_regs h) →
  gated (λ w', admits (counts w w') h) (Handle st h done) w.
Proof.
  intros Hf Hd Hregs. destruct (can_pass h) eqn:Hc; [|by apply gated_quiet, quiet_Handle].
  destruct h as [| |code hash|code hash|status| |opts|m rw be|hash code cont regs pa p fa f]; try done; try by right.
  cbn in Hf, Hc, Hregs |- *. apply andb_true_iff in Hf as [[Hcont Hp]%andb_true_iff Hf].
  destruct cont; [done|]. rewrite !Forall_app in Hregs. destruct Hregs as (Hregs & Hrp & Hrf).
  destruct (can_pass f) eqn:Hcf; [right; by right|]. rewrite orb_false_r in Hc.
  eapply gated_impl; [|apply gated_Challenge; [| |done]].
  - intros w' (reg & Hin & Hreg). left. split; [done|]. by exists reg.
  - apply quiet_bind; [quiet|]. intros _. by apply quiet_Handle.
  - pose proof (growing_Handle st p done Hd Hrp). steady.
Qed.

Lemma path_leaf_spec (hs : RuleState → bool) rules path leaf :
  Forall (λ rule, static rule = true) rules → first_path hs rules = Some path → last path = Some leaf →
  final (rs_Handler leaf) = true ∧
  ∀ reg, reg ∈ handler_regs (rs_Handler leaf) → ∃ rule, rule ∈ rules ∧ reg ∈ rule_regs rule.
Proof.
  intros Hrules (b & a & Hp & _)%first_path_spec Hl.
  assert (Hin : path ∈ flat_map paths rules) by (rewrite Hp; set_solver).
  apply list_elem_of_In, in_flat_map in Hin as (rule & Hrule%list_elem_of_In & Hin%list_elem_of_In). clear b a Hp.
  rewrite Forall_forall in Hrules. pose proof (Hrules rule Hrule) as Hs. clear Hrules.
  assert (Hgoal : final (rs_Handler leaf) = true ∧
    ∀ reg, reg ∈ handler_regs (rs_Handler leaf) → reg ∈ rule_regs rule);
    [|destruct Hgoal as [? Hreg]; split; [done|]; intros reg Hr; exists rule; split; [done|by apply Hreg]].
  clear Hrule rules. revert path Hin Hl Hs. induction rule as [n hash c act h cs IH] using RuleState_ind'.
  intros path Hin Hl Hs. cbn [paths] in Hin. cbn [static] in Hs. apply andb_true_iff in Hs as [Hh Hcs].
  cbn [rule_regs]. destruct (is_none h).
  - apply list_elem_of_fmap in Hin as (q & -> & Hq). apply list_elem_of_In, in_flat_map in Hq as (x & Hx & Hq%list_elem_of_In).
    rewrite forallb_forall in Hcs. specialize (Hcs x Hx). rewrite Forall_forall in IH.
    destruct q as [|y q].
    { destruct x as [xn xhash xc xa xh xcs]. cbn [paths] in Hq. destruct (is_none xh).
      - by apply list_elem_of_fmap in Hq as (? & ? & _).
      - by apply list_elem_of_singleton in Hq. }
    destruct (IH x (proj2 (list_elem_of_In _ _) Hx) (y :: q) Hq Hl Hcs) as [Hf Hreg]. split; [done|].
    intros reg Hr. apply elem_of_app. right. apply list_elem_of_In, in_flat_map. exists x.
    split; [done|]. by apply list_elem_of_In, Hreg.
  - apply list_elem_of_singleton in Hin as ->. injection Hl as <-. split; [done|]. intros reg Hr. apply elem_of_app. by left.
Qed.

(** What a path admits: what its last rule does; without one the request is passed. *)
Definition path_admits (valid : Registration → Prop) (path : option (list RuleState)) : Prop :=
  match path with
  | None => True
  | Some path => ∃ leaf, last path = Some leaf ∧ admits valid (rs_Handler leaf)
  end.

Lemma path_admits_impl (valid valid' : Registration → Prop) rules (hs : RuleState → bool) :
  Forall (λ rule, static rule = true) rules →
  (∀ rule reg, rule ∈ rules → reg ∈ rule_regs rule → valid reg → valid' reg) →
  path_admits valid (first_path hs rules) → path_admits valid' (first_path hs rules).
Proof.
  intros Hs Hv. destruct (first_path hs rules) as [path|] eqn:Hp; [|done]. intros (leaf & Hl & Ha).
  exists leaf. split; [done|]. pose proof (path_leaf_spec _ _ _ _ Hs Hp Hl) as [_ Hreg].
  destruct (rs_Handler leaf); try done. destruct Ha as [[Hc (reg & Hin & Ha)]|Ha]; [left|by right].
  split; [done|]. exists reg. split; [done|]. destruct (Hreg reg) as (rule & Hrule & Hr); [|by eapply Hv].
  cbn [handler_regs]. rewrite elem_of_app. by left.
Qed.

Lemma path_admits_mono (valid valid' : Registration → Prop) path :
  (∀ reg, valid reg → valid' reg) → path_admits valid path → path_admits valid' path.
Proof.
  intros Hv. destruct path as [path|]; [|done]. intros (leaf & Hl & Ha). exists leaf. split; [done|]. by eapply admits_mono.
Qed.

Lemma gated_answer d path done w rules :
  Forall (λ rule, static rule = true) rules → Forall (λ rule, Forall issues_steadily (rule_regs rule)) rules →
  growing done → first_path (holds d (wd_Req w)) rules = Some path →
  gated (λ w', path_admits (counts w w') (Some path)) (answer d path done) w.
Proof.
  intros Hs Hregs Hdone Hp. unfold answer. destruct (last path) as [leaf|] eqn:Hl; [|by apply gated_quiet].
  destruct (path_leaf_spec _ _ _ _ Hs Hp Hl) as [Hf Hreg]. apply gated_then.
  - eapply gated_impl; [|apply (gated_Handle (rs_Handler leaf) (rule_done leaf done) w Hf)].
    + intros w' Hw'. by exists leaf.
    + by apply growing_rule_done.
    + apply Forall_forall. intros reg Hr. destruct (Hreg reg Hr) as (rule & Hrule & Hin).
      rewrite Forall_forall in Hregs. specialize (Hregs rule Hrule). rewrite Forall_forall in Hregs. by apply Hregs.
  - quiet.
  - steady.
  - intros w1 w2 Hg. apply path_admits_mono. intros reg. by apply counts_later.
Qed.

Lemma grows_with_events evs w : grows w (with_events evs w).
Proof.
  revert w. induction evs as [|e evs IH]; intros w; [reflexivity|]. etrans; [|exact (IH (with_event e w))].
  exact (growing_emit e w).
Qed.

Lemma served_with_events evs w : served (with_events (evs ≫= visit_events) w) = served w.
Proof.
  revert w. induction evs as [|[rule hit] evs IH]; intros w; [done|]. rewrite bind_cons, with_events_app, IH. destruct hit.
  - assert (Hq : quiet (RuleHit (rs_Name rule);; ActionHit (rs_Action rule))) by quiet. exact (Hq w).
  - assert (Hq : quiet (RuleMiss (rs_Name rule))) by quiet. exact (Hq w).
Qed.

Lemma gated_decide rules w :
  Forall (λ rule, static rule = true) rules → Forall (λ rule, Forall issues_steadily (rule_regs rule)) rules →
  gated (λ w', path_admits (counts w w') (first_path (holds (wd_Data w) (wd_Req w)) rules)) (decide_request rules) w.
Proof.
  intros Hs Hregs. unfold decide_request. do 2 (apply gated_bind; [steady|]; intros ? ? _ _ [= <- <-]).
  destruct (GetBackend st _) as [backend|].
  2:{ apply gated_quiet. unfold service_unavailable. quiet. }
  unfold gated. rewrite bind_run, emit_all_run. rewrite <-(served_with_events (visit_list (holds (wd_Data w) (wd_Req w)) rules) w).
  destruct (with_events_data (visit_list (holds (wd_Data w) (wd_Req w)) rules ≫= visit_events) w) as [Hd Hr].
  pose proof (grows_with_events (visit_list (holds (wd_Data w) (wd_Req w)) rules ≫= visit_events) w) as Hg.
  set (w1 := with_events _ w) in *. destruct (first_path _ rules) as [path|] eqn:Hp; [|by right].
  match goal with |- served (world_of (?x w1)) = _ ∨ _ => set (m := x) end.
  assert (Hm : gated (λ w', path_admits (counts w1 w') (Some path)) m w1).
  2:{ destruct Hm as [Hm|Hm]; [by left|right]. revert Hm. apply path_admits_mono. intros reg. by apply counts_from. }
  apply gated_then.
  - rewrite <-Hr in Hp. apply (gated_answer _ _ _ _ rules); [done..|apply growing_rule_callback|exact Hp].
  - intros [err|]; quiet.
  - intros [err|]; steady.
  - intros w2 w3 Hg'. apply path_admits_mono. intros reg. by apply counts_later.
Qed.

End reference.

(** * Properties *)

(** C40: The server does for a request exactly what the policy, read as a decision, says:
    the ways from the root of the rule tree to a rule that answers are tried in
    document order, the first one whose conditions all hold decides, its last rule
    answers under the name and action of its first (an error goes up along it, is
    shown and ends the request), and without one the request is passed; the rules
    counted are those looked at up to there. This is for policies in which a rule
    answers or only groups its children, with boolean conditions. *)
Theorem handleRequest_decides `{Jose} (st : State) (rules : list RuleState) (w : World)
    (Hstatic : Forall (λ rule, static rule = true) rules)
    (Hboolean : ∀ rule s, rule ∈ rules → subrule s rule → boolean (wd_Data w) (wd_Req w) s) :
  handleRequest st rules w = decide_request st rules w.
Proof.
  apply handleRequest_follows, Forall_forall. intros rule Hrule. split; [|by intros s; apply Hboolean].
  rewrite Forall_forall in Hstatic. by apply Hstatic.
Qed.

(** A policy: robots are denied; below the site's rule the administration does not exist
    and the rest passes. *)
Definition demo_condition (b : bool) : option Program := Some (λ _, (Some (CelBool b), None)).
Definition demo_admin (b : bool) : RuleState := mkRuleState "site/admin" "h2" (demo_condition b) "CODE" (Code 404) [].
Definition demo_tree (b : bool) : list RuleState :=
  [mkRuleState "bots" "h0" (demo_condition false) "DENY" (Deny 403 "h0") [];
   mkRuleState "site" "h1" None "NONE" None_ [demo_admin b; mkRuleState "site/all" "h3" None "PASS" Pass []]].

Lemma subrule_cases s rule : subrule s rule → s = rule ∨ ∃ c, c ∈ rs_Children rule ∧ subrule s c.
Proof. intros [|? c]; [by left|right; by exists c]. Qed.

Lemma demo_tree_boolean b d r rule s : rule ∈ demo_tree b → subrule s rule → boolean d r s.
Proof.
  unfold demo_tree. rewrite !elem_of_cons, elem_of_nil. intros [->|[->|[]]] [->|(c & Hc & Hs)]%subrule_cases;
    [by exists false|by apply elem_of_nil in Hc|by exists true|].
  revert Hc. cbn [rs_Children]. rewrite !elem_of_cons, elem_of_nil. intros [->|[->|[]]];
    apply subrule_cases in Hs as [->|(c & Hc & _)]; try (by apply elem_of_nil in Hc); [by exists b|by exists true].
Qed.

Lemma handleRequest_decides_witness :
  (λ res, omap (λ e, match e with EvRule n h => Some (n, h) | _ => None end) (wd_Trace (world_of res)))
    (handleRequest demo_server (demo_tree true) demo_start) =
      [("bots", "miss"); ("site", "hit"); ("site/admin", "hit")] ∧
  fst <$> w_Final (wd_W (world_of (handleRequest demo_server (demo_tree true) demo_start))) = Some 404%Z.
Proof.
  rewrite (handleRequest_decides demo_server (demo_tree true) demo_start).
  - split; vm_compute; reflexivity.
  - by repeat constructor.
  - intros rule s. apply demo_tree_boolean.
Defined.
