(* ===== verification/InOrder.v ===== *)
(** A policy in document order: all its rules, whatever they do, one after the other. What
    [RuleState.Evaluate] does by recursion over the tree ([lib/rule.go]) and [handleRequest]
    over its roots ([lib/http.go]) is one scan of that list. *)

From S2P Require Import Prelude GoStrings GoCrypto GoTime NetAddr GoURL Mime UtilsHttp.
From S2P Require Import DecayMap Types Cookie Register State Key Data ResponsePolicy Pages.
From S2P Require Import Effects Action Rule Server JoseDemo DataProps Safety Decision.
From stdpp Require Import options.

Local Open Scope handler_scope.

(** * The list *)

(** A rule and those below it, in the order of the text, each with its depth. *)
Fixpoint listing (depth : nat) (rule : RuleState) : list (nat * RuleState) :=
  match rule with
  | mkRuleState _ _ _ _ _ children => (depth, rule) :: flat_map (listing (S depth)) children
  end.

Definition document (rules : list RuleState) : list (nat * RuleState) := flat_map (listing 0) rules.

(** * The scan *)

(** What a condition says of a request. *)
Inductive Verdict := Holds | Misses | SaysNothing | Fails (e : goerr).

Definition verdict (d : RequestData) (r : Request) (rule : RuleState) : Verdict :=
  match rule_condition rule d r with
  | (_, Some e) => Fails e
  | (None, None) => SaysNothing
  | (Some (CelOther t), None) => Fails (ENew ("return type not Bool, got " +:+ t))
  | (Some (CelBool true), None) => Holds
  | (Some (CelBool false), None) => Misses
  end.

(** The rules around the one at hand, innermost first, with the data they were evaluated
    with. An error is reported by each of them. *)
Abbreviation Above := (list (RuleState * RequestData)).
Definition reported (above : Above) (e : goerr) : goerr :=
  foldl (λ e (rd : RuleState * RequestData), executing_error rd.2 (rs_Hash rd.1) e) e above.

(** The outermost rule. *)
Definition outermost (above : Above) (rule : RuleState) : RuleState := default rule (fst <$> last above).

Section scan.
  Context `{Jose} (st : State).
  (** What happens when the request is handed over below an outermost rule. *)
  Context (callback : RuleState → Done).

(** [skip]: the depth of a rule that did not hold, whose descendants are left out. *)
Definition left_out (skip : option nat) (depth : nat) : bool :=
  match skip with Some n => (n <? depth)%nat | None => false end.

Fixpoint scan (skip : option nat) (above : Above) (todo : list (nat * RuleState)) : M Next :=
  match todo with
  | [] => ret (true, None)
  | (depth, rule) :: todo =>
      if left_out skip depth then scan skip above todo
      else
        let above := drop (length above - depth) above in
        d <- get_data;; r <- get_req;;
        match verdict d r rule with
        | Fails e => ret (false, Some (reported above (evaluating_error d (rs_Hash rule) e)))
        | SaysNothing => scan (Some depth) above todo
        | Misses => RuleMiss (rs_Name rule);; scan (Some depth) above todo
        | Holds =>
            RuleHit (rs_Name rule);;
            ActionHit (rs_Action rule);;
            res <- Handle st (rs_Handler rule) (rule_done rule (callback (outermost above rule)));;
            match res with
            | (_, Some e) => ret (false, Some (reported above (executing_error d (rs_Hash rule) e)))
            | (false, None) => ret (false, None)
            | (true, None) => scan None ((rule, d) :: above) todo
            end
        end
  end.

(** ** Facts *)

(** A list that goes on at a depth of [n] or less. *)
Definition goes_on (n : nat) (todo : list (nat * RuleState)) : Prop :=
  match todo with [] => True | (m, _) :: _ => m ≤ n end.

(** Whatever was done below a rule is forgotten behind it. *)
Lemma scan_resume skip extra above n todo :
  length above = n → left_out skip n = false → goes_on n todo → scan skip (extra ++ above) todo = scan None above todo.
Proof.
  intros Hlen Hskip Ht. destruct todo as [|[m rule] todo]; [done|]. cbn [scan goes_on] in *.
  assert (left_out skip m = false) as ->.
  { destruct skip as [k|]; [|done]. cbn in *. apply Nat.ltb_ge. apply Nat.ltb_ge in Hskip. lia. }
  cbn [left_out]. assert (drop (length (extra ++ above) - m) (extra ++ above) = drop (length above - m) above) as ->; [|done].
  rewrite length_app, drop_app_ge by lia. f_equal. lia.
Qed.

(** What follows a rule, given how it ended. *)
Definition finish (above : Above) (todo : list (nat * RuleState)) (res : Next) : M Next :=
  match res with
  | (_, Some e) => ret (false, Some (reported above e))
  | (false, None) => ret (false, None)
  | (true, None) => scan None above todo
  end.

Lemma outermost_cons rule d above c : outermost ((rule, d) :: above) c = outermost above rule.
Proof. unfold outermost. rewrite last_cons. by destruct (last above). Qed.

Definition scanned (rule : RuleState) : Prop := ∀ above todo w,
  goes_on (length above) todo →
  scan None above (listing (length above) rule ++ todo) w =
    bind (Evaluate st rule (callback (outermost above rule))) (finish above todo) w.

Lemma goes_on_children n cs todo : goes_on n todo → goes_on (S n) (flat_map (listing (S n)) cs ++ todo).
Proof.
  intros Ht. destruct cs as [|[a b c x h l] cs]; [|cbn; lia]. cbn [flat_map app]. destruct todo as [|[m r] todo]; [done|]. unfold goes_on in *. lia.
Qed.

Lemma scan_children rule d above cs todo w :
  Forall scanned cs → goes_on (length above) todo →
  scan None ((rule, d) :: above) (flat_map (listing (S (length above))) cs ++ todo) w =
    bind (evaluate_children st d (rs_Hash rule) (callback (outermost above rule)) cs) (finish above todo) w.
Proof.
  intros Hcs Ht. revert w. induction Hcs as [|c cs Hc _ IH]; intros w.
  - cbn [flat_map app evaluate_children]. rewrite bind_run. cbn [ret finish].
    by rewrite (scan_resume None [(rule, d)] above (length above)).
  - cbn [flat_map evaluate_children]. rewrite <-(assoc_L (++)).
    rewrite (Hc ((rule, d) :: above)) by (by apply goes_on_children). rewrite outermost_cons, !bind_run.
    destruct (Evaluate st c _ w) as [[[] [e|]] w1|]; try done. cbn [finish]. by rewrite IH, bind_run.
Qed.

Lemma listing_depth rule : ∀ n e, e ∈ listing n rule → n ≤ e.1.
Proof.
  induction rule as [na h c a hd cs IH] using RuleState_ind'. intros n e. cbn [listing]. intros [->|Hin]%elem_of_cons; [done|].
  apply list_elem_of_In, in_flat_map in Hin as (x & Hx%list_elem_of_In & Hin%list_elem_of_In).
  rewrite Forall_forall in IH. specialize (IH x Hx _ _ Hin). lia.
Qed.

Lemma scan_rule rule : scanned rule.
Proof.
  induction rule as [n h c a hd cs IH] using RuleState_ind'. intros above todo w Ht.
  set (rule := mkRuleState n h c a hd cs) in *. rewrite Evaluate_eq.
  change (listing (length above) rule) with ((length above, rule) :: flat_map (listing (S (length above))) cs).
  rewrite <-app_comm_cons. cbn [scan left_out]. rewrite Nat.sub_diag, drop_0.
  rewrite !bind_run. cbn [get_data]. rewrite !bind_run. cbn [get_req]. set (d := wd_Data w). set (r := wd_Req w).
  assert (Hskip : ∀ w, scan (Some (length above)) above (flat_map (listing (S (length above))) cs ++ todo) w = scan None above todo w).
  { intros w1. transitivity (scan (Some (length above)) above todo w1).
    - clear IH. assert (Hall : Forall (λ e, length above < e.1) (flat_map (listing (S (length above))) cs)).
      { apply Forall_forall. intros e He. apply list_elem_of_In, in_flat_map in He as (x & _ & He%list_elem_of_In).
        by apply listing_depth in He. }
      induction Hall as [|[m x] l Hm _ IHl]; [done|]. cbn [app scan]. cbn [left_out]. cbn in Hm.
      by rewrite (proj2 (Nat.ltb_lt _ _) Hm).
    - by rewrite (scan_resume (Some (length above)) [] above (length above)) by (done || cbn; apply Nat.ltb_irrefl). }
  unfold verdict. destruct (rule_condition rule d r) as [[[[]|t]|] [e|]]; try (done || apply Hskip).
  do 2 (rewrite !bind_run; cbn [RuleHit ActionHit emit]). rewrite !bind_run.
  change (rs_Hash rule) with h. change (rs_Handler rule) with hd. change (rs_Children rule) with cs.
  destruct (Handle st hd _ _) as [[[] [e|]] w1|]; try done. exact (scan_children rule d above cs todo w1 IH Ht).
Qed.

End scan.

(** * The server *)

Section server.
  Context `{Jose} (st : State).

(** What is not handed over by a rule is passed on, as the default; an error of a rule is shown and ends the
    request. *)
Definition handle_in_order (rules : list RuleState) : M unit :=
  r <- get_req;;
  let host := rq_Host r in
  match GetBackend st host with
  | None => service_unavailable
  | Some backend =>
      res <- scan st (λ rule, rule_callback st host backend (rs_Name rule) (rs_Action rule)) None [] (document rules);;
      match res with
      | (_, Some err) => ErrorPage st 500 err "";; panic err
      | (false, None) => ret ()
      | (true, None) =>
          RuleHit "DEFAULT";; ActionHit RuleActionPASS;;
          Pass_Handle (rule_callback st host backend "DEFAULT" RuleActionPASS);; ret ()
      end
  end.

Lemma rule_loop_scan host backend rules w :
  rule_loop st host backend rules w =
    bind (scan st (λ rule, rule_callback st host backend (rs_Name rule) (rs_Action rule)) None [] (document rules))
      (λ res, match res with
              | (_, Some err) => ErrorPage st 500 err "";; panic err
              | (next, None) => ret next
              end) w.
Proof.
  revert w. induction rules as [|rule rules IH]; intros w; [done|]. unfold document. cbn [rule_loop flat_map].
  assert (Hgo : goes_on 0 (document rules)) by (by (destruct rules as [|[] rules]; [done|cbn; lia])).
  rewrite !bind_run. change (flat_map (listing 0) rules) with (document rules).
  pose proof (scan_rule st (λ rule, rule_callback st host backend (rs_Name rule) (rs_Action rule)) rule [] (document rules) w Hgo) as Hs.
  cbn [length] in Hs. rewrite Hs, bind_run. unfold outermost. cbn [last fmap option_fmap option_map default].
  destruct (Evaluate st rule _ w) as [[[] [e|]] w1|]; (done || apply IH).
Qed.

End server.

(** * Properties *)

(** C3: The server does for a request what its policy says in document order, whatever its
    rules do: they are taken one after the other; the condition of each is evaluated on the
    request as the rules before it left it; a rule that does not hold, or says nothing, is left
    out with all below it; one that holds acts, in the name of the outermost rule around it, and the
    request goes on to the next rule of the text if the action lets it (NONE, CONTEXT, a CHECK that
    passed). The first action that does not decides. An error, of a condition, one whose value is
    not boolean included, or of an action, is reported along the rules around it, shown, and
    ends the request. A request that no rule decides is passed. *)
Theorem handleRequest_in_order `{Jose} (st : State) (rules : list RuleState) (w : World) :
  handleRequest st rules w = handle_in_order st rules w.
Proof.
  unfold handleRequest, handle_in_order. rewrite !bind_run. cbn [get_req]. destruct (GetBackend st _) as [backend|]; [|done].
  rewrite bind_run, rule_loop_scan, !bind_run.
  destruct (scan st _ None [] (document rules) w) as [[[] [e|]] w1|]; try done;
    rewrite !bind_run; by destruct (ErrorPage st 500 e "" w1).
Qed.

(** A policy of the kinds the decision of [Decision] leaves aside: options for all requests, a check
    that a client has not passed, and a rule below another whose condition is no boolean. *)
Definition demo_document : list RuleState :=
  [mkRuleState "options" "h0" None "CONTEXT" (Context_ (mkContextSettings [("proxy-meta-tags", "true")] [] [])) [];
   mkRuleState "site" "h1" None "NONE" None_
     [mkRuleState "site/check" "h2" (demo_condition false) "CHECK" (Challenge_ "h2" 0 true [] "PASS" Pass "DENY" (Deny 403 "h2")) [];
      mkRuleState "site/odd" "h3" (Some (λ _, (Some (CelOther "int"), None))) "PASS" Pass []];
   mkRuleState "rest" "h4" None "PASS" Pass []].

Example in_order1 :
  let w := world_of (handleRequest demo_server demo_document demo_start) in
  (λ e : nat * RuleState, (e.1, rs_Name e.2)) <$> document demo_document =
    [(0, "options"); (0, "site"); (1, "site/check"); (1, "site/odd"); (0, "rest")] ∧
  omap (λ e, match e with EvRule n h => Some (n, h) | _ => None end) (wd_Trace w) =
    [("options", "hit"); ("site", "hit"); ("site/check", "miss")] ∧
  fst <$> w_Final (wd_W w) = Some 500%Z ∧ served w = [].
Proof. vm_compute. done. Qed.
