(* ===== verification/Routes.v ===== *)
(** [setupRoutes] of [lib/http.go], and the whole server: what [ServeHTTP] does with a
    request when every challenge was made by a runtime of the program. *)

From S2P Require Import Prelude GoStrings GoCrypto GoTime NetAddr GoURL Mime UtilsHttp GoPath.
From S2P Require Import DecayMap Types Cookie Register State Key Data ResponsePolicy Pages Helper Mux.
From S2P Require Import Effects Action Rule Server JoseDemo Runtimes DataProps Safety Decision.
From stdpp Require Import options.

Local Open Scope handler_scope.

(** The route of a registration: its handler below its path, or the default verify
    handler. *)
Definition registration_route `{Jose} (st : State) (reg : Registration) : list (string * M unit) :=
  match reg_Handler reg with
  | Some h => [(reg_Path reg +:+ "/", h)]
  | None =>
      match reg_Verify reg with
      | Some _ => [(reg_Path reg +:+ VerifyChallengeUrlSuffix, VerifyHandlerFunc st reg None None)]
      | None => []
      end
  end.

(** [setupRoutes]; [assets] is the file server of the embedded assets. [None] is the panic
    of the mux for a pattern it refuses. *)
Definition patterns `{Jose} (st : State) (rules : list RuleState) (assets : M unit) : list (string * M unit) :=
  ("/", handleRequest st rules) ::
  ("POST " +:+ st_urlPath st +:+ "/clear-state", clearChallengeState) ::
  ("GET " +:+ st_urlPath st +:+ "/assets/", assets) ::
  (map_to_list (st_challenges st) ≫= λ kr, registration_route st kr.2).

Definition setupRoutes `{Jose} (st : State) (rules : list RuleState) (assets : M unit) : option (list (Pattern * M unit)) :=
  handle_all [] (patterns st rules assets).

(** The mux of a state; a state that panicked has none. *)
Definition state_mux `{Jose} (st : State) (rules : list RuleState) (assets : M unit) : M unit :=
  serve_mux (default [] (setupRoutes st rules assets)).

(** The server: [ServeHTTP] over these routes. *)
Definition serve_request `{Jose} (st : State) (rules : list RuleState) (assets : M unit)
    (regs : list Registration) (rid : string) (ja3n ja4 : option string) : M unit :=
  ServeHTTP st (state_mux st rules assets) regs rid ja3n ja4.

Section routes.
  Context `{Jose} (st : State).

Lemma steady_clearChallengeState : steady clearChallengeState.
Proof. unfold clearChallengeState. steady. Qed.

Lemma steady_registration_route urlPath reg p h :
  well_behaved urlPath reg → (p, h) ∈ registration_route st reg → steady h.
Proof.
  intros Hw. unfold registration_route. destruct (reg_Handler reg) as [h'|] eqn:Hh.
  - intros [= _ ->]%list_elem_of_singleton. by eapply wb_handler.
  - destruct (reg_Verify reg); [|by intros ?%elem_of_nil].
    intros [= _ ->]%list_elem_of_singleton. by by apply steady_VerifyHandlerFunc.
Qed.

(** Every route but the first and the assets is steady. *)
Lemma setupRoutes_steady urlPath rules assets routes p h :
  map_Forall (λ _, well_behaved urlPath) (st_challenges st) →
  setupRoutes st rules assets = Some routes → (p, h) ∈ routes → h = handleRequest st rules ∨ h = assets ∨ steady h.
Proof.
  intros Hall Hs Hin. destruct (handle_all_in _ _ _ _ _ Hs Hin) as [[]%elem_of_nil|[pattern Hp]].
  revert Hp. unfold patterns. rewrite !elem_of_cons.
  intros [[= -> ->]|[[= -> ->]|[[= -> ->]|Hin']]]; [by left|right; right|right; by left|right; right].
  - apply steady_clearChallengeState.
  - apply list_elem_of_bind in Hin' as ([id reg] & Hin' & Hkr%elem_of_map_to_list).
    by eapply steady_registration_route; [apply Hall in Hkr|].
Qed.

(** A property of runs that steady handlers, the assets and the proxy have, the mux has. *)
Lemma serve_mux_run (P : M unit → Prop) urlPath rules assets :
  map_Forall (λ _, well_behaved urlPath) (st_challenges st) →
  (∀ m, steady m → P m) → P assets → P (handleRequest st rules) →
  ∀ w, ∃ m, P m ∧ state_mux st rules assets w = m w.
Proof.
  intros Hall Hq Ha Hh w. unfold state_mux, serve_mux. rewrite bind_run. cbn [get_req].
  case_bool_decide.
  { eexists (_;; w_WriteHeader 400). split; [|reflexivity]. apply Hq. steady. }
  destruct (findHandler _ _) as [h|u|ms|] eqn:Hf.
  - exists h. split; [|done]. apply findHandler_in in Hf as [p Hp].
    destruct (setupRoutes st rules assets) as [routes|] eqn:Hs; [|by apply elem_of_nil in Hp].
    destruct (setupRoutes_steady _ _ _ _ _ _ Hall Hs Hp) as [->|[->|]]; auto.
  - eexists. split; [|reflexivity]. apply Hq. steady.
  - eexists. split; [|reflexivity]. apply Hq. steady.
  - eexists. split; [|reflexivity]. apply Hq. steady.
Qed.

End routes.

(** Whether a state panics does not depend on the assets. *)
Lemma setupRoutes_assets `{Jose} (st : State) (rules : list RuleState) (assets assets' : M unit) :
  is_Some (setupRoutes st rules assets) → is_Some (setupRoutes st rules assets').
Proof. unfold setupRoutes. by apply handle_all_accepts. Qed.

(** It is a matter of the patterns alone. *)
Lemma setupRoutes_patterns `{Jose} (st : State) (rules : list RuleState) (assets : M unit) :
  is_Some (handle_all [] ((λ s, (s, ())) <$> (patterns st rules assets).*1)) → is_Some (setupRoutes st rules assets).
Proof. unfold setupRoutes. apply handle_all_accepts. rewrite <-!list_fmap_compose. by apply list_fmap_ext. Qed.

(** * The server

    The challenges were made by the program's runtimes, the registrations are
    evaluated in some order, rules use registered challenges, the assets are
    files, and the mux took the routes. *)
Record server_ok `{Jose} (st : State) (rules : list RuleState) (assets : M unit) (regs : list Registration) : Prop := {
  so_built : ∃ Y (HO : Outside Y) (HL : OutsideLaws) st' RC n,
    built (Y:=Y) st' RC (st_urlPath st) (st_challenges st) n;
  so_regs : regs ≡ₚ (map_to_list (st_challenges st)).*2;
  so_rules : ∀ rule reg, rule ∈ rules → reg ∈ rule_regs rule → reg ∈ regs;
  so_assets : quiet assets;
  so_mux : is_Some (setupRoutes st rules assets) }.

Lemma register_ids r n : register_wf r n → NoDup (reg_id <$> (map_to_list r).*2).
Proof.
  intros Hwf. rewrite <-list_fmap_compose.
  assert (reg_id ∘ snd <$> map_to_list r = (map_to_list r).*1) as ->; [|apply NoDup_fst_map_to_list].
  apply list_fmap_ext. intros i [id reg] Hi. apply list_elem_of_lookup_2, elem_of_map_to_list in Hi.
  by apply (rwf_id _ _ Hwf).
Qed.

Section server.
  Context `{Jose} (st : State) (rules : list RuleState) (assets : M unit) (regs : list Registration).
  Context (Hok : server_ok st rules assets regs).
  Set Default Proof Using "Type*".

Lemma server_wb : map_Forall (λ _, well_behaved (st_urlPath st)) (st_challenges st).
Proof. destruct (so_built _ _ _ _ Hok) as (Y & ? & ? & st' & RC & n & Hb). apply (built_spec st' RC _ _ _ Hb). Qed.

Lemma server_ids : NoDup (reg_id <$> regs).
Proof.
  rewrite (so_regs _ _ _ _ Hok).
  destruct (so_built _ _ _ _ Hok) as (Y & ? & ? & st' & RC & n & Hb). eapply register_ids, (built_spec st' RC _ _ _ Hb).
Qed.

Lemma server_steady reg : reg ∈ regs → issues_steadily reg.
Proof.
  rewrite (so_regs _ _ _ _ Hok). intros ([id reg'] & -> & Hin%elem_of_map_to_list)%list_elem_of_fmap.
  intros k e. by apply (wb_issue _ _ (server_wb _ _ Hin)).
Qed.

Lemma server_rules : Forall (λ rule, Forall issues_steadily (rule_regs rule)) rules.
Proof.
  apply Forall_forall. intros rule Hrule. apply Forall_forall. intros reg Hreg.
  by eapply server_steady, so_rules.
Qed.

(** The world in which the challenges of the request of [w] are evaluated: the clock was
    read and the data of the request made. *)
Definition arrived (rid : string) (ja3n ja4 : option string) (w : World) : World :=
  with_data (CreateRequestData st rid (wd_clock w (wd_tick w)) ja3n ja4 (wd_Req w)) (ticked w).

(** What the mux gets to see: a request whose challenges were evaluated. *)
Lemma serve_request_run rid ja3n ja4 w :
  let w0 := arrived rid ja3n ja4 w in
  ∃ w1, served w1 = served w ∧
    (∀ reg, reg ∈ regs → HasValidChallenge (wd_Data w1) (reg_id reg) = true → proven st w0 reg) ∧
    serve_request st rules assets regs rid ja3n ja4 w = state_mux st rules assets w1 ∧
    wd_Data w1 = wd_Data (world_of (EvaluateChallenges st regs w0)) ∧ wd_Req w1 = wd_Req w ∧ grows w0 w1.
Proof.
  cbv zeta. unfold serve_request, ServeHTTP. do 2 (rewrite bind_run; cbn [now get_req]).
  rewrite bind_run. cbn [upd_data]. set (w0 := with_data _ _). change (arrived rid ja3n ja4 w) with w0.
  destruct (EvaluateChallenges_run st regs w0 server_ids eq_refl) as (w1 & Hr & Hsame & Hval & _).
  rewrite bind_run, Hr, bind_run. cbn [upd_w]. exists (with_w (NewResponsePolicyWriter (wd_W w1)) w1).
  split; [unfold served; cbn; by rewrite (sr_trace _ _ Hsame)|]. split; [intros reg Hin Hv; by apply (Hval reg)|].
  split; [reflexivity|]. split; [done|]. split; [exact (sr_req _ _ Hsame)|].
  split; [exact (sr_facts _ _ Hsame)|exact (sr_clock _ _ Hsame)|]. cbn. by rewrite (sr_trace _ _ Hsame).
Qed.

End server.

Lemma serves_one_quiet (m : M unit) : quiet m → serves_one m.
Proof. intros Hm w. exists []. rewrite app_nil_r, (Hm w). split; [done|]. split; [simpl; lia|done]. Qed.

(** * Properties *)

(** C13: A request is handed to at most one backend, at most once, whatever the rules,
    the challenges and their parameters, the outcome of every outside call, and the
    route the request takes, panics included; and the request the backend gets
    carries no cookie of the proxy and no (raw) query argument of it. *)
Theorem serve_request_once `{Jose} (st : State) (rules : list RuleState) (assets : M unit)
    (regs : list Registration) (rid : string) (ja3n ja4 : option string) (w : World)
    (Hok : server_ok st rules assets regs) :
  ∃ l, served (world_of (serve_request st rules assets regs rid ja3n ja4 w)) = served w ++ l ∧ length l ≤ 1 ∧
    Forall (λ br, clean br.2) l.
Proof.
  destruct (serve_request_run st rules assets regs Hok rid ja3n ja4 w) as (w1 & Hw & _ & -> & _).
  destruct (serve_mux_run st serves_one _ rules assets (server_wb _ _ _ _ Hok)) with (w := w1) as (m & Hm & ->).
  - intros m Hm. by apply serves_one_quiet, steady_quiet.
  - apply serves_one_quiet, (so_assets _ _ _ _ Hok).
  - apply serves_one_handleRequest. by eapply server_rules.
  - destruct (Hm w1) as (l & Hl & ?). exists l. by rewrite Hl, Hw.
Qed.

(** A server with one backend and a block list, and a rule that asks it. *)
Definition demo_site : State :=
  mkState (mkStateSettings {["*" := demo_backend]} "" "" "" "" 200) (mkSettings ∅ [] "anubis" ∅)
    "key" "key" "fingerprint" "/base" demo_lists {["anubis" := λ _, Ok "<html>"]} (λ _, None)
    (λ _, "text/plain; charset=utf-8") "bust".

Definition demo_site_regs : list Registration := (map_to_list demo_lists).*2.
Definition demo_site_rules : list RuleState := [gate_rule "gate" "hash" demo_site_regs (Deny 403 "hash")].

Lemma demo_site_ok : server_ok demo_site demo_site_rules (ret ()) demo_site_regs.
Proof.
  split.
  - exists unit, demo_outside, demo_outside_laws, demo_server, (λ _, Err (ENew "")), 1%Z. apply demo_lists_built.
  - done.
  - intros rule reg ->%list_elem_of_singleton. unfold gate_rule. cbn [rule_regs flat_map].
    rewrite app_nil_r. cbn [handler_regs]. by rewrite !app_nil_r.
  - by intros w.
  - apply setupRoutes_patterns. vm_compute. by eexists.
Qed.

(** A client that is not on the list is served once. *)
Lemma serve_request_once_witness :
  ∃ l, served (world_of (serve_request demo_site demo_site_rules (ret ()) demo_site_regs "id" None None demo_start)) = l
    ∧ length l = 1.
Proof.
  destruct (serve_request_once demo_site demo_site_rules (ret ()) demo_site_regs "id" None None demo_start demo_site_ok)
    as (l & Hl & Hlen & _).
  exists l. split; [exact Hl|]. vm_compute in Hl. rewrite <-Hl. reflexivity.
Defined.





