(* ===== verification/Dispatch.v ===== *)
(** Where requests go: the mux that [setupRoutes] fills (lib/http.go), on plain paths, sends
    every request to the route a table says, and takes the patterns of every challenge. *)

From S2P Require Import Prelude GoStrings GoCrypto GoTime NetAddr GoURL Mime UtilsHttp GoPath.
From S2P Require Import DecayMap Types Cookie Register State Key Data ResponsePolicy Pages Helper Mux.
From S2P Require Import Effects Action Rule Server JoseDemo Runtimes Safety Routes.
From stdpp Require Import options.

(** * Plain paths

    A path is its segments, each behind a slash; an empty last one is a slash at the end. *)
Fixpoint slashed (l : list string) : string := match l with [] => "" | s :: l => "/" +:+ s +:+ slashed l end.

Definition plain_byte (c : ascii) : bool := is_alnum c || one_of "-_.~" c.
Definition plain (s : string) : bool :=
  negb (bool_decide (s = "")) && negb (bool_decide (s = ".")) && negb (bool_decide (s = "..")) && string_forallb plain_byte s.

Lemma slashed_app l k : slashed (l ++ k) = slashed l +:+ slashed k.
Proof. induction l as [|x l IH]; cbn [app slashed]; [done|]. by rewrite IH, !string_app_assoc. Qed.

Lemma slashed_end l : slashed l +:+ "/" = slashed (l ++ [""]).
Proof. by rewrite slashed_app. Qed.

Lemma slashed_Join l : l ≠ [] → slashed l = "/" +:+ Join l "/".
Proof.
  induction l as [|x l IH]; intros Hl; [done|]. destruct l as [|y l]; [cbn; by rewrite string_app_nil_r|].
  change (slashed (x :: y :: l)) with ("/" +:+ x +:+ slashed (y :: l)). by rewrite IH.
Qed.

Lemma Split_slashed l : l ≠ [] → Forall (λ s, ContainsByte s "/" = false) l → Split (slashed l) "/" = "" :: l.
Proof.
  intros Hl Hall. rewrite slashed_Join by done. change ("/" +:+ Join l "/") with (String "/" (Join l (String "/" ""))).
  change (Split (String "/" ?s) "/") with ("" :: Split s "/"). by rewrite Split_Join.
Qed.

(** What plain bytes are not. *)
Lemma plain_byte_spec c : plain_byte c = true →
  shouldEscape c encodePath = false ∧ c ≠ "/"%char ∧ c ≠ "%"%char ∧ c ≠ "{"%char ∧ c ≠ " "%char ∧ one_of " 	" c = false.
Proof. revert c. by_all_bytes. Qed.

Lemma plain_segment s : plain s = true → s ≠ "" ∧ s ≠ "." ∧ s ≠ ".." ∧ string_forallb plain_byte s = true.
Proof. unfold plain. intros H. by go_bool. Qed.

Lemma plain_absent s c : string_forallb plain_byte s = true → plain_byte c = false → ContainsByte s c = false.
Proof.
  intros Hs Hc. induction s as [|d s IH]; [done|]. rewrite string_forallb_cons in Hs. go_bool.
  rewrite ContainsByte_cons, IH, orb_false_r by done. apply bool_decide_eq_false. intros ->. congruence.
Qed.

Lemma plain_no_slash l : Forall (λ s, plain s = true) l → Forall (λ s, ContainsByte s "/" = false) l.
Proof. intros Hl. eapply Forall_impl; [exact Hl|]. intros s (_ & _ & _ & Hs)%plain_segment. by apply plain_absent. Qed.

Lemma plain_unescape s : string_forallb plain_byte s = true → unescape s encodePath = Ok s.
Proof.
  induction s as [|c s IH]; [done|]. rewrite string_forallb_cons. intros H. go_bool.
  destruct (plain_byte_spec c) as (_ & _ & Hp & _); [done|].
  change (unescape (String c s) encodePath = Ok (String c s)). cbn [unescape]. rewrite IH by done.
  destruct c as [[] [] [] [] [] [] [] []]; done.
Qed.

Lemma plain_pathUnescape s : plain s = true → pathUnescape s = s.
Proof. intros (_ & _ & _ & Hs)%plain_segment. unfold pathUnescape. by rewrite plain_unescape. Qed.

Lemma escape_app s t mode : escape (s +:+ t) mode = escape s mode +:+ escape t mode.
Proof.
  induction s as [|c s IH]; [done|]. rewrite string_app_cons. cbn [escape]. rewrite IH.
  by destruct (_ && _), (shouldEscape c mode).
Qed.

Lemma plain_escape s : string_forallb plain_byte s = true → escape s encodePath = s.
Proof.
  induction s as [|c s IH]; [done|]. rewrite string_forallb_cons. intros H. go_bool. cbn [escape].
  destruct (plain_byte_spec c) as (-> & _); [done|]. rewrite IH by done. by rewrite andb_false_r.
Qed.

Lemma slashed_escape l : Forall (λ s, plain s = true) l → escape (slashed l) encodePath = slashed l.
Proof.
  induction 1 as [|s l (_ & _ & _ & Hs)%plain_segment _ IH]; [done|]. cbn [slashed].
  rewrite !escape_app. change (escape "/" encodePath) with "/". by rewrite plain_escape, IH.
Qed.

(** ** Clean paths *)

Lemma clean_elems l acc : Forall (λ s, plain s = true) l → foldl (clean_elem true) acc l = reverse l ++ acc.
Proof.
  intros Hl. revert acc. induction Hl as [|s l (H1 & H2 & H3 & _)%plain_segment _ IH]; intros acc; [done|].
  cbn [foldl]. unfold clean_elem at 2. rewrite !bool_decide_false by done. cbn [orb]. rewrite IH, reverse_cons, <-(assoc_L (++)). done.
Qed.

Lemma Clean_slashed l : l ≠ [] → Forall (λ s, plain s = true) l → Clean (slashed l) = slashed l.
Proof.
  intros Hne Hl. unfold Clean. rewrite Split_slashed by (done || by apply plain_no_slash). rewrite slashed_Join by done.
  rewrite HasPrefix_app. change (foldl (clean_elem true) [] ("" :: l)) with (foldl (clean_elem true) [] l).
  by rewrite clean_elems, app_nil_r, reverse_involutive.
Qed.

Lemma Clean_slashed_end l : l ≠ [] → Forall (λ s, plain s = true) l → Clean (slashed l +:+ "/") = slashed l.
Proof.
  intros Hne Hl. rewrite slashed_end. unfold Clean.
  assert (Hp : HasPrefix (slashed (l ++ [""])) "/" = true) by (rewrite slashed_Join by (by destruct l); apply HasPrefix_app).
  rewrite Hp.
  rewrite Split_slashed; [|by destruct l|by apply Forall_app_2; [apply plain_no_slash|repeat constructor]].
  change (foldl (clean_elem true) [] ("" :: l ++ [""])) with (foldl (clean_elem true) [] (l ++ [""])).
  rewrite foldl_app, (clean_elems l), app_nil_r by done. cbn [foldl]; unfold clean_elem. rewrite bool_decide_true by done. cbn [orb].
  by rewrite reverse_involutive, <-slashed_Join.
Qed.

Lemma HasSuffix_slash s : HasSuffix s "/" = true ↔ ∃ t, s = t +:+ "/".
Proof.
  unfold HasSuffix. rewrite HasPrefix_spec. change (rev_string "/") with "/". split.
  - intros [r Hr]. exists (rev_string r). rewrite <-(rev_string_involutive s), Hr, rev_string_app. done.
  - intros [t ->]. exists (rev_string t). by rewrite rev_string_app.
Qed.

Lemma Split_end s : Split (s +:+ "/") "/" = Split s "/" ++ [""].
Proof.
  induction s as [|c s IH]; [done|]. rewrite string_app_cons. cbn [Split]. rewrite IH. case_decide; [done|].
  destruct (Split s "/") as [|x xs] eqn:Hs; [by apply Split_not_nil in Hs|done].
Qed.

Lemma slashed_no_end l : l ≠ [] → Forall (λ s, plain s = true) l → HasSuffix (slashed l) "/" = false.
Proof.
  intros Hne Hl. destruct (HasSuffix (slashed l) "/") eqn:Hs; [|done]. apply HasSuffix_slash in Hs as [t Ht].
  pose proof (Split_slashed l Hne (plain_no_slash _ Hl)) as Hsp. rewrite Ht, Split_end in Hsp.
  destruct l as [|x l] using rev_ind; [done|]. clear IHl. rewrite app_comm_cons in Hsp. apply app_inj_tail in Hsp as [_ <-].
  rewrite Forall_app, Forall_singleton in Hl. by destruct Hl.
Qed.

Lemma cleanPath_slashed l : l ≠ [] → Forall (λ s, plain s = true) l →
  cleanPath (slashed l) = slashed l ∧ cleanPath (slashed l +:+ "/") = slashed l +:+ "/".
Proof.
  intros Hne Hl. assert (Hn : ∀ e, slashed l +:+ e ≠ "") by (intros e; by rewrite slashed_Join).
  assert (Hp : ∀ e, HasPrefix (slashed l +:+ e) "/" = true) by (intros e; rewrite slashed_Join, <-string_app_assoc by done; apply HasPrefix_app).
  unfold cleanPath. split.
  - specialize (Hn ""). specialize (Hp ""). rewrite string_app_nil_r in Hn, Hp. rewrite bool_decide_false, Hp, slashed_no_end by done.
    by apply Clean_slashed.
  - rewrite bool_decide_false, Hp, Clean_slashed_end by done. replace (HasSuffix (slashed l +:+ "/") "/") with true
      by (symmetry; apply HasSuffix_slash; by eexists).
    rewrite bool_decide_false; [done|]. intros Hs. destruct l as [|x l]; [done|]. cbn in Hs. injection Hs as Hs.
    inversion Hl as [|? ? Hx]. apply plain_segment in Hx as [Hx _]. by destruct x.
Qed.

(** The path of a challenge. *)
Lemma path_Join_slashed base name : base ≠ [] → Forall (λ s, plain s = true) base → plain name = true →
  path_Join [slashed base; "challenge"; name] = slashed (base ++ ["challenge"; name]).
Proof.
  intros Hne Hb Hn. unfold path_Join. destruct (plain_segment name Hn) as [Hn' _].
  assert (Hs : slashed base ≠ "") by (rewrite slashed_Join by done; done).
  rewrite !filter_cons_True, filter_nil by done. cbn [Join].
  rewrite <-(Clean_slashed (base ++ ["challenge"; name])).
  - rewrite slashed_app. cbn. by rewrite string_app_nil_r.
  - by destruct base.
  - apply Forall_app_2; [done|]. by repeat constructor.
Qed.

(** * Patterns of plain paths *)

(** A path, or all below it: [t] is the last slash. *)
Definition last_slash (t : list string) : Prop := t = [] ∨ t = [""].
Definition pattern_segments (l t : list string) : list Segment := (SLit <$> l) ++ ((λ _, SMulti "") <$> t).

Lemma cut_blank_app s t : cut_blank s = None → cut_blank t = None → cut_blank (s +:+ t) = None.
Proof.
  induction s as [|c s IH]; [done|]. rewrite string_app_cons. cbn [cut_blank]. destruct (one_of _ c); [done|].
  intros Hs Ht. destruct (cut_blank s) as [[]|]; [done|]. by rewrite IH.
Qed.

Lemma plain_cut_blank s : string_forallb plain_byte s = true → cut_blank s = None.
Proof.
  induction s as [|c s IH]; [done|]. rewrite string_forallb_cons. intros H. go_bool. cbn [cut_blank].
  destruct (plain_byte_spec c) as (_ & _ & _ & _ & _ & ->); [done|]. by rewrite IH.
Qed.

Lemma slashed_cut_blank l t : Forall (λ s, plain s = true) l → last_slash t → cut_blank (slashed (l ++ t)) = None.
Proof.
  intros Hl Ht. induction Hl as [|s l (_ & _ & _ & Hs)%plain_segment _ IH]; [by destruct Ht as [->| ->]|].
  cbn [app slashed]. apply cut_blank_app; [done|]. apply cut_blank_app; [by apply plain_cut_blank|done].
Qed.

Lemma parse_segments_plain seen l t : Forall (λ s, plain s = true) l →
  parse_segments seen (l ++ t) = app (SLit <$> l) <$> parse_segments seen t.
Proof.
  induction 1 as [|s l Hp _ IH]; [change ([] ++ t) with t; by destruct (parse_segments seen t)|]. pose proof Hp as (Hne & _ & _ & Hs)%plain_segment.
  cbn [app parse_segments]. rewrite bool_decide_false by done. cbn [andb].
  rewrite (plain_absent s "{") by done. cbn [negb]. rewrite IH, plain_pathUnescape by done. by destruct (parse_segments seen t).
Qed.

Section patterns.
  Context (l t : list string) (Hne : l ≠ []) (Hl : Forall (λ s, plain s = true) l) (Ht : last_slash t).
  Set Default Proof Using "Type*".

Lemma parse_path_slashed method : parse_path method (slashed (l ++ t)) = Some (mkPattern method "" (pattern_segments l t)).
Proof.
  assert (Hs : slashed (l ++ t) = "/" +:+ Join (l ++ t) "/") by (apply slashed_Join; by destruct l).
  assert (Hclean : cleanPath (slashed (l ++ t)) = slashed (l ++ t)).
  { destruct (cleanPath_slashed l Hne Hl) as [H1 H2]. destruct Ht as [->| ->]; [by rewrite app_nil_r|by rewrite <-slashed_end]. }
  assert (Hsp : Split (slashed (l ++ t)) "/" = "" :: l ++ t).
  { apply Split_slashed; [by destruct l|]. apply Forall_app_2; [by apply plain_no_slash|]. destruct Ht as [->| ->]; by repeat constructor. }
  unfold parse_path. rewrite Hs in *. set (rest := Join (l ++ t) "/") in *. change (Cut ("/" +:+ rest) "/") with ("", rest, true).
  cbn [negb orb ContainsByte]. change (ContainsByte "" "{") with false. cbn [orb].
  change (Split ("/" +:+ rest) "/") with ("" :: Split rest "/") in Hsp. injection Hsp as ->.
  rewrite (bool_decide_true (cleanPath _ = _)) by done. cbn [negb]. rewrite andb_false_r.
  rewrite parse_segments_plain by done. unfold pattern_segments. by destruct Ht as [->| ->].
Qed.

Lemma parsePattern_slashed : parsePattern (slashed (l ++ t)) = Some (mkPattern "" "" (pattern_segments l t)).
Proof. unfold parsePattern. rewrite slashed_cut_blank by done. apply parse_path_slashed. Qed.

Lemma parsePattern_method method :
  method ∈ ["GET"; "POST"] → parsePattern (method +:+ " " +:+ slashed (l ++ t)) = Some (mkPattern method "" (pattern_segments l t)).
Proof.
  intros Hm. assert (Htrim : trim_blank (slashed (l ++ t)) = slashed (l ++ t)) by (destruct l; done).
  rewrite !elem_of_cons, elem_of_nil in Hm. unfold parsePattern. destruct Hm as [->|[->|[]]].
  - change (cut_blank ("GET" +:+ " " +:+ ?s)) with (Some ("GET", s)). cbn iota. rewrite Htrim, parse_path_slashed. done.
  - change (cut_blank ("POST" +:+ " " +:+ ?s)) with (Some ("POST", s)). cbn iota. rewrite Htrim, parse_path_slashed. done.
Qed.

End patterns.

(** * Walking the tree *)

(** The segments behind a base. *)
Fixpoint strip (base segs : list string) : option (list string) :=
  match base, segs with
  | [], _ => Some segs
  | b :: base, s :: segs => if bool_decide (s = b) then strip base segs else None
  | _ :: _, [] => None
  end.

Lemma strip_app b1 b2 segs : strip (b1 ++ b2) segs = strip b1 segs ≫= strip b2.
Proof.
  revert segs. induction b1 as [|b b1 IH]; intros segs; [done|]. destruct segs as [|s segs]; [done|]. cbn [app strip].
  case_bool_decide; [apply IH|done].
Qed.

Lemma strip_Some base segs r : strip base segs = Some r → segs = base ++ r.
Proof.
  revert segs. induction base as [|b base IH]; intros segs; [by intros [= ->]|]. destruct segs as [|s segs]; [done|]. cbn [strip].
  case_bool_decide; [|done]. intros Hs. subst. cbn. f_equal. by apply IH.
Qed.

Lemma strip_base base r : strip base (base ++ r) = Some r.
Proof. induction base as [|b base IH]; [done|]. cbn [app strip]. by rewrite bool_decide_true. Qed.

(** A segment more at the end, which is not one of the base. *)
Lemma strip_snoc base segs x : x ∉ base → strip base (segs ++ [x]) = (λ r, r ++ [x]) <$> strip base segs.
Proof.
  revert segs. induction base as [|b base IH]; intros segs Hx; [done|]. apply not_elem_of_cons in Hx as [Hb Hx].
  destruct segs as [|s segs]; cbn [app strip]; [by rewrite bool_decide_false|]. case_bool_decide; [by apply IH|done].
Qed.

Section nodes.
  Context {H : Type}.
  Implicit Types n : list (list Segment * (Pattern * H)).

Definition under (base : list string) n : list (list Segment * (Pattern * H)) := (λ e, ((SLit <$> base) ++ e.1, e.2)) <$> n.

Lemma matchPath_nil segs : matchPath ([] : list (list Segment * (Pattern * H))) segs = None.
Proof. induction segs as [|s segs IH]; [done|]. cbn [matchPath]. change (findChild s []) with ([] : list (list Segment * (Pattern * H))).
  change (emptyChild []) with ([] : list (list Segment * (Pattern * H))). rewrite IH. by case_bool_decide. Qed.

Lemma descend_app f n n' : descend f (n ++ n') = descend f n ++ descend f n'.
Proof. apply omap_app. Qed.

Lemma descend_under f b base n : descend f (under (b :: base) n) = if f (SLit b) then under base n else [].
Proof.
  induction n as [|e n IH]; [by destruct (f _)|].
  change (under (b :: base) (e :: n)) with ([(SLit b :: (SLit <$> base) ++ e.1, e.2)] ++ under (b :: base) n).
  rewrite descend_app, IH. change (under base (e :: n)) with (((SLit <$> base) ++ e.1, e.2) :: under base n).
  unfold descend. cbn [omap list_omap fst snd]. by destruct (f _).
Qed.

Lemma findChild_under seg b base n : findChild seg (under (b :: base) n) = if bool_decide (seg = b) then under base n else [].
Proof.
  unfold findChild. rewrite descend_under. repeat case_bool_decide; congruence.
Qed.

Lemma under_node_pattern b base n : node_pattern (under (b :: base) n) = None.
Proof. induction n as [|e n IH]; [done|]. unfold node_pattern in *. cbn [under fmap list_fmap] in *. rewrite filter_cons_False; done. Qed.

Lemma matchPath_under base n segs : matchPath (under base n) segs = strip base segs ≫= matchPath n.
Proof.
  revert segs. induction base as [|b base IH]; intros segs.
  - cbn [strip mbind option_bind]. f_equal. unfold under. rewrite <-(list_fmap_id n) at 2. by apply list_fmap_ext; intros ? [].
  - destruct segs as [|s segs]; [apply under_node_pattern|]. cbn [matchPath strip].
    rewrite findChild_under. change (emptyChild (under (b :: base) n)) with (descend (λ s, match s with SWild _ => true | _ => false end) (under (b :: base) n)).
    rewrite descend_under, matchPath_nil. unfold multiChild. rewrite descend_under. cbn [is_multi head fmap option_fmap option_map].
    case_bool_decide.
    + rewrite IH. destruct (strip base segs ≫= matchPath n); [done|]. by case_bool_decide.
    + rewrite matchPath_nil. by case_bool_decide.
Qed.

(** A root that takes all that is not taken below. *)
Lemma matchPath_root b base n x s segs :
  matchPath (([SMulti ""], x) :: under (b :: base) n) (s :: segs) = Some (default x (strip (b :: base) (s :: segs) ≫= matchPath n)).
Proof.
  rewrite <-matchPath_under. cbn [matchPath].
  change (findChild s (([SMulti ""], x) :: under (b :: base) n)) with (findChild s (under (b :: base) n)).
  change (emptyChild (([SMulti ""], x) :: under (b :: base) n)) with (emptyChild (under (b :: base) n)).
  change (multiChild (([SMulti ""], x) :: under (b :: base) n)) with (Some x).
  destruct (matchPath (findChild s _) segs) as [l|]; [done|]. destruct (if bool_decide (s = "/") then None else _) as [l|]; [done|].
  unfold multiChild. by rewrite descend_under.
Qed.

End nodes.

(** * The routes of a state *)

Section routes.
  Context `{Jose} (st : State) (rules : list RuleState) (assets : M unit) (base : list string).

Definition root_entry : Pattern * M unit := (mkPattern "" "" [SMulti ""], handleRequest st rules).
Definition clear_entry : Pattern * M unit := (mkPattern "POST" "" (pattern_segments (base ++ ["clear-state"]) []), clearChallengeState).
Definition assets_entry : Pattern * M unit := (mkPattern "GET" "" (pattern_segments (base ++ ["assets"]) [""]), assets).

(** What is behind the path of a registration: the segments of its pattern, and its handler. *)
Definition reg_tail (reg : Registration) : option (list string * list string * M unit) :=
  match reg_Handler reg, reg_Verify reg with
  | Some h, _ => Some ([], [""], h)
  | None, Some _ => Some (["verify-challenge"], [], VerifyHandlerFunc st reg None None)
  | None, None => None
  end.

Definition reg_entry (reg : Registration) (tail : list string * list string * M unit) : Pattern * M unit :=
  (mkPattern "" "" (pattern_segments (base ++ "challenge" :: reg_Name reg :: tail.1.1) tail.1.2), tail.2).
Definition reg_entries (reg : Registration) : list (Pattern * M unit) := option_list (reg_entry reg <$> reg_tail reg).

Definition entries (es : list (Id * Registration)) : list (Pattern * M unit) :=
  root_entry :: clear_entry :: assets_entry :: (es ≫= λ kr, reg_entries kr.2).

End routes.

(** ** What the mux makes of the patterns *)

Lemma pattern_segments_cons l x k t : pattern_segments (l ++ x :: k) t = (SLit <$> l) ++ SLit x :: pattern_segments k t.
Proof. unfold pattern_segments. rewrite fmap_app, <-(assoc_L (++)). done. Qed.

(** Two paths that part at a segment have nothing in common. *)
Lemma conflicts_part m1 m2 (c : list string) (a b : string) (k1 k2 t1 t2 : list string) :
  a ≠ b → conflictsWith (mkPattern m1 "" (pattern_segments (c ++ a :: k1) t1)) (mkPattern m2 "" (pattern_segments (c ++ b :: k2) t2)) = false.
Proof.
  intros Hab. unfold conflictsWith, comparePathsAndMethods. cbn [pat_Host pat_Method pat_Segments].
  assert (Hd : comparePaths (pattern_segments (c ++ a :: k1) t1) (pattern_segments (c ++ b :: k2) t2) = Disjoint).
  { unfold comparePaths. destruct (_ && negb (last_multi _)); [done|]. rewrite !pattern_segments_cons.
    generalize (last_multi ((SLit <$> c) ++ SLit a :: pattern_segments k1 t1)) (last_multi ((SLit <$> c) ++ SLit b :: pattern_segments k2 t2)).
    intros m1' m2'. induction c as [|x c IH].
    - cbn [fmap list_fmap app compare_loop compareSegments]. by rewrite (bool_decide_false (a = b)).
    - cbn [fmap list_fmap app compare_loop compareSegments]. rewrite (bool_decide_true (x = x)) by done. exact IH. }
  rewrite Hd. destruct (compareMethods m1 m2); reflexivity.
Qed.

(** The root is more general than any other. *)
Lemma conflicts_root m l t : l ≠ [] → conflictsWith (mkPattern m "" (pattern_segments l t)) (mkPattern "" "" [SMulti ""]) = false.
Proof.
  intros Hl. unfold conflictsWith, comparePathsAndMethods. cbn [pat_Host pat_Method pat_Segments].
  assert (Hs : comparePaths (pattern_segments l t) [SMulti ""] = MoreSpecific).
  { unfold comparePaths. change (last_multi [SMulti ""]) with true. cbn [negb]. rewrite andb_false_r.
    destruct l as [|x l]; [done|]. unfold pattern_segments. cbn [fmap list_fmap app compare_loop compareSegments].
    by destruct ((SLit <$> l) ++ _). }
  rewrite Hs. unfold compareMethods. repeat case_bool_decide; subst; reflexivity || (exfalso; naive_solver).
Qed.

(** Patterns that parse and do not conflict with those before are registered. *)
Fixpoint compatible {H} (routes qs : list (Pattern * H)) : Prop :=
  match qs with
  | [] => True
  | q :: qs => Forall (λ r, conflictsWith q.1 r.1 = false) routes ∧ compatible (routes ++ [q]) qs
  end.

Lemma handle_all_compatible {H} (ps : list (string * H)) (qs : list (Pattern * H)) : ∀ routes,
  Forall2 (λ s q, parsePattern s.1 = Some q.1 ∧ s.2 = q.2) ps qs → compatible routes qs → handle_all routes ps = Some (routes ++ qs).
Proof.
  intros routes Hf. revert routes. induction Hf as [|[s h] [q h'] ps qs [Hp Hh] _ IH]; intros routes; cbn [compatible handle_all fst snd] in *.
  - by rewrite app_nil_r.
  - subst h'. intros [Hall Hc]. unfold handle. rewrite Hp. cbn [mbind option_bind].
    assert (Hex : existsb (λ r : Pattern * H, conflictsWith q r.1) routes = false).
    { clear -Hall. induction Hall as [|r routes Hr _ IH]; [done|]. cbn. by rewrite Hr, IH. }
    rewrite Hex. cbn [mbind option_bind]. rewrite (IH _ Hc), <-(assoc_L (++)). done.
Qed.

Section register.
  Context `{Jose} (st : State) (rules : list RuleState) (assets : M unit) (base : list string).
  Context (Hbase : base ≠ []) (Hplain : Forall (λ s, plain s = true) base).

Notation reg_entries := (reg_entries st base).

Lemma reg_entries_in reg e : e ∈ reg_entries reg →
  ∃ k t h, e = (mkPattern "" "" (pattern_segments (base ++ "challenge" :: reg_Name reg :: k) t), h).
Proof.
  unfold Dispatch.reg_entries, reg_tail. destruct (reg_Handler reg) as [h|]; [|destruct (reg_Verify reg) as [v|]]; cbn [fmap option_fmap option_map option_list].
  - intros ->%list_elem_of_singleton. by eexists _, _, _.
  - intros ->%list_elem_of_singleton. by eexists _, _, _.
  - by intros ?%elem_of_nil.
Qed.

Lemma compatible_regs (es : list (Id * Registration)) : ∀ routes,
  NoDup (reg_Name <$> es.*2) →
  (∀ kr e, kr ∈ es → e ∈ reg_entries kr.2 → Forall (λ r, conflictsWith e.1 r.1 = false) routes) →
  compatible routes (es ≫= λ kr, reg_entries kr.2).
Proof.
  induction es as [|[id reg] es IH]; intros routes Hnd Hall; [done|]. cbn [fmap list_fmap snd] in Hnd. apply NoDup_cons in Hnd as [Hn Hnd].
  cbn [mbind list_bind]. cbn [snd].
  assert (Hrest : ∀ e, reg_entries reg = [e] → compatible (routes ++ [e]) (es ≫= λ kr, reg_entries kr.2)).
  { intros e He. apply IH; [done|]. intros kr e' Hkr He'. apply Forall_app_2; [apply (Hall kr); [by right|done]|].
    apply Forall_singleton. destruct (reg_entries_in reg e) as (k & t & h & ->); [rewrite He; by left|].
    destruct (reg_entries_in kr.2 e' He') as (k' & t' & h' & ->). cbn [fst].
    pose proof (conflicts_part "" "" (base ++ ["challenge"]) (reg_Name kr.2) (reg_Name reg) k' k t' t) as Hc.
    rewrite <-!(assoc_L (++)) in Hc. apply Hc. intros Heq. apply Hn. rewrite <-Heq. by apply list_elem_of_fmap_2, list_elem_of_fmap_2. }
  assert (Hhead : ∀ e, e ∈ reg_entries reg → Forall (λ r, conflictsWith e.1 r.1 = false) routes) by (intros e; apply (Hall (id, reg)); by left).
  destruct (reg_entries reg) as [|e [|e' l]] eqn:He.
  - apply IH; [done|]. intros kr e Hkr. apply Hall. by right.
  - split; [apply Hhead; by left|by apply Hrest].
  - exfalso. unfold Dispatch.reg_entries in He. by destruct (reg_tail st reg).
Qed.

Lemma compatible_entries (es : list (Id * Registration)) : NoDup (reg_Name <$> es.*2) → compatible [] (entries st rules assets base es).
Proof.
  intros Hnd. unfold entries. cbn [compatible app]. split; [constructor|]. split; [|split].
  - apply Forall_singleton, conflicts_root. by destruct base.
  - apply Forall_cons; split; [apply conflicts_root; by destruct base|apply Forall_singleton].
    by apply (conflicts_part "GET" "POST" base "assets" "clear-state" [] [] [""] []).
  - apply compatible_regs; [done|]. intros kr e _ He. destruct (reg_entries_in kr.2 e He) as (k & t & h & ->). cbn [fst].
    apply Forall_cons; split; [apply conflicts_root; by destruct base|]. apply Forall_cons; split; [by apply conflicts_part|].
    by apply Forall_singleton, conflicts_part.
Qed.

(** Registrations under the base, with plain names. *)
Context (Hurl : st_urlPath st = slashed base).

Lemma reg_entries_parse reg :
  well_behaved (st_urlPath st) reg → plain (reg_Name reg) = true →
  Forall2 (λ s q, parsePattern s.1 = Some q.1 ∧ s.2 = q.2) (registration_route st reg) (reg_entries reg).
Proof.
  intros Hw Hn. pose proof (wb_Path _ _ Hw) as Hp. rewrite Hurl, path_Join_slashed in Hp by done.
  unfold registration_route, Dispatch.reg_entries, reg_tail. rewrite Hp.
  destruct (reg_Handler reg) as [h|]; [|destruct (reg_Verify reg) as [v|]; [|constructor]]; cbn [fmap option_fmap option_map option_list];
    (apply Forall2_cons; split; [|constructor]); cbn [fst snd reg_entry]; (split; [|done]).
  - rewrite slashed_end. apply parsePattern_slashed; [by destruct base| |by right]. apply Forall_app_2; [done|by repeat constructor].
  - change VerifyChallengeUrlSuffix with (slashed ["verify-challenge"]). rewrite <-slashed_app, <-(assoc_L (++)).
    rewrite <-(app_nil_r (base ++ _)). apply parsePattern_slashed; [by destruct base| |by left].
    apply Forall_app_2; [done|by repeat constructor].
Qed.

(** The routes are registered, one by one, as they are written. *)
Lemma setupRoutes_entries :
  map_Forall (λ _, well_behaved (st_urlPath st)) (st_challenges st) →
  NoDup (reg_Name <$> (map_to_list (st_challenges st)).*2) → map_Forall (λ _ reg, plain (reg_Name reg) = true) (st_challenges st) →
  setupRoutes st rules assets = Some (entries st rules assets base (map_to_list (st_challenges st))).
Proof.
  intros Hw Hnd Hn. unfold setupRoutes. apply (handle_all_compatible _ _ []); [|by apply compatible_entries].
  unfold patterns, entries. rewrite Hurl. repeat (apply Forall2_cons; split).
  - split; reflexivity.
  - cbn [fst snd clear_entry]. split; [|reflexivity]. change "/clear-state" with (slashed ["clear-state"]). rewrite <-slashed_app.
    rewrite <-(app_nil_r (base ++ _)) at 1.
    refine (parsePattern_method (base ++ ["clear-state"]) [] _ _ _ "POST" _); [by destruct base| |by left|by right; left].
    apply Forall_app_2; [done|by repeat constructor].
  - cbn [fst snd assets_entry]. split; [|reflexivity]. change "/assets/" with (slashed ["assets"; ""]). rewrite <-slashed_app.
    change ["assets"; ""] with (["assets"] ++ [""]). rewrite (assoc_L (++)).
    refine (parsePattern_method (base ++ ["assets"]) [""] _ _ _ "GET" _); [by destruct base| |by right|by left].
    apply Forall_app_2; [done|by repeat constructor].
  - assert (Hall : Forall (λ kr : Id * Registration, well_behaved (st_urlPath st) kr.2 ∧ plain (reg_Name kr.2) = true) (map_to_list (st_challenges st))).
    { apply Forall_forall. intros [id reg] Hin%elem_of_map_to_list. split; [by apply (Hw id)|by apply (Hn id)]. }
    clear Hnd. induction Hall as [|kr es [Hkw Hkn] _ IH]; [constructor|]. cbn [mbind list_bind]. apply Forall2_app; [by apply reg_entries_parse|exact IH].
Qed.

End register.

(** * The table

    Where a request with the segments [segs] goes: besides the proxied site there are the
    clearing of the state, the assets, and the handlers of the challenges. *)
Definition get_head (method : string) : bool := bool_decide (method = "GET") || bool_decide (method = "HEAD").

(** Does the rest of a path end where a pattern does, [t] being its last slash? *)
Definition ends (t r : list string) : bool := match t with [] => bool_decide (r = []) | _ => negb (bool_decide (r = [])) end.

Definition destination `{Jose} (st : State) (rules : list RuleState) (assets : M unit) (base : list string)
    (method : string) (segs : list string) : M unit :=
  let proxy := handleRequest st rules in
  if bool_decide (method = "POST") && bool_decide (segs = base ++ ["clear-state"]) then clearChallengeState
  else if get_head method && from_option (ends [""]) false (strip (base ++ ["assets"]) segs) then assets
  else
    match strip (base ++ ["challenge"]) segs with
    | Some (name :: rest) =>
        match GetByName (st_challenges st) name with
        | Some (reg, _) =>
            match reg_Handler reg, reg_Verify reg with
            | Some h, _ => if bool_decide (rest = []) then proxy else h
            | None, Some _ => if bool_decide (rest = ["verify-challenge"]) then VerifyHandlerFunc st reg None None else proxy
            | None, None => proxy
            end
        | None => proxy
        end
    | _ => proxy
    end.

(** The paths that miss their last slash. *)
Definition needs_slash (st : State) (base : list string) (method : string) (segs : list string) : bool :=
  get_head method && bool_decide (segs = base ++ ["assets"]) ||
  match strip (base ++ ["challenge"]) segs with
  | Some [name] =>
      match GetByName (st_challenges st) name with
      | Some (reg, _) => bool_decide (is_Some (reg_Handler reg))
      | None => false
      end
  | _ => false
  end.

Section matching.
  Context `{Jose} (st : State) (rules : list RuleState) (assets : M unit) (base : list string).

Notation es := (map_to_list (st_challenges st)).

(** One pattern, of a path or of all below it. *)
Lemma matchPath_one {H'} l t (x : Pattern * H') segs : last_slash t →
  matchPath [(pattern_segments l t, x)] segs = r ← strip l segs; if ends t r then Some x else None.
Proof.
  intros Ht. change [(pattern_segments l t, x)] with (under l [(((λ _, SMulti "") <$> t) : list Segment, x)]).
  rewrite matchPath_under. destruct (strip l segs) as [r|]; [|done]. cbn [mbind option_bind].
  destruct Ht as [->| ->]; destruct r as [|s r]; try done; cbn [fmap list_fmap matchPath].
  - change (findChild s [([], x)]) with ([] : list (list Segment * (Pattern * H'))).
    change (emptyChild [([], x)]) with ([] : list (list Segment * (Pattern * H'))). rewrite matchPath_nil. by case_bool_decide.
  - change (findChild s [([SMulti ""], x)]) with ([] : list (list Segment * (Pattern * H'))).
    change (emptyChild [([SMulti ""], x)]) with ([] : list (list Segment * (Pattern * H'))). rewrite matchPath_nil. by case_bool_decide.
Qed.

(** The node below the base and [challenge], and what it holds for a name. *)
Definition tail_node (reg : Registration) : list (list Segment * (Pattern * M unit)) :=
  option_list ((λ tail, (pattern_segments tail.1.1 tail.1.2, reg_entry base reg tail)) <$> reg_tail st reg).
Definition reg_node (reg : Registration) : list (list Segment * (Pattern * M unit)) :=
  under [reg_Name reg] (tail_node reg).

Lemma findChild_regs name (es : list (Id * Registration)) :
  NoDup (reg_Name <$> es.*2) →
  findChild name (es ≫= λ kr, reg_node kr.2) =
    match GetByName_loop es name with Some (reg, _) => tail_node reg | None => [] end.
Proof.
  induction es as [|[id reg] es IH]; intros Hnd; [done|]. cbn [fmap list_fmap snd] in Hnd. apply NoDup_cons in Hnd as [Hn Hnd].
  cbn [mbind list_bind GetByName_loop snd]. unfold findChild. rewrite descend_app. fold (findChild (H:=M unit) name).
  unfold reg_node at 1. rewrite findChild_under, IH by done. case_bool_decide as Hname.
  - subst name. rewrite bool_decide_true by done. unfold under. rewrite <-(app_nil_r (tail_node reg)) at 2. f_equal.
    + rewrite <-(list_fmap_id (tail_node reg)) at 2. by apply list_fmap_ext; intros ? [].
    + destruct (GetByName_loop es (reg_Name reg)) as [[reg' id']|] eqn:Hl; [|done]. exfalso.
      apply GetByName_loop_Some in Hl as [Hin Heq]. apply Hn. rewrite <-Heq.
      apply list_elem_of_fmap. exists reg'. split; [done|]. apply list_elem_of_fmap. by exists (id', reg').
  - by rewrite bool_decide_false.
Qed.

(** What the mux finds for a method and segments. *)
Definition challenge_match (segs : list string) : option (Pattern * M unit) :=
  match segs with
  | name :: rest =>
      '(reg, _) ← GetByName (st_challenges st) name;
      tail ← reg_tail st reg;
      r ← strip tail.1.1 rest;
      if ends tail.1.2 r then Some (reg_entry base reg tail) else None
  | [] => None
  end.

Definition fixed_match (method : string) (segs : list string) : option (Pattern * M unit) :=
  if bool_decide (method = "POST") then
    r ← strip (base ++ ["clear-state"]) segs; if ends [] r then Some (clear_entry base) else None
  else if get_head method then
    r ← strip (base ++ ["assets"]) segs; if ends [""] r then Some (assets_entry assets base) else None
  else None.

Definition target (method : string) (segs : list string) : Pattern * M unit :=
  match fixed_match method segs with
  | Some x => x
  | None => default (root_entry st rules) (strip (base ++ ["challenge"]) segs ≫= challenge_match)
  end.

Lemma reg_tail_slash reg tail : reg_tail st reg = Some tail → last_slash tail.1.2.
Proof. unfold reg_tail. destruct (reg_Handler reg), (reg_Verify reg); intros [= <-]; by (left + right). Qed.

Context (Hnd : NoDup (reg_Name <$> es.*2)).
Set Default Proof Using "Type*".

Lemma matchPath_regs segs : matchPath (es ≫= λ kr, reg_node kr.2) segs = challenge_match segs.
Proof.
  assert (Hdesc : ∀ f, (∀ s, f (SLit s) = false) → descend f (es ≫= λ kr, reg_node kr.2) = []).
  { intros f Hf. clear Hnd. induction es as [|kr l IH]; [done|]. cbn [mbind list_bind]. rewrite descend_app, IH, app_nil_r.
    unfold reg_node. by rewrite descend_under, Hf. }
  destruct segs as [|name rest]; cbn [matchPath challenge_match].
  - clear Hnd Hdesc. unfold node_pattern. induction es as [|kr l IH]; [done|]. cbn [mbind list_bind]. rewrite filter_app.
    pose proof (under_node_pattern (reg_Name kr.2) [] (tail_node kr.2)) as Hu. unfold node_pattern, reg_node in *.
    by destruct (filter _ (under [reg_Name kr.2] (tail_node kr.2))).
  - rewrite findChild_regs by done. unfold emptyChild, multiChild. rewrite !Hdesc, matchPath_nil by done.
    cbn [head fmap option_fmap option_map].
    change (GetByName_loop es name) with (GetByName (st_challenges st) name).
    destruct (GetByName (st_challenges st) name) as [[reg id]|]; cbn [mbind option_bind].
    + unfold tail_node. destruct (reg_tail st reg) as [tail|] eqn:Ht; cbn [mbind option_bind fmap option_fmap option_map option_list].
      * change (option_list _) with [(pattern_segments tail.1.1 tail.1.2, reg_entry base reg tail)].
        rewrite matchPath_one by (by eapply reg_tail_slash). destruct (strip tail.1.1 rest) as [r|]; cbn [mbind option_bind].
        -- destruct (ends tail.1.2 r); [done|]. by case_bool_decide.
        -- by case_bool_decide.
      * change (option_list _) with ([] : list (list Segment * (Pattern * M unit))). rewrite matchPath_nil. by case_bool_decide.
    + rewrite matchPath_nil. by case_bool_decide.
Qed.

(** The patterns of each method. *)
Lemma filter_entries host method :
  filter (λ ph : Pattern * M unit, pat_Host ph.1 = host ∧ pat_Method ph.1 = method) (entries st rules assets base es) =
    if bool_decide (host = "") then
      if bool_decide (method = "") then root_entry st rules :: (es ≫= λ kr, reg_entries st base kr.2)
      else if bool_decide (method = "POST") then [clear_entry base]
      else if bool_decide (method = "GET") then [assets_entry assets base] else []
    else [].
Proof.
  assert (Hregs : ∀ l : list (Id * Registration),
    filter (λ ph : Pattern * M unit, pat_Host ph.1 = host ∧ pat_Method ph.1 = method) (l ≫= λ kr, reg_entries st base kr.2) =
    if bool_decide (host = "") && bool_decide (method = "") then l ≫= λ kr, reg_entries st base kr.2 else []).
  { clear Hnd. induction l as [|kr l IH]; [by destruct (_ && _)|]. cbn [mbind list_bind]. rewrite filter_app, IH.
    unfold reg_entries. destruct (reg_tail st kr.2) as [tail|].
    - change (option_list (reg_entry base kr.2 <$> Some tail)) with [reg_entry base kr.2 tail]. rewrite filter_cons, filter_nil. cbn [fst reg_entry pat_Host pat_Method].
      repeat case_bool_decide; case_decide; cbn [andb]; try done; exfalso; naive_solver.
    - by destruct (_ && _). }
  unfold entries. rewrite !filter_cons, Hregs. cbn [fst root_entry clear_entry assets_entry pat_Host pat_Method].
  repeat case_decide; repeat case_bool_decide; cbn [andb]; try done; exfalso; naive_solver.
Qed.

Lemma method_node_other host method : host ≠ "" → method_node (entries st rules assets base es) host method = [].
Proof. intros Hh. unfold method_node. rewrite filter_entries. by rewrite bool_decide_false. Qed.

Lemma entries_under (l : list (Id * Registration)) :
  (λ ph : Pattern * M unit, (pat_Segments ph.1, ph)) <$> (l ≫= λ kr, reg_entries st base kr.2) =
    under (base ++ ["challenge"]) (l ≫= λ kr, reg_node kr.2).
Proof.
  clear Hnd. induction l as [|kr l IH]; [done|]. cbn [mbind list_bind]. rewrite fmap_app, IH. unfold under at 2. rewrite fmap_app. f_equal.
  unfold reg_entries, reg_node, tail_node. destruct (reg_tail st kr.2) as [tail|]; [|done].
  change (option_list (reg_entry base kr.2 <$> Some tail)) with [reg_entry base kr.2 tail].
  cbn [fmap option_fmap option_map list_fmap fst snd reg_entry pat_Segments].
  change (option_list (Some ?x)) with [x]. unfold under. cbn [fmap list_fmap fst snd app].
  rewrite pattern_segments_cons, fmap_app, <-(assoc_L (++)). done.
Qed.

Lemma tree_match_entries host method path :
  path_segments path ≠ [] → base ≠ [] →
  tree_match (entries st rules assets base es) host method path = Some (target method (path_segments path)).
Proof.
  intros Hsegs Hbase. unfold tree_match.
  assert (Hhost : (if bool_decide (host = "") then None else matchMethodAndPath (entries st rules assets base es) host method path) = None).
  { case_bool_decide; [done|]. unfold matchMethodAndPath. rewrite !method_node_other, matchPath_nil by done. by case_bool_decide. }
  rewrite Hhost. clear Hhost. unfold matchMethodAndPath, target. destruct (path_segments path) as [|s segs] eqn:Hs; [done|]. clear Hs Hsegs.
  assert (Hroot : matchPath (method_node (entries st rules assets base es) "" "") (s :: segs) =
    Some (default (root_entry st rules) (strip (base ++ ["challenge"]) (s :: segs) ≫= challenge_match))).
  { unfold method_node. rewrite filter_entries, !bool_decide_true by done. cbn [fmap list_fmap]. rewrite entries_under.
    destruct base as [|b base']; [done|]. cbn [app]. change (pat_Segments (root_entry st rules).1) with [SMulti ""].
    rewrite matchPath_root. do 2 f_equal. destruct (strip _ _) as [r|]; [|done]. cbn [mbind option_bind]. apply matchPath_regs. }
  rewrite Hroot. unfold fixed_match, get_head.
  assert (Hnode : ∀ m, m ≠ "" → matchPath (method_node (entries st rules assets base es) "" m) (s :: segs) =
    if bool_decide (m = "POST") then r ← strip (base ++ ["clear-state"]) (s :: segs); if ends [] r then Some (clear_entry base) else None
    else if bool_decide (m = "GET") then r ← strip (base ++ ["assets"]) (s :: segs); if ends [""] r then Some (assets_entry assets base) else None
    else None).
  { intros m Hm. unfold method_node. rewrite filter_entries, bool_decide_true, (bool_decide_false (m = "")) by done.
    case_bool_decide; [|case_bool_decide; [|apply matchPath_nil]].
    - apply (matchPath_one (base ++ ["clear-state"]) [] (clear_entry base)). by left.
    - apply (matchPath_one (base ++ ["assets"]) [""] (assets_entry assets base)). by right. }
  destruct (decide (method = "")) as [->|Hm]; [by rewrite Hroot|]. rewrite Hnode by done.
  destruct (decide (method = "POST")) as [->|Hp].
  { rewrite bool_decide_true by done. change (bool_decide ("POST" = "HEAD")) with false. cbn iota.
    destruct (strip (base ++ ["clear-state"]) (s :: segs)) as [r|]; [|done]. cbn [mbind option_bind]. by destruct (ends [] r). }
  rewrite (bool_decide_false (method = "POST")) by done. destruct (decide (method = "GET")) as [->|Hg].
  { rewrite bool_decide_true by done. change (bool_decide ("GET" = "HEAD")) with false. cbn [orb].
    destruct (strip (base ++ ["assets"]) (s :: segs)) as [r|]; [|done]. cbn [mbind option_bind]. by destruct (ends [""] r). }
  rewrite (bool_decide_false (method = "GET")) by done. cbn [orb]. case_bool_decide as Hh; [|done].
  rewrite (Hnode "GET") by done. change (bool_decide ("GET" = "POST")) with false. change (bool_decide ("GET" = "GET")) with true. cbn iota.
  destruct (strip (base ++ ["assets"]) (s :: segs)) as [r|]; [|done]. cbn [mbind option_bind]. by destruct (ends [""] r).
Qed.

(** ** The table, and the redirects *)

Lemma target_destination method segs : (target method segs).2 = destination st rules assets base method segs.
Proof.
  unfold target, fixed_match, destination.
  assert (Hc : (default (root_entry st rules) (strip (base ++ ["challenge"]) segs ≫= challenge_match)).2 =
    match strip (base ++ ["challenge"]) segs with
    | Some (name :: rest) =>
        match GetByName (st_challenges st) name with
        | Some (reg, _) =>
            match reg_Handler reg, reg_Verify reg with
            | Some h, _ => if bool_decide (rest = []) then handleRequest st rules else h
            | None, Some _ => if bool_decide (rest = ["verify-challenge"]) then VerifyHandlerFunc st reg None None else handleRequest st rules
            | None, None => handleRequest st rules
            end
        | None => handleRequest st rules
        end
    | _ => handleRequest st rules
    end).
  { destruct (strip (base ++ ["challenge"]) segs) as [[|name rest]|]; [done| |done]. cbn [mbind option_bind challenge_match].
    destruct (GetByName (st_challenges st) name) as [[reg id]|]; [|done]. cbn [mbind option_bind]. unfold reg_tail.
    destruct (reg_Handler reg) as [h|]; [|destruct (reg_Verify reg) as [v|]; [|done]]; cbn [mbind option_bind fst snd].
    - change (strip [] rest) with (Some rest). cbn [mbind option_bind ends]. by case_bool_decide.
    - destruct rest as [|s rest]; [done|]. cbn [strip]. case_bool_decide as Hs; cbn [mbind option_bind ends].
      + subst s. repeat case_bool_decide; done || congruence.
      + rewrite bool_decide_false; [done|congruence]. }
  destruct (decide (method = "POST")) as [->|Hp].
  - rewrite bool_decide_true by done. change (get_head "POST") with false. cbn [andb].
    destruct (strip (base ++ ["clear-state"]) segs) as [r|] eqn:Hs; cbn [mbind option_bind].
    + apply strip_Some in Hs as ->. cbn [ends]. case_bool_decide as Hr; [subst r; by rewrite app_nil_r, bool_decide_true|].
      rewrite bool_decide_false; [exact Hc|]. intros Heq. rewrite <-(app_nil_r (base ++ ["clear-state"])) in Heq at 2. by apply app_inv_head in Heq.
    + rewrite bool_decide_false; [exact Hc|]. intros ->.
      pose proof (strip_base (base ++ ["clear-state"]) []) as Hb. rewrite app_nil_r in Hb. congruence.
  - rewrite (bool_decide_false (method = "POST")) by done. cbn [andb].
    destruct (get_head method); [|exact Hc]. cbn [andb].
    destruct (strip (base ++ ["assets"]) segs) as [r|]; cbn [mbind option_bind from_option]; [|exact Hc].
    by destruct (ends [""] r).
Qed.

End matching.

(** ** Paths of requests *)

Lemma length_Split s : length (Split s "/") = S (Count s "/").
Proof.
  unfold Count. induction s as [|c s IH]; [done|]. cbn [Split bytes]. change (bytes (String c s)) with (c :: bytes s).
  rewrite filter_cons. destruct (decide (c = "/"%char)) as [->|Hc]; cbn [length]; [by rewrite IH|].
  destruct (Split s "/") as [|x xs] eqn:Hs; [by apply Split_not_nil in Hs|done].
Qed.

Lemma unescape_segments_length l : length (unescape_segments l) = length l.
Proof. induction l as [|s l IH]; [done|]. cbn [unescape_segments length]. by rewrite IH. Qed.

Lemma unescape_segments_last l : last l ≠ Some "" → unescape_segments l = pathUnescape <$> l.
Proof.
  induction l as [|s l IH]; [done|]. intros Hl. cbn [unescape_segments fmap list_fmap]. destruct l as [|x l].
  - rewrite bool_decide_false; [done|]. intros ->. done.
  - rewrite (bool_decide_false (x :: l = [])), andb_false_r by done. f_equal. by apply IH.
Qed.

Lemma unescape_segments_snoc l : unescape_segments (l ++ [""]) = (pathUnescape <$> l) ++ ["/"].
Proof.
  induction l as [|s l IH]; [done|]. cbn [app unescape_segments fmap list_fmap].
  rewrite (bool_decide_false (l ++ [""] = [])), andb_false_r by (by destruct l). by rewrite IH.
Qed.

Lemma last_Split s : last (Split s "/") = Some "" → s = "" ∨ HasSuffix s "/" = true.
Proof.
  induction s as [|c s IH]; [by left|]. intros Hl. right. apply HasSuffix_slash. cbn [Split] in Hl. case_decide as Hc.
  - subst c. destruct (Split s "/") as [|x xs] eqn:Hs; [by apply Split_not_nil in Hs|]. rewrite last_cons_cons in Hl.
    destruct (IH Hl) as [->|[t ->]%HasSuffix_slash]; [by exists ""|]. by exists (String "/" t).
  - destruct (Split s "/") as [|x xs] eqn:Hs; [by apply Split_not_nil in Hs|]. destruct xs as [|y xs]; [done|].
    rewrite last_cons_cons in Hl. destruct (IH Hl) as [->|[t ->]%HasSuffix_slash]; [done|]. by exists (String c t).
Qed.

Section paths.
  Context (t : string) (Hend : HasSuffix (String "/" t) "/" = false).
  Set Default Proof Using "Type*".

Lemma path_snoc : path_segments (String "/" t +:+ "/") = path_segments (String "/" t) ++ ["/"].
Proof.
  rewrite string_app_cons. cbn [path_segments]. rewrite Split_end, unescape_segments_snoc, unescape_segments_last; [done|].
  intros [->|Ht]%last_Split; [done|]. apply HasSuffix_slash in Ht as [u Hu].
  assert (Hs : HasSuffix (String "/" t) "/" = true) by (apply HasSuffix_slash; exists (String "/" u); by rewrite Hu).
  congruence.
Qed.

Lemma path_count : Count (String "/" t +:+ "/") "/" = S (length (path_segments (String "/" t))).
Proof.
  cbn [path_segments]. rewrite unescape_segments_length, length_Split. unfold Count. rewrite bytes_app, filter_app, length_app.
  change (bytes (String "/" t)) with ("/"%char :: bytes t).
  change (bytes "/") with ["/"%char]. rewrite !filter_cons_True, filter_nil by done. cbn [length]. lia.
Qed.

Lemma exact_multi {H} m h l (x : H) :
  exactMatch (Some (mkPattern m h (pattern_segments l [""]), x)) (String "/" t) = false ∧
  exactMatch (Some (mkPattern m h (pattern_segments l [""]), x)) (String "/" t +:+ "/") =
    bool_decide (length l = length (path_segments (String "/" t))).
Proof.
  assert (Hm : last_multi (pattern_segments l [""]) = true) by (unfold last_multi, pattern_segments; cbn [fmap list_fmap]; by rewrite last_snoc).
  unfold exactMatch. cbn [pat_Segments]. rewrite Hm, Hend. cbn [negb andb]. split; [done|].
  rewrite (bool_decide_false (_ = "")), path_count by done.
  replace (HasSuffix _ "/") with true by (symmetry; apply HasSuffix_slash; by eexists). cbn [negb andb].
  unfold pattern_segments. rewrite length_app, length_fmap. cbn [fmap list_fmap length]. rewrite Nat.add_1_r. cbn [Nat.eqb].
  case_bool_decide; [by apply Nat.eqb_eq|by apply Nat.eqb_neq].
Qed.

End paths.

Lemma exact_literal {H} m h l (x : H) path : l ≠ [] → exactMatch (Some (mkPattern m h (pattern_segments l []), x)) path = true.
Proof.
  intros Hl. unfold exactMatch. cbn [pat_Segments]. destruct l as [|y l _] using rev_ind; [done|].
  unfold last_multi, pattern_segments. change ((λ _ : string, SMulti "") <$> []) with ([] : list Segment).
  rewrite app_nil_r, fmap_app. change (SLit <$> [y]) with [SLit y]. by rewrite last_snoc.
Qed.

(** A clean path is rooted. *)
Lemma cleanPath_rooted p : cleanPath p = p → ∃ t, p = String "/" t.
Proof.
  assert (Hclean : ∀ q, HasPrefix q "/" = true → ∃ t, Clean q = String "/" t).
  { intros q Hq. unfold Clean. rewrite Hq. by eexists. }
  unfold cleanPath. case_bool_decide; [by intros <-; eexists|]. set (q := if HasPrefix p "/" then p else _).
  destruct (Hclean q) as [t Ht].
  { unfold q. destruct (HasPrefix p "/") eqn:Hp; [done|apply HasPrefix_app]. }
  rewrite Ht. destruct (_ && _); intros Hp; eexists; symmetry; exact Hp.
Qed.

Section redirect.
  Context `{Jose} (st : State) (rules : list RuleState) (assets : M unit) (base : list string).
  Context (Hplain : Forall (λ s, plain s = true) base).
  Context (Hn : map_Forall (λ _ reg, plain (reg_Name reg) = true) (st_challenges st)).
  Set Default Proof Using "Type*".

Notation target := (target st rules assets base).

Lemma no_slash s : plain s = true → s ≠ "/".
Proof. by intros Hs ->. Qed.

Lemma strip_base_snoc x segs : x ≠ "/" → strip (base ++ [x]) (segs ++ ["/"]) = (λ r, r ++ ["/"]) <$> strip (base ++ [x]) segs.
Proof.
  intros Hx. apply strip_snoc. rewrite elem_of_app, list_elem_of_singleton. intros [Hin|<-]; [|done].
  rewrite Forall_forall in Hplain. by apply Hplain in Hin.
Qed.

Lemma GetByName_slash : GetByName (st_challenges st) "/" = None.
Proof.
  destruct (GetByName (st_challenges st) "/") as [[reg id]|] eqn:Hg; [|done]. apply GetByName_Some in Hg as [Hin Hname].
  specialize (Hn _ _ Hin). cbn in Hn. by rewrite Hname in Hn.
Qed.

(** What a path with a slash behind it is taken by. *)
Lemma target_snoc method segs :
  target method (segs ++ ["/"]) =
    if get_head method && bool_decide (is_Some (strip (base ++ ["assets"]) segs)) then assets_entry assets base
    else match strip (base ++ ["challenge"]) segs with
         | Some (name :: _) =>
             match GetByName (st_challenges st) name with
             | Some (reg, _) =>
                 match reg_Handler reg with Some h => reg_entry base reg ([], [""], h) | None => root_entry st rules end
             | None => root_entry st rules
             end
         | _ => root_entry st rules
         end.
Proof.
  unfold Dispatch.target, fixed_match. rewrite !strip_base_snoc by done.
  assert (Hends : ∀ r : list string, ends [] (r ++ ["/"]) = false ∧ ends [""] (r ++ ["/"]) = true) by (intros r; by destruct r).
  assert (Hc : default (root_entry st rules) (((λ r, r ++ ["/"]) <$> strip (base ++ ["challenge"]) segs) ≫= challenge_match st base) =
    match strip (base ++ ["challenge"]) segs with
    | Some (name :: _) =>
        match GetByName (st_challenges st) name with
        | Some (reg, _) => match reg_Handler reg with Some h => reg_entry base reg ([], [""], h) | None => root_entry st rules end
        | None => root_entry st rules
        end
    | _ => root_entry st rules
    end).
  { destruct (strip (base ++ ["challenge"]) segs) as [[|name rest]|]; [..|done]; cbn [fmap option_fmap option_map mbind option_bind app challenge_match].
    - by rewrite GetByName_slash.
    - destruct (GetByName (st_challenges st) name) as [[reg id]|]; [|done]. cbn [mbind option_bind]. unfold reg_tail.
      destruct (reg_Handler reg) as [h|]; cbn [mbind option_bind fst snd].
      + change (strip [] ?r) with (Some r). cbn [mbind option_bind]. by rewrite (proj2 (Hends rest)).
      + destruct (reg_Verify reg); [|done]. cbn [mbind option_bind fst snd].
        rewrite (strip_snoc ["verify-challenge"]) by (by rewrite list_elem_of_singleton).
        destruct (strip ["verify-challenge"] rest) as [r|]; [|done]. cbn [fmap option_fmap option_map mbind option_bind].
        by rewrite (proj1 (Hends r)). }
  rewrite Hc. clear Hc. case_bool_decide as Hp.
  - subst method. change (get_head "POST") with false. cbn [andb].
    destruct (strip (base ++ ["clear-state"]) segs) as [r|]; [|done]. cbn [fmap option_fmap option_map mbind option_bind]. by rewrite (proj1 (Hends r)).
  - destruct (get_head method); [|done]. cbn [andb].
    destruct (strip (base ++ ["assets"]) segs) as [r|]; cbn [fmap option_fmap option_map mbind option_bind]; [|by rewrite bool_decide_false by (by intros [])].
    rewrite (proj2 (Hends r)), bool_decide_true; [done|by eexists].
Qed.

Lemma strip_other x y r : x ≠ y → strip (base ++ [x]) (base ++ y :: r) = None.
Proof. intros Hxy. rewrite strip_app, strip_base. cbn [mbind option_bind strip]. by rewrite bool_decide_false. Qed.

Lemma get_head_POST method : get_head method = true → method ≠ "POST".
Proof. by intros Hg ->. Qed.

(** When the mux adds the slash. *)
Lemma redirect_spec method t :
  HasSuffix (String "/" t) "/" = false →
  let p := String "/" t in
  negb (exactMatch (Some (target method (path_segments p))) p) &&
    exactMatch (Some (target method (path_segments (p +:+ "/")))) (p +:+ "/") = needs_slash st base method (path_segments p).
Proof.
  intros Hend. cbv zeta. rewrite (path_snoc t Hend), target_snoc.
  assert (Hne : path_segments (String "/" t) ≠ []).
  { intros Hs. apply (f_equal length) in Hs. cbn [path_segments] in Hs. rewrite unescape_segments_length, length_Split in Hs. done. }
  destruct (exact_multi t Hend "" "" [] (handleRequest st rules)) as [Hroot Hroot'].
  rewrite bool_decide_false in Hroot' by (intros Heq; by destruct (path_segments (String "/" t))).
  change (mkPattern "" "" (pattern_segments [] [""]), handleRequest st rules) with (root_entry st rules) in Hroot, Hroot'.
  assert (Hnroot : ∀ b, target method (path_segments (String "/" t)) = root_entry st rules →
    negb (exactMatch (Some (target method (path_segments (String "/" t)))) (String "/" t)) && b = b) by (intros b ->; by rewrite Hroot).
  set (segs := path_segments (String "/" t)) in *. unfold needs_slash.
  assert (Hchallenge :
    negb (exactMatch (Some (target method segs)) (String "/" t)) &&
      exactMatch (Some (match strip (base ++ ["challenge"]) segs with
        | Some (name :: _) =>
            match GetByName (st_challenges st) name with
            | Some (reg, _) => match reg_Handler reg with Some h => reg_entry base reg ([], [""], h) | None => root_entry st rules end
            | None => root_entry st rules
            end
        | _ => root_entry st rules
        end)) (String "/" t +:+ "/") =
    match strip (base ++ ["challenge"]) segs with
    | Some [name] =>
        match GetByName (st_challenges st) name with Some (reg, _) => bool_decide (is_Some (reg_Handler reg)) | None => false end
    | _ => false
    end).
  { destruct (strip (base ++ ["challenge"]) segs) as [[|name rest]|] eqn:Hc; [by rewrite Hroot', andb_false_r| |by rewrite Hroot', andb_false_r].
    destruct (GetByName (st_challenges st) name) as [[reg id]|] eqn:Hget; [|rewrite Hroot', andb_false_r; by destruct rest].
    destruct (reg_Handler reg) as [h|] eqn:Hh; [|rewrite Hroot', andb_false_r; by destruct rest].
    unfold reg_entry. cbn [fst snd].
    rewrite (proj2 (exact_multi t Hend "" "" (base ++ ["challenge"; reg_Name reg]) h)). fold segs.
    pose proof (strip_Some _ _ _ Hc) as Hs. destruct rest as [|x rest].
    - rewrite !bool_decide_true; [|by eexists|rewrite Hs, !length_app; cbn; lia]. apply Hnroot.
      unfold Dispatch.target, fixed_match. rewrite Hc. rewrite Hs, <-!(assoc_L (++)). cbn [app]. rewrite !strip_other by done.
      cbn [mbind option_bind challenge_match]. rewrite Hget. cbn [mbind option_bind]. unfold reg_tail. rewrite Hh. cbn.
      by destruct (bool_decide (method = "POST")), (get_head method).
    - rewrite bool_decide_false, andb_false_r; [done|]. rewrite Hs, !length_app. cbn. lia. }
  destruct (get_head method) eqn:Hg; [destruct (strip (base ++ ["assets"]) segs) as [r|] eqn:Ha|].
  - (* the assets *)
    rewrite bool_decide_true by (by eexists). apply strip_Some in Ha. cbn [andb]. unfold assets_entry.
    rewrite (proj2 (exact_multi t Hend "GET" "" (base ++ ["assets"]) assets)). fold segs. rewrite Ha.
    replace (strip (base ++ ["challenge"]) ((base ++ ["assets"]) ++ r)) with (None : option (list string))
      by (rewrite <-(assoc_L (++)); cbn [app]; by rewrite strip_other).
    rewrite orb_false_r. destruct r as [|x r].
    + rewrite app_nil_r in *. rewrite !bool_decide_true by done. rewrite andb_true_r, <-Ha.
      rewrite <-(andb_true_r (negb _)). apply Hnroot. unfold Dispatch.target, fixed_match.
      rewrite bool_decide_false, Hg by (by apply get_head_POST). rewrite Ha at 1.
      pose proof (strip_base (base ++ ["assets"]) []) as Hb. rewrite app_nil_r in Hb. rewrite Hb. cbn [mbind option_bind ends].
      rewrite bool_decide_true by done. cbn [negb]. by rewrite Ha, strip_other.
    + rewrite (bool_decide_false (length _ = _)) by (rewrite !length_app; cbn; lia). rewrite andb_false_r.
      rewrite bool_decide_false; [done|]. intros Heq. apply (f_equal length) in Heq. rewrite !length_app in Heq. cbn in Heq. lia.
  - rewrite (bool_decide_false (is_Some None)) by (by intros []). cbn [andb]. rewrite Hchallenge.
    rewrite bool_decide_false; [done|]. intros Heq. pose proof (strip_base (base ++ ["assets"]) []) as Hb.
    rewrite app_nil_r, <-Heq in Hb. congruence.
  - exact Hchallenge.
Qed.

End redirect.

(** A path with its last slash needs no other. *)
Lemma needs_slash_end (st : State) base method t :
  Forall (λ s, plain s = true) base → map_Forall (λ _ reg, plain (reg_Name reg) = true) (st_challenges st) →
  HasSuffix (String "/" t) "/" = true → needs_slash st base method (path_segments (String "/" t)) = false.
Proof.
  intros Hb Hn Hend.
  assert (Hsegs : ∃ s0, path_segments (String "/" t) = s0 ++ ["/"]).
  { apply HasSuffix_slash in Hend as [u Hu]. destruct u as [|c u]; [injection Hu as ->; by exists []|].
    injection Hu as _ ->. exists (pathUnescape <$> Split u "/"). cbn [path_segments]. change (u +:+ "/") with (u +:+ "/").
    by rewrite Split_end, unescape_segments_snoc. }
  destruct Hsegs as [s0 ->]. unfold needs_slash. apply orb_false_iff. split.
  - rewrite (bool_decide_false (s0 ++ _ = _)); [by rewrite andb_false_r|]. intros [_ Heq]%app_inj_tail. done.
  - rewrite (strip_base_snoc base Hb) by done. destruct (strip (base ++ ["challenge"]) s0) as [r|]; [|done].
    cbn [fmap option_fmap option_map]. destruct r as [|x [|y r]]; [|done..]. cbn [app]. by rewrite GetByName_slash.
Qed.

(** Names in a register are unique. *)
Lemma register_names (r : Register) (n : Id) : register_wf r n → NoDup (reg_Name <$> (map_to_list r).*2).
Proof.
  intros Hwf. rewrite <-list_fmap_compose. apply NoDup_fmap_2_strong; [|apply NoDup_map_to_list].
  intros [i c] [i' c'] Hi%elem_of_map_to_list Hi'%elem_of_map_to_list Heq. cbn in Heq.
  pose proof (rwf_name _ _ Hwf _ _ _ _ Hi Hi' Heq) as ->. congruence.
Qed.

Section served.
  Context `{Jose} (st : State) (rules : list RuleState) (assets : M unit) (base : list string).
  Context (Hbase : base ≠ []) (Hplain : Forall (λ s, plain s = true) base).
  Context (Hnd : NoDup (reg_Name <$> (map_to_list (st_challenges st)).*2)).
  Context (Hn : map_Forall (λ _ reg, plain (reg_Name reg) = true) (st_challenges st)).
  Set Default Proof Using "Type*".

Notation routes := (entries st rules assets base (map_to_list (st_challenges st))).

Lemma findHandler_entries r :
  rq_Method r ≠ "CONNECT" →
  let p := EscapedPath (rq_URL r) in
  (cleanPath p = p → findHandler routes r =
    if needs_slash st base (rq_Method r) (path_segments p)
    then RRedirect (URL_String (set_RawQuery (set_Path emptyURL (cleanPath (Path (rq_URL r)) +:+ "/")) (RawQuery (rq_URL r))))
    else RHandler (destination st rules assets base (rq_Method r) (path_segments p))) ∧
  (cleanPath p ≠ p → ∃ u, findHandler routes r = RRedirect u).
Proof.
  intros Hm. cbv zeta. unfold findHandler. rewrite (bool_decide_false (rq_Method r = "CONNECT")) by done.
  set (p := EscapedPath (rq_URL r)). set (host := stripHostPort (rq_Host r)). split; intros Hp.
  - rewrite Hp. destruct (cleanPath_rooted p Hp) as [t Ht]. rewrite Ht. unfold matchOrRedirect.
    assert (Htree : ∀ q, tree_match routes host (rq_Method r) (String "/" q) = Some (target st rules assets base (rq_Method r) (path_segments (String "/" q)))).
    { intros q. apply tree_match_entries; [done| |done]. intros Hs. apply (f_equal length) in Hs. cbn [path_segments] in Hs.
      by rewrite unescape_segments_length, length_Split in Hs. }
    rewrite string_app_cons, !Htree, <-string_app_cons. destruct (HasSuffix (String "/" t) "/") eqn:Hend.
    + cbn [negb]. rewrite andb_false_r. cbn [andb]. rewrite needs_slash_end, bool_decide_true by done.
      rewrite <-(target_destination st rules assets base Hnd). by destruct (target _ _ _ _ _ _).
    + cbn [negb]. rewrite andb_true_r. rewrite (redirect_spec st rules assets base Hplain Hn (rq_Method r) t Hend).
      destruct (needs_slash _ _ _ _); [done|]. rewrite bool_decide_true by done.
      rewrite <-(target_destination st rules assets base Hnd). by destruct (target _ _ _ _ _ _).
  - destruct (matchOrRedirect _ _ _ _ _) as [x [u|]]; [by eexists|]. rewrite bool_decide_false by done. by eexists.
Qed.

(** The verify URL of a challenge. *)
Lemma findHandler_verify id reg r :
  st_challenges st !! id = Some reg → reg_Path reg = slashed (base ++ ["challenge"; reg_Name reg]) →
  rq_Method r ≠ "CONNECT" → RawPath (rq_URL r) = "" → Path (rq_URL r) = reg_Path reg +:+ VerifyChallengeUrlSuffix →
  findHandler routes r = RHandler
    match reg_Handler reg, reg_Verify reg with
    | Some h, _ => h
    | None, Some _ => VerifyHandlerFunc st reg None None
    | None, None => handleRequest st rules
    end.
Proof.
  intros Hreg Hrp Hm Hraw Hpath. destruct (findHandler_entries r Hm) as [Hf _].
  set (l := base ++ ["challenge"; reg_Name reg; "verify-challenge"]).
  assert (Hl : Forall (λ s, plain s = true) l) by (apply Forall_app_2; [done|]; repeat constructor; by apply (Hn id)).
  assert (Hne : l ≠ []) by (by destruct base).
  assert (Hp : EscapedPath (rq_URL r) = slashed l).
  { unfold EscapedPath. rewrite Hraw, bool_decide_true by done. cbn [negb andb].
    rewrite Hpath, Hrp. change VerifyChallengeUrlSuffix with (slashed ["verify-challenge"]).
    rewrite <-slashed_app, <-(assoc_L (++)). cbn [app]. fold l.
    rewrite bool_decide_false by (by rewrite slashed_Join). by apply slashed_escape. }
  rewrite Hp in Hf. specialize (Hf (proj1 (cleanPath_slashed l Hne Hl))).
  assert (Hsegs : path_segments (slashed l) = l).
  { pose proof (Split_slashed l Hne (plain_no_slash _ Hl)) as Hsp. rewrite slashed_Join in * by done.
    change ("/" +:+ Join l "/") with (String "/" (Join l "/")) in *. cbn [path_segments].
    change (Split (String "/" (Join l "/")) "/") with ("" :: Split (Join l "/") "/") in Hsp. injection Hsp as ->.
    rewrite unescape_segments_last.
    - rewrite <-(list_fmap_id l) at 2. apply list_fmap_ext. intros i s Hs. apply plain_pathUnescape. by eapply Forall_lookup_1 in Hl.
    - intros Hlast. apply last_Some in Hlast as [l' Hl']. rewrite Hl', Forall_app, Forall_singleton in Hl. by destruct Hl. }
  rewrite Hsegs in Hf. rewrite Hf.
  assert (Hget : GetByName (st_challenges st) (reg_Name reg) = Some (reg, id)).
  { destruct (GetByName (st_challenges st) (reg_Name reg)) as [[reg' id']|] eqn:Hg.
    - apply GetByName_loop_Some in Hg as [Hin Hname].
      assert (Heq : (id', reg') = (id, reg)).
      { rewrite <-list_fmap_compose in Hnd. apply list_elem_of_lookup_1 in Hin as [i Hi].
        assert (Hin2 : (id, reg) ∈ map_to_list (st_challenges st)) by (by apply elem_of_map_to_list).
        apply list_elem_of_lookup_1 in Hin2 as [j Hj].
        assert (i = j) as -> by (eapply (NoDup_lookup _ i j); [exact Hnd| |]; rewrite list_lookup_fmap, ?Hi, ?Hj; cbn; [done|by rewrite Hname]).
        congruence. }
      congruence.
    - by apply GetByName_None with (id := id) (c := reg) in Hg. }
  assert (Hstrip : strip (base ++ ["challenge"]) l = Some [reg_Name reg; "verify-challenge"]).
  { unfold l. change ["challenge"; reg_Name reg; "verify-challenge"] with (["challenge"] ++ [reg_Name reg; "verify-challenge"]).
    rewrite (assoc_L (++)). apply strip_base. }
  assert (Hassets : strip (base ++ ["assets"]) l = None) by (by apply strip_other).
  unfold needs_slash, destination. rewrite Hstrip, Hassets, Hget. cbn [from_option]. rewrite andb_false_r.
  rewrite (bool_decide_false (l = base ++ ["assets"])) by (intros Heq; apply (f_equal length) in Heq; unfold l in Heq; rewrite !length_app in Heq; cbn in Heq; lia).
  rewrite (bool_decide_false (l = base ++ ["clear-state"])) by (intros Heq; apply (f_equal length) in Heq; unfold l in Heq; rewrite !length_app in Heq; cbn in Heq; lia).
  rewrite !andb_false_r. cbn [orb]. destruct (reg_Handler reg); [by rewrite bool_decide_false|]. destruct (reg_Verify reg); [by rewrite bool_decide_true|done].
Qed.

End served.

(** What holds of a server with plain paths. *)
Record plain_server `{Jose} (st : State) (base : list string) : Prop := {
  ps_built : ∃ Y (HO : Outside Y) (HL : OutsideLaws) st' RC n, built (Y:=Y) st' RC (st_urlPath st) (st_challenges st) n;
  ps_url : st_urlPath st = slashed base;
  ps_base : base ≠ [];
  ps_plain : Forall (λ s, plain s = true) base;
  ps_names : map_Forall (λ _ reg, plain (reg_Name reg) = true) (st_challenges st) }.

(** The request for a verify URL gets to the handler of its challenge. *)
Lemma state_mux_verify `{Jose} (st : State) (rules : list RuleState) (assets : M unit) base id reg w :
  plain_server st base → st_challenges st !! id = Some reg → reg_Handler reg = None → is_Some (reg_Verify reg) →
  rq_Method (wd_Req w) ≠ "CONNECT" → RawPath (rq_URL (wd_Req w)) = "" →
  Path (rq_URL (wd_Req w)) = reg_Path reg +:+ VerifyChallengeUrlSuffix →
  state_mux st rules assets w = VerifyHandlerFunc st reg None None w.
Proof.
  intros [(Y & HO & HL & st' & RC & n & Hb) Hurl Hbase Hplain Hnames] Hreg Hh [v Hv] Hm Hraw Hpath.
  destruct (built_spec st' RC _ _ _ Hb) as (Hwf & _ & Hall). pose proof (register_names _ _ Hwf) as Hnd.
  assert (Hrp : reg_Path reg = slashed (base ++ ["challenge"; reg_Name reg])).
  { rewrite (wb_Path _ _ (Hall _ _ Hreg)), Hurl. apply path_Join_slashed; [done..|]. by apply (Hnames id). }
  unfold state_mux. rewrite (setupRoutes_entries st rules assets base) by done. change (default [] (Some ?x)) with x.
  unfold serve_mux. rewrite bind_run. cbn [get_req].
  rewrite bool_decide_false.
  2:{ rewrite Hpath, Hrp, slashed_Join by (by destruct base). done. }
  rewrite (findHandler_verify st rules assets base Hbase Hplain Hnd Hnames id reg) by done. by rewrite Hh, Hv.
Qed.

(** * Properties *)

(** C14: Every request goes where it should. With a base path and challenge names of plain
    segments, whatever challenges were created, the mux takes all patterns of the state,
    none of which conflict; a request with a clean path goes where the table says, to the
    clearing of the state, the assets, the handler of a challenge or else the rules of
    the proxy, unless its path only misses a slash; one with an unclean path is only
    redirected, so that no spelling of a path gets around the rules; and the verify URL
    of every challenge gets to the handler of that challenge. *)
Theorem routing `{Jose} (st : State) (rules : list RuleState) (assets : M unit) (base : list string) (Hplain : plain_server st base) :
  ∃ routes, setupRoutes st rules assets = Some routes ∧ ∀ r, rq_Method r ≠ "CONNECT" →
    let p := EscapedPath (rq_URL r) in
    (cleanPath p = p → findHandler routes r =
      if needs_slash st base (rq_Method r) (path_segments p)
      then RRedirect (URL_String (set_RawQuery (set_Path emptyURL (cleanPath (Path (rq_URL r)) +:+ "/")) (RawQuery (rq_URL r))))
      else RHandler (destination st rules assets base (rq_Method r) (path_segments p))) ∧
    (cleanPath p ≠ p → ∃ u, findHandler routes r = RRedirect u) ∧
    ∀ id reg, st_challenges st !! id = Some reg →
      RawPath (rq_URL r) = "" → Path (rq_URL r) = reg_Path reg +:+ VerifyChallengeUrlSuffix →
      findHandler routes r = RHandler
        match reg_Handler reg, reg_Verify reg with
        | Some h, _ => h
        | None, Some _ => VerifyHandlerFunc st reg None None
        | None, None => handleRequest st rules
        end.
Proof.
  destruct Hplain as [(Y & HO & HL & st' & RC & n & Hb) Hurl Hbase Hplain Hnames]. destruct (built_spec st' RC _ _ _ Hb) as (Hwf & _ & Hall).
  pose proof (register_names _ _ Hwf) as Hnd. exists (entries st rules assets base (map_to_list (st_challenges st))).
  split; [by apply setupRoutes_entries|]. intros r Hm. cbv zeta.
  destruct (findHandler_entries st rules assets base Hbase Hplain Hnd Hnames r Hm) as [Hclean Hunclean]. split; [done|]. split; [done|].
  intros id reg Hreg Hraw Hpath. apply (findHandler_verify st rules assets base Hbase Hplain Hnd Hnames id); try done.
  rewrite (wb_Path _ _ (Hall _ _ Hreg)), Hurl, path_Join_slashed; [done..|]. by apply (Hnames id).
Qed.

(** A site with a challenge that is verified at its URL, and one with a handler. *)
Definition demo_routes_register : Register := demo_create (demo_create ∅ 0%Z "gate" "refresh") 1%Z "style" "resource-load".
Definition demo_routes_site : State :=
  mkState (mkStateSettings {["*" := demo_backend]} "" "" "" "" 200) (mkSettings ∅ [] "anubis" ∅)
    "key" "key" "fingerprint" "/base" demo_routes_register {["anubis" := λ _, Ok "<html>"]} (λ _, None)
    (λ _, "text/plain; charset=utf-8") "bust".

Definition demo_route_request (method path : string) : Request :=
  mkRequest method "example.org:443" "HTTP/1.1" 1 (set_Path emptyURL path) ∅ [] "" false.

Lemma demo_routes_built : built (Y:=unit) demo_server (λ _, Err (ENew "")) "/base" demo_routes_register 2%Z.
Proof.
  apply demo_create_built; [apply demo_create_built; [by apply built_empty|]|]; vm_compute; reflexivity.
Qed.

Lemma names_plain (r : Register) :
  forallb (λ kr : Id * Registration, plain (reg_Name kr.2)) (map_to_list r) = true → map_Forall (λ _ reg, plain (reg_Name reg) = true) r.
Proof.
  rewrite forallb_forall. intros Hall i reg Hi. apply (Hall (i, reg)), list_elem_of_In. by apply elem_of_map_to_list.
Qed.

Lemma demo_gate : ∃ reg v, demo_routes_register !! 1%Z = Some reg ∧ reg_Handler reg = None ∧ reg_Verify reg = Some v ∧
  reg_Path reg = "/base/challenge/gate".
Proof.
  assert (Hc : (λ reg, (match reg_Handler reg with None => true | _ => false end,
      match reg_Verify reg with Some _ => true | _ => false end, reg_Path reg)) <$> demo_routes_register !! 1%Z =
    Some (true, true, "/base/challenge/gate")) by (vm_compute; reflexivity).
  destruct (demo_routes_register !! 1%Z) as [reg|]; [|discriminate Hc]. exists reg. injection Hc as H1 H2 H3.
  destruct (reg_Verify reg) as [v|]; [|done]. exists v. by destruct (reg_Handler reg).
Qed.

Lemma routing_witness :
  ∃ routes reg, setupRoutes demo_routes_site [] (ret ()) = Some routes ∧ demo_routes_register !! 1%Z = Some reg ∧
    findHandler routes (demo_route_request "GET" "/base/challenge/gate/verify-challenge") =
      RHandler (VerifyHandlerFunc demo_routes_site reg None None) ∧
    findHandler routes (demo_route_request "POST" "/base/clear-state") = RHandler clearChallengeState ∧
    findHandler routes (demo_route_request "GET" "/base/challenge/style") =
      RRedirect "/base/challenge/style/".
Proof.
  destruct (routing demo_routes_site [] (ret ()) ["base"]) as (routes & Hr & Hroutes).
  - split.
    + exists unit, demo_outside, demo_outside_laws, demo_server, (λ _, Err (ENew "")), 2%Z. exact demo_routes_built.
    + reflexivity.
    + done.
    + by repeat constructor.
    + apply names_plain. vm_compute. reflexivity.
  - destruct demo_gate as (reg & v & Hreg & Hh & Hv & Hp). exists routes, reg. split; [done|]. split; [done|].
    destruct (Hroutes (demo_route_request "GET" "/base/challenge/gate/verify-challenge")) as (_ & _ & Hver); [done|].
    destruct (Hroutes (demo_route_request "POST" "/base/clear-state")) as (Hc & _); [done|].
    destruct (Hroutes (demo_route_request "GET" "/base/challenge/style")) as (Hs & _); [done|].
    split; [|split].
    + rewrite (Hver 1%Z reg Hreg); [by rewrite Hh, Hv|done|by rewrite Hp].
    + rewrite Hc by (vm_compute; reflexivity). reflexivity.
    + rewrite Hs by (vm_compute; reflexivity). set (b := needs_slash _ _ _ _). assert (Hb : b = true) by (vm_compute; reflexivity).
      rewrite Hb. reflexivity.
Defined.

(** Without a base path the routes of challenges are patterns for a host of that name, and
    requests to them go to the rules. *)
Example empty_base :
  path_Join [""; "challenge"; "gate"] = "challenge/gate" ∧
  parsePattern ("challenge/gate" +:+ VerifyChallengeUrlSuffix) =
    Some (mkPattern "" "challenge" [SLit "gate"; SLit "verify-challenge"]).
Proof. vm_compute. done. Qed.
