(* ===== verification/Tags.v ===== *)
(** The tag cache over whole requests: every operation of the server keeps the invariant
    that it holds tags of the allow list only, and so do the pages that show them
    ([utils/tagfetcher.go], [fetchTags] and [addCachedTags] of lib). *)

From S2P Require Import Prelude GoStrings GoCrypto GoTime NetAddr GoURL Mime UtilsHttp GoPath.
From S2P Require Import DecayMap Types Cookie Register State Key Data ResponsePolicy Pages Helper Mux.
From S2P Require Import Effects Action Rule Server JoseDemo Runtimes DataProps Safety Routes.
From stdpp Require Import options.

Local Open Scope handler_scope.

Abbreviation keeps := (moves keeps_rel).

Lemma steady_keeps {A} (m : M A) : steady m → keeps m.
Proof. intros Hm w. apply Hm. Qed.
Lemma keeps_upd_data f : keeps (upd_data f).
Proof. by intros w Hw. Qed.
Lemma keeps_upd_req f : keeps (upd_req f).
Proof. by intros w Hw. Qed.
Lemma keeps_r_Set k v : keeps (r_Set k v).
Proof. by intros w Hw. Qed.
Lemma keeps_emit e : keeps (emit e).
Proof. by intros w Hw. Qed.
#[local] Hint Resolve keeps_upd_data keeps_upd_req keeps_r_Set keeps_emit : steady.

Lemma keeps_serve b : keeps (serve b).
Proof. unfold serve. steady. Qed.
#[local] Hint Resolve keeps_serve : steady.

Section keeps.
  Context `{Jose} (st : State).

(** ** The evaluation of challenges *)

Lemma keeps_VerifyChallengeToken reg token key : keeps (VerifyChallengeToken reg token key).
Proof. unfold VerifyChallengeToken. steady. Qed.
Hint Resolve keeps_VerifyChallengeToken : steady.

Lemma keeps_verifyChallenge reg key : keeps (verifyChallenge st reg key).
Proof. unfold verifyChallenge, verify_legacy, verify_issued, ClearChallengeToken. steady. Qed.
Hint Resolve keeps_verifyChallenge : steady.

Lemma keeps_state_loop cookies last : keeps (state_loop st cookies last).
Proof. revert last. induction cookies as [|c cookies IH]; intros last; cbn; unfold verifyChallengeStateCookie; steady. Qed.
Hint Resolve keeps_state_loop : steady.

Lemma keeps_evaluate_all regs : keeps (evaluate_all st regs).
Proof.
  induction regs as [|reg regs IH]; cbn [evaluate_all]; [steady|]. apply moves_bind; [typeclasses eauto| |by intros].
  unfold evaluate_one, ClearChallengeToken. steady.
Qed.

Lemma keeps_EvaluateChallenges regs : keeps (EvaluateChallenges st regs).
Proof.
  unfold EvaluateChallenges. apply moves_bind; [typeclasses eauto| |].
  - unfold verifyChallengeState, verifyChallengeStateCookie. steady.
  - intros res. apply moves_bind; [typeclasses eauto| |intros _; apply keeps_evaluate_all]. destruct res; steady.
Qed.

(** ** Actions *)

Definition issues_keeping (reg : Registration) : Prop := ∀ k e, keeps (reg_IssueChallenge reg k e).

Lemma keeps_issue_loop cont pass fail regs :
  keeps pass → keeps fail → Forall issues_keeping regs → keeps (issue_loop st cont pass fail regs).
Proof.
  intros Hp Hf Hregs. induction Hregs as [|reg regs Hr _ IH]; cbn [issue_loop]; [done|].
  apply moves_bind; [typeclasses eauto|steady|]. intros d. destruct (not_due d reg); [done|].
  apply moves_bind; [typeclasses eauto| |].
  - unfold issue_one. pose proof (Hr : ∀ k e, moves keeps_rel _). steady.
  - intros result. apply moves_bind; [typeclasses eauto|steady|]. intros r. destruct result; try done.
    + case_bool_decide; [done|steady].
    + apply moves_bind; [typeclasses eauto|steady|]. intros _. by case_bool_decide.
    + apply moves_bind; [typeclasses eauto|steady|]. intros _. destruct cont; [steady|done].
Qed.

Lemma keeps_Challenge cont pass fail regs :
  keeps pass → keeps fail → Forall issues_keeping regs → keeps (Challenge_Handle st cont regs pass fail).
Proof.
  intros Hp Hf Hregs. unfold Challenge_Handle. do 2 (apply moves_bind; [typeclasses eauto|steady|]; intros ?).
  destruct (list_find _ _) as [[i reg]|]; [|by apply keeps_issue_loop].
  apply moves_bind; [typeclasses eauto|steady|]. intros _. destruct cont; [steady|done].
Qed.

Lemma keeps_set_opts l : keeps (set_opts l).
Proof. induction l as [|[k v] l IH]; cbn; [steady|]. unfold SetOpt. steady. Qed.

Lemma keeps_Handle h done :
  keeps done → Forall issues_keeping (handler_regs h) → keeps (Handle st h done).
Proof.
  intros Hd. induction h as [| |code hash|code hash|status| |opts|m rw be|hash code cont regs pa p IHp fa f IHf];
    cbn [Handle handler_regs]; intros Hregs.
  - steady.
  - unfold Pass_Handle, serve_done. steady.
  - apply steady_keeps. pose proof steady_no_store. unfold Deny_Handle. steady.
  - apply steady_keeps. pose proof steady_no_store. unfold Block_Handle. steady.
  - apply steady_keeps. pose proof steady_no_store. unfold Code_Handle. steady.
  - unfold Drop_Handle, no_store_headers. steady.
  - unfold Context_Handle. pose proof keeps_set_opts. steady.
  - unfold Proxy_Handle. steady.
  - apply Forall_app in Hregs as [Hr [Hrp Hrf]%Forall_app].
    apply keeps_Challenge; [..|done]; (apply moves_bind; [typeclasses eauto|steady|auto]).
Qed.

(** ** Rules *)

Lemma keeps_Evaluate rule done :
  keeps done → Forall issues_keeping (rule_regs rule) → keeps (Evaluate st rule done).
Proof.
  intros Hd. induction rule as [n h c a hd cs IH] using RuleState_ind'. intros Hregs.
  rewrite Evaluate_eq. apply Forall_app in Hregs as [Hh Hcs].
  do 2 (apply moves_bind; [typeclasses eauto|steady|]; intros ?).
  destruct (rule_condition _ _ _) as [[[[]|t]|] [e|]]; try solve [steady].
  do 2 (apply moves_bind; [typeclasses eauto|steady|]; intros _). apply moves_bind; [typeclasses eauto| |].
  - apply keeps_Handle; [|done]. unfold rule_done. steady.
  - intros [[] [e|]]; try solve [steady]. cbn [rs_Children rs_Hash]. clear Hh hd c a.
    induction IH as [|x cs Hx _ IHcs]; cbn [evaluate_children]; [steady|]. cbn in Hcs. apply Forall_app in Hcs as [Hc Hcs].
    apply moves_bind; [typeclasses eauto|by apply Hx|]. intros [[] [e|]]; solve [by apply IHcs|steady].
Qed.

(** ** The server *)

Lemma keeps_rule_callback host b name action : keeps (rule_callback st host b name action).
Proof. unfold rule_callback, cleanupRequest, getBackend, service_unavailable. steady. Qed.

Lemma keeps_handleRequest rules :
  Forall (λ rule, Forall issues_keeping (rule_regs rule)) rules → keeps (handleRequest st rules).
Proof.
  intros Hrules. unfold handleRequest. apply moves_bind; [typeclasses eauto|steady|]. intros r.
  destruct (GetBackend st _) as [b|]; [|unfold service_unavailable; steady]. apply moves_bind; [typeclasses eauto| |].
  - generalize (rq_Host r) as host. intros host. induction Hrules as [|rule rules Hr _ IH]; cbn [rule_loop]; [steady|].
    apply moves_bind; [typeclasses eauto|apply keeps_Evaluate; [apply keeps_rule_callback|done]|].
    intros [[] [e|]]; solve [done|steady].
  - intros []; [|steady]. pose proof keeps_rule_callback. unfold Pass_Handle, serve_done. steady.
Qed.

End keeps.

Section server.
  Context `{Jose} (st : State) (rules : list RuleState) (assets : M unit) (regs : list Registration).

Lemma keeps_serve_request rid ja3n ja4 :
  server_ok st rules assets regs → keeps assets → keeps (serve_request st rules assets regs rid ja3n ja4).
Proof.
  intros Hok Ha. pose proof (server_wb _ _ _ _ Hok) as Hwb.
  assert (Hregs : ∀ reg, reg ∈ regs → issues_keeping reg).
  { intros reg. rewrite (so_regs _ _ _ _ Hok). intros ([id reg'] & -> & Hin%elem_of_map_to_list)%list_elem_of_fmap.
    intros k e. apply steady_keeps. by apply (wb_issue _ _ (Hwb _ _ Hin)). }
  unfold serve_request, ServeHTTP. pose proof (keeps_EvaluateChallenges st regs).
  assert (Hmux : keeps (state_mux st rules assets)).
  { intros w. destruct (serve_mux_run st keeps _ rules assets Hwb) with (w := w) as (m & Hm & ->); [by intros; apply steady_keeps|done| |apply Hm].
    apply keeps_handleRequest, Forall_forall. intros rule Hrule. apply Forall_forall. intros reg Hreg.
    by eapply Hregs, (so_rules _ _ _ _ Hok). }
  steady.
Qed.

(** The tag caches of a server: empty when its state is made, left by a request whose
    world has the cache before, or swept by the goroutine that removes expired entries. *)
Inductive cache_reachable : DecayMap string (list Node) → Prop :=
  | cache_new : cache_reachable NewDecayMap
  | cache_request rid ja3n ja4 w : cache_reachable (wd_Tags w) →
      cache_reachable (wd_Tags (world_of (serve_request st rules assets regs rid ja3n ja4 w)))
  | cache_sweep now tags : cache_reachable tags → cache_reachable (Decay now tags).

Lemma tags_Get_safe key w :
  tags_safe w → match tags_Get key w with Ret (Some tags) _ => Forall safe_tag tags | _ => True end.
Proof.
  intros Hw. unfold tags_Get. destruct (wd_Tags w !! key) as [e|] eqn:He; [|done]. unfold bind, now. cbn.
  unfold DecayMap.Get, get_read. rewrite He. destruct (expired _ e); cbn; [done|]. by eapply Hw.
Qed.

Lemma fetchTags_safe host backend meta link w :
  tags_safe w → match fetchTags st host backend meta link w with Ret tags _ => Forall safe_tag tags | Panic _ _ => True end.
Proof.
  intros Hw. unfold fetchTags. rewrite bind_run. cbn [get_req]. cbv zeta. rewrite bind_run.
  match goal with |- context [tags_Get ?k w] => pose proof (tags_Get_safe k w Hw) as Hg; destruct (tags_Get k w) as [[tags|] w1|] end;
    [done| |done]. destruct backend as [b|]; [|done]. rewrite bind_run. cbn [emit].
  destruct (FetchTags st b _ _) as [|n nodes]; [constructor|]. rewrite bind_run. apply kept_safe_tags.
Qed.

Lemma addCachedTags_safe input w input' w' :
  tags_safe w → addCachedTags st input w = Ret input' w' →
  ∃ shown, Forall safe_tag shown ∧ input_tags input' "MetaTags" = input_tags input "MetaTags" ++ (tag_attrs <$> shown) ∧
    input_tags input' "LinkTags" = input_tags input "LinkTags".
Proof.
  intros Hw. assert (Hnone : ∀ w, Ret input w = Ret input' w' → ∃ shown, Forall safe_tag shown ∧
    input_tags input' "MetaTags" = input_tags input "MetaTags" ++ (tag_attrs <$> shown) ∧
    input_tags input' "LinkTags" = input_tags input "LinkTags").
  { intros w0 [= <- _]. exists []. by rewrite app_nil_r. }
  unfold addCachedTags. do 2 (rewrite bind_run; cbn [get_data get_req]). destruct (_ || _); [|apply Hnone].
  destruct (BackendHost st _ _) as [backend host]. rewrite bind_run.
  match goal with |- context [fetchTags st ?h ?b ?m ?l w] => pose proof (fetchTags_safe h b m l w Hw) as Hf;
    destruct (fetchTags st h b m l w) as [tags w1|] end; [|done].
  destruct tags as [|n tags]; [apply Hnone|]. set (shown := n :: tags) in *. intros [= <- _]. exists shown. split; [done|]. split.
  - unfold input_tags at 1. by rewrite lookup_insert_ne, lookup_insert_eq.
  - unfold input_tags at 1. by rewrite lookup_insert_eq.
Qed.

Lemma cache_safe tags : server_ok st rules assets regs → keeps assets → cache_reachable tags →
  ∀ k e, tags !! k = Some e → Forall safe_tag (Value e).
Proof.
  intros Hok Ha. induction 1 as [|rid ja3n ja4 w _ IH|now tags _ IH]; intros k e.
  - unfold NewDecayMap. by rewrite lookup_empty.
  - by apply keeps_serve_request.
  - unfold Decay. intros [He _]%map_lookup_filter_Some. by eapply IH.
Qed.

End server.

(** * Properties *)

(** C34: Of the tags of a protected site only allowed ones get into the tag cache and from
    there to pages: links of the relations on the list (no style sheet, no preload), meta
    elements of the names and properties on the list, or that a listed prefix begins with, and
    with safe attributes only. Over any sequence of requests and sweeps, whatever rules,
    challenges, backends and clients do, the cache stays free of others; and in every
    such state a page is given, besides what its template was going to get, the attributes
    of such tags only, fetched or cached. *)
Theorem tags_invariant `{Jose} (st : State) (rules : list RuleState) (assets : M unit) (regs : list Registration)
    (tags : DecayMap string (list Node)) (Hok : server_ok st rules assets regs) (Hassets : keeps assets)
    (Hreach : cache_reachable st rules assets regs tags) :
  (∀ k e, tags !! k = Some e → Forall safe_tag (Value e)) ∧
  ∀ w input input' w', wd_Tags w = tags → addCachedTags st input w = Ret input' w' →
    ∃ shown, Forall safe_tag shown ∧ Forall safe_attributes (tag_attrs <$> shown) ∧
      input_tags input' "MetaTags" = input_tags input "MetaTags" ++ (tag_attrs <$> shown) ∧
      input_tags input' "LinkTags" = input_tags input "LinkTags".
Proof.
  pose proof (cache_safe _ _ _ _ tags Hok Hassets Hreach) as Hsafe. split; [done|]. intros w input input' w' Ht Hrun.
  destruct (addCachedTags_safe st input w input' w') as (shown & Hs & Hm & Hl); [intros k e; rewrite Ht; apply Hsafe|done|].
  exists shown. split; [done|]. split; [|done]. apply Forall_fmap. eapply Forall_impl; [exact Hs|]. intros n. apply safe_tag_attributes.
Qed.

(** A site that has a description, and a request whose page shows it. *)
Definition demo_tag_site : State :=
  mkState (mkStateSettings {["*" := demo_backend]} "" "" "" "" 200) (mkSettings ∅ [] "anubis" ∅)
    "key" "key" "fingerprint" "/base" demo_lists {["anubis" := λ _, Ok "<html>"]} (λ _, Some [demo_meta "name" "description"])
    (λ _, "text/html; charset=utf-8") "bust".

Definition demo_tag_start : World :=
  demo_world (upd_opts (λ _, {["proxy-meta-tags" := "true"]}) (demo_data 0%Z (Addr4 0xC0000207))) (demo_request ∅) 0%Z (S754_zero false).

Lemma demo_tag_site_ok : server_ok demo_tag_site [] (ret ()) demo_site_regs.
Proof.
  split.
  - exists unit, demo_outside, demo_outside_laws, demo_server, (λ _, Err (ENew "")), 1%Z. apply demo_lists_built.
  - done.
  - by intros rule reg ?%elem_of_nil.
  - by intros w.
  - apply setupRoutes_patterns. vm_compute. by eexists.
Qed.

Lemma tags_invariant_witness :
  ∃ input' w' shown, addCachedTags demo_tag_site ∅ demo_tag_start = Ret input' w' ∧
    input_tags input' "MetaTags" = tag_attrs <$> shown ∧ Forall safe_tag shown ∧ length shown = 1.
Proof.
  destruct (tags_invariant demo_tag_site [] (ret ()) demo_site_regs ∅ demo_tag_site_ok ltac:(by intros w Hw) (cache_new _ _ _ _))
    as [_ Hpage].
  destruct (addCachedTags demo_tag_site ∅ demo_tag_start) as [input' w'|] eqn:Hrun; [|by vm_compute in Hrun].
  destruct (Hpage demo_tag_start ∅ input' w' eq_refl Hrun) as (shown & Hs & _ & Hm & _). exists input', w', shown.
  split; [done|]. split; [exact Hm|]. split; [done|].
  assert (Hl : (λ res, match res with Ret i _ => length (input_tags i "MetaTags") | _ => 0 end)
    (addCachedTags demo_tag_site ∅ demo_tag_start) = 1) by (vm_compute; reflexivity).
  rewrite Hrun in Hl. rewrite Hm in Hl. unfold input_tags at 1 in Hl. rewrite lookup_empty in Hl. cbn [app] in Hl.
  by rewrite length_fmap in Hl.
Defined.
