(* ===== verification/NewState.v ===== *)
(** [NewState] and [Close] of [lib/state.go]: building the server state from a policy. *)

From S2P Require Import Prelude GoStrings GoCrypto GoTime NetAddr GoURL Mime GoPath DecayMap Types Parameters GoNet Cache Radb Networks.
From S2P Require Import Cookie Register State Key Data ResponsePolicy Pages Effects Action ActionNew Rule Server JoseDemo Runtimes.
From S2P Require Import Safety Routes Policy Conditions.
From Stdlib Require Import Sorting.Permutation.
From stdpp Require Import options.

Local Open Scope go_scope.

(** * Replacing conditions

    [strings.NewReplacer]: at each byte the first pair, in the order of the
    arguments, whose old text is there; its text is not looked at again. *)
Fixpoint find_pair (pairs : list (string * string)) (s : string) : option (string * string) :=
  match pairs with
  | [] => None
  | (old, new) :: pairs => if HasPrefix s old then Some (old, new) else find_pair pairs s
  end.

(** [skip]: how many bytes of the last match are still to come. *)
Fixpoint replace_loop (pairs : list (string * string)) (skip : nat) (s : string) : string :=
  match s with
  | EmptyString => ""
  | String c s' =>
      match skip with
      | S skip => replace_loop pairs skip s'
      | O =>
          match find_pair pairs s with
          | Some (old, new) => new +:+ replace_loop pairs (String.length old - 1) s'
          | None => String c (replace_loop pairs 0 s')
          end
      end
  end.
Definition Replace (pairs : list (string * string)) (s : string) : string := replace_loop pairs 0 s.

(** A condition is named in parentheses after a dollar sign. *)
Definition reference (k : string) : string := "($" +:+ k +:+ ")".

(** * Building a state *)

(** [utils.NewRADb]: what the client of the routing registry dials. *)
Definition NewRADb : result string :=
  match SplitHostPort RADBServer with Err e => Err e | Ok (host, port) => Ok (host +:+ ":" +:+ port) end.

(** [path.Base]. *)
Definition path_Base (p : string) : string :=
  if bool_decide (p = "") then "."
  else
    match filter (λ x, x ≠ "") (Split p "/") with
    | [] => "/"
    | parts => default "" (last parts)
    end.

(** [crypto/ed25519] keys from seeds: a private key and its public part. *)
Class Ed25519 := { NewKeyFromSeed : string → string; PublicKey : string → string }.
Definition SeedSize : nat := 32.

Definition zeroes (n : nat) : string := of_bytes (repeat (byte_of 0) n).

(** The keys: from the seed, which is cleared then, or generated. The second part is
    what the memory of the seed holds afterwards. *)
Definition state_keys `{Ed25519} (seed : string) (generated : result (string * string)) :
    result (string * string) * string :=
  if (0 <? String.length seed)%nat then
    if negb (String.length seed =? SeedSize)%nat
    then (Err (ENew ("invalid private key seed length: " +:+ FormatUint (N.of_nat (String.length seed)))), seed)
    else let privateKey := NewKeyFromSeed seed in
         (Ok (PublicKey privateKey, privateKey), zeroes (String.length seed))
  else (generated, seed).

Abbreviation Templates := (gmap string (TplInput → result string)).

(** [initTemplate]: [parse] is the parsing of a text with the functions [attr] and [safe], which
    mark a string as an attribute or as HTML that needs no escaping. *)
Definition initTemplate (parse : string → string → result (TplInput → result string)) (templates : Templates)
    (name data : string) : result Templates :=
  match parse name data with Ok tpl => Ok (<[name := tpl]> templates) | Err err => Err err end.

(** The program's own templates: the files of the embedded directory. An error ends the
    process, which here is an error too. *)
Fixpoint add_templates (parse : string → string → result (TplInput → result string)) (ReadFile : string → result string)
    (templates : Templates) (dir : list (string * bool)) : result Templates :=
  match dir with
  | [] => Ok templates
  | (name, isDir) :: dir =>
      if isDir : bool then add_templates parse ReadFile templates dir
      else
        match ReadFile name with
        | Err err => Err err
        | Ok data =>
            match initTemplate parse templates name data with
            | Err err => Err err
            | Ok templates => add_templates parse ReadFile templates dir
            end
        end
  end.
Definition globalTemplates (parse : string → string → result (TplInput → result string)) (ReadFile : string → result string)
    (ReadDir : string → result (list (string * bool))) : result Templates :=
  match ReadDir "." with Err err => Err err | Ok dir => add_templates parse ReadFile ∅ dir end.

(** The template to use: one of the program's by its short name, or a file. *)
Definition select_template (ReadFile : string → result string) (parse : string → string → result (TplInput → result string))
    (templates : Templates) (name : string) : result (Templates * string) :=
  let known := "challenge-" +:+ name +:+ ".gohtml" in
  match templates !! known with
  | Some _ => Ok (templates, known)
  | None =>
      match ReadFile name with
      | Ok data =>
          if (0 <? String.length data)%nat then
            let base := path_Base name in
            match initTemplate parse templates base data with
            | Ok templates => Ok (templates, base)
            | Err e => Err (EWrap ("error loading template " +:+ name +:+ ": ") e)
            end
          else Err (ENew ("no template defined for " +:+ name))
      | Err _ => Err (ENew ("no template defined for " +:+ name))
      end
  end.

Section conditions.
  Context `{CelLibs}.

(** One condition of the policy: its text in parentheses. *)
Definition condition_text (k : string) (entries : list string) : result (string * string) :=
  match cel_NewAst OperatorOr entries with
  | Err e => Err (ENew ("conditions " +:+ k +:+ ": error compiling conditions: " +:+ Error e))
  | Ok ast =>
      match cel_OutputType ast with
      | None => Err (ENew ("conditions " +:+ k +:+ ": error compiling conditions: no output"))
      | Some (OutOther _) => Err (ENew ("conditions " +:+ k +:+ ": error compiling conditions: output type is not bool"))
      | Some OutBool =>
          match cel_AstToString ast with
          | Err e => Err (ENew ("conditions " +:+ k +:+ ": error printing condition: " +:+ Error e))
          | Ok cond => Ok (reference k, "(" +:+ cond +:+ ")")
          end
      end
  end.

(** The pairs of the replacer, in the order the map is walked. *)
Fixpoint replacements (conditions : list (string * list string)) : result (list (string * string)) :=
  match conditions with
  | [] => Ok []
  | (k, entries) :: conditions =>
      pair <-? condition_text k entries; pairs <-? replacements conditions; Ok (pair :: pairs)
  end.

End conditions.

(** What [NewState] is given besides the policy: [settings.Settings] and
    [policy.StateSettings] with its base path, cache and seed. *)
Record StateArgs := mkStateArgs {
  sa_opt : Settings; sa_settings : StateSettings; sa_BasePath : string; sa_Cache : option Cache;
  sa_PrivateKeySeed : string }.

(** The world a state is built in: the generated key pair, template files and their
    parser, the libraries networks load with, the disk and clock of each load; whether
    the environment of conditions is accepted ([NewEnvironment] of the conditions
    library); how maps are walked; and what handling requests uses of the libraries. *)
Record BuildEnv := mkBuildEnv {
  be_generated : result (string * string);
  be_globalTemplates : Templates;
  be_ReadFile : string → result string;
  be_parseTemplate : string → string → result (TplInput → result string);
  be_libs : string → NetLibs; be_os : string → OS; be_disk : string → Disk;
  be_initConditions : result unit;
  be_range : ∀ {A}, gmap string A → list (string * A);
  be_parseHTML : string → option (list Node);
  be_DetectContentType : string → string;
  be_cacheBust : string;
  be_assets : M unit }.

(** Maps are walked in some order. *)
Definition range_ok (env : BuildEnv) : Prop := ∀ A (m : gmap string A), be_range env m ≡ₚ map_to_list m.

Section new_state.
  Context `{Jose, CelLibs, Cidranger, Ed25519} {Y : Type} `{Outside Y, ActionLibs Y}.
  (** How deep the settings of actions may be nested. *)
  Context (fuel : nat).

(** What the function of each network returns when it is first called. *)
Definition state_networks (env : BuildEnv) (cache : option Cache) (networks : gmap string (list Network)) :
    gmap string Ranger :=
  map_imap (λ k network, Some
    (load_network (be_libs env k) (be_os env k) (CachePrefix cache "networks/") k network (be_disk env k)).1) networks.

(** The challenges in the order of the map; [self] is the state the runtimes hold. [None] is
    a panic, here and below: of a mux that refuses the pattern of a challenge. *)
Fixpoint create_all (self : State) (RC : list string → result Program) (replacer : string → string)
    (challenges : list (string * Challenge Y)) (r : Register) (idCounter : Id) : option (result Register * Id) :=
  match challenges with
  | [] => Some (Ok r, idCounter)
  | (challengeName, pol) :: challenges =>
      created ← Create (Runtimes self) RC (st_urlPath self) r idCounter challengeName pol (Some replacer);
      match created with
      | (Ok _, r, idCounter) => create_all self RC replacer challenges r idCounter
      | (Err e, _, idCounter) => Some (Err (EWrap ("challenge " +:+ challengeName +:+ ": ") e), idCounter)
      end
  end.

(** The runtimes hold the state that is being built, by reference, and look challenges up
    in its register when requests are served, which is when all have been created. So
    the challenges are created once to know the register, and over a state that has
    it. What a closure finds there is right in all it looks at ([create_challenges_names]). *)
Definition create_challenges (st : State) (RC : list string → result Program) (replacer : string → string)
    (challenges : list (string * Challenge Y)) (idCounter : Id) : option (result Register * Id) :=
  let known := match create_all st RC replacer challenges ∅ idCounter with Some (Ok r, _) => r | _ => ∅ end in
  create_all (set_challenges known st) RC replacer challenges ∅ idCounter.

Fixpoint new_rules (st : State) (RC : list string → result Program) (replacer : string → string)
    (rules : list (PolicyRule Y)) : result (list RuleState) :=
  match rules with
  | [] => Ok []
  | r :: rules =>
      match NewRuleState (Register_ st fuel) RC replacer (st_privateKeyFingerprint st) None r with
      | Err e => Err (EWrap ("rule " +:+ pr_Name _ r +:+ ": ") e)
      | Ok rule => rest <-? new_rules st RC replacer rules; Ok (rule :: rest)
      end
  end.

(** The state when its challenges are about to be created: the register is empty. *)
Definition base_state (env : BuildEnv) (args : StateArgs) (keys : string * string) (templates : Templates)
    (template : string) : State :=
  let opt := sa_opt args in
  mkState (sa_settings args) (mkSettings (opt_Strings opt) (opt_Links opt) template (opt_ChallengeTemplateOverrides opt))
    keys.2 keys.1 (sha256 keys.2) (sa_BasePath args) ∅ templates (be_parseHTML env) (be_DetectContentType env)
    (be_cacheBust env).

(** What follows the keys: the state and its rules, whose routes the mux took, and the
    counter of challenges. *)
Definition build_state (env : BuildEnv) (p : Policy Y) (args : StateArgs) (keys : string * string) (idCounter : Id) :
    option (result (State * list RuleState) * Id) :=
  match select_template (be_ReadFile env) (be_parseTemplate env) (be_globalTemplates env)
          (opt_ChallengeTemplate (sa_opt args)) with
  | Err e => Some (Err e, idCounter)
  | Ok (templates, template) =>
      let self := base_state env args keys templates template in
      let networks := state_networks env (sa_Cache args) (default ∅ (p_Networks p)) in
      let RC conditions := (RegisterCondition networks OperatorOr conditions []).1 in
      match (_ <-? be_initConditions env; replacements (be_range env (default ∅ (p_Conditions p)))) with
      | Err e => Some (Err e, idCounter)
      | Ok pairs =>
          created ← create_challenges self RC (Replace pairs) (be_range env (default ∅ (p_Challenges p))) idCounter;
          match created with
          | (Err e, idCounter) => Some (Err e, idCounter)
          | (Ok challenges, idCounter) =>
              let st := set_challenges challenges self in
              match new_rules st RC (Replace pairs) (p_Rules p) with
              | Err e => Some (Err e, idCounter)
              | Ok rules => _ ← setupRoutes st rules (be_assets env); Some (Ok (st, rules), idCounter)
              end
          end
      end
  end.

(** [NewState]: the state and its rules, what the memory of the seed holds, and the
    counter of challenges. *)
Definition NewState (env : BuildEnv) (p : Policy Y) (args : StateArgs) (idCounter : Id) :
    option (result (State * list RuleState) * string * Id) :=
  match NewRADb with
  | Err e => Some (Err (EWrap "failed to initialize RADb client: " e), sa_PrivateKeySeed args, idCounter)
  | Ok _ =>
      let '(keys, seed) := state_keys (sa_PrivateKeySeed args) (be_generated env) in
      match keys with
      | Err e => Some (Err e, seed, idCounter)
      | Ok keys => '(res, idCounter) ← build_state env p args keys idCounter; Some (res, seed, idCounter)
      end
  end.

End new_state.

(** ** Closing

    The channel is closed once; then the objects of the challenges, in the order the
    map is walked, up to the first that fails ([None] for a challenge without one). *)
Fixpoint close_objects (objects : list (option (option goerr))) : option goerr :=
  match objects with
  | [] => None
  | Some (Some e) :: _ => Some e
  | _ :: objects => close_objects objects
  end.

Definition Close (closed : bool) (objects : list (option (option goerr))) : bool * option goerr :=
  if closed then (true, None) else (true, close_objects objects).

(** * Facts *)

(** The address of the registry is well-formed. *)
Lemma NewRADb_ok : NewRADb = Ok "whois.radb.net:43".
Proof. vm_compute. reflexivity. Qed.

Lemma NewState_keys `{Jose, CelLibs, Cidranger, Ed25519} {Y : Type} `{Outside Y, ActionLibs Y} (fuel : nat)
    (env : BuildEnv) (p : Policy Y) (args : StateArgs) (n : Id) :
  NewState fuel env p args n =
    match state_keys (sa_PrivateKeySeed args) (be_generated env) with
    | (Err e, seed) => Some (Err e, seed, n)
    | (Ok keys, seed) => '(res, n) ← build_state fuel env p args keys n; Some (res, seed, n)
    end.
Proof. unfold NewState. rewrite NewRADb_ok. by destruct (state_keys _ _) as [[]]. Qed.

(** Whatever state the runtimes hold, creating the challenges ends the same way, with the
    same names under the same identifiers. *)
Lemma create_all_outcome `{Jose} {Y : Type} `{OutsideLaws Y} (self self' : State) RC replacer challenges :
  st_urlPath self = st_urlPath self' → ∀ r r' n,
  built (Y:=Y) self RC (st_urlPath self) r n → built (Y:=Y) self' RC (st_urlPath self') r' n → reg_names r = reg_names r' →
  match create_all (Y:=Y) self RC replacer challenges r n, create_all self' RC replacer challenges r' n with
  | Some (Ok r, n), Some (Ok r', n') => reg_names r = reg_names r' ∧ n = n'
  | Some (Err e, n), Some (Err e', n') => e = e' ∧ n = n'
  | None, None => True
  | _, _ => False
  end.
Proof.
  intros Hurl. induction challenges as [|[name pol] challenges IH]; intros r r' n Hb Hb' Hn; cbn [create_all]; [done|].
  destruct (built_spec _ _ _ _ _ Hb) as (Hwf & _ & _). destruct (built_spec _ _ _ _ _ Hb') as (Hwf' & _ & _).
  pose proof (Create_outcome self self' RC (st_urlPath self) r r' n name pol (Some replacer) Hwf Hwf' Hn) as Hc.
  rewrite <-Hurl.
  destruct (Create (Runtimes self) RC (st_urlPath self) r n name pol (Some replacer)) as [[[res r1] n1]|] eqn:Hc1,
    (Create (Runtimes self') RC (st_urlPath self) r' n name pol (Some replacer)) as [[[res' r1'] n1']|] eqn:Hc2;
    cbn [same_created mbind option_bind] in *; try done.
  destruct Hc as (Hres & Hn1 & <-). destruct res as [reg|e], res' as [reg'|e']; cbn [same_outcome] in Hres; try done.
  - refine (IH r1 r1' n1 _ _ Hn1); [exact (built_Create _ _ _ _ _ _ _ _ _ _ _ Hb Hc1)|].
    rewrite Hurl in Hc2. exact (built_Create _ _ _ _ _ _ _ _ _ _ _ Hb' Hc2).
  - by subst e'.
Qed.

Lemma create_challenges_names `{Jose} {Y : Type} `{OutsideLaws Y} (st : State) RC replacer challenges n r n' :
  (0 ≤ n)%Z → create_challenges (Y:=Y) st RC replacer challenges n = Some (Ok r, n') →
  ∃ known, create_all (set_challenges known st) RC replacer challenges ∅ n = Some (Ok r, n') ∧ reg_names known = reg_names r.
Proof.
  intros Hn. unfold create_challenges. set (known := match create_all st _ _ _ _ _ with Some _ => _ | None => _ end).
  intros Hc. exists known. split; [done|]. subst known.
  assert (Hurl : st_urlPath st = st_urlPath (set_challenges (match create_all st RC replacer challenges ∅ n with
    Some (Ok r, _) => r | _ => ∅ end) st)) by (by destruct st).
  pose proof (create_all_outcome _ _ RC replacer challenges Hurl ∅ ∅ n (built_empty _ _ _ _ Hn) (built_empty _ _ _ _ Hn) eq_refl) as Ho.
  rewrite Hc in Ho. destruct (create_all st RC replacer challenges ∅ n) as [[[known|e] n1]|]; try done. by destruct Ho.
Qed.

(** A state that differs from another by the closures in its register only. *)
Definition same_server (self st : State) : Prop :=
  self = set_challenges (st_challenges self) st ∧ reg_names (st_challenges self) = reg_names (st_challenges st).

Lemma same_server_result_headers self st d results : same_server self st → ∀ headers,
  result_headers self d results headers = result_headers st d results headers.
Proof.
  intros [_ Hn]. induction results as [|[id res] results IH]; intros headers; cbn [result_headers]; [done|].
  case_match; [|apply IH]. unfold GetChallenge, Register_Get.
  apply (f_equal (λ m : gmap Id string, m !! id)) in Hn as Hid. unfold reg_names in Hid. rewrite !lookup_fmap in Hid.
  destruct (st_challenges self !! id), (st_challenges st !! id); cbn in Hid; try done. injection Hid as ->.
  case_match; [|done]. apply IH.
Qed.

Lemma same_server_RequestHeaders self st d headers :
  same_server self st → RequestHeaders self d headers = RequestHeaders st d headers.
Proof.
  intros Hs. unfold RequestHeaders. assert (st_settings self = st_settings st) as ->.
  { destruct Hs as [-> _]. by destruct st. }
  by rewrite (same_server_result_headers self st d _ Hs).
Qed.

Lemma create_all_built `{Jose} {Y : Type} `{OutsideLaws Y} (self : State) RC replacer challenges r n r' n' :
  built (Y:=Y) self RC (st_urlPath self) r n →
  create_all self RC replacer challenges r n = Some (Ok r', n') → built (Y:=Y) self RC (st_urlPath self) r' n'.
Proof.
  revert r n. induction challenges as [|[name pol] challenges IH]; intros r n Hb; cbn [create_all].
  { by intros [= <- <-]. }
  destruct (Create _ _ _ r n name pol _) as [[[[reg|e] r1] n1]|] eqn:Hc; [|done..]. cbn [mbind option_bind]. apply IH.
  by eapply built_Create.
Qed.

(** The registrations a handler uses are the state's. *)
Definition registered (st : State) (reg : Registration) : Prop := ∃ id, st_challenges st !! id = Some reg.

Lemma find_challenges_registered st names regs :
  find_challenges st names = Ok regs → Forall (registered st) regs.
Proof.
  revert regs. induction names as [|name names IH]; intros regs; cbn; [by intros [= <-]|].
  unfold GetChallengeByName. destruct (GetByName (st_challenges st) name) as [[reg id]|] eqn:Hg; [|done]. cbn.
  destruct (find_challenges st names) as [regs'|]; [|done]. intros [= <-].
  constructor; [|by apply IH]. apply GetByName_Some in Hg as [Hr _]. by exists id.
Qed.

Section actions.
  Context (st : State) {Y : Type} `{ActionLibs Y}.

Lemma new_challenge_regs (table : gmap RuleAction (NewFunc Y)) cont rn rh settings h :
  (∀ a f s h, table !! a = Some f → f rn rh s = Ok h → Forall (registered st) (handler_regs h)) →
  new_challenge st table cont rn rh settings = Ok h → Forall (registered st) (handler_regs h).
Proof.
  intros Ht. unfold new_challenge. destruct (read_parameters _ _ settings) as [params|]; [|done]. cbn.
  destruct (find_challenges st _) as [regs|] eqn:Hr; [|done]. cbn. case_match; [done|].
  destruct (table !! _) as [pass|] eqn:Hp; [|done]. destruct (pass rn rh _) as [hp|] eqn:Hhp; [|done]. cbn.
  destruct (table !! ToUpper (chal_FailAction _)) as [fail|] eqn:Hf; [|done].
  destruct (fail rn rh _) as [hf|] eqn:Hhf; [|done]. intros [= <-]. cbn [handler_regs].
  apply find_challenges_registered in Hr. repeat apply Forall_app_2; eauto.
Qed.

Lemma Register_regs n a f rn rh settings h :
  Register_ st n !! a = Some f → f rn rh settings = Ok h → Forall (registered st) (handler_regs h).
Proof.
  revert a f settings h. induction n as [|n IH]; intros a f settings h Hf Hh; [cbn in Hf; by rewrite lookup_empty in Hf|].
  cbn [Register_] in Hf. apply elem_of_list_to_map_2 in Hf. repeat setoid_rewrite elem_of_cons in Hf.
  assert (Hnil : ∀ h, handler_regs h = [] → Forall (registered st) (handler_regs h)) by (intros h' ->; constructor).
  destruct Hf as [[= -> ->]|[[= -> ->]|[[= -> ->]|[[= -> ->]|[[= -> ->]|[[= -> ->]|[[= -> ->]|[[= -> ->]|
    [[= -> ->]|[[= -> ->]|[]%elem_of_nil]]]]]]]]]].
  all: try (by eapply new_challenge_regs; [intros * Ha; eapply IH, Ha|exact Hh]).
  all: apply Hnil; revert Hh; unfold new_none, new_pass, new_deny, new_block, new_drop, new_code, new_context, new_proxy;
    repeat (case_match || (destruct (read_parameters _ _ _); cbn) || (destruct (regexp_Compile _); cbn)); by intros [= <-].
Qed.

Lemma NewRuleState_regs n RC replace fp r : ∀ parent rule,
  NewRuleState (Register_ st n) RC replace fp parent r = Ok rule → Forall (registered st) (rule_regs rule).
Proof.
  revert r. fix IH 1. intros [name0 conds action settings children] parent rule. cbn [NewRuleState].
  destruct (_ !! ToUpper action) as [f|] eqn:Hf; [|done].
  destruct (f _ _ settings) as [h|] eqn:Hh; cbn [result_bind]; [|done].
  destruct (match replace <$> conds with [] => _ | _ => _ end) as [cond|]; cbn [result_bind]; [|done].
  set (go := fix go (cs : list (PolicyRule Y)) := _).
  assert (Hgo : ∀ cs ks, go cs = Ok ks → Forall (registered st) (flat_map rule_regs ks)).
  { induction cs as [|c cs IHcs]; intros ks; cbn.
    - intros [= <-]. constructor.
    - destruct (NewRuleState _ _ _ _ (Some _) c) as [k|] eqn:Hk; [|done].
      destruct (go cs) as [ks'|]; cbn [result_bind]; [|done]. intros [= <-]. cbn. apply Forall_app_2; [|by apply IHcs].
      exact (IH c _ _ Hk). }
  destruct (go children) as [kids|] eqn:Hc; cbn [result_bind]; [|done]. intros [= <-]. cbn [rule_regs].
  apply Forall_app_2; [by eapply Register_regs|exact (Hgo _ _ Hc)].
Qed.

Lemma new_rules_regs n RC replacer rules rs :
  new_rules n st RC replacer rules = Ok rs → Forall (λ rule, Forall (registered st) (rule_regs rule)) rs.
Proof.
  revert rs. induction rules as [|r rules IH]; intros rs; cbn [new_rules]; [by intros [= <-]|].
  destruct (NewRuleState _ _ _ _ None r) as [rule|] eqn:Hr; [|done]. cbn.
  destruct (new_rules n st RC replacer rules) as [rest|]; [|done]. intros [= <-].
  constructor; [by eapply NewRuleState_regs|by apply IH].
Qed.

End actions.

Lemma select_template_found ReadFile parse templates name templates' name' :
  select_template ReadFile parse templates name = Ok (templates', name') → is_Some (templates' !! name').
Proof.
  unfold select_template. destruct (templates !! _) eqn:Ht; [intros [= <- <-]; by eexists|].
  destruct (ReadFile name); [|done]. case_match; [|done]. unfold initTemplate. destruct (parse (path_Base name) _); [|done].
  intros [= <- <-]. rewrite lookup_insert_eq. by eexists.
Qed.

(** With every file of the directory comes its template, and nothing else. *)
Lemma add_templates_dom parse ReadFile templates dir templates' :
  add_templates parse ReadFile templates dir = Ok templates' →
  dom templates' = dom templates ∪ list_to_set (fst <$> filter (λ f : string * bool, f.2 = false) dir).
Proof.
  revert templates. induction dir as [|[name []] dir IH]; intros templates; cbn [add_templates].
  - intros [= ->]. set_solver.
  - intros Ha. rewrite (IH _ Ha). done.
  - destruct (ReadFile name) as [data|]; [|done]. unfold initTemplate. destruct (parse name data) as [tpl|]; [|done].
    intros Ha. rewrite (IH _ Ha), filter_cons_True by done. set_solver.
Qed.

Lemma set_challenges_spec r st :
  st_challenges (set_challenges r st) = r ∧ st_privateKey (set_challenges r st) = st_privateKey st ∧
  st_privateKeyFingerprint (set_challenges r st) = st_privateKeyFingerprint st ∧
  st_urlPath (set_challenges r st) = st_urlPath st ∧ st_templates (set_challenges r st) = st_templates st ∧
  st_opt (set_challenges r st) = st_opt st ∧ st_publicKey (set_challenges r st) = st_publicKey st.
Proof. by destruct st. Qed.

(** ** The replacer *)

Lemma reference_prefix k k' s :
  ContainsByte k ")" = false → ContainsByte k' ")" = false →
  HasPrefix s (reference k) = true → HasPrefix s (reference k') = true → k = k'.
Proof.
  intros Hk Hk' [r Hr]%HasPrefix_spec [r' Hr']%HasPrefix_spec. rewrite Hr in Hr'. unfold reference in Hr'.
  rewrite <-!string_app_assoc in Hr'. apply string_app_inj_l in Hr'. apply (f_equal (λ s, Cut s ")")) in Hr'.
  change (")" +:+ r) with (String ")" r) in Hr'. change (")" +:+ r') with (String ")" r') in Hr'.
  rewrite !Cut_app in Hr' by done. by injection Hr'.
Qed.

(** Texts of which at most one can be at the same place. *)
Definition references (pairs : list (string * string)) : Prop :=
  Forall (λ p, ∃ k, p.1 = reference k ∧ ContainsByte k ")" = false) pairs ∧ NoDup pairs.*1.

Lemma find_pair_Some pairs s p : find_pair pairs s = Some p → p ∈ pairs ∧ HasPrefix s p.1 = true.
Proof.
  induction pairs as [|[old new] pairs IH]; cbn; [done|]. destruct (HasPrefix s old) eqn:Hp.
  - intros [= <-]. split; [left|done].
  - intros [? ?]%IH. split; [by right|done].
Qed.

Lemma find_pair_None pairs s p : find_pair pairs s = None → p ∈ pairs → HasPrefix s p.1 = false.
Proof.
  induction pairs as [|[old new] pairs IH]; cbn; [intros _ Hp; by apply elem_of_nil in Hp|].
  destruct (HasPrefix s old) eqn:Hp; [done|]. intros Hn [->|Hin]%elem_of_cons; [done|by apply IH].
Qed.

Lemma find_pair_order pairs pairs' s : references pairs → pairs' ≡ₚ pairs → find_pair pairs' s = find_pair pairs s.
Proof.
  intros [Hr Hnd] Hp. destruct (find_pair pairs s) as [q|] eqn:Hq; destruct (find_pair pairs' s) as [q'|] eqn:Hq'.
  - apply find_pair_Some in Hq as [Hin Hpre], Hq' as [Hin' Hpre']. rewrite Hp in Hin'.
    rewrite Forall_forall in Hr. destruct (Hr _ Hin) as (k & Hk & Hb), (Hr _ Hin') as (k' & Hk' & Hb').
    assert (q'.1 = q.1) as Heq.
    { rewrite Hk, Hk'. f_equal. rewrite Hk in Hpre. rewrite Hk' in Hpre'. by eapply reference_prefix. }
    destruct q as [a b], q' as [a' b']. cbn in Heq. subst a'. f_equal. f_equal.
    apply (elem_of_list_to_map_1 (M:=gmap string)) in Hin; [|done].
    apply (elem_of_list_to_map_1 (M:=gmap string)) in Hin'; [|done]. congruence.
  - apply find_pair_Some in Hq as [Hin Hpre]. rewrite <-Hp in Hin. by rewrite (find_pair_None _ _ _ Hq' Hin) in Hpre.
  - apply find_pair_Some in Hq' as [Hin Hpre]. rewrite Hp in Hin. by rewrite (find_pair_None _ _ _ Hq Hin) in Hpre.
  - done.
Qed.

Lemma Replace_order pairs pairs' s : references pairs → pairs' ≡ₚ pairs → Replace pairs' s = Replace pairs s.
Proof.
  intros Hr Hp. unfold Replace. generalize 0. induction s as [|c s IH]; intros skip; [done|]. cbn [replace_loop].
  destruct skip as [|skip]; [|apply IH]. rewrite (find_pair_order _ _ _ Hr Hp).
  destruct (find_pair pairs _) as [[old new]|]; by rewrite IH.
Qed.

Lemma replacements_spec `{CelLibs} conditions pairs :
  replacements conditions = Ok pairs ↔ Forall2 (λ c p, condition_text c.1 c.2 = Ok p) conditions pairs.
Proof.
  revert pairs. induction conditions as [|[k entries] conditions IH]; intros pairs; cbn [replacements].
  { split; [by intros [= <-]|by inversion 1]. }
  destruct (condition_text k entries) as [p|e] eqn:Hc; cbn [result_bind].
  - destruct (replacements conditions) as [ps|e] eqn:Hr; cbn [result_bind].
    + split.
      * intros [= <-]. constructor; [done|]. by apply IH.
      * intros (q & qs & Hq & Hqs & ->)%Forall2_cons_inv_l. cbn in Hq. rewrite Hc in Hq.
        apply IH in Hqs. by simplify_eq.
    + split; [done|]. intros (q & qs & Hq & Hqs & ->)%Forall2_cons_inv_l. by apply IH in Hqs.
  - split; [done|]. intros (q & qs & Hq & _ & ->)%Forall2_cons_inv_l. cbn in Hq. by rewrite Hc in Hq.
Qed.

Lemma condition_text_reference `{CelLibs} k entries p : condition_text k entries = Ok p → p.1 = reference k.
Proof. unfold condition_text. intros Hc. repeat (case_match; try done). by simplify_eq. Qed.

Lemma replacements_references `{CelLibs} conditions pairs :
  NoDup conditions.*1 → Forall (λ c, ContainsByte c.1 ")" = false) conditions →
  replacements conditions = Ok pairs → references pairs.
Proof.
  intros Hnd Hb Hr%replacements_spec.
  assert (Hfst : pairs.*1 = reference <$> conditions.*1).
  { clear Hnd Hb. induction Hr as [|c p conditions pairs Hc _ IH]; [done|]. cbn. rewrite IH. f_equal.
    by apply condition_text_reference in Hc. }
  split.
  - clear Hnd Hfst. induction Hr as [|c p conditions pairs Hc _ IH]; [constructor|].
    inversion Hb; subst. constructor; [|by apply IH]. exists c.1. by apply condition_text_reference in Hc.
  - rewrite Hfst. apply NoDup_fmap_2; [|done]. intros k k' Heq. unfold reference in Heq.
    apply string_app_inj_l in Heq. apply (f_equal bytes) in Heq. rewrite !bytes_app in Heq.
    apply app_inj_tail in Heq as [Heq _]. by apply bytes_inj.
Qed.

Lemma build_state_spec `{Jose, CelLibs, Cidranger, Ed25519} {Y : Type} `{OutsideLaws Y, ActionLibs Y} (fuel : nat)
    (env : BuildEnv) (p : Policy Y) (args : StateArgs) (keys : string * string) (n n' : Id) st rules :
  (0 ≤ n)%Z → build_state fuel env p args keys n = Some (Ok (st, rules), n') →
  (∃ self RC, same_server self st ∧ built (Y:=Y) self RC (st_urlPath st) (st_challenges st) n') ∧
  Forall (λ rule, Forall (registered st) (rule_regs rule)) rules ∧
  is_Some (st_templates st !! opt_ChallengeTemplate (st_opt st)) ∧
  st_publicKey st = keys.1 ∧ st_privateKey st = keys.2 ∧ st_privateKeyFingerprint st = sha256 (st_privateKey st) ∧
  st_urlPath st = sa_BasePath args ∧ is_Some (setupRoutes st rules (be_assets env)).
Proof.
  intros Hn. unfold build_state. destruct (select_template _ _ _ _) as [[templates template]|] eqn:Ht; [|done].
  cbv zeta. set (self := base_state env args keys templates template). set (RC := λ conditions : list string, _).
  destruct (result_bind (be_initConditions env) _) as [pairs|]; [|done].
  destruct (create_challenges self RC _ _ n) as [[[challenges|] n1]|] eqn:Hc; [|done..]. cbn [mbind option_bind].
  destruct (new_rules _ _ _ _ _) as [rs|] eqn:Hr; [|done].
  destruct (setupRoutes _ rs _) as [routes|] eqn:Hroutes; [|done]. cbn [mbind option_bind]. intros Heq.
  assert (st = set_challenges challenges self ∧ rules = rs ∧ n' = n1) as (-> & -> & ->) by (by simplify_eq). clear Heq.
  rewrite Hroutes.
  destruct (set_challenges_spec challenges self) as (-> & -> & -> & -> & -> & -> & ->).
  destruct (create_challenges_names _ _ _ _ _ _ _ Hn Hc) as (known & Hk & Hnames).
  split.
  { exists (set_challenges known self), RC. split; [by split; destruct self|].
    refine (create_all_built (set_challenges known self) RC _ _ _ _ _ _ (built_empty _ _ _ n Hn) _). exact Hk. }
  split; [by apply new_rules_regs in Hr|]. split; [by eapply select_template_found|]. do 4 (split; [done|]). by eexists.
Qed.

Lemma Create_counter {Y} (Rts : gmap string (@FillRegistration Y)) RC urlPath r n name pol replacer created :
  Create Rts RC urlPath r n name pol replacer = Some created → (n ≤ created.2)%Z.
Proof.
  unfold Create. destruct (Rts !! _) as [f|]; [|by intros [= <-]].
  destruct (match default id replacer <$> pc_Conditions pol with [] => _ | _ => _ end); [|by intros [= <-]].
  destruct (GetByName r name) as [[c i]|]; destruct (f _ _) as [[reg|]|]; try done; intros [= <-]; cbn; lia.
Qed.

Lemma create_all_counter `{Jose} {Y : Type} `{Outside Y} (self : State) RC replacer challenges : ∀ r n res n',
  create_all self RC replacer challenges r n = Some (res, n') → (n ≤ n')%Z.
Proof.
  induction challenges as [|[name pol] challenges IH]; intros r n res n'; cbn [create_all]; [by intros [= _ <-]|].
  destruct (Create _ _ _ r n name pol _) as [[[[reg|] r1] n1]|] eqn:Hc; [..|done]; cbn [mbind option_bind];
    apply Create_counter in Hc; cbn in Hc.
  - intros Hn%IH. lia.
  - by intros [= _ <-].
Qed.

Lemma NewState_counter `{Jose, CelLibs, Cidranger, Ed25519} {Y : Type} `{Outside Y, ActionLibs Y} (fuel : nat)
    (env : BuildEnv) (p : Policy Y) (args : StateArgs) (n n' : Id) res seed :
  NewState fuel env p args n = Some (res, seed, n') → (n ≤ n')%Z.
Proof.
  rewrite NewState_keys. destruct (state_keys _ _) as [[keys|] seed']; [|by intros [= _ _ <-]].
  destruct (build_state fuel env p args keys n) as [[res' n1]|] eqn:Hb; [|done]. intros [= _ _ <-]. revert Hb.
  unfold build_state. destruct (select_template _ _ _ _) as [[templates template]|]; [|by intros [= _ <-]]. cbv zeta.
  destruct (result_bind (be_initConditions env) _) as [pairs|]; [|by intros [= _ <-]].
  destruct (create_challenges _ _ _ _ n) as [[[challenges|] n2]|] eqn:Hc; [..|done]; cbn [mbind option_bind];
    unfold create_challenges in Hc; apply (create_all_counter (set_challenges _ _)) in Hc; [|by intros [= _ <-]].
  destruct (new_rules _ _ _ _ _); [|by intros [= _ <-]]. destruct (setupRoutes _ _ _); [|done]. by intros [= _ <-].
Qed.

(** The memory of the seed after the keys were made. *)
Lemma state_keys_seed `{Ed25519} seed generated :
  (state_keys seed generated).2 = seed ∧ String.length seed ≠ SeedSize ∨
  (state_keys seed generated).2 = zeroes SeedSize ∧ String.length seed = SeedSize.
Proof.
  unfold state_keys. destruct (0 <? String.length seed) eqn:H1.
  - destruct (String.length seed =? SeedSize) eqn:H2; [right|left]; cbn.
    + apply Nat.eqb_eq in H2. by rewrite H2.
    + split; [done|]. by apply Nat.eqb_neq.
  - left. split; [done|]. apply Nat.ltb_ge in H1. unfold SeedSize. lia.
Qed.

Lemma NewState_seed `{Jose, CelLibs, Cidranger, Ed25519} {Y : Type} `{Outside Y, ActionLibs Y} (fuel : nat)
    (env : BuildEnv) (p : Policy Y) (args : StateArgs) (n n' : Id) res seed :
  NewState fuel env p args n = Some (res, seed, n') →
  seed = (state_keys (sa_PrivateKeySeed args) (be_generated env)).2.
Proof.
  rewrite NewState_keys. destruct (state_keys _ _) as [[keys|] seed']; [|by intros [= _ <- _]].
  destruct (build_state fuel env p args keys n) as [[]|]; [|done]. by intros [= _ <- _].
Qed.

(** A state with a configured seed: a wrong length is an error. *)
Lemma NewState_seed_length `{Jose, CelLibs, Cidranger, Ed25519} {Y : Type} `{Outside Y, ActionLibs Y} (fuel : nat)
    (env : BuildEnv) (p : Policy Y) (args : StateArgs) (n n' : Id) state seed :
  NewState fuel env p args n = Some (Ok state, seed, n') → sa_PrivateKeySeed args = "" ∨ String.length (sa_PrivateKeySeed args) = SeedSize.
Proof.
  rewrite NewState_keys. unfold state_keys. destruct (sa_PrivateKeySeed args) as [|c key]; [by left|]. right.
  cbn [String.length Nat.ltb Nat.leb] in *. destruct (S (String.length key) =? SeedSize) eqn:Hlen; [by apply Nat.eqb_eq|done].
Qed.

Lemma NewState_spec `{Jose, CelLibs, Cidranger, Ed25519} {Y : Type} `{OutsideLaws Y, ActionLibs Y} (fuel : nat)
    (env : BuildEnv) (p : Policy Y) (args : StateArgs) (n n' : Id) (res : result (State * list RuleState)) (seed : string)
    (Hn : (0 ≤ n)%Z) (Hnew : NewState fuel env p args n = Some (res, seed, n')) :
  (∀ st rules, res = Ok (st, rules) →
    (∀ assets regs, quiet assets → regs ≡ₚ (map_to_list (st_challenges st)).*2 → server_ok st rules assets regs) ∧
    (∃ self RC, same_server self st ∧ (∀ d headers, RequestHeaders self d headers = RequestHeaders st d headers) ∧
       built (Y:=Y) self RC (st_urlPath st) (st_challenges st) n') ∧
    is_Some (st_templates st !! opt_ChallengeTemplate (st_opt st)) ∧
    st_privateKeyFingerprint st = sha256 (st_privateKey st) ∧
    (sa_PrivateKeySeed args ≠ "" → st_privateKey st = NewKeyFromSeed (sa_PrivateKeySeed args))) ∧
  (String.length (sa_PrivateKeySeed args) = SeedSize → seed = zeroes SeedSize).
Proof.
  rewrite NewState_keys in Hnew.
  destruct (state_keys (sa_PrivateKeySeed args) (be_generated env)) as [keys seed'] eqn:Hk.
  assert (seed' = seed) as ->.
  { destruct keys as [a|]; [|by simplify_eq]. destruct (build_state fuel env p args a n) as [[r m]|]; [|done].
    by injection Hnew. }
  split.
  - intros st rules ->. destruct keys as [keys|]; [|done].
    destruct (build_state fuel env p args keys n) as [[r m]|] eqn:Hb; [|done]. injection Hnew as -> ->.
    destruct (build_state_spec fuel env p args keys n n' st rules Hn Hb) as ((self & RC & Hself & Hbuilt) & Hregs & Htpl & _ & Hpriv & Hfp & _ & Hroutes).
    split; [|split; [|split; [done|split; [done|]]]].
    + intros assets regs Ha Hp. split; [|done| |done|by eapply setupRoutes_assets].
      * by exists Y, _, _, self, RC, n'.
      * intros rule reg Hrule Hreg. rewrite Hp. rewrite Forall_forall in Hregs. specialize (Hregs _ Hrule).
        rewrite Forall_forall in Hregs. destruct (Hregs _ Hreg) as [id Hid].
        apply list_elem_of_fmap. exists (id, reg). by rewrite elem_of_map_to_list.
    + exists self, RC. split; [done|]. split; [intros d headers; by apply same_server_RequestHeaders|done].
    + intros Hs. rewrite Hpriv. unfold state_keys in Hk. destruct (sa_PrivateKeySeed args); [done|].
      cbn [String.length Nat.ltb Nat.leb] in Hk. case_match; by simplify_eq.
  - intros Hl. unfold state_keys in Hk. rewrite Hl in Hk. cbn in Hk. by simplify_eq.
Qed.

(** * Properties *)

(** C7: Whatever policy and settings a state is built from, if it is built it is one
    the server is safe with: its register is one the program's runtimes make, holding
    a state that is the server's up to the closures of its register, so that the headers
    they make for a backend are the server's, its rules only use registered challenges,
    the page template it names exists, and its fingerprint is the hash of its key. The
    memory of a configured seed is cleared, also when a later step fails. *)
Theorem NewState_wf `{Jose, CelLibs, Cidranger, Ed25519} {Y : Type} `{OutsideLaws Y, ActionLibs Y} (fuel : nat)
    (env : BuildEnv) (p : Policy Y) (args : StateArgs) (n n' : Id) (res : result (State * list RuleState)) (seed : string)
    (Hn : (0 ≤ n)%Z) (Hnew : NewState fuel env p args n = Some (res, seed, n')) :
  (∀ st rules, res = Ok (st, rules) →
    (∀ assets regs, quiet assets → regs ≡ₚ (map_to_list (st_challenges st)).*2 → server_ok st rules assets regs) ∧
    (∃ self RC, same_server self st ∧ (∀ d headers, RequestHeaders self d headers = RequestHeaders st d headers) ∧
       built (Y:=Y) self RC (st_urlPath st) (st_challenges st) n') ∧
    is_Some (st_templates st !! opt_ChallengeTemplate (st_opt st)) ∧
    st_privateKeyFingerprint st = sha256 (st_privateKey st) ∧
    (sa_PrivateKeySeed args ≠ "" → st_privateKey st = NewKeyFromSeed (sa_PrivateKeySeed args))) ∧
  (String.length (sa_PrivateKeySeed args) = SeedSize → seed = zeroes SeedSize).
Proof. exact (NewState_spec fuel env p args n n' res seed Hn Hnew). Qed.

(** C17: What the conditions in challenges and rules are replaced by does not depend on
    the order in which the map of named conditions is walked, unless a name holds a
    closing parenthesis. *)
Theorem conditions_order `{CelLibs} (conditions : gmap string (list string)) (l l' : list (string * list string))
    (pairs : list (string * string))
    (Hl : l ≡ₚ map_to_list conditions) (Hl' : l' ≡ₚ map_to_list conditions)
    (Hnames : map_Forall (λ k _, ContainsByte k ")" = false) conditions)
    (Hpairs : replacements l = Ok pairs) :
  ∃ pairs', replacements l' = Ok pairs' ∧ ∀ s, Replace pairs' s = Replace pairs s.
Proof.
  assert (Href : references pairs).
  { eapply replacements_references; [| |exact Hpairs].
    - rewrite Hl. apply NoDup_fst_map_to_list.
    - rewrite Hl. apply Forall_forall. intros [k entries] Hin%elem_of_map_to_list. by apply (Hnames k entries). }
  assert (Hp : ∃ pairs', pairs' ≡ₚ pairs ∧ Forall2 (λ c p, condition_text c.1 c.2 = Ok p) l' pairs').
  { apply replacements_spec in Hpairs. clear Href.
    assert (Hll : l ≡ₚ l') by (by rewrite Hl, Hl').
    destruct (Permutation_Forall2 Hll Hpairs) as (pairs' & ? & ?). by exists pairs'. }
  destruct Hp as (pairs' & Hp & Hr). exists pairs'. split; [by apply replacements_spec|].
  intros s. by apply Replace_order.
Qed.

(** ** A concrete build

    A policy with a block list and a rule that asks it, with the program's template. *)
#[export] Instance demo_ed25519 : Ed25519 := { NewKeyFromSeed seed := "private" +:+ seed; PublicKey key := "public" +:+ key }.

#[export] Instance demo_settings : ActionLibs unit := {
  yaml_code _ d := Ok d; yaml_context _ d := Ok d; yaml_proxy _ d := Ok d;
  regexp_Compile _ := Err (ENew "no regexp");
  yaml_challenge _ _ := Ok (mkChallengeSettings 0 ["lists"] "pass" None "deny" None) }.

Definition demo_build : BuildEnv := mkBuildEnv (Ok ("public", "private"))
  {["challenge-anubis.gohtml" := λ _, Ok "<html>"]} (λ _, Err (ENew "no file")) (λ _ _, Err (ENew "no template"))
  (λ _, demo_libs) (λ _, demo_os 0%Z) (λ _, ∅) (Ok ()) (λ A m, map_to_list m) (λ _, None) (λ _, "text/plain; charset=utf-8") "bust" (ret ()).

Definition demo_args : StateArgs := mkStateArgs (mkSettings ∅ [] "anubis" ∅)
  (mkStateSettings {["*" := demo_backend]} "" "" "" "" 418) "/base" None (zeroes 31 +:+ "x").

Definition demo_gate_policy : Policy unit := mkPolicy None (Some {["bots" := ["c"]]}) (Some {["lists" := mkChallenge [] "dnsbl" 0%Z None]})
  [mkPolicyRule "gate" ["($bots)"] "challenge" (Some ()) []].

Definition demo_new : option (result (State * list RuleState) * string * Id) :=
  NewState (H1:=list_ranger) 2 demo_build demo_gate_policy demo_args 7%Z.

Lemma demo_new_state : ∃ st rules, demo_new = Some (Ok (st, rules), zeroes 32, 8%Z).
Proof.
  assert (Hn : (λ res, (is_ok res.1.1, res.1.2, res.2)) <$> demo_new = Some (true, zeroes 32, 8%Z)) by (vm_compute; reflexivity).
  destruct demo_new as [[[[[st rules]|] seed] n]|]; [|discriminate Hn..]. exists st, rules. injection Hn as -> ->. done.
Qed.

Lemma NewState_wf_witness :
  ∃ st rules, demo_new = Some (Ok (st, rules), zeroes 32, 8%Z) ∧ st_privateKey st = "private" +:+ zeroes 31 +:+ "x".
Proof.
  destruct demo_new_state as (st & rules & Hst). exists st, rules. split; [exact Hst|].
  refine (proj2 (proj2 (proj2 (proj2 (proj1 (NewState_wf (H1:=list_ranger) 2 demo_build demo_gate_policy demo_args 7%Z _ _ _ _ Hst)
    st rules eq_refl)))) _); done.
Defined.

(** An external check made for a client that has passed challenges: the service is told
    of them by name. *)
Definition http_outside : Outside unit := {|
  out_http _ p := Ok (HttpRuntime.mkParameters (HttpRuntime.VerifyProbability p) "GET" 200 "" "http://auth/");
  out_refresh _ p := Ok p; out_preload _ p := Ok p; out_dnsbl _ p := Ok p; out_js _ p := Ok p;
  out_Do _ _ _ _ _ := Ok 200%Z; out_LookupIP _ _ _ := Ok []; out_Await _ _ _ := VerifyResultNone;
  out_load _ _ _ := Err (ENew "no module"); out_ReadAll _ := Ok ""; out_script _ := Ok "" |}.

Definition passed_data : RequestData :=
  let passed : gmap Id VerifyResult := {[8%Z := VerifyResultOK; 9%Z := VerifyResultOK]} in
  let states : gmap Id VerifyState := {[8%Z := VerifyStateBrief; 9%Z := VerifyStateFull]} in
  mkRequestData "" 0%Z passed states ∅ (Some ∅) false false "" (mkAddrPort (Addr4 0xC0000207) 4711) "cookie" "" ∅ ∅ ∅ ∅.

(** The results and headers of the requests issuing a challenge makes. *)
Definition asked (st : State) (name : string) : option (option (VerifyResult * list (list string))) :=
  '(reg, _) ← GetByName (st_challenges st) name;
  Some (match reg_IssueChallenge reg "key" 0%Z (demo_world passed_data (demo_request ∅) 0%Z (S754_zero false)) with
        | Ret res w => Some (res, (λ ev, match ev with EvRequest _ _ h _ => hdr_Values h "X-Away-Challenge-Lists-Result" | _ => [] end)
            <$> wd_Trace w)
        | Panic _ _ => None
        end).

Example built_http_headers :
  (res ← NewState (H1:=list_ranger) (H3:=http_outside) 2 demo_build
     (mkPolicy None None (Some {["lists" := mkChallenge [] "dnsbl" 0%Z None; "login" := mkChallenge [] "http" 0%Z (Some ())]}) [] : Policy unit)
     demo_args 7%Z;
   match res.1.1 with Ok (st, _) => asked st "login" | Err _ => None end) = Some (Some (VerifyResultOK, [["OK"]])).
Proof. vm_compute. done. Qed.

(** A challenge whose name has a blank: the mux takes its path for a method, and panics. *)
Example bad_name_panics :
  NewState (H1:=list_ranger) 2 demo_build
    (mkPolicy None None (Some {["my cookies" := mkChallenge [] "refresh" 0%Z None]}) [] : Policy unit) demo_args 7%Z = None ∧
  NewState (H1:=list_ranger) 2 demo_build
    (mkPolicy None None (Some {["style{}" := mkChallenge [] "resource-load" 0%Z None]}) [] : Policy unit) demo_args 7%Z = None.
Proof. vm_compute. done. Qed.

Lemma conditions_order_witness :
  ∃ pairs', replacements [("b", []); ("a", [])] = Ok pairs' ∧ ∀ s, Replace pairs' s = Replace [("($a)", "(true)"); ("($b)", "(true)")] s.
Proof.
  apply (conditions_order {["a" := []; "b" := []]} [("a", []); ("b", [])] [("b", []); ("a", [])]
    [("($a)", "(true)"); ("($b)", "(true)")]).
  - apply (bool_decide_unpack _). vm_compute. exact I.
  - apply (bool_decide_unpack _). vm_compute. exact I.
  - apply (bool_decide_unpack _). vm_compute. exact I.
  - reflexivity.
Defined.
