(* ===== verification/Bind.v ===== *)
(** [lib/settings/bind.go]: the listener, the TLS configuration and the handler that is
    swapped while the server runs; [NewServer] of [utils/http.go]. *)

From S2P Require Import Prelude GoStrings GoCrypto GoTime NetAddr GoURL Mime UtilsHttp GoPath.
From S2P Require Import DecayMap Types Cookie Register State Key Data ResponsePolicy Pages Helper Mux.
From S2P Require Import Effects Action Rule Server Runtimes Safety Routes Fingerprint.
From stdpp Require Import options.

(** [Bind]; durations are nanoseconds. *)
Record Bind := mkBind {
  bind_Address : string; bind_Network : string; bind_SocketMode : string; bind_Proxy : bool; bind_Passthrough : bool;
  bind_TLSAcmeAutoCert : string; bind_TLSCertificate : string; bind_TLSPrivateKey : string;
  bind_ReadTimeout : Z; bind_ReadHeaderTimeout : Z; bind_WriteTimeout : Z; bind_IdleTimeout : Z }.

(** * Listeners *)

(** [strconv.ParseUint(_, 8, 0)]. *)
Fixpoint octal_digits (s : string) (acc : N) : result N :=
  match s with
  | EmptyString => Ok acc
  | String c s =>
      if in_range "0" "7" c then
        let acc := (acc * 8 + (byte_val c - 48))%N in
        if (2 ^ 64 <=? acc)%N then Err (ENamed "value out of range") else octal_digits s acc
      else Err (ENamed "invalid syntax")
  end.
Definition ParseOctal (s : string) : result N :=
  if bool_decide (s = "") then Err (ENamed "invalid syntax") else octal_digits s 0.

(** The calls to the operating system, with what they return. *)
Inductive OSCall := CListen (network address : string) | CChmod (address : string) (mode : N) | CClose.

Record ListenOS := mkListenOS { los_Listen : string → string → option goerr; los_Chmod : string → N → option goerr }.

(** A listener: whether it expects the PROXY protocol, and its address as shown. *)
Record Listener := mkListener { ln_Proxy : bool; ln_Address : string }.

(** [setupListener]: the listener or the panic, and the calls made. [os.FileMode] keeps 32
    bits of the mode. *)
Definition setupListener (os : ListenOS) (network address socketMode : string) (proxy : bool) :
    result Listener * list OSCall :=
  let '(network, proxy) := if bool_decide (network = "proxy") then ("tcp", true) else (network, proxy) in
  let formattedAddress :=
    if bool_decide (network = "unix") then "unix:" +:+ address
    else if bool_decide (network = "tcp") then "http://localhost" +:+ address
    else "(" +:+ network +:+ ") " +:+ address in
  match los_Listen os network address with
  | Some e => (Err (EWrap ("failed to bind to " +:+ formattedAddress +:+ ": ") e), [CListen network address])
  | None =>
      let done calls := (Ok (mkListener proxy (if proxy then formattedAddress +:+ " +PROXY" else formattedAddress)), calls) in
      if bool_decide (network = "unix") then
        match ParseOctal socketMode with
        | Err e => (Err (EWrap ("could not parse socket mode " +:+ socketMode +:+ ": ") e), [CListen network address; CClose])
        | Ok mode =>
            let mode := N.land mode 0xFFFFFFFF in
            match los_Chmod os address mode with
            | Some e => (Err (EWrap "could not change socket mode: " e),
                         [CListen network address; CChmod address mode; CClose])
            | None => done [CListen network address; CChmod address mode]
            end
        end
      else done [CListen network address]
  end.

(** ** TLS *)

Definition LetsEncryptURL : string := "https://acme-v02.api.letsencrypt.org/directory".

(** Certificates from an ACME directory, for hosts with a backend, or from files. *)
Inductive TLSConfig := TLSAcme (directory : string) (cache : option string) | TLSFiles (certificate key : string).

(** The manager [newACMEManager] makes has no cache at first; its host policy is
    [HostPolicy]. *)
Definition newACMEManager (clientDirectory : string) : TLSConfig := TLSAcme clientDirectory None.
Definition with_cache (cache : string) (m : TLSConfig) : TLSConfig :=
  match m with TLSAcme directory _ => TLSAcme directory (Some cache) | _ => m end.

Definition bind_TLS (mkdir : string → option goerr) (load : string → string → option goerr) (b : Bind) (acmeCachePath : string) :
    result (option TLSConfig) :=
  if negb (bool_decide (bind_TLSAcmeAutoCert b = "")) then
    let directory := if bool_decide (bind_TLSAcmeAutoCert b = "letsencrypt") then LetsEncryptURL else bind_TLSAcmeAutoCert b in
    let acmeManager := newACMEManager directory in
    if negb (bool_decide (acmeCachePath = "")) then
      match mkdir acmeCachePath with
      | Some e => Err (EWrap "failed to create acme cache directory: " e)
      | None => Ok (Some (with_cache acmeCachePath acmeManager))
      end
    else Ok (Some acmeManager)
  else if negb (bool_decide (bind_TLSCertificate b = "")) && negb (bool_decide (bind_TLSPrivateKey b = "")) then
    match load (bind_TLSCertificate b) (bind_TLSPrivateKey b) with
    | Some e => Err e
    | None => Ok (Some (TLSFiles (bind_TLSCertificate b) (bind_TLSPrivateKey b)))
    end
  else Ok None.

(** The host policy of [newACMEManager]. *)
Definition HostPolicy {B} (backends : gmap string B) (host : string) : option goerr :=
  match SelectHTTPHandler backends host with
  | Some _ => None
  | None => Some (ENew ("acme/autocert: host " +:+ host +:+ " not configured in backends"))
  end.

(** [NewServer]: without TLS both HTTP/1 and unencrypted HTTP/2, with TLS the
    fingerprints of connections are kept. The protocols are left to the library with TLS. *)
Record ServerConfig := mkServerConfig {
  sc_TLS : option TLSConfig; sc_HTTP1 : bool; sc_UnencryptedHTTP2 : bool; sc_Fingerprints : bool;
  sc_ReadTimeout : Z; sc_ReadHeaderTimeout : Z; sc_WriteTimeout : Z; sc_IdleTimeout : Z }.
Definition NewServer (tlsConfig : option TLSConfig) : ServerConfig :=
  match tlsConfig with
  | None => mkServerConfig None true true false 0 0 0 0
  | Some t => mkServerConfig (Some t) false false true 0 0 0 0
  end.
Definition with_timeouts (b : Bind) (s : ServerConfig) : ServerConfig :=
  mkServerConfig (sc_TLS s) (sc_HTTP1 s) (sc_UnencryptedHTTP2 s) (sc_Fingerprints s)
    (bind_ReadTimeout b) (bind_ReadHeaderTimeout b) (bind_WriteTimeout b) (bind_IdleTimeout b).

(** * The handler of the server *)

Local Open Scope handler_scope.

(** What the pointer of the server holds: nothing, the passthrough handler, or a
    state with what it answers requests with. *)
Inductive Swapped :=
  | SwapNone
  | SwapPassthrough
  | SwapState (st : State) (rules : list RuleState) (assets : M unit) (regs : list Registration).

(** The pointer right after [Server]. *)
Definition initial_handler (b : Bind) : Swapped := if bind_Passthrough b then SwapPassthrough else SwapNone.

(** [Server]: the server and what it answers with until the first swap. *)
Definition Bind_Server (mkdir : string → option goerr) (load : string → string → option goerr) (b : Bind) (acmeCachePath : string) :
    result (ServerConfig * Swapped) :=
  match bind_TLS mkdir load b acmeCachePath with
  | Err e => Err e
  | Ok tlsConfig => Ok (with_timeouts b (NewServer tlsConfig), initial_handler b)
  end.

(** [Listener]. *)
Definition Bind_Listener (os : ListenOS) (b : Bind) : result Listener * list OSCall :=
  setupListener os (bind_Network b) (bind_Address b) (bind_SocketMode b) (bind_Proxy b).

Definition passthrough (backends : gmap string Backend) : M unit :=
  r <- get_req;;
  match SelectHTTPHandler backends (rq_Host r) with
  | None => http_Error (StatusText 502) 502
  | Some b => serve b
  end.

Definition server_handler `{Jose} (backends : gmap string Backend) (h : Swapped) (rid : string) (ja3n ja4 : option string) : M unit :=
  match h with
  | SwapNone => http_Error (StatusText 502) 502
  | SwapPassthrough => passthrough backends
  | SwapState st rules assets regs => serve_request st rules assets regs rid ja3n ja4
  end.
