(* ===== verification/Main.v ===== *)
(** [cmd/go-away/main.go]: the seed and the backends from the command line, loading the
    policy, and serving while it is reloaded. *)

From S2P Require Import Prelude GoStrings GoCrypto Hex GoTime NetAddr GoURL Mime UtilsHttp GoPath GoNet Cache Networks.
From S2P Require Import DecayMap Types Cookie Register State Key Data ResponsePolicy Pages Helper Mux Backends.
From S2P Require Import Effects Action ActionNew Rule Server JoseDemo Runtimes Safety Routes Policy Conditions NewState Bind.
From stdpp Require Import options.

(** * Command line *)

(** The seed of the signing key: the environment before the flag; [generate] prints a
    new one and ends the process. An empty text is no seed. *)
Inductive SeedChoice := SeedIs (seed : string) | SeedGenerate | SeedFatal (e : goerr).

Definition choose_seed (goawayEnv env flag : string) : SeedChoice :=
  let kValue := if negb (bool_decide (goawayEnv = "")) then goawayEnv
                else if negb (bool_decide (env = "")) then env
                else flag in
  if negb (bool_decide (kValue = "")) then
    if bool_decide (ToLower kValue = "generate") then SeedGenerate
    else
      match DecodeString kValue with
      | Err e => SeedFatal (EWrap "failed to decode seed: " e)
      | Ok seed =>
          if negb (String.length seed =? SeedSize)%nat
          then SeedFatal (ENew ("invalid seed length: " +:+ FormatUint (N.of_nat (String.length seed)) +:+ ", expected 32"))
          else SeedIs seed
      end
  else SeedIs "".

Definition default_backend (url header : string) : BackendSettings :=
  mkBackendSettings url "" false false header false false 0%Z 0%Z 0%Z 0%Z 0%Z.

(** The definitions of the command line, added to those of the settings file; [None] is the
    panic of writing to a nil map, which a settings file can leave. *)
Fixpoint parse_backends (backendIpHeader : string) (backends : list string) (m : gomap string BackendSettings) :
    option (result (gomap string BackendSettings)) :=
  match backends with
  | [] => Some (Ok m)
  | backend :: backends =>
      if bool_decide (backend = "") then parse_backends backendIpHeader backends m
      else
        match Split backend "=" with
        | [host; url] =>
            match m with
            | None => None
            | Some m => parse_backends backendIpHeader backends (Some (<[host := default_backend url backendIpHeader]> m))
            end
        | _ => Some (Err (ENew ("invalid backend definition: " +:+ backend)))
        end
  end.

Definition with_ip_header (header : string) (b : BackendSettings) : BackendSettings :=
  let 'mkBackendSettings u h h2 skip ip dns tr t1 t2 t3 t4 t5 := b in
  mkBackendSettings u h h2 skip (if bool_decide (ip = "") then header else ip) dns tr t1 t2 t3 t4 t5.

(** The proxies, in the order the map is walked. *)
Fixpoint create_backends (backendIpHeader : string) (backends : list (string * BackendSettings))
    (created : gmap string ReverseProxy) : result (gmap string ReverseProxy) :=
  match backends with
  | [] => if bool_decide (created = ∅) then Err (ENew "no backends defined in cmdline or settings file") else Ok created
  | (k, v) :: backends =>
      match Backend_Create (with_ip_header backendIpHeader v) with
      | Err e => Err (EWrap ("backend " +:+ k +:+ ": failed to make reverse proxy: ") e)
      | Ok backend => create_backends backendIpHeader backends (<[k := backend]> created)
      end
  end.

(** The cache directory with its subdirectories, and the one of certificates; no path, no
    cache. [MkdirAll] is the operating system's. *)
Definition open_cache (MkdirAll : string → Disk → result Disk) (cachePath : string) (disk : Disk) :
    result (option Cache * string) :=
  if bool_decide (cachePath = "") then Ok (None, "")
  else
    match MkdirAll cachePath disk with
    | Err e => Err (EWrap "failed to create cache directory: " e)
    | Ok disk =>
        let sub n (disk : Disk) :=
          match MkdirAll (path_Join [cachePath; n]) disk with
          | Err e => Err (EWrap ("failed to create cache sub directory " +:+ n +:+ ": ") e)
          | Ok disk => Ok disk
          end in
        (disk <-? sub "networks" disk;
         disk <-? sub "acme" disk;
         match CacheDirectory cachePath disk with
         | Err e => Err (EWrap "failed to open cache directory: " e)
         | Ok c => Ok (Some c, path_Join [cachePath; "acme"])
         end)%go
    end.

(** The flags and variables of the environment, and the settings: those of the program,
    changed by flags ([DefaultSettings]), then by the settings file. *)
Record Flags := mkFlags {
  fl_goawayEnv : string; fl_env : string; fl_seed : string; fl_backends : list string;
  fl_clientIpHeader : string; fl_backendIpHeader : string; fl_theme : string; fl_logo : string;
  fl_config : string; fl_cache : string; fl_snippets : list string; fl_path : string; fl_check : bool }.

Record MainSettings := mkMainSettings {
  ms_opt : Settings; ms_Bind : Bind; ms_BindDebug : string; ms_BindMetrics : string;
  ms_Backends : gomap string BackendSettings; ms_ChallengeHttpCode : Z }.

Definition DefaultSettings : MainSettings := mkMainSettings
  (mkSettings DefaultStrings [] "anubis" (list_to_map [("Theme", ""); ("Logo", "")]))
  (mkBind ":8080" "tcp" "0770" false false "" "" "" 0 0 0 0) "" "" (Some ∅) 418.

(** What the program starts with once the command line is read. *)
Record Setup := mkSetup {
  su_settings : MainSettings; su_seed : string; su_backends : gmap string ReverseProxy;
  su_backendIpHeader : string; su_cache : option Cache; su_acmeCache : string }.

(** The process ends with a fatal error or a panic, ends after it printed a new seed, or
    goes on. *)
Inductive Start (A : Type) := Fatal (e : goerr) | NilMap | PrintSeed | GoesOn (x : A).
Arguments Fatal {_} _.
Arguments NilMap {_}.
Arguments PrintSeed {_}.
Arguments GoesOn {_} _.

Definition or_fatal {A B} (r : result A) (k : A → Start B) : Start B :=
  match r with Err e => Fatal e | Ok x => k x end.

(** [main] up to the loading of the policy; [range] is the order maps are walked in. *)
Definition setup (ReadFile : string → result string) (Unmarshal : string → MainSettings → result MainSettings)
    (MkdirAll : string → Disk → result Disk) (disk : Disk) (range : gmap string BackendSettings → list (string * BackendSettings))
    (flags : Flags) (opt : MainSettings) : Start Setup :=
  let backendIpHeader :=
    if bool_decide (fl_backendIpHeader flags = "") then fl_clientIpHeader flags else fl_backendIpHeader flags in
  let 'mkMainSettings (mkSettings strings links template overrides) bind debug metrics backends code := opt in
  let opt := mkMainSettings
    (mkSettings strings links template (<["Logo" := fl_logo flags]> (<["Theme" := fl_theme flags]> overrides)))
    bind debug metrics backends code in
  or_fatal
    (if bool_decide (fl_config flags = "") then Ok opt
     else match ReadFile (fl_config flags) with
          | Err e => Err (EWrap "could not read settings file: " e)
          | Ok settingsData =>
              match Unmarshal settingsData opt with
              | Err e => Err (EWrap "could not parse settings file: " e)
              | Ok opt => Ok opt
              end
          end) (λ opt,
  match choose_seed (fl_goawayEnv flags) (fl_env flags) (fl_seed flags) with
  | SeedFatal e => Fatal e
  | SeedGenerate => PrintSeed
  | SeedIs seed =>
      match parse_backends backendIpHeader (fl_backends flags) (ms_Backends opt) with
      | None => NilMap
      | Some backends =>
          or_fatal backends (λ backends,
          or_fatal (create_backends backendIpHeader (range (default ∅ backends)) ∅) (λ created,
          or_fatal (open_cache MkdirAll (fl_cache flags) disk) (λ cache,
          GoesOn (mkSetup opt seed created backendIpHeader cache.1 cache.2))))
      end
  end).

(** * Loading *)

Section load.
  Context `{Jose, CelLibs, Cidranger, Ed25519} {Y : Type} `{Outside Y, ActionLibs Y} (fuel : nat).
  (** What stays the same between loads: the flags and the settings. *)
  Context (snippets : list string) (opt : Settings) (settings : StateSettings) (BasePath : string) (cache : option Cache).

(** What a load finds: the policy file, the libraries that read it, and the world the
    state is built in. *)
Record LoadEnv := mkLoadEnv {
  le_policyFile : result string; le_policyLibs : PolicyLibs Y; le_build : BuildEnv }.

(** [loadPolicyState]; [seed] is the memory of the seed, shared by all loads, and [None] a
    panic, which ends the process. *)
Definition loadPolicyState (env : LoadEnv) (seed : string) (idCounter : Id) :
    option (result (State * list RuleState) * string * Id) :=
  match le_policyFile env with
  | Err e => Some (Err (EWrap "failed to read policy file: " e), seed, idCounter)
  | Ok policyData =>
      p ← NewPolicy (le_policyLibs env) policyData snippets;
      match p with
      | Err e => Some (Err (EWrap "failed to parse policy file: " e), seed, idCounter)
      | Ok p =>
          '(state, seed, idCounter) ←
            NewState fuel (le_build env) p (mkStateArgs opt settings BasePath cache seed) idCounter;
          match state with
          | Err e => Some (Err (EWrap "failed to create state: " e), seed, idCounter)
          | Ok state => Some (Ok state, seed, idCounter)
          end
      end
  end.

(** * Serving

    The loading goroutine: the states loaded so far, by number; the variable
    [handler] ([None] for nil); the number of the state the server answers with;
    those that were closed; the memory of the seed; and the counter of challenges. *)
Record Serving := mkServing {
  sv_states : list (State * list RuleState);
  sv_handler : option nat;
  sv_served : nat;
  sv_closed : list nat;
  sv_seed : string;
  sv_counter : Id }.

(** The first load: an error ends the process, as a panic ([None]) does. *)
Definition first_load (env : LoadEnv) (seed : string) : option (result Serving) :=
  match loadPolicyState env seed 0%Z with
  | Some (Ok state, seed, idCounter) => Some (Ok (mkServing [state] (Some 0) 0 [] seed idCounter))
  | Some (Err e, _, _) => Some (Err (EWrap "failed to load policy state: " e))
  | None => None
  end.
Definition start (env : LoadEnv) (seed : string) : option Serving :=
  match first_load env seed with Some (Ok sv) => Some sv | _ => None end.

(** One SIGHUP. *)
Definition reload (env : LoadEnv) (sv : Serving) : option Serving :=
  let oldHandler := sv_handler sv in
  '(state, seed, idCounter) ← loadPolicyState env (sv_seed sv) (sv_counter sv);
  match state with
  | Err _ => Some (mkServing (sv_states sv) None (sv_served sv) (sv_closed sv) seed idCounter)
  | Ok state =>
      let n := length (sv_states sv) in
      Some (mkServing (sv_states sv ++ [state]) (Some n) n
        (match oldHandler with Some old => sv_closed sv ++ [old] | None => sv_closed sv end) seed idCounter)
  end.

(** The process after the signals so far. *)
Fixpoint run (envs : list LoadEnv) (sv : Serving) : option Serving :=
  match envs with
  | [] => Some sv
  | env :: envs => sv ← reload env sv; run envs sv
  end.

Inductive reachable (seed : string) : Serving → Prop :=
  | reach_start env sv : start env seed = Some sv → reachable seed sv
  | reach_reload env sv sv' : reachable seed sv → reload env sv = Some sv' → reachable seed sv'.

Lemma run_reachable seed envs sv sv' : reachable seed sv → run envs sv = Some sv' → reachable seed sv'.
Proof.
  revert sv. induction envs as [|env envs IH]; intros sv Hsv; cbn; [by intros [= <-]|].
  destruct (reload env sv) as [sv1|] eqn:Hr; [|done]. cbn. apply IH. by eapply reach_reload.
Qed.

(** The [-check] flag: the policy is loaded once; [None] is a panic. *)
Definition check (env : LoadEnv) (seed : string) : option (option goerr) :=
  '(state, _, _) ← loadPolicyState env seed 0%Z;
  Some (match state with Ok _ => None | Err e => Some e end).

(** The dry run of a load and the first load. *)
Lemma check_first_load env seed :
  match first_load env seed with
  | Some (Ok _) => check env seed = Some None
  | Some (Err e) => ∃ e', e = EWrap "failed to load policy state: " e' ∧ check env seed = Some (Some e')
  | None => check env seed = None
  end.
Proof. unfold check, first_load. destruct (loadPolicyState env seed 0%Z) as [[[[s|e] seed'] n]|]; [done| |done]. by exists e. Qed.

End load.

(** The whole process: the command line, the first load with the settings it gave, and
    the server's state after the reloads so far. [handler] makes a proxy a backend. *)
Section process.
  Context `{Jose, CelLibs, Cidranger, Ed25519} {Y : Type} `{Outside Y, ActionLibs Y} (fuel : nat).
  Context (handler : ReverseProxy → Backend) (MainName MainVersion : string) (flags : Flags).

Definition state_settings (su : Setup) : StateSettings :=
  mkStateSettings (handler <$> su_backends su) MainName MainVersion (fl_clientIpHeader flags)
    (su_backendIpHeader su) (ms_ChallengeHttpCode (su_settings su)).

Definition serves (su : Setup) (sv : Serving) : Prop :=
  reachable (Y:=Y) fuel (fl_snippets flags) (ms_opt (su_settings su)) (state_settings su) (fl_path flags) (su_cache su)
    (su_seed su) sv.

End process.

(** * Facts *)

Lemma create_backends_some header l created created' :
  create_backends header l created = Ok created' → created' ≠ ∅ ∧ dom created' = dom created ∪ list_to_set l.*1.
Proof.
  revert created. induction l as [|[k v] l IH]; intros created; cbn [create_backends].
  - case_bool_decide; [done|]. intros [= <-]. split; [done|]. set_solver.
  - destruct (Backend_Create _); [|done]. intros Hc. destruct (IH _ Hc) as [Hne Hd]. split; [done|].
    rewrite Hd, dom_insert_L. cbn. set_solver.
Qed.

Lemma choose_seed_length goawayEnv env flag seed :
  choose_seed goawayEnv env flag = SeedIs seed → seed = "" ∨ String.length seed = SeedSize.
Proof.
  unfold choose_seed. set (v := if negb (bool_decide (goawayEnv = "")) then _ else _). destruct (negb (bool_decide (v = ""))); [|intros [= <-]; by left].
  case_bool_decide; [done|]. destruct (DecodeString v) as [b|]; [|done].
  destruct (Nat.eqb_spec (String.length b) SeedSize); [|done]. intros [= <-]. by right.
Qed.

(** What the command line settles: the seed is the configured 32 bytes or none, there is a
    proxy for every backend and at least one, and the logo and theme flags are in
    the overrides unless a settings file changed them. *)
Lemma setup_spec ReadFile Unmarshal MkdirAll disk range flags opt su :
  setup ReadFile Unmarshal MkdirAll disk range flags opt = GoesOn su →
  (su_seed su = "" ∨ String.length (su_seed su) = SeedSize) ∧ su_backends su ≠ ∅ ∧
  (∃ backends, parse_backends (su_backendIpHeader su) (fl_backends flags) (ms_Backends (su_settings su)) = Some (Ok backends) ∧
    dom (su_backends su) = list_to_set (range (default ∅ backends)).*1) ∧
  (fl_config flags = "" → opt_ChallengeTemplateOverrides (ms_opt (su_settings su)) !! "Theme" = Some (fl_theme flags)).
Proof.
  unfold setup. set (header := if bool_decide _ then _ else _). destruct opt as [[strings links template overrides] bind debug metrics backends code].
  destruct (if bool_decide (fl_config flags = "") then _ else _) as [opt|] eqn:Hopt; [|done]. cbn [or_fatal].
  destruct (choose_seed _ _ _) as [seed| |] eqn:Hseed; try done.
  destruct (parse_backends _ _ _) as [[bs|]|] eqn:Hb; [|done..]. cbn [or_fatal].
  destruct (create_backends _ _ _) as [created|] eqn:Hc; [|done]. cbn [or_fatal].
  destruct (open_cache _ _ _) as [cache|]; [|done]. cbn [or_fatal]. intros [= <-].
  cbn [su_seed su_backends su_backendIpHeader su_settings]. destruct (create_backends_some _ _ _ _ Hc) as [Hne Hd].
  split; [by eapply choose_seed_length|]. split; [done|]. split.
  - exists bs. split; [done|]. rewrite Hd. set_solver.
  - intros Hconf. rewrite Hconf in Hopt. cbn in Hopt. injection Hopt as <-. cbn.
    by rewrite lookup_insert_ne, lookup_insert_eq by done.
Qed.

(** A state the server is safe with, whatever order its challenges are walked in. *)
Definition safe_state `{Jose} (s : State * list RuleState) : Prop :=
  ∀ assets regs, quiet assets → regs ≡ₚ (map_to_list (st_challenges s.1)).*2 → server_ok s.1 s.2 assets regs.

Section facts.
  Context `{Jose, CelLibs, Cidranger, Ed25519} {Y : Type} `{OutsideLaws Y, ActionLibs Y} (fuel : nat).
  Context (snippets : list string) (opt : Settings) (settings : StateSettings) (BasePath : string) (cache : option Cache).
  Set Default Proof Using "Type*".

Notation load := (loadPolicyState (Y:=Y) fuel snippets opt settings BasePath cache).
Notation reach := (reachable (Y:=Y) fuel snippets opt settings BasePath cache).

(** What a load does, whether it succeeds or not. *)
Lemma load_spec env seed n res seed' n' :
  (0 ≤ n)%Z → load env seed n = Some (res, seed', n') →
  (0 ≤ n')%Z ∧ (seed' = seed ∨ String.length seed = SeedSize ∧ seed' = zeroes SeedSize) ∧
  match res with
  | Ok s => safe_state s ∧ (seed ≠ "" → st_privateKey s.1 = NewKeyFromSeed seed ∧ String.length seed = SeedSize ∧ seed' = zeroes SeedSize)
  | Err _ => True
  end.
Proof.
  intros Hn. unfold loadPolicyState. destruct (le_policyFile env) as [policyData|]; [|intros [= <- <- <-]; auto].
  destruct (NewPolicy _ _ _) as [[p|]|]; cbn [option_bind mbind]; [|intros [= <- <- <-]; auto|done].
  set (args := mkStateArgs opt settings BasePath cache seed).
  destruct (NewState fuel (le_build env) p args n) as [[[state seed1] n1]|] eqn:Hnew; [|done]. cbn [option_bind mbind].
  pose proof (NewState_counter _ _ _ _ _ _ _ _ Hnew) as Hc. pose proof (NewState_seed _ _ _ _ _ _ _ _ Hnew) as Hs.
  pose proof (λ s, NewState_seed_length fuel (le_build env) p args n n1 s seed1) as Hl. rewrite Hnew in Hl.
  destruct (NewState_spec fuel (le_build env) p args n n1 state seed1 Hn Hnew) as [Hok Hz].
  assert (Hseed : seed1 = seed ∨ String.length seed = SeedSize ∧ seed1 = zeroes SeedSize).
  { destruct (state_keys_seed seed (be_generated (le_build env))) as [[Hk _]|[Hk ?]]; cbn [args sa_PrivateKeySeed] in Hs; rewrite Hs, Hk; auto. }
  destruct state as [[st rules]|e]; intros [= <- <- <-]; (split; [lia|]; split; [done|]); [|done].
  destruct (Hok st rules eq_refl) as (Hsafe & _ & _ & _ & Hkey). split; [done|]. intros Hne.
  destruct (Hl _ eq_refl) as [?|Hlen]; [done|]. auto.
Qed.

(** What holds of the process at all times. *)
Record serving_ok (seed : string) (sv : Serving) : Prop := {
  ok_served : S (sv_served sv) = length (sv_states sv);
  ok_handler : sv_handler sv = None ∨ sv_handler sv = Some (sv_served sv);
  ok_closed : Forall (λ i, i < sv_served sv) (sv_closed sv);
  ok_states : Forall safe_state (sv_states sv);
  ok_counter : (0 ≤ sv_counter sv)%Z;
  ok_seed : seed ≠ "" → sv_seed sv = zeroes SeedSize;
  ok_first : seed ≠ "" → st_privateKey ∘ fst <$> sv_states sv !! 0 = Some (NewKeyFromSeed seed);
  ok_later : seed ≠ "" → ∀ i s, 0 < i → sv_states sv !! i = Some s → st_privateKey s.1 = NewKeyFromSeed (zeroes SeedSize) }.

Lemma start_ok env seed sv :
  start fuel snippets opt settings BasePath cache env seed = Some sv → serving_ok seed sv.
Proof.
  unfold start, first_load. destruct (load env seed 0%Z) as [[[[s|] seed'] n']|] eqn:Hl; [|done..]. intros [= <-].
  apply load_spec in Hl as (Hn & _ & Hs & Hkey); [|done]. split; cbn.
  - done.
  - by right.
  - done.
  - by apply Forall_singleton.
  - done.
  - intros Hne. by apply Hkey.
  - intros Hne. f_equal. by apply Hkey.
  - intros Hne [|[|i]] s' Hi; [lia|done..].
Qed.

Lemma reload_ok env seed sv sv' :
  serving_ok seed sv → reload fuel snippets opt settings BasePath cache env sv = Some sv' → serving_ok seed sv'.
Proof.
  intros [Hserved Hhandler Hclosed Hstates Hcounter Hseed Hfirst Hlater]. unfold reload.
  destruct (load env (sv_seed sv) (sv_counter sv)) as [[[res seed'] n']|] eqn:Hl; [|done]. cbn [option_bind mbind].
  apply load_spec in Hl as (Hn & Hs & Hres); [|done].
  assert (Hseed' : seed ≠ "" → seed' = zeroes SeedSize) by (intros Hne; destruct Hs as [->|[_ ->]]; auto).
  destruct res as [s|e]; intros [= <-].
  - destruct Hres as [Hsafe Hkey]. split; cbn.
    + rewrite length_app. cbn. lia.
    + by right.
    + rewrite <-Hserved. assert (Hlt : Forall (λ i, i < S (sv_served sv)) (sv_closed sv)) by (eapply Forall_impl; [done|]; cbn; lia).
      destruct (sv_handler sv) as [old|]; [|done]. apply Forall_app_2; [done|].
      destruct Hhandler as [|Hh]; [done|]. injection Hh as ->. repeat constructor.
    + apply Forall_app_2; [done|by apply Forall_singleton].
    + done.
    + done.
    + intros Hne. rewrite lookup_app_l by lia. auto.
    + intros Hne i s' Hi. rewrite lookup_app_Some. intros [Hi'|[Hi' Hi'']]; [by eapply Hlater|].
      destruct (i - length (sv_states sv)) as [|j]; [|done]. injection Hi'' as <-.
      rewrite (Hseed Hne) in Hkey. by destruct (Hkey ltac:(done)).
  - split; cbn; auto.
Qed.

Lemma reachable_ok seed sv : reach seed sv → serving_ok seed sv.
Proof. induction 1 as [env sv Hs|env sv sv' _ IH Hr]; [by eapply start_ok|by eapply reload_ok]. Qed.

End facts.

(** The process that a command line starts: its states keep the invariant for the seed
    that was configured, which has the length of a seed. *)
Lemma process_ok `{Jose, CelLibs, Cidranger, Ed25519} {Y : Type} `{OutsideLaws Y, ActionLibs Y} fuel handler
    MainName MainVersion ReadFile Unmarshal MkdirAll disk range flags opt su sv :
  setup ReadFile Unmarshal MkdirAll disk range flags opt = GoesOn su →
  serves (Y:=Y) fuel handler MainName MainVersion flags su sv →
  serving_ok (su_seed su) sv ∧ (su_seed su = "" ∨ String.length (su_seed su) = SeedSize).
Proof.
  intros Hsu Hsv. split; [by eapply reachable_ok|]. by destruct (setup_spec _ _ _ _ _ _ _ _ Hsu).
Qed.

(** * Properties *)

(** C6: However often the policy is reloaded, and whatever the reloads find, the server
    answers with the state loaded last: a safe one, which was not closed; a reload
    that fails changes nothing of that. *)
Theorem reload_safe `{Jose, CelLibs, Cidranger, Ed25519} {Y : Type} `{OutsideLaws Y, ActionLibs Y} (fuel : nat)
    (snippets : list string) (opt : Settings) (settings : StateSettings) (BasePath : string) (cache : option Cache)
    (seed : string) (sv : Serving)
    (Hr : reachable (Y:=Y) fuel snippets opt settings BasePath cache seed sv) :
  ∃ st rules, sv_states sv !! sv_served sv = Some (st, rules) ∧ last (sv_states sv) = Some (st, rules) ∧
    sv_served sv ∉ sv_closed sv ∧
    (∀ assets regs, quiet assets → regs ≡ₚ (map_to_list (st_challenges st)).*2 → server_ok st rules assets regs) ∧
    (∀ env sv', reload (Y:=Y) fuel snippets opt settings BasePath cache env sv = Some sv' → sv_handler sv' = None →
       sv_states sv' = sv_states sv ∧ sv_served sv' = sv_served sv ∧ sv_closed sv' = sv_closed sv).
Proof.
  destruct (reachable_ok fuel snippets opt settings BasePath cache seed sv Hr) as [Hserved _ Hclosed Hstates _ _ _ _].
  destruct (lookup_lt_is_Some_2 (sv_states sv) (sv_served sv)) as [[st rules] Hst]; [lia|].
  exists st, rules. split; [done|]. split; [|split; [|split]].
  - rewrite last_lookup, <-Hserved. done.
  - intros Hin. rewrite Forall_forall in Hclosed. apply Hclosed in Hin. lia.
  - rewrite Forall_lookup in Hstates. exact (Hstates _ _ Hst).
  - intros env sv'. unfold reload. destruct (loadPolicyState _ _ _ _ _ _ _ _ _) as [[[[s|e] seed'] n']|]; [|by intros [= <-]|done].
    by intros [= <-].
Qed.

(** C8: A configured signing key does not survive a reload: [NewState] clears the memory
    of the seed, which all loads share, so that every state after the first signs with
    the key of the seed of 32 zero bytes. That key is known to everybody, who can then
    make authentic cookies. *)
Theorem reload_key `{Jose, CelLibs, Cidranger, Ed25519} {Y : Type} `{OutsideLaws Y, ActionLibs Y} (fuel : nat)
    (snippets : list string) (opt : Settings) (settings : StateSettings) (BasePath : string) (cache : option Cache)
    (seed : string) (sv : Serving) (i : nat) (st : State) (rules : list RuleState)
    (Hr : reachable (Y:=Y) fuel snippets opt settings BasePath cache seed sv)
    (Hseed : seed ≠ "") (Hst : sv_states sv !! i = Some (st, rules)) :
  st_privateKey st = NewKeyFromSeed (if (i =? 0)%nat then seed else zeroes 32).
Proof.
  destruct (reachable_ok fuel snippets opt settings BasePath cache seed sv Hr) as [_ _ _ _ _ _ Hfirst Hlater].
  destruct i as [|i]; cbn [Nat.eqb].
  - specialize (Hfirst Hseed). rewrite Hst in Hfirst. by injection Hfirst.
  - exact (Hlater Hseed (S i) (st, rules) ltac:(lia) Hst).
Qed.

(** ** A concrete process *)

Definition demo_load (policy : result string) : LoadEnv (Y:=unit) :=
  mkLoadEnv policy (mkPolicyLibs (λ _, Ok []) (λ _, Err (ENew "no file")) (λ _ _ _, Ok demo_gate_policy)) demo_build.

Definition demo_seed : string := zeroes 31 +:+ "x".

Definition demo_process (reloads : list (result string)) : option Serving :=
  sv ← start (H1:=list_ranger) 2 [] (sa_opt demo_args) (sa_settings demo_args) "/base" None (demo_load (Ok "policy")) demo_seed;
  run (H1:=list_ranger) 2 [] (sa_opt demo_args) (sa_settings demo_args) "/base" None (demo_load <$> reloads) sv.

Lemma demo_reachable reloads sv :
  demo_process reloads = Some sv →
  reachable (H1:=list_ranger) (Y:=unit) 2 [] (sa_opt demo_args) (sa_settings demo_args) "/base" None demo_seed sv.
Proof.
  unfold demo_process. destruct (start _ _ _ _ _ _ _ _) as [sv0|] eqn:Hs; [|done]. cbn [option_bind mbind].
  apply run_reachable. by eapply reach_start.
Qed.

Lemma demo_runs : is_Some (demo_process [Ok "policy"]).
Proof. eexists. reflexivity. Qed.

Lemma reload_safe_witness : ∃ sv, demo_process [Ok "policy"] = Some sv ∧ sv_served sv ∉ sv_closed sv.
Proof.
  destruct demo_runs as [sv Hsv]. exists sv. split; [done|].
  destruct (reload_safe (H1:=list_ranger) (Y:=unit) 2 [] (sa_opt demo_args) (sa_settings demo_args) "/base" None demo_seed sv
    (demo_reachable _ _ Hsv)) as (st & rules & _ & _ & Hc & _). exact Hc.
Defined.

Lemma demo_reloaded : ∃ sv st rules, demo_process [Ok "policy"] = Some sv ∧ sv_states sv !! 1 = Some (st, rules).
Proof.
  assert (Hn : (λ sv, length (sv_states sv)) <$> demo_process [Ok "policy"] = Some 2) by (vm_compute; done).
  destruct (demo_process [Ok "policy"]) as [sv|]; [|done]. apply (inj Some) in Hn.
  destruct (lookup_lt_is_Some_2 (sv_states sv) 1) as [[st rules] Hst]; [rewrite Hn; lia|]. by exists sv, st, rules.
Qed.

Lemma reload_key_witness :
  ∃ sv st rules, demo_process [Ok "policy"] = Some sv ∧ sv_states sv !! 1 = Some (st, rules) ∧
    st_privateKey st = "private" +:+ zeroes 32.
Proof.
  destruct demo_reloaded as (sv & st & rules & Hsv & Hst). exists sv, st, rules. split; [exact Hsv|]. split; [exact Hst|].
  exact (reload_key (H1:=list_ranger) (Y:=unit) 2 [] (sa_opt demo_args) (sa_settings demo_args) "/base" None demo_seed sv 1
    st rules (demo_reachable _ _ Hsv) ltac:(discriminate) Hst).
Defined.

(** After a reload that failed the state being served is forgotten: it is never closed. *)
Example failed_reload_leaks :
  (sv_closed <$> demo_process [Ok "policy"]) = Some [0] ∧
  (sv_closed <$> demo_process [Err (ENew "no file"); Ok "policy"]) = Some [] ∧
  (sv_served <$> demo_process [Err (ENew "no file"); Ok "policy"]) = Some 1.
Proof. vm_compute. done. Qed.

(** A URL with a query cannot be a backend of the command line. *)
Example backend_with_query :
  is_ok <$> parse_backends "" ["example.org=http://backend/?a=b"] (Some ∅) = Some false ∧
  is_ok <$> parse_backends "" [""; "example.org=http://backend/"] (Some ∅) = Some true.
Proof. vm_compute. done. Qed.

Example choose_seed1 :
  choose_seed "" "Generate" "00" = SeedGenerate ∧
  choose_seed "" "" "" = SeedIs "" ∧
  choose_seed (EncodeToString demo_seed) "generate" "" = SeedIs demo_seed.
Proof. vm_compute. done. Qed.
