(* ===== verification/Lifetimes.v ===== *)
(** Requests while the policy is reloaded (cmd/go-away/main.go, lib/settings/bind.go): the
    server loads the pointer to its handler once per request, the loading goroutine
    stores another and closes the state before it. [Main] has a reload as one step;
    here its parts interleave with the beginnings and ends of requests. *)

From S2P Require Import Prelude GoCrypto Types Cookie Register State Data Conditions.
From S2P Require Import ActionNew Rule Runtimes Policy Networks Cache NewState Main.
From stdpp Require Import options.

(** States are numbered as they are loaded. The goroutine: the number of the next state,
    its variable [handler] ([None] for nil), and the state it is about to close. The
    server: what its pointer holds. Then the states that were closed, and the state each
    request in progress has. *)
Record sys := mkSys {
  ly_next : nat; ly_handler : option nat; ly_closing : option nat; ly_ptr : nat;
  ly_closed : list nat; ly_running : gmap nat nat }.

(** The first load has just been served. *)
Definition initial : sys := mkSys 1 (Some 0) None 0 [] ∅.

Inductive op :=
  | OSwap          (* a load that succeeded, and the swap *)
  | OFail          (* a load that failed *)
  | OClose         (* closing the state before *)
  | OArrive (t : nat)
  | OFinish (t : nat).

#[export] Instance op_eq_dec : EqDecision op.
Proof. solve_decision. Defined.

Definition step (s : sys) (o : op) : sys :=
  let '(mkSys next handler closing ptr closed running) := s in
  match o with
  | OSwap =>
      if closing is Some _ then s
      else mkSys (S next) (Some next) handler next closed running
  | OFail => if closing is Some _ then s else mkSys next None None ptr closed running
  | OClose =>
      match closing with
      | Some old => mkSys next handler None ptr (closed ++ [old]) running
      | None => s
      end
  | OArrive t =>
      match running !! t with
      | Some _ => s
      | None => mkSys next handler closing ptr closed (<[t := ptr]> running)
      end
  | OFinish t => mkSys next handler closing ptr closed (delete t running)
  end.

Definition run (s : sys) (os : list op) : sys := foldl step s os.

(** The parts of one reload: [ok] when the load succeeds. *)
Definition reload_ops (ok : bool) : list op := if ok then [OSwap; OClose] else [OFail].

(** ** [Main] *)

Section main.
  Context `{Jose, CelLibs, Cidranger, Ed25519} {Y : Type} `{Outside Y, ActionLibs Y} (fuel : nat).
  Context (snippets : list string) (opt : Settings) (settings : StateSettings) (BasePath : string) (cache : option Cache).

(** A serving process and the requests it has. *)
Definition of_serving (sv : Serving) (running : gmap nat nat) : sys :=
  mkSys (length (sv_states sv)) (sv_handler sv) None (sv_served sv) (sv_closed sv) running.

(** A reload of [Main] is these parts one after the other. *)
Lemma reload_parts env sv sv' running :
  reload (Y:=Y) fuel snippets opt settings BasePath cache env sv = Some sv' →
  ∃ ok, of_serving sv' running = run (of_serving sv running) (reload_ops ok) ∧ (ok = true ↔ sv_handler sv' ≠ None).
Proof.
  unfold reload. destruct (loadPolicyState _ _ _ _ _ _ _ _ _) as [[[[s|e] seed] n]|]; [..|done]; intros [= <-].
  - exists true. split; [|done]. unfold of_serving. cbn. rewrite length_app, Nat.add_1_r. by destruct (sv_handler sv).
  - exists false. by split.
Qed.

End main.

(** ** Facts *)

Record ok (s : sys) : Prop := {
  ok_next : ly_ptr s < ly_next s;
  ok_handler : ∀ i, ly_handler s = Some i → i = ly_ptr s;
  ok_closing : ∀ i, ly_closing s = Some i → i < ly_ptr s ∧ i ∉ ly_closed s;
  ok_closed : Forall (λ i, i < ly_ptr s) (ly_closed s);
  ok_once : NoDup (ly_closed s);
  ok_running : map_Forall (λ _ i, i ≤ ly_ptr s) (ly_running s) }.

Lemma reload_step_ok s o : ok s → ok (step s o).
Proof.
  intros [Hn Hh Hc Hcl Ho Hr]. destruct s as [next handler closing ptr closed running]. cbn in *.
  destruct o as [| | |t|t]; cbn.
  - destruct closing as [c|]; [by split|]. split; cbn.
    + lia.
    + by intros i [= <-].
    + intros i Hi. rewrite (Hh i Hi). split; [lia|]. intros Hin. rewrite Forall_forall in Hcl. apply Hcl in Hin. lia.
    + eapply Forall_impl; [exact Hcl|]. cbn. lia.
    + done.
    + eapply map_Forall_impl; [exact Hr|]. cbn. lia.
  - destruct closing as [c|]; by split.
  - destruct closing as [c|]; [|by split]. destruct (Hc c eq_refl) as [Hlt Hnin]. split; cbn; try done.
    + apply Forall_app_2; [done|]. by constructor.
    + apply NoDup_app. split; [done|]. split; [|apply NoDup_singleton]. intros x Hx ->%list_elem_of_singleton. done.
  - destruct (running !! t) as [i|]; [by split|]. split; cbn; try done. apply map_Forall_insert_2; done.
  - split; cbn; try done. by apply map_Forall_delete.
Qed.

Lemma reload_run_ok s os : ok s → ok (run s os).
Proof. revert s. induction os as [|o os IH]; intros s Hs; [done|]. apply IH. by apply reload_step_ok. Qed.

Lemma reload_initial_ok : ok initial.
Proof.
  split; cbn; [lia|by intros i [= <-]|done|constructor|apply NoDup_nil_2|].
  intros t i Hi. by rewrite lookup_empty in Hi.
Qed.

Lemma reload_run_app s os os' : run s (os ++ os') = run (run s os) os'.
Proof. apply foldl_app. Qed.

(** The pointer moves only when a load succeeds. *)
Lemma step_ptr s o : o ≠ OSwap → ly_ptr (step s o) = ly_ptr s.
Proof. destruct s, o; intros Ho; cbn; try done; by repeat case_match. Qed.

Lemma run_ptr s os : OSwap ∉ os → ly_ptr (run s os) = ly_ptr s.
Proof.
  revert s. induction os as [|o os IH]; intros s Hn; [done|]. change (run s (o :: os)) with (run (step s o) os).
  rewrite not_elem_of_cons in Hn. destruct Hn as [Ho Hn]. rewrite IH by done. apply step_ptr. congruence.
Qed.

(** A request that is in progress: when it began, and what it got. *)
Lemma running_since s os t i :
  ly_running s !! t = None → ly_running (run s os) !! t = Some i →
  ∃ before during, os = before ++ OArrive t :: during ∧ i = ly_ptr (run s before) ∧ OFinish t ∉ during.
Proof.
  intros Hnone. revert i. induction os as [|o os IH] using rev_ind; intros i; [cbn; congruence|].
  rewrite reload_run_app. change (run (run s os) [o]) with (step (run s os) o).
  assert (Hkeep : ly_running (step (run s os) o) !! t = ly_running (run s os) !! t → o ≠ OFinish t →
    ly_running (step (run s os) o) !! t = Some i →
    ∃ before during, os ++ [o] = before ++ OArrive t :: during ∧ i = ly_ptr (run s before) ∧ OFinish t ∉ during).
  { intros -> Hf Hi. destruct (IH i Hi) as (before & during & -> & Hp & Hd). exists before, (during ++ [o]).
    split; [by rewrite <-(assoc_L (++))|]. split; [done|]. rewrite elem_of_app, list_elem_of_singleton. naive_solver. }
  destruct (run s os) as [next handler closing ptr closed running] eqn:Hrun. destruct o as [| | |t'|t']; cbn in *.
  - apply Hkeep; [by destruct closing|done].
  - apply Hkeep; [by destruct closing|done].
  - apply Hkeep; [by destruct closing|done].
  - destruct (running !! t') as [j|] eqn:Ht'; [by apply Hkeep|]. destruct (decide (t' = t)) as [->|Hne].
    + cbn. rewrite lookup_insert_eq. intros [= <-]. exists os, []. split; [done|]. rewrite Hrun. split; [done|]. apply not_elem_of_nil.
    + apply Hkeep; [cbn; by rewrite lookup_insert_ne|done].
  - destruct (decide (t' = t)) as [->|Hne]; [cbn; by rewrite lookup_delete_eq|].
    apply Hkeep; [cbn; by rewrite lookup_delete_ne|congruence].
Qed.

(** * Properties *)

(** C36: Requests and reloads under every interleaving: no state is closed twice, nor
    while the server's pointer holds it; and a request in progress has the state that was
    served when it began, the last one loaded until then, which was open, and which can
    be closed under it only by a reload that succeeded meanwhile. *)
Theorem requests_and_reloads (os : list op) :
  let s := run initial os in
  NoDup (ly_closed s) ∧ ly_ptr s ∉ ly_closed s ∧
  ∀ t i, ly_running s !! t = Some i →
    ∃ before during, os = before ++ OArrive t :: during ∧ OFinish t ∉ during ∧
      i = ly_ptr (run initial before) ∧ i ∉ ly_closed (run initial before) ∧ (i ∈ ly_closed s → OSwap ∈ during).
Proof.
  intros s. pose proof (reload_run_ok initial os reload_initial_ok) as [_ _ _ Hcl Ho _]. fold s in Hcl, Ho.
  assert (Hopen : ∀ os, ly_ptr (run initial os) ∉ ly_closed (run initial os)).
  { intros os' Hin. pose proof (reload_run_ok initial os' reload_initial_ok) as [_ _ _ Hcl' _ _]. rewrite Forall_forall in Hcl'.
    apply Hcl' in Hin. lia. }
  split; [done|]. split; [apply Hopen|]. intros t i Hi.
  destruct (running_since initial os t i) as (before & during & Hos & Hp & Hf); [done..|].
  exists before, during. split; [done|]. split; [done|]. split; [done|]. split; [rewrite Hp; apply Hopen|].
  intros Hin. destruct (decide (OSwap ∈ during)) as [|Hno]; [done|]. exfalso.
  rewrite Forall_forall in Hcl. apply Hcl in Hin. unfold s in Hin. rewrite Hos, reload_run_app in Hin.
  change (run (run initial before) (OArrive t :: during)) with (run (step (run initial before) (OArrive t)) during) in Hin.
  rewrite run_ptr, step_ptr in Hin by done. lia.
Qed.

(** It happens: the state of a request is closed while the request has it, and with it the
    modules its challenges run on. *)
Example closed_in_flight :
  let s := run initial [OArrive 7; OSwap; OClose; OArrive 8] in
  ly_running s !! 7 = Some 0 ∧ ly_closed s = [0] ∧ ly_running s !! 8 = Some 1.
Proof. vm_compute. done. Qed.
