(* ===== verification/Command.v ===== *)
(** The rest of [cmd/go-away/main.go]: the flags of the command line, logging, and the
    whole of [main] from its arguments to the running server. *)

From S2P Require Import Prelude GoStrings GoFlag GoCrypto Hex GoTime NetAddr GoURL Mime UtilsHttp GoPath Cache Networks.
From S2P Require Import DecayMap Types Cookie Register State Key Data ResponsePolicy Pages Helper Mux Backends.
From S2P Require Import Effects Action ActionNew Rule Server JoseDemo Runtimes Policy Conditions NewState Bind Main.
From stdpp Require Import options.

(** * Names

    What the build left of its name: the path of the command, that of the module and its
    version. Without it the names are those of the source. *)
Record BuildInfo := mkBuildInfo { bi_Path : string; bi_MainPath : string; bi_MainVersion : string }.
Definition init (info : option BuildInfo) : BuildInfo :=
  match info with None => mkBuildInfo "go-away" "go-away" "dev" | Some info => info end.

(** * Flags *)

(** The flags and their defaults, from the settings [opt] the program starts with. *)
Definition command_line (tempDir : string) (info : BuildInfo) (opt : MainSettings) : FlagSet :=
  let b := ms_Bind opt in
  let overrides := opt_ChallengeTemplateOverrides (ms_opt opt) in
  list_to_map [
    ("bind", VString (bind_Address b));
    ("bind-network", VString (bind_Network b));
    ("bind-proxy", VBool (bind_Proxy b));
    ("socket-mode", VString (bind_SocketMode b));
    ("metrics-bind", VString (ms_BindMetrics opt));
    ("debug-bind", VString (ms_BindDebug opt));
    ("slog-level", VString "WARN");
    ("passthrough", VBool (bind_Passthrough b));
    ("check", VBool false);
    ("acme-autocert", VString (bind_TLSAcmeAutoCert b));
    ("client-ip-header", VString "");
    ("backend-ip-header", VString "");
    ("cache", VString (path_Join [tempDir; "go_away_cache"]));
    ("policy", VString "");
    ("policy-snippets", VMulti []);
    ("challenge-http-code", VInt (ms_ChallengeHttpCode opt));
    ("challenge-template", VString (opt_ChallengeTemplate (ms_opt opt)));
    ("challenge-template-theme", VString (default "" (overrides !! "Theme")));
    ("challenge-template-logo", VString (default "" (overrides !! "Logo")));
    ("path", VString ("/.well-known/." +:+ bi_Path info));
    ("jwt-private-key-seed", VString "");
    ("backend", VMulti []);
    ("config", VString "")].

(** The variables behind the flags. *)
Definition flag_string (fs : FlagSet) (name : string) : string :=
  match fs !! name with Some (VString s) => s | _ => "" end.
Definition flag_bool (fs : FlagSet) (name : string) : bool :=
  match fs !! name with Some (VBool b) => b | _ => false end.
Definition flag_int (fs : FlagSet) (name : string) : Z :=
  match fs !! name with Some (VInt z) => z | _ => 0%Z end.
Definition flag_multi (fs : FlagSet) (name : string) : list string :=
  match fs !! name with Some (VMulti l) => l | _ => [] end.

(** The settings as the flags that point into them leave them. *)
Definition flag_settings (fs : FlagSet) (opt : MainSettings) : MainSettings :=
  let b := ms_Bind opt in
  let o := ms_opt opt in
  mkMainSettings
    (mkSettings (opt_Strings o) (opt_Links o) (flag_string fs "challenge-template") (opt_ChallengeTemplateOverrides o))
    (mkBind (flag_string fs "bind") (flag_string fs "bind-network") (flag_string fs "socket-mode") (flag_bool fs "bind-proxy")
       (flag_bool fs "passthrough") (flag_string fs "acme-autocert") (bind_TLSCertificate b) (bind_TLSPrivateKey b)
       (bind_ReadTimeout b) (bind_ReadHeaderTimeout b) (bind_WriteTimeout b) (bind_IdleTimeout b))
    (flag_string fs "debug-bind") (flag_string fs "metrics-bind") (ms_Backends opt) (flag_int fs "challenge-http-code").

(** The other flags, with the variables of the environment. *)
Definition flag_values (Getenv : string → string) (fs : FlagSet) : Flags :=
  mkFlags (Getenv "GOAWAY_JWT_PRIVATE_KEY_SEED") (Getenv "JWT_PRIVATE_KEY_SEED") (flag_string fs "jwt-private-key-seed")
    (flag_multi fs "backend") (flag_string fs "client-ip-header") (flag_string fs "backend-ip-header")
    (flag_string fs "challenge-template-theme") (flag_string fs "challenge-template-logo") (flag_string fs "config")
    (flag_string fs "cache") (flag_multi fs "policy-snippets") (flag_string fs "path") (flag_bool fs "check").

(** * Logging *)

Definition LevelDebug : Z := -4.
Definition LevelInfo : Z := 0.
Definition LevelWarn : Z := 4.
Definition LevelError : Z := 8.

Definition to_int (z : Z) : Z := (z + 2 ^ 63) mod 2 ^ 64 - 2 ^ 63.

(** [slog.Level.UnmarshalText]: a name, and perhaps an offset from its first sign on. *)
Fixpoint cut_offset (s : string) : string * option string :=
  match s with
  | EmptyString => ("", None)
  | String c rest =>
      if bool_decide (c = "+"%char) || bool_decide (c = "-"%char) then ("", Some s)
      else let '(name, offset) := cut_offset rest in (String c name, offset)
  end.

Definition parse_level (s : string) : result Z :=
  let '(name, offset) := cut_offset s in
  match (match offset with None => Ok 0%Z | Some offset => Atoi offset end) with
  | Err e => Err (EWrap "slog: level string: " e)
  | Ok offset =>
      let level l := Ok (to_int (l + offset)) in
      let name := ToUpper name in
      if bool_decide (name = "DEBUG") then level LevelDebug
      else if bool_decide (name = "INFO") then level LevelInfo
      else if bool_decide (name = "WARN") then level LevelWarn
      else if bool_decide (name = "ERROR") then level LevelError
      else Err (EWrap "slog: level string: " (ENew "unknown name"))
  end.

(** The logger: its level, whether it adds the source, and whether the level given was
    not one. *)
Record LogConfig := mkLogConfig { lc_Level : Z; lc_AddSource : bool; lc_Invalid : bool }.
Definition log_config (slogLevel : string) : LogConfig :=
  let '(programLevel, invalid) :=
    match parse_level slogLevel with Err _ => (LevelInfo, true) | Ok l => (l, false) end in
  mkLogConfig programLevel (programLevel <=? LevelDebug)%Z invalid.

(** The attribute of the source as [ReplaceAttr] writes it; [None] for another value. *)
Definition source_attr (key : string) (source : option (string * N)) : option string :=
  if bool_decide (key = "source") then
    match source with Some (file, line) => Some (file +:+ ":" +:+ FormatUint line) | None => None end
  else None.

Example parse_level1 :
  parse_level "warn" = Ok 4%Z ∧ parse_level "Info-8" = Ok (-8)%Z ∧ parse_level "ERROR+1" = Ok 9%Z ∧
  is_ok (parse_level "info+") = false ∧ is_ok (parse_level "trace") = false ∧
  log_config "debug" = mkLogConfig (-4) true false ∧ log_config "" = mkLogConfig 0 false true.
Proof. vm_compute. done. Qed.

(** * The servers beside the main one *)

Record AuxServer := mkAuxServer { aux_Addr : string; aux_Routes : list string }.

Definition aux_servers (opt : MainSettings) : list AuxServer :=
  (if bool_decide (ms_BindDebug opt = "") then []
   else [mkAuxServer (ms_BindDebug opt) ["/debug/pprof/"; "/debug/pprof/profile"; "/debug/pprof/symbol"; "/debug/pprof/trace"]]) ++
  (if bool_decide (ms_BindMetrics opt = "") then [] else [mkAuxServer (ms_BindMetrics opt) ["/metrics"]]).

(** What the end of a server does to the process: it is fatal unless it was closed. *)
Definition ErrServerClosed : goerr := ENamed "http: Server closed".
Definition server_ended (err : goerr) : option goerr := if errorsIs err ErrServerClosed then None else Some err.

(** * [main] *)

Section main.
  Context `{Jose, CelLibs, Cidranger, Ed25519} {Y : Type} `{Outside Y, ActionLibs Y} (fuel : nat).

(** The operating system and the libraries. *)
Record Host := mkHost {
  ho_info : option BuildInfo; ho_TempDir : string; ho_Getenv : string → string;
  ho_ReadFile : string → result string; ho_Unmarshal : string → MainSettings → result MainSettings;
  ho_MkdirAll : string → Disk → result Disk; ho_disk : Disk;
  ho_range : gmap string BackendSettings → list (string * BackendSettings);
  ho_listen : ListenOS; ho_mkdir : string → option goerr; ho_LoadX509KeyPair : string → string → option goerr;
  ho_policyLibs : PolicyLibs Y; ho_build : BuildEnv;
  ho_handler : ReverseProxy → Backend }.

(** A server that listens: how it shows its address, what it is configured with, what it
    answers first, the servers beside it, and the first load, which goes on at the same
    time and ends the process when it fails. *)
Record Running := mkRunning {
  ru_listener : Listener; ru_server : ServerConfig; ru_first : Swapped; ru_aux : list AuxServer; ru_log : LogConfig;
  ru_load : option (result Serving) }.

Inductive Outcome :=
  | BadFlags (e : FlagError)
  | FatalError (e : goerr)
  | Panicked
  | ListenerPanic (e : goerr)
  | SeedPrinted
  | LoadOk
  | Runs (r : Running).

(** The exit status of a process that ends by itself; a panic's is 2. *)
Definition Outcome_status (o : Outcome) : option Z :=
  match o with
  | BadFlags e => Some (exit_status e)
  | FatalError _ => Some 1%Z
  | Panicked | ListenerPanic _ => Some 2%Z
  | SeedPrinted | LoadOk => Some 0%Z
  | Runs r =>
      match ru_load r with
      | Some (Ok _) => None
      | Some (Err _) => Some 1%Z
      | None => Some 2%Z
      end
  end.

(** What a load of the policy starts from. *)
Definition load_env (host : Host) (policyFile : string) : LoadEnv (Y:=Y) :=
  mkLoadEnv (ho_ReadFile host policyFile) (ho_policyLibs host) (ho_build host).

(** [main] behind the flags. *)
Definition main_flags (host : Host) (fs : FlagSet) (opt : MainSettings) : Outcome :=
  let flags := flag_values (ho_Getenv host) fs in
  let info := init (ho_info host) in
  let policyFile := flag_string fs "policy" in
  match setup (ho_ReadFile host) (ho_Unmarshal host) (ho_MkdirAll host) (ho_disk host) (ho_range host)
          flags (flag_settings fs opt) with
  | Fatal e => FatalError e
  | NilMap => Panicked
  | PrintSeed => SeedPrinted
  | GoesOn su =>
      let opt := su_settings su in
      let settings := state_settings (ho_handler host) (bi_MainPath info) (bi_MainVersion info) flags su in
      if fl_check flags then
        match check fuel (fl_snippets flags) (ms_opt opt) settings (fl_path flags) (su_cache su)
                (load_env host policyFile) (su_seed su) with
        | None => Panicked
        | Some (Some e) => FatalError e
        | Some None => LoadOk
        end
      else
        match Bind_Listener (ho_listen host) (ms_Bind opt) with
        | (Err e, _) => ListenerPanic e
        | (Ok listener, _) =>
            match Bind_Server (ho_mkdir host) (ho_LoadX509KeyPair host) (ms_Bind opt) (su_acmeCache su) with
            | Err e => FatalError (EWrap "failed to create server: " e)
            | Ok (server, first) =>
                Runs (mkRunning listener server first (aux_servers opt) (log_config (flag_string fs "slog-level"))
                  (first_load fuel (fl_snippets flags) (ms_opt opt) settings (fl_path flags) (su_cache su)
                     (load_env host policyFile) (su_seed su)))
            end
        end
  end.

Definition main (host : Host) (args : list string) : Outcome :=
  let opt := DefaultSettings in
  match GoFlag.Parse (command_line (ho_TempDir host) (init (ho_info host)) opt) args with
  | Failed e => BadFlags e
  | Args fs _ => main_flags host fs opt
  end.

End main.

(** * Facts *)

Lemma flag_string_insert fs n v name : name ≠ n → flag_string (<[n := v]> fs) name = flag_string fs name.
Proof. intros Hn. unfold flag_string. by rewrite lookup_insert_ne. Qed.
Lemma flag_bool_insert fs n v name : name ≠ n → flag_bool (<[n := v]> fs) name = flag_bool fs name.
Proof. intros Hn. unfold flag_bool. by rewrite lookup_insert_ne. Qed.
Lemma flag_int_insert fs n v name : name ≠ n → flag_int (<[n := v]> fs) name = flag_int fs name.
Proof. intros Hn. unfold flag_int. by rewrite lookup_insert_ne. Qed.
Lemma flag_multi_insert fs n v name : name ≠ n → flag_multi (<[n := v]> fs) name = flag_multi fs name.
Proof. intros Hn. unfold flag_multi. by rewrite lookup_insert_ne. Qed.

Definition set_fl_check (b : bool) (f : Flags) : Flags :=
  mkFlags (fl_goawayEnv f) (fl_env f) (fl_seed f) (fl_backends f) (fl_clientIpHeader f) (fl_backendIpHeader f)
    (fl_theme f) (fl_logo f) (fl_config f) (fl_cache f) (fl_snippets f) (fl_path f) b.

(** The check flag is that field and nothing else. *)
Lemma check_flag Getenv fs opt b :
  flag_values Getenv (<["check" := VBool b]> fs) = set_fl_check b (flag_values Getenv fs) ∧
  flag_settings (<["check" := VBool b]> fs) opt = flag_settings fs opt.
Proof.
  unfold flag_values, flag_settings, set_fl_check. cbn [fl_goawayEnv fl_env fl_seed fl_backends fl_clientIpHeader fl_backendIpHeader
    fl_theme fl_logo fl_config fl_cache fl_snippets fl_path]. split.
  - rewrite !flag_string_insert, !flag_multi_insert by done. unfold flag_bool. by rewrite lookup_insert_eq.
  - by rewrite !flag_string_insert, !flag_bool_insert, flag_int_insert by done.
Qed.

(** The commands have no flag of this kind. *)
Lemma no_uint64 tempDir info name n : command_line tempDir info DefaultSettings !! name ≠ Some (VUint64 n).
Proof.
  intros Hn. unfold command_line in Hn. apply elem_of_list_to_map_2 in Hn. rewrite !elem_of_cons, elem_of_nil in Hn.
  repeat destruct Hn as [Hn|Hn]; congruence.
Qed.

(** What a dry run ends with, given the first load of the real one. *)
Definition dry_run (load : option (result Serving)) (o : Outcome) : Prop :=
  match load with
  | Some (Ok _) => o = LoadOk
  | Some (Err e) => ∃ e', e = EWrap "failed to load policy state: " e' ∧ o = FatalError e'
  | None => o = Panicked
  end.

(** What loading can end with. *)
Definition of_load (o : Outcome) : bool :=
  match o with LoadOk | FatalError _ | Panicked => true | _ => false end.

Section facts.
  Context `{Jose, CelLibs, Cidranger, Ed25519} {Y : Type} `{Outside Y, ActionLibs Y} (fuel : nat) (host : Host (Y:=Y)).

(** Lines that differ by a check flag in front. *)
Lemma Parse_check fs args :
  fs !! "check" = Some (VBool false) → Forall (λ s, mentions "check" s = false) args →
  GoFlag.Parse fs ("-check" :: args) = map_flags <["check" := VBool true]> (GoFlag.Parse fs args) ∧
  GoFlag.Parse fs args = map_flags <["check" := VBool false]> (GoFlag.Parse fs args).
Proof.
  intros Hc Hm. split.
  - rewrite <-(Parse_unmentioned (length args)) by eauto.
    apply (Parse_spelling fs "check" "true" ["-check"] (VBool false) args); [done|done|]. apply (spell_true _ _ _ "-"); [by left|done..].
  - rewrite <-(Parse_unmentioned (length args)) by eauto. by rewrite insert_id.
Qed.

Lemma main_flags_check fs opt :
  let o := main_flags fuel host (<["check" := VBool true]> fs) opt in
  match main_flags fuel host (<["check" := VBool false]> fs) opt with
  | Runs r => dry_run (ru_load r) o
  | SeedPrinted => o = SeedPrinted
  | FatalError e => o = FatalError e ∨ ∃ e', e = EWrap "failed to create server: " e' ∧ of_load o = true
  | Panicked => o = Panicked
  | ListenerPanic _ => of_load o = true
  | BadFlags _ | LoadOk => False
  end.
Proof.
  cbv zeta. unfold main_flags. rewrite !flag_string_insert by done.
  destruct (check_flag (ho_Getenv host) fs opt false) as [-> ->]. destruct (check_flag (ho_Getenv host) fs opt true) as [-> ->].
  set (flags := flag_values _ fs). cbn [set_fl_check fl_check fl_snippets fl_path].
  change (setup (ho_ReadFile host) (ho_Unmarshal host) (ho_MkdirAll host) (ho_disk host) (ho_range host)
    (set_fl_check true flags)) with (setup (ho_ReadFile host) (ho_Unmarshal host) (ho_MkdirAll host) (ho_disk host)
    (ho_range host) (set_fl_check false flags)).
  destruct (setup _ _ _ _ _ _ _) as [e| | |su]; [by left|done|done|].
  set (o := match check _ _ _ _ _ _ _ _ with None => _ | Some _ => _ end).
  assert (Ho : of_load o = true) by (subst o; by repeat case_match).
  destruct (Bind_Listener _ _) as [[l|e] calls]; [|done].
  destruct (Bind_Server _ _ _ _) as [[server first]|e]; [|right; by eexists].
  cbn [ru_load]. clear Ho. subst o. unfold state_settings. cbn [fl_clientIpHeader set_fl_check].
  pose proof (check_first_load (Y:=Y) fuel (fl_snippets flags) (ms_opt (su_settings su))
    (mkStateSettings (ho_handler host <$> su_backends su) (bi_MainPath (init (ho_info host))) (bi_MainVersion (init (ho_info host)))
       (fl_clientIpHeader flags) (su_backendIpHeader su) (ms_ChallengeHttpCode (su_settings su))) (fl_path flags) (su_cache su)
    (load_env host (flag_string fs "policy")) (su_seed su)) as Hc.
  unfold dry_run. destruct (first_load _ _ _ _ _ _ _ _) as [[sv|e]|]; [by rewrite Hc| |by rewrite Hc].
  destruct Hc as (e' & -> & ->). by exists e'.
Qed.

End facts.

(** * Properties *)

(** C9: A dry run is true to the real one, for a command line that does not set the check
    flag otherwise. Where the flags, the settings, the seed, the backends or the cache end
    the program, it ends in the same way with [-check]. Where it comes to serve, the dry
    run finds the configuration in order if the first load succeeds, ends with the
    error that load ends the program with if it fails, and panics if it panics. Only the
    listener and the server's certificates are not tried: where one of these fails the
    program, the dry run ends as loading the policy does. *)
Theorem check_agrees `{Jose, CelLibs, Cidranger, Ed25519} {Y : Type} `{Outside Y, ActionLibs Y} (fuel : nat)
    (host : Host (Y:=Y)) (args : list string) (Hm : Forall (λ s, mentions "check" s = false) args) :
  let o := main fuel host ("-check" :: args) in
  match main fuel host args with
  | BadFlags e => o = BadFlags e
  | SeedPrinted => o = SeedPrinted
  | Panicked => o = Panicked
  | FatalError e => o = FatalError e ∨ ∃ e', e = EWrap "failed to create server: " e' ∧ of_load o = true
  | ListenerPanic _ => of_load o = true
  | Runs r =>
      match ru_load r with
      | Some (Ok _) => o = LoadOk
      | Some (Err e) => ∃ e', e = EWrap "failed to load policy state: " e' ∧ o = FatalError e'
      | None => o = Panicked
      end
  | LoadOk => False
  end.
Proof.
  cbv zeta. unfold main. set (fs := command_line _ _ _).
  destruct (Parse_check fs args) as [-> Hf]; [reflexivity|done|].
  destruct (GoFlag.Parse fs args) as [fs' rest|e]; [|done]. cbn [map_flags] in *. injection Hf as Hf.
  pose proof (main_flags_check fuel host fs' DefaultSettings) as Hc. rewrite <-Hf in Hc.
  by destruct (main_flags fuel host fs' DefaultSettings).
Qed.

(** The values a command line gives to a flag. *)
Definition values_of (name : string) (sets : list (string * string)) : list string :=
  snd <$> filter (λ nv : string * string, nv.1 = name) sets.

(** C20: What the command line says is what the program goes on with: for any sequence of the
    flags it has, each spelled with one or two dashes, with an equals sign or the value as
    the next argument, each variable holds what its flag was last given, or its default;
    the lists, of backends and of snippet directories, hold all that was given, in order.
    The flags may end with the line, at a double dash or before a word that is none, and
    nothing behind their end matters. *)
Theorem flags_read `{Jose, CelLibs, Cidranger, Ed25519} {Y : Type} `{Outside Y, ActionLibs Y} (fuel : nat)
    (host : Host (Y:=Y)) (sets : list (string * string)) (pieces : list (list string)) (rest : list string)
    (Hend : flags_end rest = true) :
  let cl := command_line (ho_TempDir host) (init (ho_info host)) DefaultSettings in
  spelled cl sets pieces → Forall (accepted cl) sets →
  ∃ fs, main fuel host (concat pieces ++ rest) = main_flags fuel host fs DefaultSettings ∧
    ∀ name, match cl !! name with
            | Some (VString dflt) => flag_string fs name = default dflt (last (values_of name sets))
            | Some (VBool dflt) => flag_bool fs name = last_value ParseBool dflt (values_of name sets)
            | Some (VInt dflt) => flag_int fs name = last_value ParseInt0 dflt (values_of name sets)
            | Some (VMulti dflt) => flag_multi fs name = dflt ++ values_of name sets
            | Some (VUint64 _) => False
            | None => True
            end.
Proof.
  intros cl Hsp Hacc. destruct (assign_accepted sets cl Hacc) as [fs Ha]. exists fs.
  destruct (flags_end_stops fs rest Hend) as [left_ Hstop].
  pose proof (Parse_complete cl sets pieces fs _ _ Hsp Ha Hstop) as Hp. split.
  - unfold main. fold cl. by rewrite Hp.
  - intros name. pose proof (assign_lookup _ _ _ Ha name) as Hl. fold (values_of name sets) in Hl.
    assert (Hsome : ∀ v, cl !! name = Some v → ∃ v', fs !! name = Some v' ∧ assign_value v (values_of name sets) = Some v').
    { intros v Hv. rewrite Hv in Hl. cbn [mbind option_bind] in Hl. assert (Hd : name ∈ dom fs).
      { apply (assign_dom _ _ _ Ha). by eapply elem_of_dom_2. }
      apply elem_of_dom in Hd as [v' Hv']. exists v'. split; [done|]. congruence. }
    destruct (cl !! name) as [v|] eqn:Hv; [|done]. destruct (Hsome v eq_refl) as (v' & Hfs & Hval).
    unfold flag_string, flag_bool, flag_int, flag_multi. rewrite Hfs. destruct v as [d|d|d|d|d].
    + pose proof (assign_value_last VString Ok d _ v' (λ _ _, eq_refl) Hval) as ->. unfold last_value. by destruct (last _).
    + by pose proof (assign_value_last VBool ParseBool d _ v' (λ _ _, eq_refl) Hval) as ->.
    + by pose proof (assign_value_last VInt ParseInt0 d _ v' (λ _ _, eq_refl) Hval) as ->.
    + by apply (no_uint64 (ho_TempDir host) (init (ho_info host)) name d).
    + rewrite assign_value_multi in Hval. by injection Hval as <-.
Qed.

(** A host with a policy and the seed in the environment. *)
Definition demo_host (policy : result string) : Host (Y:=unit) := mkHost
  (Some (mkBuildInfo "go-away" "git.gammaspectra.live/git/go-away" "v1")) "/tmp"
  (λ name, if bool_decide (name = "JWT_PRIVATE_KEY_SEED") then EncodeToString demo_seed else "")
  (λ _, policy) (λ _ opt, Ok opt) (λ _ disk, Ok disk) ∅ map_to_list
  (mkListenOS (λ _ _, None) (λ _ _, None)) (λ _, None) (λ _ _, None)
  (mkPolicyLibs (λ _, Ok []) (λ _, Err (ENew "no file")) (λ _ _ _, Ok demo_gate_policy)) demo_build (λ _, demo_backend).

Definition demo_args_line : list string := ["-cache="; "--backend"; "example.org=http://backend/"; "-policy=policy.yml"].

Lemma demo_runs_load :
  match main (H1:=list_ranger) (Y:=unit) 2 (demo_host (Ok "policy")) demo_args_line with
  | Runs r => match ru_load r with Some (Ok _) => true | _ => false end
  | _ => false
  end = true.
Proof. vm_compute. reflexivity. Qed.

Lemma check_agrees_witness : main (H1:=list_ranger) (Y:=unit) 2 (demo_host (Ok "policy")) ("-check" :: demo_args_line) = LoadOk.
Proof.
  pose proof (check_agrees (H1:=list_ranger) (Y:=unit) 2 (demo_host (Ok "policy")) demo_args_line ltac:(by repeat constructor)) as Hc.
  pose proof demo_runs_load as Hr. destruct (main 2 _ demo_args_line) as [| | | | | |r]; [discriminate Hr..|].
  destruct (ru_load r) as [[sv|]|]; [exact Hc|discriminate Hr..].
Defined.

Lemma flags_read_witness :
  ∃ fs, main (H1:=list_ranger) (Y:=unit) 2 (demo_host (Ok "policy"))
      ["--backend"; "a=b"; "-bind=:1"; "-check"; "-backend=c=d"; "--challenge-http-code"; "0x1A2"; "-bind"; ":2"] =
      main_flags (H1:=list_ranger) (Y:=unit) 2 (demo_host (Ok "policy")) fs DefaultSettings ∧
    flag_multi fs "backend" = ["a=b"; "c=d"] ∧ flag_string fs "bind" = ":2" ∧ flag_bool fs "check" = true ∧
    flag_int fs "challenge-http-code" = 418%Z ∧ flag_string fs "slog-level" = "WARN".
Proof.
  destruct (flags_read (H1:=list_ranger) (Y:=unit) 2 (demo_host (Ok "policy"))
    [("backend", "a=b"); ("bind", ":1"); ("check", "true"); ("backend", "c=d"); ("challenge-http-code", "0x1A2"); ("bind", ":2")]
    [["--backend"; "a=b"]; ["-bind=:1"]; ["-check"]; ["-backend=c=d"]; ["--challenge-http-code"; "0x1A2"]; ["-bind"; ":2"]] [] eq_refl)
    as (fs & Hm & Hv).
  - repeat (apply Forall2_cons; split; [split; [done|]|]); [..|apply Forall2_nil; done].
    + apply (spell_next false "backend" "a=b" "--"); [by right; left|done].
    + apply (spell_eq false "bind" ":1" "-"); by left.
    + apply (spell_true true "check" "true" "-"); [by left|done..].
    + apply (spell_eq false "backend" "c=d" "-"); by left.
    + apply (spell_next false "challenge-http-code" "0x1A2" "--"); [by right; left|done].
    + apply (spell_next false "bind" ":2" "-"); [by left|done].
  - repeat (apply Forall_cons; split; [eexists; split; [reflexivity|reflexivity]|]). by apply Forall_nil.
  - exists fs. split; [exact Hm|]. split; [exact (Hv "backend")|]. split; [exact (Hv "bind")|]. split; [exact (Hv "check")|].
    split; [exact (Hv "challenge-http-code")|]. exact (Hv "slog-level").
Defined.

(** A boolean flag takes no argument of its own: the one behind it ends the flags, and what
    follows is neither read nor reported. *)
Example flags_end_silently :
  let cl := command_line "/tmp" (init None) DefaultSettings in
  match GoFlag.Parse cl ["-check"; "true"; "-policy"; "policy.yml"] with
  | Args fs rest => flag_bool fs "check" = true ∧ flag_string fs "policy" = "" ∧ rest = ["true"; "-policy"; "policy.yml"]
  | Failed _ => False
  end ∧
  match GoFlag.Parse cl ["-challenge-http-code=0x1A2"; "--backend"; "a=b"; "-backend=c=d"; "-bind-proxy"; "--"; "-x"] with
  | Args fs rest => flag_int fs "challenge-http-code" = 418%Z ∧ flag_multi fs "backend" = ["a=b"; "c=d"] ∧
      flag_bool fs "bind-proxy" = true ∧ rest = ["-x"]
  | Failed _ => False
  end ∧
  GoFlag.Parse cl ["-challenge-http-code=teapot"] = Failed (InvalidValue "challenge-http-code" "teapot" errParse) ∧
  GoFlag.Parse cl ["-h"] = Failed ErrHelp.
Proof. vm_compute. repeat split. Qed.

(** The value of a backend is cut at every equals sign, so that the program does not start
    with a backend whose URL has a query. *)
Example backend_query_fatal :
  match main (H1:=list_ranger) (Y:=unit) 2 (demo_host (Ok "policy")) ["-cache="; "-backend=example.org=http://backend/?a=b"] with
  | FatalError _ => True
  | _ => False
  end.
Proof. vm_compute. exact I. Qed.
