(* ===== verification/Handshake.v ===== *)
(** The challenge handshake end to end: a client follows the verify URL a challenge
    gave it, and the verify handler answers with a redirect to the page it asked for
    and the state cookie that passes the challenge from then on. *)

From S2P Require Import Prelude GoStrings GoCrypto GoTime NetAddr GoURL Mime Hex UtilsHttp.
From S2P Require Import Types Cookie Register State Key Data ResponsePolicy Pages Effects.
From S2P Require Import Helper JoseDemo HelperProps DataProps Mux Rule Runtimes Routes Dispatch.
From stdpp Require Import options.

Local Open Scope handler_scope.

(** * Answers on a fresh writer *)

(** The policy writer before anything is written. *)
Definition fresh (rw : ResponseWriter) : Prop :=
  w_Policy rw = true ∧ w_wroteHeader rw = false ∧ w_Hijacked rw = false ∧ w_Final rw = None.

Lemma fresh_upd_header f rw : fresh rw → fresh (upd_w_Header f rw).
Proof. by destruct rw. Qed.

Lemma upd_w_Header_eq f rw : w_Header (upd_w_Header f rw) = f (w_Header rw).
Proof. by destruct rw. Qed.

Lemma policy_apply_redirect d r h : policy_apply d r 307 h = h.
Proof.
  unfold policy_apply. destruct (negb (HasAnyValidChallenge d)); [done|].
  unfold isImmutableMediaResponse. by destruct (_ && _).
Qed.

(** What the rest of a handler cannot undo: the status and the headers it was sent with. *)
Definition answered (code : Z) (h : MIMEHeader) (w : World) : Prop :=
  w_Policy (wd_W w) = true ∧ w_wroteHeader (wd_W w) = true ∧ w_Final (wd_W w) = Some (code, h).

Lemma policy_WriteHeader_fresh w :
  fresh (wd_W w) →
  ∃ w', w_WriteHeader 307 w = Ret () w' ∧ answered 307 (w_Header (wd_W w)) w' ∧ wd_Data w' = wd_Data w.
Proof.
  destruct w as [d r [] ? ? ? ? ? ? ?]. intros (Hp & Hw & Hh & Hf). cbn in *. subst.
  eexists. split; [unfold w_WriteHeader, bind, get_w; cbn; reflexivity|].
  cbn. by rewrite policy_apply_redirect.
Qed.

Lemma w_Write_answered code h data w :
  answered code h w → ∃ w', w_Write data w = Ret () w' ∧ answered code h w' ∧ wd_Data w' = wd_Data w.
Proof.
  destruct w as [d r [] ? ? ? ? ? ? ?]. intros (Hp & Hw & Hf). cbn in *. subst.
  unfold w_Write, policy_Write, base_Write, bind, get_w, ret. cbn.
  destruct (_ || _); eexists; split; try reflexivity; by cbn.
Qed.

Lemma http_Redirect_fresh url w :
  fresh (wd_W w) →
  ∃ w' h, http_Redirect url 307 w = Ret () w' ∧ answered 307 h w' ∧ wd_Data w' = wd_Data w ∧
    hdr_Values h "Location" = [hexEscapeNonASCII (redirect_location (Path (rq_URL (wd_Req w))) url)] ∧
    hdr_Values h "Set-Cookie" = hdr_Values (w_Header (wd_W w)) "Set-Cookie".
Proof.
  intros Hf. unfold http_Redirect. rewrite bind_run. cbn [get_req]. rewrite bind_run. cbn [get_w].
  set (loc := redirect_location _ _). set (hadCT := bool_decide _).
  rewrite bind_run. cbn [w_Set upd_w]. set (w1 := with_w _ w).
  assert (Hf1 : fresh (wd_W w1)) by (by apply fresh_upd_header).
  rewrite bind_run. set (m := if _ : bool then _ else _).
  assert (∃ w2, m w1 = Ret () w2 ∧ fresh (wd_W w2) ∧ wd_Data w2 = wd_Data w ∧
    ∀ k, CanonicalMIMEHeaderKey "Content-Type" ≠ CanonicalMIMEHeaderKey k →
      hdr_Values (w_Header (wd_W w2)) k = hdr_Values (w_Header (wd_W w1)) k) as (w2 & -> & Hf2 & Hd2 & Hh2).
  { subst m. destruct (_ && _); [|by exists w1]. eexists. split; [reflexivity|].
    cbn [with_w wd_W wd_Data].
    split; [by apply fresh_upd_header|]. split; [done|]. intros k Hk.
    rewrite upd_w_Header_eq, hdr_Values_Set. by rewrite decide_False. }
  rewrite bind_run. destruct (policy_WriteHeader_fresh w2 Hf2) as (w3 & -> & Ha & Hd3).
  assert (Hv : ∀ k, hdr_Values (w_Header (wd_W w1)) k =
    hdr_Values (hdr_Set (w_Header (wd_W w)) "Location" (hexEscapeNonASCII loc)) k).
  { intros k. subst w1. cbn [with_w wd_W]. by rewrite upd_w_Header_eq. }
  assert (Hend : ∀ w', wd_Data w' = wd_Data w → answered 307 (w_Header (wd_W w2)) w' →
    answered 307 (w_Header (wd_W w2)) w' ∧ wd_Data w' = wd_Data w ∧
    hdr_Values (w_Header (wd_W w2)) "Location" = [hexEscapeNonASCII loc] ∧
    hdr_Values (w_Header (wd_W w2)) "Set-Cookie" = hdr_Values (w_Header (wd_W w)) "Set-Cookie").
  { intros w' Hd' Ha'. do 2 (split; [done|]).
    rewrite !Hh2, !Hv, !hdr_Values_Set by (by vm_compute).
    rewrite decide_True, decide_False; [done|by vm_compute|done]. }
  destruct (negb hadCT && bool_decide (rq_Method (wd_Req w) = "GET")).
  - match goal with |- context [w_Write ?x w3] =>
      destruct (w_Write_answered _ _ x _ Ha) as (w4 & -> & Ha4 & Hd4) end.
    exists w4, (w_Header (wd_W w2)). split; [done|]. apply Hend; [congruence|done].
  - exists w3, (w_Header (wd_W w2)). split; [done|]. apply Hend; [congruence|done].
Qed.

(** * The state cookie *)

Definition token_text (c : ascii) : bool := is_alnum c || one_of "-_." c.

Lemma token_text_valid : ∀ c, token_text c = true →
  validCookieValueByte c = true ∧ c ≠ " "%char ∧ c ≠ ","%char.
Proof. by_all_bytes. Qed.

Lemma sanitize_text s : string_forallb token_text s = true → sanitizeCookieValue s = s.
Proof.
  intros Hs.
  assert (string_filter validCookieValueByte s = s ∧ ContainsByte s " " = false ∧ ContainsByte s "," = false)
    as (Hf & Hsp & Hco).
  { induction s as [|c s IH]; [done|]. rewrite string_forallb_cons in Hs.
    apply andb_true_iff in Hs as [Hc Hs]. destruct (token_text_valid c Hc) as (Hv & H1 & H2).
    destruct (IH Hs) as (IH1 & IH2 & IH3). cbn [string_filter]. rewrite Hv, IH1.
    rewrite !ContainsByte_cons, IH2, IH3. by rewrite !bool_decide_eq_false_2. }
  unfold sanitizeCookieValue. rewrite Hf. case_bool_decide; [done|]. by rewrite Hsp, Hco.
Qed.

Lemma SetCookie_line name s expiry host h :
  isToken name = true → string_forallb token_text s = true →
  ∃ rest, hdr_Values (SetCookie name s expiry host h) "Set-Cookie" =
    hdr_Values h "Set-Cookie" ++ [name +:+ "=" +:+ s +:+ rest] ∧ HasPrefix rest "; Path=/" = true.
Proof.
  intros Hn Hs. unfold SetCookie, http_SetCookie, HTTPCookie_String.
  cbn [hc_Name hc_Value hc_Path state_cookie]. rewrite Hn, sanitize_text by done. cbn [negb].
  eexists. rewrite bool_decide_eq_false_2.
  - rewrite hdr_Values_Add, decide_True by done. split; [reflexivity|].
    rewrite bool_decide_eq_false_2 by done.
    replace (sanitizeCookiePath "/") with "/" by (vm_compute; reflexivity).
    apply (HasPrefix_app "; Path=/").
  - destruct name; [|done]. by vm_compute in Hn.
Qed.

Section cookie.
  Context `{Jose} (st : State).

(** The part of [ResponseHeaders] before the cookie changes no cookie header. *)
Lemma via_run (w : World) :
  fresh (wd_W w) →
  ∃ w', (let s := st_settings st in
         if negb (bool_decide (ss_MainName s = ""))
         then w_Add "Via" (rq_Proto (wd_Req w) +:+ " " +:+ ss_MainName s +:+ "@" +:+ ss_MainVersion s)
         else ret ()) w = Ret () w' ∧ fresh (wd_W w') ∧ wd_Data w' = wd_Data w ∧ wd_Req w' = wd_Req w ∧
    wd_clock w' = wd_clock w ∧
    hdr_Values (w_Header (wd_W w')) "Set-Cookie" = hdr_Values (w_Header (wd_W w)) "Set-Cookie".
Proof.
  intros Hf. cbv zeta. destruct (negb _); [|by exists w]. eexists. split; [reflexivity|].
  cbn [with_w wd_W wd_Data wd_Req wd_clock]. split; [by apply fresh_upd_header|]. do 3 (split; [done|]).
  rewrite upd_w_Header_eq, hdr_Values_Add. by rewrite decide_False by (by vm_compute).
Qed.

Lemma issueChallengeState_run `{!JoseLaws priv pub} until w m :
  st_privateKey st = priv → rd_ChallengeMap (wd_Data w) = Some m →
  ∃ w' s issued iat, issueChallengeState st until w = Ret (Ok s) w' ∧ wd_W w' = wd_W w ∧
    wd_Data w' = wd_Data w ∧ wd_Req w' = wd_Req w ∧ reading w issued ∧
    jose_Serialize priv (cookieKey st (rq_Host (wd_Req w)) (wd_Data w))
      (mkToken (Some m) (Time_Unix until) (Time_Unix (Time_AddDays issued (-1))) iat) = Ok s.
Proof.
  intros Hpriv Hm. unfold issueChallengeState. rewrite Hpriv, law_signer.
  rewrite bind_run. cbn [get_data]. rewrite bind_run. cbn [get_req].
  rewrite law_encrypter by apply cookieKey_length. unfold bind, now, ret. cbn beta iota. rewrite Hm.
  match goal with |- context [jose_Serialize _ ?k ?t] =>
    pose proof (law_serialize k t (cookieKey_length _ _ _)) as Hs end.
  destruct (jose_Serialize _ _ _) as [s|] eqn:Hser; [|done].
  do 4 eexists. split; [reflexivity|]. cbn. do 3 (split; [done|]). split; [by eexists|exact Hser].
Qed.

Lemma ResponseHeaders_fresh `{!JoseLaws priv pub} w m :
  st_privateKey st = priv → rd_ChallengeMap (wd_Data w) = Some m →
  rd_challengeMapModified (wd_Data w) = true → isToken (rd_cookieName (wd_Data w)) = true → fresh (wd_W w) →
  ∃ w' s issued iat rest, ResponseHeaders st w = Ret () w' ∧ fresh (wd_W w') ∧ wd_Req w' = wd_Req w ∧
    wd_Data w' = set_broadVary true (wd_Data w) ∧ reading w issued ∧
    hdr_Values (w_Header (wd_W w')) "Set-Cookie" =
      hdr_Values (w_Header (wd_W w)) "Set-Cookie" ++ [rd_cookieName (wd_Data w) +:+ "=" +:+ s +:+ rest] ∧
    HasPrefix rest "; Path=/" = true ∧
    jose_Serialize priv (cookieKey st (rq_Host (wd_Req w)) (wd_Data w))
      (mkToken (Some m) (Time_Unix (Expiration (wd_Data w) DefaultDuration))
        (Time_Unix (Time_AddDays issued (-1))) iat) = Ok s.
Proof.
  intros Hpriv Hm Hmod Htok Hf. unfold ResponseHeaders, applyBroadVary.
  rewrite bind_run, bind_run. cbn [upd_data w_Set upd_w]. set (d1 := set_broadVary true (wd_Data w)).
  set (w1 := with_w _ (with_data d1 w)).
  assert (Hd1 : rd_ChallengeMap d1 = Some m ∧ rd_challengeMapModified d1 = true ∧
    rd_cookieName d1 = rd_cookieName (wd_Data w) ∧ NetworkPrefix d1 = NetworkPrefix (wd_Data w) ∧
    (∀ dur, Expiration d1 dur = Expiration (wd_Data w) dur)).
  { subst d1. clear -Hm Hmod. by destruct (wd_Data w). }
  destruct Hd1 as (Hm1 & Hmod1 & Hn1 & Hnet1 & Hx1).
  rewrite bind_run. cbn [get_req]. rewrite bind_run.
  destruct (via_run w1) as (w2 & Hvia & Hf2 & Hd2 & Hr2 & Hc2 & Hh2); [by apply fresh_upd_header|].
  cbv zeta in Hvia |- *. rewrite Hvia.
  rewrite bind_run. cbn [get_data]. rewrite Hd2. change (wd_Data w1) with d1 in *. rewrite Hmod1.
  rewrite bind_run.
  destruct (issueChallengeState_run (Expiration d1 DefaultDuration) w2 m Hpriv) as
    (w3 & s & issued & iat & -> & Hw3 & Hd3 & Hr3 & Hread & Hser); [by rewrite Hd2|].
  destruct (SetCookie_line (rd_cookieName d1) s (Expiration d1 DefaultDuration) (rq_Host (wd_Req w1))
    (w_Header (wd_W w3))) as (rest & Hline & Hrest).
  { by rewrite Hn1. }
  { by eapply law_text. }
  exists (with_w (upd_w_Header (SetCookie (rd_cookieName d1) s (Expiration d1 DefaultDuration)
    (rq_Host (wd_Req w1))) (wd_W w3)) w3), s, issued, iat, rest.
  split; [reflexivity|]. cbn [with_w wd_W wd_Data wd_Req].
  split; [apply fresh_upd_header; by rewrite Hw3|]. split; [by rewrite Hr3, Hr2|].
  split; [by rewrite Hd3, Hd2|]. split.
  { destruct Hread as [n Hn]. exists n. by rewrite Hc2 in Hn. }
  rewrite upd_w_Header_eq, Hline, Hw3, Hh2, Hn1. split.
  { f_equal. subst w1. cbn [with_w wd_W with_data]. rewrite upd_w_Header_eq, hdr_Values_Set.
    by rewrite decide_False by (by vm_compute). }
  split; [done|]. rewrite <-Hser, Hr2, Hd2, Hx1. f_equal.
  by apply cookieKey_network.
Qed.

End cookie.

(** * The handshake *)

Lemma ChallengePassed_run reg redirect w :
  ∃ w', ChallengePassed reg redirect w = Ret () w' ∧ wd_Data w' = wd_Data w ∧ wd_W w' = wd_W w ∧
    wd_Req w' = wd_Req w ∧ wd_clock w' = wd_clock w.
Proof. eexists. split; [reflexivity|]. by cbn. Qed.

(** The handler on a request whose token its verifier accepts. *)
Lemma verify_handler_run `{JoseLaws priv pub} (st : State) reg verify w m id redirect token :
  st_privateKey st = priv → reg_Verify reg = Some verify →
  rd_ChallengeMap (wd_Data w) = Some m → isToken (rd_cookieName (wd_Data w)) = true → fresh (wd_W w) →
  GetVerifyInformation (wd_Req w) reg = Ok (id, redirect, token) →
  let d := wd_Data w in
  let key := GetChallengeKeyForRequest st reg (Expiration d (reg_Duration reg)) d (wd_Req w) in
  verify key token (wd_Req w) = (VerifyResultOK, None) →
  ∃ w' h s issued iat iat' rest, VerifyHandlerFunc st reg None None w = Ret () w' ∧ answered 307 h w' ∧
    hdr_Values h "Location" = [hexEscapeNonASCII (redirect_location (Path (rq_URL (wd_Req w))) redirect)] ∧
    hdr_Values h "Set-Cookie" =
      hdr_Values (w_Header (wd_W w)) "Set-Cookie" ++ [rd_cookieName d +:+ "=" +:+ s +:+ rest] ∧
    HasPrefix rest "; Path=/" = true ∧ reading w issued ∧
    jose_Serialize priv (cookieKey st (rq_Host (wd_Req w)) d)
      (mkToken (Some (<[reg_Name reg :=
          mkTokenChallenge key token true (Time_Unix (Expiration d (reg_Duration reg))) 0 iat]> m))
        (Time_Unix (Expiration d DefaultDuration)) (Time_Unix (Time_AddDays issued (-1))) iat') = Ok s.
Proof.
  intros Hpriv Hver Hm Htok Hf Hg d key Hv.
  unfold VerifyHandlerFunc. cbn [from_option]. rewrite bind_run. cbn [get_req]. rewrite Hg, Hver.
  rewrite bind_run. cbn [upd_data]. set (w1 := with_data _ w).
  assert (Hd1 : GetChallengeKeyForRequest st reg (Expiration (wd_Data w1) (reg_Duration reg))
      (wd_Data w1) (wd_Req w1) = key ∧
    (∀ dur, Expiration (wd_Data w1) dur = Expiration d dur) ∧ rd_ChallengeMap (wd_Data w1) = Some m ∧
    rd_cookieName (wd_Data w1) = rd_cookieName d ∧ NetworkPrefix (wd_Data w1) = NetworkPrefix d).
  { subst w1 key d. cbn [wd_Data wd_Req with_data]. rewrite challenge_key_id. by destruct (wd_Data w). }
  destruct Hd1 as (Hk1 & Hx1 & Hm1 & Hn1 & Hnet1).
  unfold verify_and_issue. rewrite bind_run, bind_run. cbn [get_data]. rewrite bind_run. cbn [get_req].
  rewrite Hk1. change (wd_Req w1) with (wd_Req w). rewrite Hv. cbn [VerifyResult_Ok negb].
  change (negb (VerifyResult_Ok VerifyResultOK)) with false. cbn iota. rewrite bind_run.
  pose proof (issue_token_run reg key token (Expiration (wd_Data w1) (reg_Duration reg)) w1) as Hi.
  rewrite Hm1 in Hi. destruct Hi as (w2 & iat & -> & Hr2 & Hw2 & Hc2 & Hd2).
  rewrite bind_run. cbn [upd_data]. set (w3 := with_data _ w2). rewrite bind_run.
  destruct (ChallengePassed_run reg redirect w3) as (w4 & -> & Hd4 & Hw4 & Hr4 & Hc4).
  rewrite bind_run. unfold VerifyHandlerChallengeResponseFunc.
  change (negb (VerifyResult_Ok VerifyResultOK)) with false. cbn iota. rewrite bind_run.
  set (m' := <[reg_Name reg := _]> m) in *.
  assert (Hd4' : rd_ChallengeMap (wd_Data w4) = Some m' ∧ rd_challengeMapModified (wd_Data w4) = true ∧
    rd_cookieName (wd_Data w4) = rd_cookieName d ∧ NetworkPrefix (wd_Data w4) = NetworkPrefix d ∧
    (∀ dur, Expiration (wd_Data w4) dur = Expiration d dur)).
  { rewrite Hd4. subst w3. cbn [wd_Data with_data]. rewrite Hd2, <-Hn1, <-Hnet1.
    setoid_rewrite <-Hx1. by destruct (wd_Data w1). }
  destruct Hd4' as (Hm4 & Hmod4 & Hn4 & Hnet4 & Hx4).
  destruct (ResponseHeaders_fresh (priv := priv) (pub := pub) st w4 m') as
    (w5 & s & issued & iat' & rest & -> & Hf5 & Hr5 & Hd5 & Hread & Hh5 & Hrest & Hser);
    [done|done|done|by rewrite Hn4| |].
  { rewrite Hw4. change (wd_W w3) with (wd_W w2). by rewrite Hw2. }
  destruct (http_Redirect_fresh redirect w5 Hf5) as (w6 & h & -> & Ha & Hd6 & Hloc & Hck).
  assert (Hreq : wd_Req w4 = wd_Req w) by (rewrite Hr4; exact Hr2).
  exists w6, h, s, issued, iat, iat', rest. split; [reflexivity|]. split; [done|].
  split; [by rewrite Hloc, Hr5, Hreq|]. split; [by rewrite Hck, Hh5, Hw4, Hn4; change (wd_W w3) with (wd_W w2); rewrite Hw2|].
  split; [done|]. split.
  { destruct Hread as [n <-]. exists n. rewrite Hc4. change (wd_clock w3) with (wd_clock w2). by rewrite Hc2. }
  rewrite <-Hser, Hreq, (cookieKey_network st _ _ _ Hnet4). subst m'. by rewrite Hx4, Hx1.
Qed.

Definition challenge_key (st : State) (reg : Registration) (w : World) : Key :=
  GetChallengeKeyForRequest st reg (Expiration (wd_Data w) (reg_Duration reg)) (wd_Data w) (wd_Req w).

Lemma challenge_key_length st reg w : String.length (challenge_key st reg w) = KeySize.
Proof. apply getChallengeKey_length. Qed.

(** A client that requested a page in [w0] was given the verify URL [u] by a
    challenge verified by keys, and its query does not meddle with the proxy's
    arguments; [redirect] is the page with the proxy's arguments, after the redirect
    check. In [w] the client follows the URL: it has the same key, and nothing is
    written yet. *)
Record follows (st : State) (reg : Registration) (w0 w : World) (u : URL) (redirect : string)
    (m : gmap string TokenChallenge) : Prop := {
  fo_verify : reg_Verify reg = Some key_verify;
  fo_id : String.length (rd_Id (wd_Data w0)) = RequestIdSize;
  fo_plain : plain_args (RawQuery (rq_URL (wd_Req w0)));
  fo_url : value_of (VerifyUrl reg (key_issue (challenge_key st reg w0)) w0) = Some (Ok u);
  fo_redirect : (redirectUrl <-? RedirectUrl (wd_Data w0) (wd_Req w0) reg;
    EnsureNoOpenRedirect (URL_String redirectUrl))%go = Ok redirect;
  fo_query : RawQuery (rq_URL (wd_Req w)) = RawQuery u;
  fo_key : challenge_key st reg w = challenge_key st reg w0;
  fo_map : rd_ChallengeMap (wd_Data w) = Some m;
  fo_ascii : ascii_names (<[reg_Name reg := mkTokenChallenge "" "" true 0 0 0]> m);
  fo_cookie : isToken (rd_cookieName (wd_Data w)) = true;
  fo_fresh : fresh (wd_W w) }.

(** C5: The handshake of a key challenge completes. A client that follows the verify
    URL of its challenge with its key unchanged is redirected to the page it asked
    for, with a cookie; and every later request of the client that returns the
    cookie in time, from the same network and with the same key, has the challenge
    marked as passed. In a server with plain paths that has the challenge the request for
    the verify URL gets there, whatever its rules. *)
Theorem handshake `{JoseLaws priv pub} (st : State) (regs : list Registration) (reg : Registration)
    (w0 w : World) (u : URL) (redirect : string) (m : gmap string TokenChallenge)
    (Hpriv : st_privateKey st = priv) (Hpub : st_publicKey st = pub)
    (Hid : NoDup (reg_id <$> regs)) (Hname : NoDup (reg_Name <$> regs)) (Hin : reg ∈ regs)
    (Hfollows : follows st reg w0 w u redirect m) :
  ∃ w' h s issued rest, VerifyHandlerFunc st reg None None w = Ret () w' ∧
    w_Final (wd_W w') = Some (307%Z, h) ∧
    hdr_Values h "Location" = [hexEscapeNonASCII (redirect_location (Path (rq_URL (wd_Req w))) redirect)] ∧
    hdr_Values h "Set-Cookie" = hdr_Values (w_Header (wd_W w)) "Set-Cookie" ++
      [rd_cookieName (wd_Data w) +:+ "=" +:+ s +:+ "; Path=/" +:+ rest] ∧ reading w issued ∧
    (∀ w2, returning st reg (wd_Data w) (rq_Host (wd_Req w)) issued w2
        (challenge_key st reg w) (key_issue (challenge_key st reg w)) s →
      ∃ w3, EvaluateChallenges st regs w2 = Ret () w3 ∧
        HasValidChallenge (wd_Data w3) (reg_id reg) = true) ∧
    ∀ rules assets base id, plain_server st base → st_challenges st !! id = Some reg → reg_Handler reg = None →
      rq_Method (wd_Req w) ≠ "CONNECT" → rq_URL (wd_Req w) = u → state_mux st rules assets w = Ret () w'.
Proof.
  destruct Hfollows as [Hver Hsize Hplain Hu Hred Hq Hkey Hm Hascii Htok Hf].
  destruct (VerifyUrl _ _ w0) as [[u'|] w0'|] eqn:Hurl; try done. cbn in Hu. simplify_eq.
  destruct (VerifyUrl_read _ _ _ _ _ (wd_Req w) Hsize Hplain Hurl Hq) as (_ & red & Hred' & Hg).
  rewrite Hred' in Hred. cbn [result_bind] in Hred. rewrite Hred in Hg.
  edestruct (verify_handler_run (priv := st_privateKey st) (pub := st_publicKey st) st reg key_verify w m)
    as (w' & h & s & issued & iat & iat' & rest & Hrun & Ha & Hloc & Hck & Hrest & Hread & Hser);
    [done|done|done|done|done|exact Hg| |].
  { rewrite <-Hkey. apply key_verify_ok; [apply challenge_key_length|apply DecodeString_EncodeToString]. }
  apply HasPrefix_spec in Hrest as [rest' ->].
  exists w', h, s, issued, rest'. split; [done|]. split; [apply Ha|]. do 3 (split; [done|]). split.
  2:{ intros rules assets base id Hps Hreg Hh Hm0 Hu0. destruct (VerifyUrl_path _ _ _ _ _ Hurl) as [Hp Hr].
      rewrite (state_mux_verify st rules assets base id reg w) by (done || (by eexists) || by rewrite Hu0). exact Hrun. }
  intros w2 Hret. rewrite <-Hkey in Hser.
  eapply serialized_accepted; [done|done|done|done| |apply lookup_insert_eq|exact Hser|exact Hret].
  intros name x Hx. apply lookup_insert_Some in Hx as [[<- _]|[Hne Hx]].
  - by apply (Hascii _ _ (lookup_insert_eq _ _ _)).
  - apply (Hascii name x). by rewrite lookup_insert_ne.
Qed.

Definition demo_key_gate : Registration :=
  mkReg 1%Z "gate" ClassBlocking None "/c/gate" DefaultDuration None (Some key_verify) (S754_zero false)
    DefaultKeyHeaders [] (λ _ _, ret VerifyResultNone).

(** The client of [demo_visit] at the verify URL, before anything is written. *)
Definition demo_follow : World :=
  with_w (NewResponsePolicyWriter demo_writer)
    (with_req (followed demo_key_gate (key_issue (challenge_key demo_server demo_key_gate (demo_visit "p=1")))
       (demo_visit "p=1")) (demo_visit "p=1")).

Definition demo_redirect : string :=
  "/page?__goaway_challenge=gate&__goaway_id=30313233343536373839616263646566&p=1".

Lemma demo_follows : follows demo_server demo_key_gate (demo_visit "p=1") demo_follow
  (rq_URL (wd_Req demo_follow)) demo_redirect ∅.
Proof.
  split; try (vm_compute; reflexivity).
  - intros K _ k [xs Hxs] Hk.
    assert ((ParseRawQuery (RawQuery (rq_URL (wd_Req (demo_visit "p=1"))))).1 = {["p" := ["1"]]})
      as Hm by (vm_compute; reflexivity).
    rewrite Hm in Hxs. apply lookup_singleton_Some in Hxs as [<- _]. vm_compute in Hk. congruence.
  - intros name x [[<- _]|[_ Hx]]%lookup_insert_Some; [reflexivity|by rewrite lookup_empty in Hx].
  - repeat split.
Qed.

(** The client asks for the page again, with the cookie. *)
Lemma handshake_witness :
  ∃ h s w3,
    hdr_Values h "Location" = [demo_redirect] ∧
    EvaluateChallenges demo_server [demo_key_gate]
      (with_req (set_rq_Cookies [mkCookie "cookie" s] (wd_Req (demo_visit "p=1"))) (demo_visit "p=1")) =
      Ret () w3 ∧ HasValidChallenge (wd_Data w3) 1%Z = true.
Proof.
  destruct (handshake (priv := "key") (pub := "key") demo_server [demo_key_gate] demo_key_gate
    (demo_visit "p=1") demo_follow (rq_URL (wd_Req demo_follow)) demo_redirect ∅)
    as (w' & h & s & issued & rest & _ & _ & Hloc & _ & [n Hn] & Hret & _).
  - reflexivity.
  - reflexivity.
  - by apply NoDup_singleton.
  - by apply NoDup_singleton.
  - by left.
  - exact demo_follows.
  - destruct (Hret (with_req (set_rq_Cookies [mkCookie "cookie" s] (wd_Req (demo_visit "p=1"))) (demo_visit "p=1")))
      as (w3 & Hw3 & Hv); [|exists h, s, w3; repeat split; [|exact Hw3|exact Hv]].
    + cbn in Hn. subst issued. split.
      * exists [], []. split; [reflexivity|constructor].
      * vm_compute. reflexivity.
      * vm_compute. reflexivity.
      * vm_compute. reflexivity.
      * intros t [k <-]. cbn. repeat split; vm_compute; discriminate.
      * intros v [= <-]. apply key_verify_ok; [apply challenge_key_length|apply DecodeString_EncodeToString].
    + rewrite Hloc. vm_compute. reflexivity.
Defined.
